(* ===== verification/_CoqProject ===== *)
-Q . S2P
Prelude.v
Spinlock.v
MemoryBlock.v
Paging.v
Kmalloc.v
Strings.v
Vector.v
TaskQueue.v
Scheduler.v
Sync.v
Smp.v
Completions.v
Messages.v
Vfs.v
Initramfs.v
Handles.v
Display.v
Console.v
Printf.v
Mbi.v
Acpi.v
Apic.v
Hpet.v
Irq.v
Processors.v
Shootdown.v
Pcie.v
Layout.v
DeviceTree.v
Boot.v
Kstart.v
