(* ===== verification/Prelude.v ===== *)
(** * Mykonos: a verification library for the kernel

    Mykonos is a kernel for x86-64 in C++ ([src/kernel]). This library models
    the kernel's own code, file by file, and proves what its parts promise to
    each other. Definitions keep the names of the source; each file's opening
    comment names the sources it models.

    ** The parts and how they interact

    The boot loader's information is parsed into the map of free physical
    memory ([Mbi], on [MemoryBlock]); the page tables ([Paging]) and the heap
    of the kernel ([Kmalloc]) give out that memory; arrays and queues live on
    the heap ([Vector], [TaskQueue]); the scheduler switches tasks ([Scheduler];
    on several processors [Smp]) and the blocking primitives put tasks to sleep and wake them ([Sync],
    [Completions], [Messages]). All of them are protected by [Spinlock]. The console ([Console]) prints on the
    frame buffer ([Display]); files are reached through handles ([Vfs]) on file
    systems, of which the RAM disk is one ([Initramfs]); [Handles] counts them. [Acpi] reads the
    firmware's tables, which give the interrupt controllers ([Apic]), the timers
    ([Hpet]) and the configuration space of devices ([Pcie]); [Irq] dispatches
    interrupts, [Processors] runs code on other CPUs, [DeviceTree] loads
    drivers, each in a thread. [Kstart] and [Boot] put the start of the machine
    together: [Kstart.kstart_memory] takes the boot information to the state
    that the theorems of [Paging] and [Kmalloc] start from, and
    [Messages.kstartThreads_ready] takes the first tasks to the state that the
    theorems of [Scheduler] and [Sync] about one processor start from.

    ** The files

    - [Prelude]: words, outcomes, step relations, tactics.
    - [Spinlock]: [spinlock.h], [cpu.h]. One CPU's view ([acquire], [release])
      and the interleaving of all memory accesses of any number of CPUs: mutual
      exclusion, and each CPU's interrupt flag is restored.
    - [MemoryBlock]: [memoryBlock.cpp]. Allocate, return, add and reserve on
      the array of 256 ranges; no address is ever free twice or given out
      twice, over any history of operations.
    - [Paging]: [pageTables.h], [paging.cpp], [pageTableInit.cpp],
      [physicalMemory.cpp]. Four levels of tables in memory reached through the
      recursive window; the invariant of the tree, and that mapping and
      unmapping change one translation.
    - [Kmalloc]: [kmalloc.cpp], [virtualMemory.cpp], [stacks.h]. Allocation,
      mapping of device memory, unmapping with the invalidation on all CPUs,
      [kmalloc] and [kfree].
    - [Strings]: [copying.cpp], [string.cpp], [string.h], [iterator.h].
    - [Vector]: [vector.h] on an explicit heap of arrays; every sequence of
      operations is that of a list.
    - [TaskQueue]: [controlBlock.h], [taskQueue.h]; intrusive queues refine
      lists.
    - [Scheduler]: [scheduler.cpp], [threadCreator.cpp]; [yield] implements an
      abstract scheduler, runs tasks round robin, and slices are exact.
    - [Sync]: [mutex.cpp], [completion.cpp], [queue.h], [cleaner.cpp],
      [threadDestroyer.cpp]; safety of the mutex over all interleavings on one
      processor, and where signalling and queues go wrong.
    - [Smp]: [yield] of [scheduler.cpp] on all processors, one access at a
      time: no task runs twice and none is lost, as long as tasks are woken
      after they have left their processor; and what goes wrong otherwise.
    - [Completions]: [completion.cpp] between tasks of equal priority, over all
      interleavings on one processor.
    - [Messages]: the queue of [queue.h] with any number of producers and one
      consumer and the threads that end ([threadDestroyer.cpp],
      [cleaner.cpp]), as step relations over the operations of [Sync]; the
      first tasks of [startup.cpp].
    - [Vfs], [Initramfs]: [fs.h], [fsProvider.h], [vfs.cpp], [initramfs.cpp]. A
      file system is an instance of the class [FsProvider]; the errors of
      handles, the parsing of the archive, reading.
    - [Handles]: histories of file handles over the operations of [Vfs], from
      the unmounted root on. File systems enter through the class [FsEdits],
      which [Initramfs] has: what they may do to nodes. Since [Initramfs] lists a
      directory again each time ([Handles.handle_dangles]), the children of a
      directory move; locations follow the nodes.
    - [Display], [Console]: [frameBuffer.cpp], [psfRenderer.cpp],
      [stringWriter.cpp], [console.cpp], [printf.cpp], [kpanic.cpp]. The class
      [TextDisplay] with its laws stands between the two; the console refines a
      text terminal.
    - [Printf]: what a format and its arguments stand for, and that [printf]
      of [Console] prints it.
    - [Mbi]: [mbi.cpp]. The memory map after parsing keeps clear of the
      kernel, the RAM disk and low memory.
    - [Acpi]: [tables.cpp], [rsdt.cpp], [madt.cpp], [hpet.cpp], [mcfg.cpp].
      Loading the tree of tables, the mappings it leaves, and when parsing ends.
    - [Apic]: [apic.h], [apic.cpp], [mmio.h], [pic.cpp]. The class [Mmio] is
      the world of devices; [IoApicLaws] is what an I/O APIC does. Interrupts
      are routed to exactly the entry asked for.
    - [Hpet]: [hpet.h], [hpet.cpp], [apicTimer.cpp]. [HpetLaws] is a counter
      that runs; waits end, and when they cannot.
    - [Irq]: [idt.h], [interrupts.cpp], [interruptHandlers.cpp],
      [exceptionHandlers.cpp]. The gates, and that handlers run in the order of
      registration.
    - [Processors]: [processors.cpp], [smp.cpp]. Mailboxes as a step relation;
      every call runs once before it returns, and two that cross never return.
    - [Shootdown]: [memory::unmapMemory] interleaved with the other CPUs, on the
      calls of [Processors]: no CPU keeps a translation, although the frames
      are given back too early; with no other caller it ends on every schedule.
    - [Pcie]: [pcie.h], [pcieBars.cpp], [pcieTree.cpp], XHCI. [PcieConfig] and
      [BarLaws] are what functions and their address registers do. The scan of a
      segment that begins at bus 0 finds exactly the functions with a driver;
      mapping a region restores its register.
    - [Layout]: the structures shared with the boot loader, the firmware,
      devices and the assembly code, placed by the rules of the System V ABI;
      the numeric offsets of [Mbi], [Acpi] and [Pcie] are those of the members.
    - [DeviceTree]: [tree.h], [tree.cpp], [acpiTree.cpp]. The linked tree and
      the threads that load it; loading completes bottom up, without deadlock.
    - [Boot]: [startup.cpp]. The start from the check of CPU features
      ([cpuidCheck.cpp]) on, the trampoline in low memory, the stacks of the
      other CPUs, the barriers of [kRun] and the reading of its test file.
    - [Kstart]: the first half of [kstart] in [startup.cpp], on [Mbi],
      [MemoryBlock], [Paging] and [Kmalloc].

    ** State, effects and integers

    State is passed explicitly: records for structs, [gmap]s from addresses for
    objects reached by pointers, functions from addresses for byte memory, lists
    for arrays. Fallible code returns [outcome]: [Panic] is [kpanic], [Fault]
    a null, dangling or out-of-range access, [Hang] a loop that does not end.
    Concurrency is a step relation with one step for each access to shared
    state, reached states by [star], invariants by [star_invariant]. Machine
    integers are [Z] with [wrap] where the code can wrap. Devices are a type
    of worlds with accesses ([Mmio]); what the code relies on is a class of
    laws, and an instance shows that each class can hold.

    ** Fuel

    Loops whose number of turns depends on data take fuel, and running out is
    [Hang]. Theorems give the fuel that is enough: the number of entries of a
    table ([Acpi.madt_parsed]), of tags ([Mbi.parseMbi_safe]), of headers of
    an archive ([Initramfs.archive_parsed]), the number of reads of a clock
    ([Hpet.wait_terminates]); array loops use the length of the array.

    ** Not modelled

    The assembly files (entry, trampoline, context switch, entry of
    interrupts), the instructions behind [cpu.h], [mmio.h] and [ioPorts.h], the
    tests and the build files. The memory read by
    [Acpi] is reached at its physical address, with the mappings as a list
    that [memory::mapAddress] and [memory::unmapMemory] change; these two are
    modelled in full in [Kmalloc]. In [Processors] a callback is its call; in
    [DeviceTree] a completion is one step, in full it is in [Sync]. The start of
    a CPU is assumed to add one to the counter of CPUs where [Boot] says so.

    The states of [Smp] do not hold the stacks on which [registers.S] runs
    ([Smp.stack_in_use] shows where that matters).

    ** Plan

    What is left: the blocking calls between tasks of different priority, where
    [signalComplete] can yield with its lock held ([Sync.blocking_hazards]); and
    on several processors, where the code wakes tasks that have not left their
    processor ([Smp.early_wake]), so that safety needs a change of the code. *)

From Stdlib Require Import ZArith Lia String.
From stdpp Require Import base tactics numbers list list_numbers.

Open Scope Z_scope.

(** ** Machine words *)

(** Unsigned wrap-around at [n] bits: the value an [n]-bit unsigned C++
    integer holds after storing the mathematical result [x]. *)
Definition wrap (n x : Z) : Z := x mod 2 ^ n.

Abbreviation u8 := (wrap 8).
Abbreviation u16 := (wrap 16).
Abbreviation u32 := (wrap 32).
Abbreviation u64 := (wrap 64).

(** ** Outcomes of kernel code

    [Ok] is a normal return; [Panic] is [kpanic]; [Fault] is a CPU
    exception (null or unmapped access); [Hang] is a loop that never ends
    (spinning on a lock nobody will release, [hlt] for ever) or an
    exhausted bound. *)
Inductive outcome (A : Type) : Type :=
| Ok (a : A)
| Panic (msg : string)
| Fault
| Hang.
Arguments Ok {A} a.
Arguments Panic {A} msg.
Arguments Fault {A}.
Arguments Hang {A}.

Definition obind {A B} (x : outcome A) (f : A -> outcome B) : outcome B :=
  match x with
  | Ok a => f a
  | Panic m => Panic m
  | Fault => Fault
  | Hang => Hang
  end.

Declare Scope kernel_scope.
Delimit Scope kernel_scope with kernel.
Open Scope kernel_scope.

Notation "'let!' x := e1 'in' e2" :=
  (obind e1 (fun x => e2))
    (at level 10, x name, e1 at level 200, e2 at level 200) : kernel_scope.
Notation "'let!' ' p := e1 'in' e2" :=
  (obind e1 (fun x => match x with p => e2 end))
    (at level 10, p pattern, e1 at level 200, e2 at level 200) : kernel_scope.

Definition is_ok {A} (x : outcome A) : bool :=
  match x with Ok _ => true | _ => false end.

(** An option whose absence is a CPU fault. *)
Definition of_option {A} (o : option A) : outcome A :=
  match o with Some a => Ok a | None => Fault end.

(** ** Step relations *)

(** Reflexive transitive closure, used by every state machine below. *)
Inductive star {A} (R : A -> A -> Prop) : A -> A -> Prop :=
| star_refl a : star R a a
| star_step a b c : R a b -> star R b c -> star R a c.

(** ** Automation *)

Create HintDb kernel.

(** Case analysis on the comparisons of the goal. *)
Ltac zcase :=
  repeat match goal with
  | |- context [Z.ltb ?a ?b] => destruct (Z.ltb_spec a b)
  | |- context [Z.leb ?a ?b] => destruct (Z.leb_spec a b)
  | |- context [Z.eqb ?a ?b] => destruct (Z.eqb_spec a b)
  end.

(** The same in the hypotheses. *)
Ltac zcase_in H :=
  repeat match type of H with
  | context [Z.ltb ?a ?b] => destruct (Z.ltb_spec a b)
  | context [Z.leb ?a ?b] => destruct (Z.leb_spec a b)
  | context [Z.eqb ?a ?b] => destruct (Z.eqb_spec a b)
  end.

(** Take a computation that returned [Ok] apart, one bind at a time. *)
Ltac inv_ok :=
  repeat match goal with
  | H : Ok _ = Ok _ |- _ => injection H as H; subst
  | H : Panic _ = Ok _ |- _ => discriminate H
  | H : Fault = Ok _ |- _ => discriminate H
  | H : Hang = Ok _ |- _ => discriminate H
  | H : obind ?x _ = Ok _ |- _ =>
      let E := fresh "E" in
      destruct x eqn:E; cbn [obind] in H; try discriminate H
  | p : (_ * _)%type |- _ => destruct p
  end.

(** Linear arithmetic with division and remainder by constants. *)
Ltac dlia := Z.to_euclidean_division_equations; lia.

(** ** Lemmas on words *)

Lemma wrap_small n x : 0 <= x < 2 ^ n -> wrap n x = x.
Proof. intros H. unfold wrap. now apply Z.mod_small. Qed.

Lemma wrap_range n x : 0 <= n -> 0 <= wrap n x < 2 ^ n.
Proof. intros H. unfold wrap. apply Z.mod_pos_bound. lia. Qed.

Lemma wrap_wrap n x : 0 <= n -> wrap n (wrap n x) = wrap n x.
Proof. intros H. apply wrap_small, wrap_range, H. Qed.

Lemma u64_range x : 0 <= u64 x < 18446744073709551616.
Proof. apply (wrap_range 64 x). lia. Qed.

Lemma u64_small x : 0 <= x < 18446744073709551616 -> u64 x = x.
Proof. apply (wrap_small 64 x). Qed.

Lemma wrap_add_l n a b : wrap n (wrap n a + b) = wrap n (a + b).
Proof. unfold wrap. apply Zplus_mod_idemp_l. Qed.

Lemma u32_range x : 0 <= u32 x < 4294967296.
Proof. apply (wrap_range 32 x). lia. Qed.

Lemma u32_small x : 0 <= x < 4294967296 -> u32 x = x.
Proof. apply (wrap_small 32 x). Qed.

(** Remove the wrap-arounds that lose nothing, innermost first. *)
Ltac unwrap :=
  repeat match goal with
  | |- context [wrap 64 ?x] =>
      lazymatch x with context [wrap 64 _] => fail | _ => rewrite (u64_small x) by lia end
  | |- context [wrap 32 ?x] =>
      lazymatch x with context [wrap 32 _] => fail | _ => rewrite (u32_small x) by lia end
  end.

#[export] Hint Resolve wrap_range u64_range u32_range : kernel.

(** A decidable fact about the small numbers, by trying them all. *)
Lemma forall_below (P : Z -> bool) n : forallb P (seqZ 0 n) = true -> forall v, 0 <= v < n -> P v = true.
Proof. rewrite forallb_forall. intros H v Hv. apply H, list_elem_of_In, elem_of_seqZ. lia. Qed.

(** ** Lemmas on outcomes and steps *)

(** What a run shows of its result, without its result. *)
Definition observe {A B} (x : outcome A) (f : A -> B) : option B := match x with Ok a => Some (f a) | _ => None end.

Lemma outcome_observed {A B} (x : outcome A) (f : A -> B) b : observe x f = Some b -> exists a, x = Ok a /\ f a = b.
Proof. destruct x as [a| | |]; cbn; intros H; try discriminate H. injection H as H. now exists a. Qed.

Lemma obind_ok {A B} (x : outcome A) (f : A -> outcome B) b :
  obind x f = Ok b <-> exists a, x = Ok a /\ f a = Ok b.
Proof. split; [destruct x; intros H; try discriminate H; eauto | by intros (a & -> & H)]. Qed.

Lemma obind_assoc {A B C} (x : outcome A) (f : A -> outcome B) (g : B -> outcome C) :
  obind (obind x f) g = obind x (fun a => obind (f a) g).
Proof. now destruct x. Qed.

Lemma star_one {A} (R : A -> A -> Prop) a b : R a b -> star R a b.
Proof. intros H. eapply star_step; [exact H | apply star_refl]. Qed.

Lemma star_trans {A} (R : A -> A -> Prop) a b c : star R a b -> star R b c -> star R a c.
Proof. induction 1 as [|x y z Hxy _ IH]; intros Hc; [done|]. eapply star_step; eauto. Qed.

(** Rule induction in the form every invariant proof uses. *)
Lemma star_invariant {A} (R : A -> A -> Prop) (I : A -> Prop) :
  (forall a b, I a -> R a b -> I b) -> forall a b, star R a b -> I a -> I b.
Proof. intros Hstep a b. induction 1; eauto. Qed.

#[export] Hint Resolve star_refl star_one : kernel.
