(* ===== verification/Spinlock.v ===== *)
(** * Spinlocks and the interrupt flag ([spinlock.h], [cpu.h])

    The sequential view used by every component (one CPU runs an operation to
    completion) and the concurrent view: any number of CPUs interleaving the
    individual memory accesses of [acquire] and [release]. *)

From Stdlib Require Import ZArith Lia.
From stdpp Require Import base tactics numbers list.
From S2P Require Import Prelude.

Open Scope Z_scope.

(** ** CPU flags (cpu.h) *)

(** The part of a CPU the kernel reads back: its flags register and its
    number (the TSC auxiliary value). *)
Record Cpu := mkCpu { rflags : Z; cpuNumber : Z }.

Definition getFlags (c : Cpu) : Z := rflags c.
Definition setFlags (c : Cpu) (flags : Z) : Cpu := mkCpu flags (cpuNumber c).
Definition getCpuNumber (c : Cpu) : Z := cpuNumber c.
Definition setCpuNumber (c : Cpu) (n : Z) : Cpu := mkCpu (rflags c) n.

(** [localIrqState]: bit 9 of the flags. *)
Definition localIrqState (c : Cpu) : bool :=
  negb (Z.land (getFlags c) (Z.shiftl 1 9) =? 0).

(** [sti] and [cli]: the processor's effect on bit 9. *)
Definition enableLocalIrqs (c : Cpu) : Cpu := setFlags c (Z.setbit (rflags c) 9).
Definition disableLocalIrqs (c : Cpu) : Cpu := setFlags c (Z.clearbit (rflags c) 9).

(** ** Model-specific registers (cpu.h)

    [rdmsr] and [wrmsr] move a register as two halves, in EAX and EDX.
    [rdtscp] gives the low half of the register that [setCpuNumber] writes. *)
Definition Msrs : Type := Z -> Z * Z.

Definition wrmsr (r : Msrs) (value address : Z) : Msrs :=
  fun a => if a =? address then (u32 value, u32 (Z.shiftr value 32)) else r a.

Definition rdmsr (r : Msrs) (address : Z) : Z :=
  let '(msrLow, msrHigh) := r address in Z.lor msrLow (Z.shiftl msrHigh 32).

Definition TSC_AUX : Z := 0xc0000103.

(** The number in [Cpu] is the one in this register. *)
Definition hasNumber (r : Msrs) (c : Cpu) : Prop := fst (r TSC_AUX) = cpuNumber c.

(** ** The lock *)

Record Spinlock := mkSpinlock { lock : Z; enableIrqs : bool }.

Definition Spinlock_init : Spinlock := mkSpinlock 0 false.

Definition locked (l : Spinlock) : bool := negb (lock l =? 0).

(** [acquire] run by one CPU while no other CPU runs: on a held lock the
    inner loop never ends. *)
Definition acquire (c : Cpu) (l : Spinlock) : outcome (Cpu * Spinlock) :=
  let oldIrqState := localIrqState c in
  let c := disableLocalIrqs c in
  if locked l then Hang
  else Ok (c, mkSpinlock 1 oldIrqState).

Definition release (c : Cpu) (l : Spinlock) : Cpu * Spinlock :=
  let shouldReenableIrqs := enableIrqs l in
  let l := mkSpinlock 0 (enableIrqs l) in
  (if shouldReenableIrqs then enableLocalIrqs c else c, l).

(** The move constructor: the new lock, and the source left locked. *)
Definition Spinlock_move (other : Spinlock) : Spinlock * Spinlock :=
  (mkSpinlock (lock other) (enableIrqs other), mkSpinlock 1 false).

(** A 64-bit value read back from a register is the one written, and other
    registers keep theirs. *)
Lemma rdmsr_wrmsr r v a b : 0 <= v < 2 ^ 64 -> rdmsr (wrmsr r v a) b = if b =? a then v else rdmsr r b.
Proof.
  intros Hv. unfold rdmsr, wrmsr. destruct (b =? a); [|done]. unfold wrap. apply Z.bits_inj'. intros i Hi.
  rewrite Z.lor_spec, Z.shiftl_spec by done. destruct (Z.ltb_spec i 32) as [Hlt|Hge].
  - by rewrite Z.mod_pow2_bits_low, (Z.testbit_neg_r _ (i - 32)), orb_false_r by lia.
  - rewrite Z.mod_pow2_bits_high by lia. cbn [orb]. destruct (Z.ltb_spec i 64) as [H64|H64].
    + rewrite Z.mod_pow2_bits_low, Z.shiftr_spec by lia. f_equal. lia.
    + rewrite Z.mod_pow2_bits_high by lia. symmetry. rewrite <- (Z.mod_small v (2 ^ 64)) by done. by apply Z.mod_pow2_bits_high.
Qed.

(** [setCpuNumber] through the register is that of [Cpu]. *)
Lemma setCpuNumber_msr r c n : 0 <= n < 2 ^ 32 -> hasNumber (wrmsr r n TSC_AUX) (setCpuNumber c n).
Proof. intros Hn. unfold hasNumber, wrmsr. cbn. by apply wrap_small. Qed.

(** ** The concurrent protocol

    One program counter per CPU; every constructor is the point before one
    memory access (or CPU instruction) of [acquire]/[release]. *)
Inductive Pc :=
| Outside                  (* not in acquire or release, lock not held *)
| Disable (old : bool)     (* before cli *)
| Spin (old : bool)        (* before the load of locked() *)
| Cas (old : bool)         (* before the compare-and-swap *)
| Save (old : bool)        (* before enableIrqs = oldIrqState *)
| Critical (old : bool)    (* holds the lock (old is ghost) *)
| Store (old should : bool) (* in release, before the store of 0 *)
| Sti (old should : bool). (* after the store, before the optional sti *)

Record Sys := mkSys { sys_lock : Spinlock; sys_pc : list Pc; sys_cpu : list Cpu }.

Inductive sys_step : Sys -> Sys -> Prop :=
| step_begin l pcs cs i c :
    pcs !! i = Some Outside -> cs !! i = Some c ->
    sys_step (mkSys l pcs cs) (mkSys l (<[i := Disable (localIrqState c)]> pcs) cs)
| step_cli l pcs cs i old c :
    pcs !! i = Some (Disable old) -> cs !! i = Some c ->
    sys_step (mkSys l pcs cs)
      (mkSys l (<[i := Spin old]> pcs) (<[i := disableLocalIrqs c]> cs))
| step_spin l pcs cs i old :
    pcs !! i = Some (Spin old) ->
    sys_step (mkSys l pcs cs)
      (mkSys l (<[i := if locked l then Spin old else Cas old]> pcs) cs)
| step_cas l pcs cs i old :
    pcs !! i = Some (Cas old) ->
    sys_step (mkSys l pcs cs)
      (if lock l =? 0
       then mkSys (mkSpinlock 1 (enableIrqs l)) (<[i := Save old]> pcs) cs
       else mkSys l (<[i := Spin old]> pcs) cs)
| step_save l pcs cs i old :
    pcs !! i = Some (Save old) ->
    sys_step (mkSys l pcs cs) (mkSys (mkSpinlock (lock l) old) (<[i := Critical old]> pcs) cs)
| step_release l pcs cs i old :
    pcs !! i = Some (Critical old) ->
    sys_step (mkSys l pcs cs) (mkSys l (<[i := Store old (enableIrqs l)]> pcs) cs)
| step_store l pcs cs i old should :
    pcs !! i = Some (Store old should) ->
    sys_step (mkSys l pcs cs) (mkSys (mkSpinlock 0 (enableIrqs l)) (<[i := Sti old should]> pcs) cs)
| step_sti l pcs cs i old should c :
    pcs !! i = Some (Sti old should) -> cs !! i = Some c ->
    sys_step (mkSys l pcs cs)
      (mkSys l (<[i := Outside]> pcs) (<[i := if should then enableLocalIrqs c else c]> cs)).

(** The points at which a CPU owns the lock. *)
Definition holds (p : Pc) : bool :=
  match p with Save _ | Critical _ | Store _ _ => true | _ => false end.

(** The interrupt state a CPU entered [acquire] with, while it is inside. *)
Definition entered_with (p : Pc) : option bool :=
  match p with
  | Outside => None
  | Disable o | Spin o | Cas o | Save o | Critical o | Store o _ | Sti o _ => Some o
  end.

Definition initial (cs : list Cpu) : Sys :=
  mkSys Spinlock_init (replicate (length cs) Outside) cs.

(** ** Flags *)

Lemma localIrqState_testbit c : localIrqState c = Z.testbit (rflags c) 9.
Proof.
  unfold localIrqState, getFlags.
  destruct (Z.testbit (rflags c) 9) eqn:E.
  - apply negb_true_iff, Z.eqb_neq. intros H.
    apply (f_equal (fun z => Z.testbit z 9)) in H.
    rewrite Z.land_spec, E in H. vm_compute in H. discriminate.
  - apply negb_false_iff, Z.eqb_eq, Z.bits_inj'. intros n Hn.
    rewrite Z.land_spec, Z.bits_0. change (Z.shiftl 1 9) with (2 ^ 9).
    rewrite Z.pow2_bits_eqb by lia.
    destruct (Z.eqb_spec 9 n) as [<-|]; [now rewrite E | apply andb_false_r].
Qed.

Lemma localIrqState_enable c : localIrqState (enableLocalIrqs c) = true.
Proof. rewrite localIrqState_testbit. unfold enableLocalIrqs, setFlags, rflags. apply Z.setbit_eq. lia. Qed.

Lemma localIrqState_disable c : localIrqState (disableLocalIrqs c) = false.
Proof. rewrite localIrqState_testbit. unfold disableLocalIrqs, setFlags, rflags. apply Z.clearbit_eq. Qed.

Lemma enable_disable c :
  localIrqState c = true -> enableLocalIrqs (disableLocalIrqs c) = c.
Proof.
  rewrite localIrqState_testbit. destruct c as [f n]; intros Hb; cbn in Hb.
  unfold enableLocalIrqs, disableLocalIrqs, setFlags; cbn. f_equal.
  apply Z.bits_inj'. intros k Hk. rewrite Z.setbit_eqb, Z.clearbit_eqb by lia.
  destruct (Z.eqb_spec 9 k) as [<-|]; simpl; [done | now rewrite andb_true_r].
Qed.

Lemma disable_id c : localIrqState c = false -> disableLocalIrqs c = c.
Proof.
  rewrite localIrqState_testbit. destruct c as [f n]; intros Hb; cbn in Hb.
  unfold disableLocalIrqs, setFlags; cbn. f_equal.
  apply Z.bits_inj'. intros k Hk. rewrite Z.clearbit_eqb by lia.
  destruct (Z.eqb_spec 9 k) as [<-|]; simpl; [now rewrite Hb | now rewrite andb_true_r].
Qed.

(** ** The sequential view: a critical section leaves the CPU as it was *)

Lemma acquire_free c l :
  locked l = false ->
  acquire c l = Ok (disableLocalIrqs c, mkSpinlock 1 (localIrqState c)).
Proof. intros H. unfold acquire. now rewrite H. Qed.

Lemma release_acquire c b :
  b = localIrqState c ->
  release (disableLocalIrqs c) (mkSpinlock 1 b) = (c, mkSpinlock 0 b).
Proof.
  intros ->. unfold release; cbn. destruct (localIrqState c) eqn:E.
  - now rewrite enable_disable.
  - now rewrite disable_id.
Qed.

#[export] Hint Resolve localIrqState_enable localIrqState_disable : kernel.

(** ** The concurrent view *)

(** What is true of CPU [c] at program counter [p] when the lock is [l]. *)
Definition pc_ok (l : Spinlock) (p : Pc) (c : Cpu) : Prop :=
  match p with
  | Outside => True
  | Disable o => localIrqState c = o
  | Spin _ | Cas _ | Save _ => localIrqState c = false
  | Critical o => localIrqState c = false /\ enableIrqs l = o
  | Store o sh | Sti o sh => localIrqState c = false /\ sh = o
  end.

Definition excl (pcs : list Pc) : Prop :=
  forall i j p q, pcs !! i = Some p -> pcs !! j = Some q ->
    holds p = true -> holds q = true -> i = j.

Definition inv (s : Sys) : Prop :=
  excl (sys_pc s) /\
  (lock (sys_lock s) <> 0 <-> exists i p, sys_pc s !! i = Some p /\ holds p = true) /\
  (forall i p c, sys_pc s !! i = Some p -> sys_cpu s !! i = Some c -> pc_ok (sys_lock s) p c) /\
  length (sys_pc s) = length (sys_cpu s).

(** Some CPU other than [i] holds the lock. *)
Definition other_holds (pcs : list Pc) (i : nat) : Prop :=
  exists j q, j <> i /\ pcs !! j = Some q /\ holds q = true.

(** Every step replaces the counter and the registers of one CPU. *)
Lemma inv_update l l' pcs cs i p p' c c' :
  inv (mkSys l pcs cs) -> pcs !! i = Some p -> cs !! i = Some c ->
  (holds p' = true -> ~ other_holds pcs i) ->
  (lock l' <> 0 <-> holds p' = true \/ other_holds pcs i) ->
  pc_ok l' p' c' ->
  (forall j q d, j <> i -> pcs !! j = Some q -> pc_ok l q d -> pc_ok l' q d) ->
  inv (mkSys l' (<[i := p']> pcs) (<[i := c']> cs)).
Proof.
  intros (He & Hl & Hp & Hlen) Hi Hc Hex Hlk Hok Hoth; cbn in *.
  assert (i < length pcs)%nat by (by eapply lookup_lt_Some).
  split; [|split; [|split]]; cbn; [| | | by rewrite !length_insert].
  - intros a b q r. rewrite !list_lookup_insert_Some.
    intros [(<- & <- & _)|(? & ?)] [(<- & <- & _)|(? & ?)] ? ?; eauto; exfalso;
      eapply Hex; eauto; by eexists _, _; eauto.
  - rewrite Hlk. split.
    + intros [H1|(j & q & ? & ? & ?)]; [exists i, p' | exists j, q]; split; auto.
      * by apply list_lookup_insert_eq.
      * by rewrite list_lookup_insert_ne.
    + intros (j & q & Hj & Hq). apply list_lookup_insert_Some in Hj as [(<- & <- & _)|(? & ?)];
        [by left | right; exists j, q; auto].
  - intros k q d. rewrite !list_lookup_insert_Some.
    intros [(<- & <- & _)|(? & ?)] [(? & <- & _)|(? & ?)]; simplify_eq; eauto.
Qed.

Lemma inv_lock_iff l pcs cs i p :
  inv (mkSys l pcs cs) -> pcs !! i = Some p ->
  (lock l <> 0 <-> holds p = true \/ other_holds pcs i) /\
  (holds p = true -> ~ other_holds pcs i).
Proof.
  intros (He & Hl & _) Hi; cbn in *. split; [rewrite Hl; split|].
  - intros (j & q & ? & ?). destruct (decide (j = i)) as [->|]; [left; congruence|].
    right. exists j, q. auto.
  - intros [?|(j & q & ? & ? & ?)]; eauto.
  - intros Hh (j & q & Hne & ? & ?). apply Hne. by eapply He.
Qed.

(** A step that keeps the lock and whether the CPU holds it. *)
Lemma inv_local l pcs cs i p p' c c' :
  inv (mkSys l pcs cs) -> pcs !! i = Some p -> cs !! i = Some c ->
  holds p' = holds p -> pc_ok l p' c' ->
  inv (mkSys l (<[i := p']> pcs) (<[i := c']> cs)).
Proof.
  intros Hinv Hi Hc Hh Hok. destruct (inv_lock_iff _ _ _ _ _ Hinv Hi) as [? ?].
  eapply inv_update; eauto; rewrite Hh; auto.
Qed.

(** A step of the only CPU that holds the lock before or after it. *)
Lemma inv_exclusive l l' pcs cs i p p' c c' :
  inv (mkSys l pcs cs) -> pcs !! i = Some p -> cs !! i = Some c ->
  ~ other_holds pcs i -> (lock l' <> 0 <-> holds p' = true) -> pc_ok l' p' c' ->
  (forall q d, holds q = false -> pc_ok l q d -> pc_ok l' q d) ->
  inv (mkSys l' (<[i := p']> pcs) (<[i := c']> cs)).
Proof.
  intros Hinv Hi Hc Hno Hlk Hok Hoth. eapply inv_update; eauto; [rewrite Hlk; tauto|].
  intros j q d Hne Hj. apply Hoth. destruct (holds q) eqn:E; [|done].
  exfalso. apply Hno. exists j, q. auto.
Qed.

Lemma pc_ok_weaken l l' q d : holds q = false -> pc_ok l q d -> pc_ok l' q d.
Proof. by destruct q. Qed.

Lemma inv_initial cs : inv (initial cs).
Proof.
  unfold initial. split; [|split; [|split]]; cbn.
  - intros i j p q H. apply lookup_replicate in H as [-> _]. discriminate.
  - split; [done|]. intros (i & p & H & Hh). apply lookup_replicate in H as [-> _]. discriminate.
  - intros i p c H _. apply lookup_replicate in H as [-> _]. done.
  - by rewrite length_replicate.
Qed.

Lemma inv_step s s' : inv s -> sys_step s s' -> inv s'.
Proof.
  intros Hinv Hst. pose proof Hinv as (He & Hl & Hp & Hlen).
  assert (Hcpu : forall i p, sys_pc s !! i = Some p -> exists c, sys_cpu s !! i = Some c /\ pc_ok (sys_lock s) p c).
  { intros i p Hi. destruct (lookup_lt_is_Some_2 (sys_cpu s) i) as [c Hc]; [|eauto].
    rewrite <- Hlen. by eapply lookup_lt_Some. }
  destruct Hst as [l pcs cs i c Hi Hc|l pcs cs i o c Hi Hc|l pcs cs i o Hi|l pcs cs i o Hi|
    l pcs cs i o Hi|l pcs cs i o Hi|l pcs cs i o sh Hi|l pcs cs i o sh c Hi Hc]; cbn in *;
    destruct (Hcpu _ _ Hi) as (d & Hd & Hok);
    destruct (inv_lock_iff _ _ _ _ _ Hinv Hi) as [Hlk Hno]; cbn in Hlk, Hno, Hok.
  - rewrite <- (list_insert_id cs i c Hc). by eapply inv_local.
  - eapply inv_local; eauto. apply localIrqState_disable.
  - rewrite <- (list_insert_id cs i d Hd). eapply inv_local; eauto; by destruct (locked l).
  - rewrite <- (list_insert_id cs i d Hd). destruct (Z.eqb_spec (lock l) 0) as [E|E].
    + eapply inv_exclusive; eauto using pc_ok_weaken; [tauto | by cbn].
    + by eapply inv_local.
  - rewrite <- (list_insert_id cs i d Hd).
    eapply inv_exclusive; eauto using pc_ok_weaken; cbn; tauto.
  - rewrite <- (list_insert_id cs i d Hd). by eapply inv_local.
  - rewrite <- (list_insert_id cs i d Hd).
    eapply inv_exclusive; eauto using pc_ok_weaken; cbn; auto; done.
  - by eapply inv_local.
Qed.

Lemma inv_reachable cs s : star sys_step (initial cs) s -> inv s.
Proof. intros H. by apply (star_invariant _ inv inv_step _ _ H), inv_initial. Qed.

(** ** Properties *)

(** [C1] Mutual exclusion: however the CPUs interleave the memory accesses of
    [acquire] and [release], two CPUs are never both between a successful
    compare-and-swap and the store of 0, and the lock byte is non-zero exactly
    while one of them is. *)
Theorem spinlock_mutual_exclusion cs s :
  star sys_step (initial cs) s ->
  (forall i j p q, sys_pc s !! i = Some p -> sys_pc s !! j = Some q ->
     holds p = true -> holds q = true -> i = j) /\
  (locked (sys_lock s) = true <-> exists i p, sys_pc s !! i = Some p /\ holds p = true).
Proof.
  intros (He & Hl & _)%inv_reachable. split; [exact He|]. rewrite <- Hl.
  unfold locked. rewrite negb_true_iff, Z.eqb_neq. done.
Qed.

Lemma spinlock_mutual_exclusion_witness :
  star sys_step (initial [mkCpu 512 0; mkCpu 0 1])
    (mkSys (mkSpinlock 0 false) [Cas true; Outside] [mkCpu 0 0; mkCpu 0 1]) /\
  (locked (mkSpinlock 0 false) = true <->
   exists i p, [Cas true; Outside] !! i = Some p /\ holds p = true).
Proof.
  assert (H : star sys_step (initial [mkCpu 512 0; mkCpu 0 1])
    (mkSys (mkSpinlock 0 false) [Cas true; Outside] [mkCpu 0 0; mkCpu 0 1])).
  { eapply star_step; [apply (step_begin _ _ _ 0%nat (mkCpu 512 0)); reflexivity|].
    eapply star_step; [apply (step_cli _ _ _ 0%nat true (mkCpu 512 0)); reflexivity|].
    eapply star_step; [apply (step_spin _ _ _ 0%nat true); reflexivity|].
    apply star_refl. }
  split; [exact H | exact (proj2 (spinlock_mutual_exclusion _ _ H))].
Defined.

(** [C28] Interrupt state: inside [acquire]/[release] after [cli] the CPU has
    interrupts disabled, and the step that ends [release] restores exactly the
    interrupt state the same CPU had when it entered [acquire] - although the
    saved value lives in the lock, which all CPUs share. *)
Theorem spinlock_restores_irqs cs s i old should c :
  star sys_step (initial cs) s ->
  sys_pc s !! i = Some (Sti old should) -> sys_cpu s !! i = Some c ->
  localIrqState c = false /\
  localIrqState (if should then enableLocalIrqs c else c) = old.
Proof.
  intros (_ & _ & Hp & _)%inv_reachable Hi Hc. destruct (Hp _ _ _ Hi Hc) as [H ->].
  split; [done|]. destruct old; auto using localIrqState_enable.
Qed.

Lemma spinlock_restores_irqs_witness :
  exists s, star sys_step (initial [mkCpu 512 0]) s /\ sys_pc s !! 0%nat = Some (Sti true true) /\
    localIrqState (enableLocalIrqs (mkCpu 0 0)) = true.
Proof.
  set (s := mkSys (mkSpinlock 0 true) [Sti true true] [mkCpu 0 0]).
  assert (H : star sys_step (initial [mkCpu 512 0]) s).
  { eapply star_step; [apply (step_begin _ _ _ 0%nat (mkCpu 512 0)); reflexivity|].
    eapply star_step; [apply (step_cli _ _ _ 0%nat true (mkCpu 512 0)); reflexivity|].
    eapply star_step; [apply (step_spin _ _ _ 0%nat true); reflexivity|].
    eapply star_step; [apply (step_cas _ _ _ 0%nat true); reflexivity|].
    eapply star_step; [apply (step_save _ _ _ 0%nat true); reflexivity|].
    eapply star_step; [apply (step_release _ _ _ 0%nat true); reflexivity|].
    eapply star_step; [apply (step_store _ _ _ 0%nat true true); reflexivity|].
    apply star_refl. }
  exists s. split; [exact H|]. split; [reflexivity|].
  exact (proj2 (spinlock_restores_irqs _ s 0 true true (mkCpu 0 0) H eq_refl eq_refl)).
Defined.
