(* ===== verification/MemoryBlock.v ===== *)
(** * The block map ([memoryBlock.h], [memoryBlock.cpp])

    The free-memory map behind both the physical frame allocator and the
    kernel's virtual address allocator: at most 256 half-open address ranges,
    first-fit allocation, coalescing only when the array is full or before a
    reservation. *)

From Stdlib Require Import ZArith Lia.
From stdpp Require Import base tactics numbers sets list.
From S2P Require Import Prelude Spinlock.

Open Scope Z_scope.

(** ** Blocks *)

Record Block := mkBlock { start : Z; end_ : Z }.

(** The private default constructor. *)
Definition Block_null : Block := mkBlock 0 0.

Definition capacity (b : Block) : Z := u64 (end_ b - start b).

(** [Block::reserve]: the result and the shrunken block. *)
Definition Block_reserve (b : Block) (amount : Z) : Z * Block :=
  if amount <=? capacity b
  then (start b, mkBlock (u64 (start b + amount)) (end_ b))
  else (0, b).

Definition addToBeginning (b : Block) (amount : Z) : Block :=
  mkBlock (u64 (start b - amount)) (end_ b).
Definition addToEnd (b : Block) (amount : Z) : Block :=
  mkBlock (start b) (u64 (end_ b + amount)).

(** ** The map

    [blocks] holds the first [numBlocks] elements of the array: the elements
    past [numBlocks] are never read before being overwritten. *)
Definition BLOCKMAP_SIZE : nat := 256.

Record BlockMap := mkBlockMap { blocks : list Block; bm_lock : Spinlock }.

Definition BlockMap_init : BlockMap := mkBlockMap [] Spinlock_init.

Definition numBlocks (m : BlockMap) : nat := length (blocks m).

(** The lambda of [merge]: join [t] to the first block it touches, or
    append it. *)
Fixpoint mergeInto (bs : list Block) (t : Block) : list Block :=
  match bs with
  | [] => [t]
  | b :: bs =>
      if start b =? end_ t then mkBlock (start t) (end_ b) :: bs
      else if end_ b =? start t then mkBlock (start b) (end_ t) :: bs
      else b :: mergeInto bs t
  end.

Fixpoint merge_loop (acc temp : list Block) : list Block :=
  match temp with
  | [] => acc
  | t :: temp =>
      if capacity t =? 0 then merge_loop acc temp
      else merge_loop (mergeInto acc t) temp
  end.

Definition merge (bs : list Block) : list Block := merge_loop [] bs.

(** The body of [addBlock] between the optional lock calls. *)
Definition addBlock_body (bs : list Block) (b : Block) : list Block :=
  if (length bs <? BLOCKMAP_SIZE)%nat then bs ++ [b]
  else
    let bs := merge bs in
    if (length bs <? BLOCKMAP_SIZE)%nat then bs ++ [b] else bs.

(** Run [f] on the blocks with the lock held. *)
Definition with_lock {A} (c : Cpu) (m : BlockMap) (f : list Block -> outcome (A * list Block))
  : outcome (A * (Cpu * BlockMap)) :=
  let! '(c, l) := acquire c (bm_lock m) in
  let! '(r, bs) := f (blocks m) in
  let '(c, l) := release c l in
  Ok (r, (c, mkBlockMap bs l)).

Definition addBlock (c : Cpu) (m : BlockMap) (b : Block) (acquireLock : bool)
  : outcome (Cpu * BlockMap) :=
  if 0 <? capacity b then
    if acquireLock then
      let! '(_, s) := with_lock c m (fun bs => Ok (tt, addBlock_body bs b)) in Ok s
    else Ok (c, mkBlockMap (addBlock_body (blocks m) b) (bm_lock m))
  else Ok (c, m).

(** The first-fit loop of [allocate]. *)
Fixpoint allocate_loop (bs : list Block) (amount : Z) : Z * list Block :=
  match bs with
  | [] => (0, [])
  | b :: bs =>
      if amount <=? capacity b then
        let '(r, b') := Block_reserve b amount in (r, b' :: bs)
      else let '(r, bs') := allocate_loop bs amount in (r, b :: bs')
  end.

Definition allocate (c : Cpu) (m : BlockMap) (amount : Z) : outcome (Z * (Cpu * BlockMap)) :=
  with_lock c m (fun bs => Ok (allocate_loop bs amount)).

Definition returnMemory (c : Cpu) (m : BlockMap) (ptr amount : Z) : outcome (Cpu * BlockMap) :=
  addBlock c m (mkBlock ptr (u64 (ptr + amount))) true.

(** The body of the loop of [reserve] on block [i]. [addBlock] is called
    with [acquireLock = false] because [reserve] holds the lock. *)
Definition addBlock_unlocked (bs : list Block) (b : Block) : list Block :=
  if 0 <? capacity b then addBlock_body bs b else bs.

Definition reserve_step (rm : Block) (bs : list Block) (i : nat) (cur : Block) : list Block :=
  if end_ rm <=? start cur then bs
  else if end_ cur <=? start rm then bs
  else if (start rm <=? start cur) && (end_ cur <=? end_ rm) then <[i := Block_null]> bs
  else if start rm <=? start cur then <[i := mkBlock (end_ rm) (end_ cur)]> bs
  else if end_ cur <=? end_ rm then <[i := mkBlock (start cur) (start rm)]> bs
  else
    let bs := <[i := Block_null]> bs in
    let bs := addBlock_unlocked bs (mkBlock (start cur) (start rm)) in
    addBlock_unlocked bs (mkBlock (end_ rm) (end_ cur)).

(** [for (i = 0; i < numBlocks; i++)]: [numBlocks] may change in the body. *)
Fixpoint reserve_loop (fuel : nat) (rm : Block) (bs : list Block) (i : nat)
  : outcome (list Block) :=
  match bs !! i with
  | None => Ok bs
  | Some cur =>
      match fuel with
      | O => Hang
      | S fuel => reserve_loop fuel rm (reserve_step rm bs i cur) (S i)
      end
  end.

Definition reserve (c : Cpu) (m : BlockMap) (rm : Block) : outcome (Cpu * BlockMap) :=
  let! '(_, s) := with_lock c m (fun bs =>
    let! bs := reserve_loop BLOCKMAP_SIZE rm (merge bs) 0 in Ok (tt, bs)) in Ok s.

Definition clear (c : Cpu) (m : BlockMap) : outcome (Cpu * BlockMap) :=
  let! '(_, s) := with_lock c m (fun _ => Ok (tt, [])) in Ok s.

(** ** Specification: how often an address is free *)

Definition covers (b : Block) (a : Z) : bool := (start b <=? a) && (a <? end_ b).

Definition cov (b : Block) (a : Z) : Z := if covers b a then 1 else 0.

Fixpoint freeCount (bs : list Block) (a : Z) : Z :=
  match bs with
  | [] => 0
  | b :: bs => cov b a + freeCount bs a
  end.

(** A block the allocator can hold: an increasing range of 64-bit
    addresses. *)
Definition wfBlock (b : Block) : Prop := 0 <= start b <= end_ b /\ end_ b < 2 ^ 64.

Definition wfMap (bs : list Block) : Prop := Forall wfBlock bs /\ (length bs <= BLOCKMAP_SIZE)%nat.

(** No address is free twice. *)
Definition disjointMap (bs : list Block) : Prop := forall a, freeCount bs a <= 1.

(** ** Blocks and counts *)

Lemma capacity_wf b : wfBlock b -> capacity b = end_ b - start b.
Proof. intros [H1 H2]. apply u64_small. change (2 ^ 64) with 18446744073709551616 in H2. lia. Qed.

Lemma cov_range b a : 0 <= cov b a <= 1.
Proof. unfold cov. destruct (covers b a); lia. Qed.

Lemma cov_1 b a : cov b a = 1 <-> start b <= a < end_ b.
Proof. unfold cov, covers. zcase; simpl; lia. Qed.

Lemma cov_0 b a : cov b a = 0 <-> ~ start b <= a < end_ b.
Proof. unfold cov, covers. zcase; simpl; lia. Qed.

Lemma freeCount_app bs1 bs2 a : freeCount (bs1 ++ bs2) a = freeCount bs1 a + freeCount bs2 a.
Proof. induction bs1; cbn; lia. Qed.

Lemma freeCount_nonneg bs a : 0 <= freeCount bs a.
Proof. induction bs as [|b bs IH]; cbn; [lia|]. pose proof (cov_range b a). lia. Qed.

Lemma freeCount_insert bs i b b' a :
  bs !! i = Some b -> freeCount (<[i := b']> bs) a = freeCount bs a - cov b a + cov b' a.
Proof.
  revert i. induction bs as [|x bs IH]; intros [|i] H; simplify_eq/=; [lia|].
  rewrite (IH i) by done. lia.
Qed.

Lemma freeCount_lookup bs i b a : bs !! i = Some b -> cov b a <= freeCount bs a.
Proof.
  intros H. pose proof (freeCount_insert bs i b Block_null a H).
  pose proof (freeCount_nonneg (<[i := Block_null]> bs) a).
  pose proof (cov_range Block_null a). destruct (Z.eq_dec (cov Block_null a) 0); [lia|].
  assert (cov Block_null a = 1) as (?&?)%cov_1 by lia. cbn in *. lia.
Qed.

Lemma cov_null a : cov Block_null a = 0.
Proof. apply cov_0. cbn. lia. Qed.

Lemma wf_null : wfBlock Block_null.
Proof. unfold wfBlock; cbn; lia. Qed.

#[export] Hint Resolve wf_null : kernel.

(** Decide every [cov] of the goal by arithmetic. *)
Ltac cov_solve :=
  unfold cov, covers in *; cbn [start end_ Block_null] in *; zcase; simpl in *; lia.

(** ** merge *)

Lemma mergeInto_spec acc t :
  Forall wfBlock acc -> wfBlock t ->
  Forall wfBlock (mergeInto acc t) /\
  (length (mergeInto acc t) <= S (length acc))%nat /\
  forall a, freeCount (mergeInto acc t) a = freeCount acc a + cov t a.
Proof.
  intros Hacc Ht. induction Hacc as [|b bs Hb Hbs (IH1 & IH2 & IH3)]; cbn.
  - split; [by constructor|]. split; [lia|]. intros a. lia.
  - unfold wfBlock in *. zcase; cbn.
    + split; [constructor; cbn; [lia|done]|]. split; [lia|]. intros a. cov_solve.
    + split; [constructor; cbn; [lia|done]|]. split; [lia|]. intros a. cov_solve.
    + split; [by constructor|]. split; [lia|]. intros a. rewrite IH3. lia.
Qed.

Lemma merge_loop_spec temp : forall acc,
  Forall wfBlock acc -> Forall wfBlock temp ->
  Forall wfBlock (merge_loop acc temp) /\
  (length (merge_loop acc temp) <= length acc + length temp)%nat /\
  (forall b, b ∈ temp -> capacity b = 0 ->
     (length (merge_loop acc temp) < length acc + length temp)%nat) /\
  forall a, freeCount (merge_loop acc temp) a = freeCount acc a + freeCount temp a.
Proof.
  induction temp as [|t temp IH]; intros acc Hacc Htemp; cbn.
  - split; [done|]. split; [lia|]. split; [set_solver|]. intros a. lia.
  - apply Forall_cons in Htemp as [Ht Htemp].
    destruct (Z.eqb_spec (capacity t) 0) as [E|E].
    + destruct (IH acc Hacc Htemp) as (H1 & H2 & H3 & H4). split; [done|].
      split; [lia|]. split; [intros; lia|]. intros a. rewrite H4.
      rewrite (capacity_wf t Ht) in E. unfold wfBlock in Ht. cov_solve.
    + destruct (mergeInto_spec acc t Hacc Ht) as (M1 & M2 & M3).
      destruct (IH _ M1 Htemp) as (H1 & H2 & H3 & H4). split; [done|]. split; [lia|].
      split; [|intros a; rewrite H4, M3; lia].
      intros b [->|Hb]%elem_of_cons Hc; [done|]. specialize (H3 b Hb Hc). lia.
Qed.

Lemma merge_wf bs : wfMap bs -> wfMap (merge bs).
Proof.
  intros [H1 H2]. destruct (merge_loop_spec bs [] (Forall_nil_2 _) H1) as (? & ? & _).
  split; [done|]. unfold merge. cbn in *. lia.
Qed.

Lemma merge_length bs : Forall wfBlock bs -> (length (merge bs) <= length bs)%nat.
Proof. intros H. by destruct (merge_loop_spec bs [] (Forall_nil_2 _) H) as (? & ? & _). Qed.

Lemma merge_drops_empty bs b :
  Forall wfBlock bs -> b ∈ bs -> capacity b = 0 -> (length (merge bs) < length bs)%nat.
Proof. intros H. destruct (merge_loop_spec bs [] (Forall_nil_2 _) H) as (_ & _ & H3 & _). eauto. Qed.

Lemma merge_count bs a : Forall wfBlock bs -> freeCount (merge bs) a = freeCount bs a.
Proof. intros H. destruct (merge_loop_spec bs [] (Forall_nil_2 _) H) as (_ & _ & _ & H4). apply H4. Qed.

#[export] Hint Resolve merge_wf : kernel.

(** ** addBlock *)

(** Whether [addBlock] finds room for one more block. *)
Definition hasRoom (bs : list Block) : bool :=
  (length bs <? BLOCKMAP_SIZE)%nat || (length (merge bs) <? BLOCKMAP_SIZE)%nat.

Lemma addBlock_body_spec bs b :
  wfMap bs -> wfBlock b ->
  wfMap (addBlock_body bs b) /\
  forall a, freeCount (addBlock_body bs b) a
            = freeCount bs a + (if hasRoom bs then cov b a else 0).
Proof.
  intros Hwf Hb. pose proof (merge_wf bs Hwf) as [Hm1 Hm2]. destruct Hwf as [H1 H2].
  unfold addBlock_body, hasRoom.
  destruct (Nat.ltb_spec (length bs) BLOCKMAP_SIZE); [|destruct (Nat.ltb_spec (length (merge bs)) BLOCKMAP_SIZE)];
    cbn [orb].
  - split; [split; [by apply Forall_app; auto | rewrite length_app; cbn; lia]|].
    intros a. rewrite freeCount_app. cbn. lia.
  - split; [split; [by apply Forall_app; auto | rewrite length_app; cbn; lia]|].
    intros a. rewrite freeCount_app, merge_count by done. cbn. lia.
  - split; [done|]. intros a. rewrite merge_count by done. lia.
Qed.

Lemma addBlock_unlocked_spec bs b :
  wfMap bs -> wfBlock b ->
  wfMap (addBlock_unlocked bs b) /\
  forall a, freeCount (addBlock_unlocked bs b) a
            = freeCount bs a + (if hasRoom bs then cov b a else 0).
Proof.
  intros Hwf Hb. unfold addBlock_unlocked. rewrite (capacity_wf b Hb).
  destruct (Z.ltb_spec 0 (end_ b - start b)); [by apply addBlock_body_spec|].
  split; [done|]. intros a. destruct (hasRoom bs); [|lia]. cov_solve.
Qed.

Lemma hasRoom_short bs : (length bs < BLOCKMAP_SIZE)%nat -> hasRoom bs = true.
Proof. intros H. unfold hasRoom. destruct (Nat.ltb_spec (length bs) BLOCKMAP_SIZE); [done|lia]. Qed.

Lemma addBlock_unlocked_length bs b :
  (length bs < BLOCKMAP_SIZE)%nat -> (length (addBlock_unlocked bs b) <= S (length bs))%nat.
Proof.
  intros H. unfold addBlock_unlocked, addBlock_body. zcase; [|lia].
  destruct (Nat.ltb_spec (length bs) BLOCKMAP_SIZE); [|lia]. rewrite length_app; cbn; lia.
Qed.

(** Coalescing builds its blocks from the starts and the ends it was given. *)
Definition endpoints (Ps Pe : Z -> Prop) (b : Block) : Prop := Ps (start b) /\ Pe (end_ b).

Lemma mergeInto_endpoints Ps Pe acc t :
  Forall (endpoints Ps Pe) acc -> endpoints Ps Pe t -> Forall (endpoints Ps Pe) (mergeInto acc t).
Proof.
  intros Hacc [Ht1 Ht2]. induction Hacc as [|b bs [Hb1 Hb2] Hbs IH]; cbn; [by repeat constructor|].
  zcase; by repeat constructor.
Qed.

Lemma merge_endpoints Ps Pe bs : Forall (endpoints Ps Pe) bs -> Forall (endpoints Ps Pe) (merge bs).
Proof.
  unfold merge. intros Hbs. assert (Hacc : Forall (endpoints Ps Pe) []) by constructor.
  revert Hacc. generalize (@nil Block) as acc. induction Hbs as [|t bs Ht Hbs IH]; cbn; intros acc Hacc; [done|].
  destruct (capacity t =? 0); apply IH; [done|]. by apply mergeInto_endpoints.
Qed.

Lemma addBlock_unlocked_endpoints Ps Pe bs b :
  Forall (endpoints Ps Pe) bs -> endpoints Ps Pe b -> Forall (endpoints Ps Pe) (addBlock_unlocked bs b).
Proof.
  intros Hbs Hb. pose proof (merge_endpoints Ps Pe bs Hbs).
  unfold addBlock_unlocked, addBlock_body.
  destruct (0 <? capacity b), (length bs <? BLOCKMAP_SIZE)%nat,
    (length (merge bs) <? BLOCKMAP_SIZE)%nat; auto; apply Forall_app; auto.
Qed.

Lemma addBlock_unlocked_grows bs b : Forall wfBlock bs -> (length (addBlock_unlocked bs b) <= S (length bs))%nat.
Proof.
  intros Hw. pose proof (merge_length bs Hw). unfold addBlock_unlocked, addBlock_body.
  destruct (0 <? capacity b), (length bs <? BLOCKMAP_SIZE)%nat, (length (merge bs) <? BLOCKMAP_SIZE)%nat;
    rewrite ?length_app; cbn; lia.
Qed.

(** ** with_lock *)

Lemma with_lock_ok {A} c m (f : list Block -> outcome (A * list Block)) r bs :
  locked (bm_lock m) = false -> f (blocks m) = Ok (r, bs) ->
  with_lock c m f = Ok (r, (c, mkBlockMap bs (mkSpinlock 0 (localIrqState c)))).
Proof.
  intros Hl Hf. unfold with_lock. rewrite acquire_free by done. cbn [obind].
  rewrite Hf. cbn [obind]. by rewrite release_acquire.
Qed.

(** ** allocate *)

Lemma Block_reserve_wf b n :
  wfBlock b -> 0 <= n <= end_ b - start b ->
  Block_reserve b n = (start b, mkBlock (start b + n) (end_ b)).
Proof.
  intros Hb Hn. unfold Block_reserve. rewrite capacity_wf by done. unfold wfBlock in Hb.
  destruct (Z.leb_spec n (end_ b - start b)); [|lia].
  by rewrite wrap_small by lia.
Qed.

Lemma allocate_loop_spec bs n p bs' :
  Forall wfBlock bs -> 0 <= n -> allocate_loop bs n = (p, bs') ->
  length bs' = length bs /\ Forall wfBlock bs' /\
  ((exists b, b ∈ bs /\ n <= capacity b) ->
     (exists b, b ∈ bs /\ n <= capacity b /\ p = start b) /\
     forall a, freeCount bs a = freeCount bs' a + cov (mkBlock p (p + n)) a) /\
  ((forall b, b ∈ bs -> capacity b < n) -> p = 0 /\ bs' = bs).
Proof.
  intros Hwf Hn. revert p bs'. induction Hwf as [|b bs Hb Hbs IH]; intros p bs' E; cbn in E.
  - simplify_eq. split; [done|]. split; [by constructor|].
    split; [set_solver | done].
  - destruct (Z.leb_spec n (capacity b)) as [Hfit|Hfit].
    + pose proof (capacity_wf b Hb) as Hcap. rewrite Block_reserve_wf in E by (done || lia).
      simplify_eq. split; [done|]. unfold wfBlock in Hb.
      split; [constructor; [unfold wfBlock; cbn; lia | done]|].
      split; [intros _; split; [exists b; set_solver|]; intros a; cbn; cov_solve|].
      intros H. assert (capacity b < n) by (apply H; set_solver). lia.
    + destruct (allocate_loop bs n) as [r bs1] eqn:E1. simplify_eq.
      destruct (IH _ _ eq_refl) as (I1 & I2 & I3 & I4). cbn. split; [lia|].
      split; [by constructor|]. split.
      * intros (d & Hd & Hc). apply elem_of_cons in Hd as [->|Hd]; [lia|].
        destruct I3 as [(e & ? & ? & ?) I3]; [by exists d|].
        split; [exists e; set_solver|]. intros a. rewrite I3. lia.
      * intros H. destruct I4 as [-> ->]; [|done]. intros d Hd. apply H. set_solver.
Qed.

(** ** reserve *)

(** Nothing inside [rm] is free. *)
Definition clearOf (rm : Block) (bs : list Block) : Prop :=
  forall a, start rm <= a < end_ rm -> freeCount bs a = 0.

(** Block [b] has no address in [rm]. *)
Definition outside (rm b : Block) : Prop :=
  forall a, start rm <= a < end_ rm -> cov b a = 0.

Lemma clearOf_all_outside rm bs :
  (forall j b, bs !! j = Some b -> outside rm b) -> clearOf rm bs.
Proof.
  intros H a Ha. induction bs as [|b bs IH]; cbn; [done|].
  rewrite (H 0%nat b eq_refl a Ha), IH; [lia|]. intros j d Hj. apply (H (S j) d Hj).
Qed.

(** The case of [reserve_step] that replaces the current block in place. *)
Lemma reserve_replace rm bs i cur b' :
  wfMap bs -> bs !! i = Some cur -> wfBlock b' ->
  (forall a, cov b' a <= cov cur a) -> outside rm b' ->
  let bs' := <[i := b']> bs in
  wfMap bs' /\ (forall a, freeCount bs' a <= freeCount bs a) /\
  length bs' = length bs /\
  (forall j, j <> i -> bs' !! j = bs !! j) /\
  (forall b, bs' !! i = Some b -> outside rm b).
Proof.
  intros [H1 H2] Hi Hb Hle Hout; cbn zeta. split; [|split; [|split; [|split]]].
  - split; [by apply Forall_insert | by rewrite length_insert].
  - intros a. rewrite (freeCount_insert _ _ _ _ _ Hi). specialize (Hle a). lia.
  - apply length_insert.
  - intros j Hj. by rewrite list_lookup_insert_ne.
  - intros b. rewrite list_lookup_insert_eq by (by eapply lookup_lt_Some). by intros [= <-].
Qed.

(** The last case: [rm] lies strictly inside the current block. *)
Lemma reserve_split rm bs i cur :
  wfMap bs -> disjointMap bs -> bs !! i = Some cur -> wfBlock cur ->
  start cur < start rm -> start rm <= end_ rm -> end_ rm < end_ cur ->
  let bs' := addBlock_unlocked
    (addBlock_unlocked (<[i := Block_null]> bs) (mkBlock (start cur) (start rm)))
    (mkBlock (end_ rm) (end_ cur)) in
  wfMap bs' /\ (forall a, freeCount bs' a <= freeCount bs a) /\
  (forall a, ~ start rm <= a < end_ rm -> (length bs <= 254)%nat -> freeCount bs' a = freeCount bs a) /\
  clearOf rm bs'.
Proof.
  intros Hwf Hdis Hi Hcur Hs Hrm He; cbn zeta.
  assert (Hwf1 : wfMap (<[i := Block_null]> bs)).
  { destruct Hwf. split; [apply Forall_insert; auto with kernel | by rewrite length_insert]. }
  assert (Hl1 : length (<[i := Block_null]> bs) = length bs) by apply length_insert.
  pose proof (fun a => freeCount_insert bs i cur Block_null a Hi) as Hc1.
  set (bs1 := <[i := Block_null]> bs) in *.
  unfold wfBlock in Hcur.
  assert (Hwl : wfBlock (mkBlock (start cur) (start rm))) by (unfold wfBlock; cbn; lia).
  assert (Hwr : wfBlock (mkBlock (end_ rm) (end_ cur))) by (unfold wfBlock; cbn; lia).
  destruct (addBlock_unlocked_spec bs1 _ Hwf1 Hwl) as [Hwf2 Hc2].
  set (bs2 := addBlock_unlocked bs1 _) in *.
  destruct (addBlock_unlocked_spec bs2 _ Hwf2 Hwr) as [Hwf3 Hc3].
  assert (Hroom : (length bs <= 254)%nat -> hasRoom bs1 = true /\ hasRoom bs2 = true).
  { intros Hl. assert (Hb1 : (length bs1 < BLOCKMAP_SIZE)%nat) by (rewrite Hl1; unfold BLOCKMAP_SIZE; lia).
    split; [by apply hasRoom_short|]. apply hasRoom_short.
    pose proof (addBlock_unlocked_length bs1 (mkBlock (start cur) (start rm)) Hb1) as Hb2.
    fold bs2 in Hb2. unfold BLOCKMAP_SIZE. lia. }
  split; [done|]. split; [|split].
  - intros a. rewrite Hc3, Hc2, Hc1, cov_null.
    destruct (hasRoom bs1), (hasRoom bs2); cov_solve.
  - intros a Ha Hl. rewrite Hc3, Hc2, Hc1, cov_null. destruct (Hroom Hl) as [-> ->]. cov_solve.
  - intros a Ha. pose proof (freeCount_nonneg bs1 a) as H0. specialize (Hdis a). rewrite Hc1, cov_null in H0.
    rewrite Hc3, Hc2, Hc1, cov_null.
    assert (cov cur a = 1) by (apply cov_1; lia).
    destruct (hasRoom bs1), (hasRoom bs2); cov_solve.
Qed.

Lemma reserve_step_spec rm bs i cur :
  wfMap bs -> disjointMap bs -> wfBlock rm -> start rm < end_ rm -> bs !! i = Some cur ->
  let bs' := reserve_step rm bs i cur in
  wfMap bs' /\ (forall a, freeCount bs' a <= freeCount bs a) /\
  (forall a, ~ start rm <= a < end_ rm -> (clearOf rm bs \/ (length bs <= 254)%nat) ->
     freeCount bs' a = freeCount bs a) /\
  ((length bs' = length bs /\ (forall j, j <> i -> bs' !! j = bs !! j) /\
    (forall b, bs' !! i = Some b -> outside rm b)) \/ clearOf rm bs').
Proof.
  intros Hwf Hdis Hrm Hne Hi; cbn zeta.
  assert (Hcur : wfBlock cur) by (destruct Hwf as [Hf _]; by eapply Forall_lookup_1 in Hf).
  assert (Hsame : outside rm cur -> wfMap bs /\ (forall a, freeCount bs a <= freeCount bs a) /\
    (forall a, ~ start rm <= a < end_ rm -> (clearOf rm bs \/ (length bs <= 254)%nat) ->
       freeCount bs a = freeCount bs a) /\
    ((length bs = length bs /\ (forall j, j <> i -> bs !! j = bs !! j) /\
      (forall b, bs !! i = Some b -> outside rm b)) \/ clearOf rm bs)).
  { intros Ho. split; [done|]. split; [lia|]. split; [done|]. left. split; [done|].
    split; [done|]. intros b Hb. by simplify_eq. }
  assert (Hrep : forall b', wfBlock b' -> outside rm b' -> (forall a, cov b' a <= cov cur a) ->
    (forall a, ~ start rm <= a < end_ rm -> cov b' a = cov cur a) ->
    let bs' := <[i := b']> bs in
    wfMap bs' /\ (forall a, freeCount bs' a <= freeCount bs a) /\
    (forall a, ~ start rm <= a < end_ rm -> (clearOf rm bs \/ (length bs <= 254)%nat) ->
       freeCount bs' a = freeCount bs a) /\
    ((length bs' = length bs /\ (forall j, j <> i -> bs' !! j = bs !! j) /\
      (forall b, bs' !! i = Some b -> outside rm b)) \/ clearOf rm bs')).
  { intros b' Hb Ho Hle Heq; cbn zeta.
    destruct (reserve_replace rm bs i cur b' Hwf Hi Hb Hle Ho) as (? & ? & ? & ? & ?).
    split; [done|]. split; [done|]. split; [|by left].
    intros a Ha _. rewrite (freeCount_insert _ _ _ _ _ Hi), (Heq a Ha). lia. }
  unfold wfBlock in Hrm, Hcur. unfold reserve_step.
  destruct (Z.leb_spec (end_ rm) (start cur)); [apply Hsame; intros a ?; cov_solve|].
  destruct (Z.leb_spec (end_ cur) (start rm)); [apply Hsame; intros a ?; cov_solve|].
  destruct (Z.leb_spec (start rm) (start cur)), (Z.leb_spec (end_ cur) (end_ rm)); cbn [andb].
  - apply Hrep; [auto with kernel| | |]; intros a *; cov_solve.
  - apply Hrep; [unfold wfBlock; cbn; lia| | |]; intros a *; cov_solve.
  - apply Hrep; [unfold wfBlock; cbn; lia| | |]; intros a *; cov_solve.
  - destruct (reserve_split rm bs i cur) as (S1 & S2 & S3 & S4); auto; try lia.
    split; [done|]. split; [done|]. split; [|by right]. intros a Ha [Hc|Hl]; [|by apply S3].
    specialize (Hc (start rm) ltac:(lia)). pose proof (freeCount_lookup _ _ _ (start rm) Hi).
    assert (cov cur (start rm) = 1) by (apply cov_1; lia). lia.
Qed.

(** Enough fuel is the size of the array: [reserve] always returns. *)
Lemma reserve_loop_spec rm (Hrm : wfBlock rm) (Hne : start rm < end_ rm) fuel : forall bs i,
  wfMap bs -> disjointMap bs -> (BLOCKMAP_SIZE <= fuel + i)%nat ->
  ((forall j b, (j < i)%nat -> bs !! j = Some b -> outside rm b) \/ clearOf rm bs) ->
  exists bs', reserve_loop fuel rm bs i = Ok bs' /\ wfMap bs' /\ clearOf rm bs' /\
    (forall a, freeCount bs' a <= freeCount bs a) /\
    (forall a, ~ start rm <= a < end_ rm -> (clearOf rm bs \/ (length bs <= 254)%nat) ->
       freeCount bs' a = freeCount bs a).
Proof.
  induction fuel as [|fuel IH]; intros bs i Hwf Hdis Hfuel Hdone;
    cbn [reserve_loop]; destruct (bs !! i) as [cur|] eqn:Hi.
  - exfalso. apply lookup_lt_Some in Hi. destruct Hwf. lia.
  - exists bs. split; [done|]. split; [done|]. split; [|done]. destruct Hdone as [Hdone|]; [|done].
    apply clearOf_all_outside. intros j b Hj. apply (Hdone j b); [|done].
    apply lookup_ge_None in Hi. apply lookup_lt_Some in Hj. lia.
  - destruct (reserve_step_spec rm bs i cur Hwf Hdis Hrm Hne Hi) as (S1 & S2 & S3 & S4).
    set (bs1 := reserve_step rm bs i cur) in *.
    assert (Hkeep : clearOf rm bs -> clearOf rm bs1).
    { intros Hc a Ha. specialize (S2 a). rewrite (Hc a Ha) in S2. pose proof (freeCount_nonneg bs1 a). lia. }
    destruct (IH bs1 (S i)) as (bs' & R1 & R2 & R3 & R4 & R5); [done| |lia| |].
    + intros a. specialize (S2 a). specialize (Hdis a). lia.
    + destruct S4 as [(_ & Hj & Hib)|Hc]; [|by right]. destruct Hdone as [Hdone|Hc]; [left|right; auto].
      intros j b Hlt Hb. destruct (decide (j = i)) as [->|]; [auto|].
      rewrite Hj in Hb by done. apply (Hdone j b); [lia|done].
    + exists bs'. split; [done|]. split; [done|]. split; [done|].
      split; [intros a; etrans; [apply R4 | apply S2]|].
      intros a Ha Hor. rewrite R5, S3; auto.
      destruct Hor as [Hc|Hl]; [left; auto|]. destruct S4 as [(Hl1 & _)|Hc]; [right; lia | by left].
  - exists bs. split; [done|]. split; [done|]. split; [|done]. destruct Hdone as [Hdone|]; [|done].
    apply clearOf_all_outside. intros j b Hj. apply (Hdone j b); [|done].
    apply lookup_ge_None in Hi. apply lookup_lt_Some in Hj. lia.
Qed.

(** ** Whole operations *)

(** The lock after a completed operation of CPU [c]. *)
Abbreviation unlocked_by c := (mkSpinlock 0 (localIrqState c)).

Lemma with_lock_inv {A} c m (f : list Block -> outcome (A * list Block)) r c' m' :
  with_lock c m f = Ok (r, (c', m')) -> f (blocks m) = Ok (r, blocks m').
Proof.
  unfold with_lock. intros E. inv_ok. destruct (release _ _) as [c1 l1]. by inv_ok.
Qed.

(** The starts and the ends of the blocks are those of the map and of the
    blocks added or reserved. *)
Lemma addBlock_endpoints Ps Pe c m b al c' m' :
  addBlock c m b al = Ok (c', m') -> Forall (endpoints Ps Pe) (blocks m) -> endpoints Ps Pe b ->
  Forall (endpoints Ps Pe) (blocks m').
Proof.
  intros E Hm Hb. pose proof (addBlock_unlocked_endpoints Ps Pe (blocks m) b Hm Hb) as H.
  unfold addBlock, addBlock_unlocked in *. destruct (0 <? capacity b); [|by simplify_eq].
  destruct al; [|by simplify_eq]. destruct (with_lock _ _ _) as [[r [c1 m1]]| | |] eqn:Ew; try done.
  cbn [obind] in E. simplify_eq. apply with_lock_inv in Ew. by injection Ew as _ <-.
Qed.

Lemma reserve_step_endpoints Ps Pe rm bs i cur :
  Forall (endpoints Ps Pe) bs -> bs !! i = Some cur -> Ps 0 -> Pe 0 -> Ps (end_ rm) -> Pe (start rm) ->
  Forall (endpoints Ps Pe) (reserve_step rm bs i cur).
Proof.
  intros Hbs Hi H1 H2 H3 H4. destruct (proj1 (Forall_lookup _ _) Hbs i cur Hi) as [Hc1 Hc2].
  unfold reserve_step. repeat match goal with |- context [if ?x then _ else _] => destruct x end; try done;
    repeat apply addBlock_unlocked_endpoints; try (by apply Forall_insert); done.
Qed.

Lemma reserve_endpoints Ps Pe c m rm c' m' :
  reserve c m rm = Ok (c', m') -> Forall (endpoints Ps Pe) (blocks m) -> Ps 0 -> Pe 0 -> Ps (end_ rm) -> Pe (start rm) ->
  Forall (endpoints Ps Pe) (blocks m').
Proof.
  intros E Hm H1 H2 H3 H4. unfold reserve in E. destruct (with_lock _ _ _) as [[r [c1 m1]]| | |] eqn:Ew; try done.
  cbn [obind] in E. simplify_eq. apply with_lock_inv in Ew.
  destruct (reserve_loop _ _ _ _) as [bs1| | |] eqn:Er; try done. cbn [obind] in Ew. injection Ew as _ <-.
  assert (Hgen : forall fuel bs i bs', reserve_loop fuel rm bs i = Ok bs' -> Forall (endpoints Ps Pe) bs -> Forall (endpoints Ps Pe) bs').
  { induction fuel as [|fuel IH]; intros bs i bs' E Hbs; cbn [reserve_loop] in E; destruct (bs !! i) eqn:Ei; try done; try by simplify_eq.
    eapply IH; [exact E|]. by apply reserve_step_endpoints. }
  eapply Hgen; [exact Er|]. by apply merge_endpoints.
Qed.

Lemma addBlock_run c m b :
  locked (bm_lock m) = false -> wfMap (blocks m) -> wfBlock b ->
  exists bs l, addBlock c m b true = Ok (c, mkBlockMap bs l) /\ locked l = false /\ wfMap bs /\
    bs = addBlock_unlocked (blocks m) b /\
    forall a, freeCount bs a = freeCount (blocks m) a + (if hasRoom (blocks m) then cov b a else 0).
Proof.
  intros Hl Hwf Hb. unfold addBlock, addBlock_unlocked.
  destruct (addBlock_body_spec (blocks m) b Hwf Hb) as [H1 H2].
  destruct (Z.ltb_spec 0 (capacity b)) as [Hc|Hc].
  - erewrite with_lock_ok by done. cbn [obind]. eauto 10.
  - exists (blocks m), (bm_lock m). destruct m. split; [done|]. split; [done|]. split; [done|]. split; [done|].
    intros a. rewrite (capacity_wf b Hb) in Hc. cbn [blocks]. destruct (hasRoom blocks0); [|lia]. cov_solve.
Qed.

Lemma allocate_run c m n :
  locked (bm_lock m) = false -> Forall wfBlock (blocks m) -> 0 <= n ->
  exists p bs, allocate c m n = Ok (p, (c, mkBlockMap bs (unlocked_by c))) /\
    allocate_loop (blocks m) n = (p, bs).
Proof.
  intros Hl Hwf Hn. destruct (allocate_loop (blocks m) n) as [p bs] eqn:E.
  exists p, bs. split; [|done]. unfold allocate. erewrite with_lock_ok; [done|done|]. by rewrite E.
Qed.

Lemma reserve_run c m rm :
  locked (bm_lock m) = false -> wfMap (blocks m) -> disjointMap (blocks m) ->
  wfBlock rm -> start rm < end_ rm ->
  exists bs, reserve c m rm = Ok (c, mkBlockMap bs (unlocked_by c)) /\ wfMap bs /\ clearOf rm bs /\
    (forall a, freeCount bs a <= freeCount (blocks m) a) /\
    ((length (merge (blocks m)) <= 254)%nat ->
     forall a, ~ start rm <= a < end_ rm -> freeCount bs a = freeCount (blocks m) a).
Proof.
  intros Hl Hwf Hdis Hrm Hne.
  assert (Hm : forall a, freeCount (merge (blocks m)) a = freeCount (blocks m) a)
    by (intros a; apply merge_count, Hwf).
  destruct (reserve_loop_spec rm Hrm Hne BLOCKMAP_SIZE (merge (blocks m)) 0)
    as (bs & R1 & R2 & R3 & R4 & R5);
    [by apply merge_wf | intros a; rewrite Hm; apply Hdis | lia | left; intros; lia |].
  exists bs. unfold reserve. erewrite with_lock_ok; [|done|by rewrite R1].
  split; [done|]. split; [done|]. split; [done|].
  split; [intros a; rewrite <- Hm; apply R4 | intros Hlen a Ha; rewrite <- Hm; auto].
Qed.

(** ** Histories *)

(** The map, the CPU that runs the operations, and how often each address is
    handed out and not given back. *)
Record Hist := mkHist { h_cpu : Cpu; h_map : BlockMap; h_out : Z -> Z }.

(** The block is handed out. *)
Definition handOut (b : Block) (out : Z -> Z) : Z -> Z := fun a => out a + cov b a.

(** Whoever holds addresses of the block gives them up. *)
Definition giveUp (b : Block) (out : Z -> Z) : Z -> Z := fun a => if covers b a then 0 else out a.

(** No address of the block is free. *)
Definition notFree (m : BlockMap) (b : Block) : Prop := forall a, cov b a = 1 -> freeCount (blocks m) a = 0.

(** Memory goes to the map by [returnMemory] or [addBlock]: blocks that were
    handed out, parts of them, or memory that was not in the map before. The
    only condition is that it is not free already. *)
Inductive hist_step : Hist -> Hist -> Prop :=
| hist_alloc c m out n p c' m' :
    0 < n -> allocate c m n = Ok (p, (c', m')) ->
    hist_step (mkHist c m out) (mkHist c' m' (if p =? 0 then out else handOut (mkBlock p (p + n)) out))
| hist_return c m out p n c' m' :
    let b := mkBlock p (u64 (p + n)) in
    wfBlock b -> notFree m b -> returnMemory c m p n = Ok (c', m') ->
    hist_step (mkHist c m out) (mkHist c' m' (giveUp b out))
| hist_add c m out b c' m' :
    wfBlock b -> notFree m b -> addBlock c m b true = Ok (c', m') ->
    hist_step (mkHist c m out) (mkHist c' m' (giveUp b out))
| hist_reserve c m out rm c' m' :
    wfBlock rm -> start rm < end_ rm -> reserve c m rm = Ok (c', m') ->
    hist_step (mkHist c m out) (mkHist c' m' out).

Definition hist_inv (h : Hist) : Prop :=
  locked (bm_lock (h_map h)) = false /\ wfMap (blocks (h_map h)) /\
  forall a, 0 <= h_out h a /\ freeCount (blocks (h_map h)) a + h_out h a <= 1.

Lemma hist_inv_disjoint h : hist_inv h -> disjointMap (blocks (h_map h)).
Proof. intros (_ & _ & H) a. specialize (H a). lia. Qed.

Lemma hist_inv_alloc c m out n p c' m' :
  hist_inv (mkHist c m out) -> 0 < n -> allocate c m n = Ok (p, (c', m')) ->
  hist_inv (mkHist c' m' (if p =? 0 then out else handOut (mkBlock p (p + n)) out)).
Proof.
  intros (Hl & Hwf & Hcnt) Hn E; cbn in *.
  destruct (allocate_run c m n Hl (proj1 Hwf) ltac:(lia)) as (q & bs & E' & Eloop).
  rewrite E' in E. simplify_eq.
  destruct (allocate_loop_spec _ n p bs (proj1 Hwf) ltac:(lia) Eloop) as (L1 & L2 & L3 & L4).
  split; [done|]. split; [split; [done|]; cbn; destruct Hwf; lia|]. cbn. intros a. specialize (Hcnt a).
  destruct (existsb (fun b => n <=? capacity b) (blocks m)) eqn:Hx.
  - apply existsb_exists in Hx as (b & Hb%list_elem_of_In & Hc%Z.leb_le).
    destruct L3 as ((e & He & Hce & ->) & Hcov); [by exists b|]. rewrite Hcov in Hcnt.
    pose proof (cov_range (mkBlock (start e) (start e + n)) a). unfold handOut. destruct (_ =? 0); lia.
  - destruct L4 as [-> ->]; [|done]. intros b Hb. destruct (Z.ltb_spec (capacity b) n); [done|].
    exfalso. apply Bool.diff_true_false. rewrite <- Hx. symmetry. apply existsb_exists.
    exists b. split; [by apply list_elem_of_In | by apply Z.leb_le].
Qed.

Lemma hist_inv_add c m out b c' m' :
  hist_inv (mkHist c m out) -> wfBlock b -> notFree m b ->
  addBlock c m b true = Ok (c', m') -> hist_inv (mkHist c' m' (giveUp b out)).
Proof.
  intros (Hl & Hwf & Hcnt) Hb Hnew E; cbn in *.
  destruct (addBlock_run c m b Hl Hwf Hb) as (bs & l & E' & Hl' & Hwf' & _ & Hc').
  rewrite E' in E. simplify_eq. split; [done|]. split; [done|]; cbn.
  intros a. rewrite Hc'. specialize (Hcnt a). specialize (Hnew a). unfold giveUp, cov in *.
  destruct (covers b a); [rewrite (Hnew eq_refl)|]; destruct (hasRoom _); lia.
Qed.

Lemma hist_inv_step h h' : hist_inv h -> hist_step h h' -> hist_inv h'.
Proof.
  intros Hinv Hst. destruct Hst as [c m out n p c' m' Hn E|c m out p n c' m' b Hb Hnew E|
    c m out b c' m' Hb Hnew E|c m out rm c' m' Hrm Hne E].
  - by eapply hist_inv_alloc.
  - by eapply hist_inv_add.
  - by eapply hist_inv_add.
  - pose proof (hist_inv_disjoint _ Hinv) as Hdis. destruct Hinv as (Hl & Hwf & Hcnt); cbn in *.
    destruct (reserve_run c m rm Hl Hwf Hdis Hrm Hne) as (bs & E' & Hwf' & _ & Hle & _).
    rewrite E' in E. simplify_eq. split; [done|]. split; [done|]; cbn.
    intros a. specialize (Hle a). specialize (Hcnt a). lia.
Qed.

(** ** Properties *)

(** [C3] Allocator safety: from an empty map, whatever sequence of allocations,
    reservations and additions is run, where memory that is given to the map
    ([addBlock], [returnMemory]: all or part of what was handed out, or new
    memory) is not free already, no address is ever both handed out and free,
    handed out twice, or free twice; every operation has given the lock back. *)
Theorem blockmap_history_safe c h :
  star hist_step (mkHist c BlockMap_init (fun _ => 0)) h ->
  locked (bm_lock (h_map h)) = false /\ (numBlocks (h_map h) <= BLOCKMAP_SIZE)%nat /\
  forall a, 0 <= h_out h a /\ freeCount (blocks (h_map h)) a + h_out h a <= 1.
Proof.
  intros H. destruct (star_invariant _ hist_inv hist_inv_step _ _ H) as (? & [? ?] & ?); [|done].
  split; [done|]. split; [split; [by constructor|cbn; lia]|]. intros a. cbn. lia.
Qed.

Ltac notFreeTest := intros a Ha%cov_1; cbn in *; change (u64 (0x1400 + 0x400)) with 0x1800 in *; unfold cov, covers; cbn; zcase; cbn; lia.
Ltac reservesTest n := eapply star_step; [apply (hist_reserve _ _ _ n); [unfold wfBlock; cbn; lia|cbn; lia|vm_compute; reflexivity]|].

(** The history of the repository's test of [reserve]: a range is added again
    while half of it is handed out; then the middle is reserved and a part of
    what was handed out is returned. *)
Lemma blockmap_history_safe_witness :
  exists h, star hist_step (mkHist (mkCpu 512 0) BlockMap_init (fun _ => 0)) h /\
    freeCount (blocks (h_map h)) 0x1400 = 1 /\ freeCount (blocks (h_map h)) 0x1800 = 0 /\
    h_out h 0x1000 = 1 /\ h_out h 0x1400 = 0 /\ h_out h 0x2800 = 0 /\
    forall a, 0 <= h_out h a /\ freeCount (blocks (h_map h)) a + h_out h a <= 1.
Proof.
  assert (Hx : exists h, star hist_step (mkHist (mkCpu 512 0) BlockMap_init (fun _ => 0)) h /\
    freeCount (blocks (h_map h)) 0x1400 = 1 /\ freeCount (blocks (h_map h)) 0x1800 = 0 /\
    h_out h 0x1000 = 1 /\ h_out h 0x1400 = 0 /\ h_out h 0x2800 = 0).
  { eexists. split.
    - eapply star_step; [apply (hist_add _ _ _ (mkBlock 0x1000 0x3000)); [unfold wfBlock; cbn; lia|notFreeTest|vm_compute; reflexivity]|].
      reservesTest (mkBlock 0x1000 0x2000).
      eapply star_step; [apply (hist_alloc _ _ _ 0x1000); [lia|vm_compute; reflexivity]|].
      eapply star_step; [apply (hist_add _ _ _ (mkBlock 0x1000 0x3000)); [unfold wfBlock; cbn; lia|notFreeTest|vm_compute; reflexivity]|].
      reservesTest (mkBlock 0x1800 0x2800).
      eapply star_step; [apply (hist_alloc _ _ _ 0x800); [lia|vm_compute; reflexivity]|].
      eapply star_step; [apply (hist_return _ _ _ 0x1400 0x400); [vm_compute; repeat split; discriminate|notFreeTest|vm_compute; reflexivity]|apply star_refl].
    - repeat split; reflexivity. }
  destruct Hx as (h & H & E1 & E2 & E3 & E4 & E5). exists h. split; [exact H|]. do 5 (split; [assumption|]).
  exact (proj2 (proj2 (blockmap_history_safe _ _ H))).
Defined.

(** [allocate] on a well-formed map returns with the CPU's interrupt
    state unchanged and the lock free. If some block is large enough, the
    result is the start of the first such block and exactly the addresses
    [result, result + amount) stop being free; otherwise the result is the
    null pointer and the map is unchanged. *)
Theorem allocate_correct c m n :
  locked (bm_lock m) = false -> wfMap (blocks m) -> 0 <= n ->
  exists p m', allocate c m n = Ok (p, (c, m')) /\ locked (bm_lock m') = false /\ wfMap (blocks m') /\
    match list_find (fun b => n <= capacity b) (blocks m) with
    | Some (_, b) => p = start b /\
        forall a, freeCount (blocks m) a = freeCount (blocks m') a + cov (mkBlock p (p + n)) a
    | None => p = 0 /\ blocks m' = blocks m
    end.
Proof.
  intros Hl Hwf Hn. destruct (allocate_run c m n Hl (proj1 Hwf) Hn) as (p & bs & E & Eloop).
  exists p, (mkBlockMap bs (unlocked_by c)).
  destruct (allocate_loop_spec _ n p bs (proj1 Hwf) Hn Eloop) as (L1 & L2 & L3 & L4).
  split; [done|]. split; [done|]. split; [split; [done|]; destruct Hwf; cbn; lia|]. cbn [blocks].
  destruct (list_find _ _) as [[i b]|] eqn:Hf.
  - apply list_find_Some in Hf as (Hi & Hb & Hfirst).
    assert (Hbin : b ∈ blocks m) by (by eapply list_elem_of_lookup_2).
    destruct L3 as [_ Hcov]; [by exists b|]. split; [|done].
    clear -Hi Hb Hfirst Eloop. revert i p bs Hi Hfirst Eloop.
    induction (blocks m) as [|d ds IH]; intros [|i] p bs Hi Hfirst E; simplify_eq/=.
    + unfold Block_reserve in E. destruct (Z.leb_spec n (capacity b)); [by simplify_eq|lia].
    + pose proof (Hfirst 0%nat d eq_refl ltac:(lia)) as Hd; cbn in Hd.
      destruct (Z.leb_spec n (capacity d)); [lia|].
      destruct (allocate_loop ds n) eqn:E1. simplify_eq. eapply IH; eauto.
      intros j e Hj ?. by apply (Hfirst (S j) e Hj ltac:(lia)).
  - apply list_find_None in Hf. apply L4. intros b Hb.
    rewrite Forall_forall in Hf. specialize (Hf b Hb). cbn in Hf. lia.
Qed.

Lemma allocate_correct_witness :
  let m := mkBlockMap [mkBlock 4096 8192; mkBlock 16384 32768] Spinlock_init in
  allocate (mkCpu 512 0) m 8192
    = Ok (16384, (mkCpu 512 0, mkBlockMap [mkBlock 4096 8192; mkBlock 24576 32768] (mkSpinlock 0 true))) /\
  exists p m', allocate (mkCpu 512 0) m 8192 = Ok (p, (mkCpu 512 0, m')) /\ wfMap (blocks m').
Proof.
  intros m. split; [reflexivity|].
  destruct (allocate_correct (mkCpu 512 0) m 8192) as (p & m' & E & _ & W & _).
  - reflexivity.
  - split; [repeat constructor; cbn; lia | cbn; unfold BLOCKMAP_SIZE; lia].
  - lia.
  - exists p, m'. split; [exact E | exact W].
Defined.

(** [reserve] always terminates with the lock free, leaves no address of
    the reserved range free and frees nothing new; when the merged map has two
    unused slots every address outside the range is exactly as free as
    before. It never deadlocks on its own lock although it calls [addBlock]. *)
Theorem reserve_correct c m rm :
  locked (bm_lock m) = false -> wfMap (blocks m) -> disjointMap (blocks m) ->
  wfBlock rm -> start rm < end_ rm ->
  exists m', reserve c m rm = Ok (c, m') /\ locked (bm_lock m') = false /\ wfMap (blocks m') /\
    (forall a, start rm <= a < end_ rm -> freeCount (blocks m') a = 0) /\
    (forall a, freeCount (blocks m') a <= freeCount (blocks m) a) /\
    ((length (merge (blocks m)) <= 254)%nat ->
     forall a, ~ start rm <= a < end_ rm -> freeCount (blocks m') a = freeCount (blocks m) a).
Proof.
  intros Hl Hwf Hdis Hrm Hne.
  destruct (reserve_run c m rm Hl Hwf Hdis Hrm Hne) as (bs & E & ? & ? & ? & ?).
  by exists (mkBlockMap bs (unlocked_by c)).
Qed.

(** The situation of the repository's own test: reserving the middle of the
    only block. *)
Lemma reserve_correct_witness :
  let m := mkBlockMap [mkBlock 4096 12288] Spinlock_init in
  let rm := mkBlock 6144 10240 in
  exists m', reserve (mkCpu 0 0) m rm = Ok (mkCpu 0 0, m') /\
    blocks m' = [mkBlock 0 0; mkBlock 4096 6144; mkBlock 10240 12288] /\
    forall a, start rm <= a < end_ rm -> freeCount (blocks m') a = 0.
Proof.
  intros m rm.
  destruct (reserve_correct (mkCpu 0 0) m rm) as (m' & E & _ & _ & H & _).
  - reflexivity.
  - split; [repeat constructor; cbn; lia | cbn; unfold BLOCKMAP_SIZE; lia].
  - intros a. cbn. pose proof (cov_range (mkBlock 4096 12288) a). lia.
  - unfold wfBlock; cbn; lia.
  - cbn; lia.
  - exists m'. split; [exact E|]. split; [|exact H].
    assert (E' : reserve (mkCpu 0 0) m rm = Ok (mkCpu 0 0,
      mkBlockMap [mkBlock 0 0; mkBlock 4096 6144; mkBlock 10240 12288] (mkSpinlock 0 false))) by reflexivity.
    rewrite E' in E. injection E as <-. reflexivity.
Defined.

(** [addBlock] (hence [returnMemory]) adds exactly the block's addresses
    to the free set, unless the array is still full after coalescing: then the
    memory is silently lost, but nothing already free is. *)
Theorem addBlock_correct c m b :
  locked (bm_lock m) = false -> wfMap (blocks m) -> wfBlock b ->
  exists m', addBlock c m b true = Ok (c, m') /\ locked (bm_lock m') = false /\ wfMap (blocks m') /\
    forall a, freeCount (blocks m') a
      = freeCount (blocks m) a
        + (if (length (merge (blocks m)) <? BLOCKMAP_SIZE)%nat then cov b a else 0).
Proof.
  intros Hl Hwf Hb. destruct (addBlock_run c m b Hl Hwf Hb) as (bs & l & E & H1 & H2 & _ & H3).
  exists (mkBlockMap bs l). split; [done|]. split; [done|]. split; [done|].
  intros a. cbn [blocks]. rewrite H3. f_equal.
  pose proof (merge_length (blocks m) (proj1 Hwf)). unfold hasRoom.
  destruct (Nat.ltb_spec (length (blocks m)) BLOCKMAP_SIZE); [|done].
  destruct (Nat.ltb_spec (length (merge (blocks m))) BLOCKMAP_SIZE); [done|lia].
Qed.

Lemma addBlock_correct_witness :
  exists m', addBlock (mkCpu 512 3) BlockMap_init (mkBlock 4096 8192) true = Ok (mkCpu 512 3, m') /\
    freeCount (blocks m') 5000 = 1.
Proof.
  destruct (addBlock_correct (mkCpu 512 3) BlockMap_init (mkBlock 4096 8192)) as (m' & E & _ & _ & H).
  - reflexivity.
  - split; [constructor | cbn; unfold BLOCKMAP_SIZE; lia].
  - unfold wfBlock; cbn; lia.
  - exists m'. split; [exact E|]. rewrite H. reflexivity.
Defined.
