(* ===== verification/Paging.v ===== *)
(** * Page tables and physical frames ([pageTables.h], [paging.cpp],
    [paging.h], [physicalMemory.h], [pageConstants.h], [pageTableInit.cpp])

    The kernel reaches its own page tables through the recursive slot 511 of
    the top-level table, so every access of [paging.cpp] is a virtual access
    that the processor translates with the tables being edited. The model
    keeps this: physical memory is a function from word addresses to 64-bit
    words, and [vload]/[vstore] walk the tables as an x86-64 processor with
    4-level paging and 4 KiB pages does. *)

From Stdlib Require Import ZArith Lia.
From stdpp Require Import base tactics numbers sets list.
From S2P Require Import Prelude Spinlock MemoryBlock.

Open Scope Z_scope.

(** ** Constants *)

Definition PAGE_SIZE : Z := 4096.
Definition PAGE_ALIGN_UP (x : Z) : Z := u64 (u64 (u64 (x + 4095) / 4096) * 4096).
Definition PAGE_ALIGN_DOWN (x : Z) : Z := u64 (x / 4096 * 4096).

Definition PRESENT : Z := Z.shiftl 1 0.
Definition WRITABLE : Z := Z.shiftl 1 1.
Definition USER : Z := Z.shiftl 1 2.
Definition UNCACHEABLE : Z := Z.shiftl 1 4.
Definition ALLOCATED : Z := Z.shiftl 1 11.

(** [operator|] on flags is an addition in the source. *)
Definition flag_or (a b : Z) : Z := u64 (a + b).
Definition flag_and (a b : Z) : Z := Z.land a b.

(** ** The processor's address translation *)

Definition Mem : Type := Z -> Z.

Definition upd (m : Mem) (a v : Z) : Mem := fun x => if x =? a then v else m x.

(** Bits 12 to 51 of an entry: the physical address of the next table or of
    the page. *)
Definition frameOf (e : Z) : Z := Z.shiftl (Z.land (Z.shiftr e 12) (Z.ones 40)) 12.
Definition isPresent (e : Z) : bool := negb (flag_and e PRESENT =? 0).

(** Follow a list of table indices from the table at [t]. *)
Fixpoint follow (m : Mem) (t : Z) (path : list Z) : option Z :=
  match path with
  | [] => Some t
  | i :: path =>
      let e := m (t + 8 * i) in
      if isPresent e then follow m (frameOf e) path else None
  end.

Definition index (level : Z) (va : Z) : Z := va / 2 ^ (12 + 9 * level) mod 512.

Definition indices (va : Z) : list Z := [index 3 va; index 2 va; index 1 va; index 0 va].

Definition translate (m : Mem) (cr3 va : Z) : option Z :=
  match follow m (frameOf cr3) (indices va) with
  | Some page => Some (page + va mod 4096)
  | None => None
  end.

(** ** State *)

(** Physical memory, the table root, the CPU, the frame allocator and the
    addresses whose TLB entries were invalidated, latest first. *)
Record PState := mkPState {
  mem : Mem;
  cr3 : Z;
  cpu : Cpu;
  physicalMemory : BlockMap;
  invlpg : list Z
}.

Definition set_mem (s : PState) (m : Mem) : PState :=
  mkPState m (cr3 s) (cpu s) (physicalMemory s) (invlpg s).
Definition set_phys (s : PState) (c : Cpu) (b : BlockMap) : PState :=
  mkPState (mem s) (cr3 s) c b (invlpg s).

Definition vload (s : PState) (va : Z) : outcome Z :=
  match translate (mem s) (cr3 s) va with
  | Some pa => Ok (mem s pa)
  | None => Fault
  end.

Definition vstore (s : PState) (va v : Z) : outcome PState :=
  match translate (mem s) (cr3 s) va with
  | Some pa => Ok (set_mem s (upd (mem s) pa v))
  | None => Fault
  end.

(** [memset(table, 0, 8 * n)]: [n] quad-word stores of zero. *)
Fixpoint memset0 (n : nat) (s : PState) (va : Z) : outcome PState :=
  match n with
  | O => Ok s
  | S n => let! s := vstore s va 0 in memset0 n s (va + 8)
  end.

Definition invalidateTlb (s : PState) (va : Z) : PState :=
  mkPState (mem s) (cr3 s) (cpu s) (physicalMemory s) (va :: invlpg s).

(** ** Frames (physicalMemory.h) *)

Definition allocateFrame (s : PState) : outcome (Z * PState) :=
  let! '(p, (c, b)) := allocate (cpu s) (physicalMemory s) PAGE_SIZE in
  Ok (p / PAGE_SIZE, set_phys s c b).

Definition returnFrame (s : PState) (frameIndex : Z) : outcome PState :=
  let! '(c, b) := returnMemory (cpu s) (physicalMemory s) (u64 (frameIndex * PAGE_SIZE)) PAGE_SIZE in
  Ok (set_phys s c b).

(** ** Page tables (paging.cpp) *)

Definition PAGE_TABLE_POINTER : Z := 0xFFFFFF8000000000.

(** Address of [( *PAGE_TABLE_POINTER)[a][b][c][d]]. *)
Definition element (a b c d : Z) : Z :=
  PAGE_TABLE_POINTER + (((a * 512 + b) * 512 + c) * 512 + d) * 8.

Definition PML4ENTRY (i4 : Z) : Z := element 511 511 511 i4.
Definition PML3ENTRY (i4 i3 : Z) : Z := element 511 511 i4 i3.
Definition PML2ENTRY (i4 i3 i2 : Z) : Z := element 511 i4 i3 i2.
Definition PML1ENTRY (i4 i3 i2 i1 : Z) : Z := element i4 i3 i2 i1.
Definition PML3TABLE (i4 : Z) : Z := element 511 511 i4 0.
Definition PML2TABLE (i4 i3 : Z) : Z := element 511 i4 i3 0.
Definition PML1TABLE (i4 i3 i2 : Z) : Z := element i4 i3 i2 0.

Definition allocatePageTable (s : PState) : outcome (Z * PState) :=
  let! '(frame, s) := allocateFrame s in
  Ok (flag_or (flag_or (flag_or (flag_or (u64 (Z.shiftl frame 12)) PRESENT) WRITABLE) ALLOCATED) USER, s).

(** One of the three "make sure the table exists" blocks of
    [getPageTableEntry]; [false] stands for its [return nullptr]. *)
Definition ensureTable (s : PState) (entry table : Z) (allocatePageTables : bool)
  : outcome (bool * PState) :=
  let! e := vload s entry in
  if flag_and e PRESENT =? 0 then
    if allocatePageTables then
      let! '(t, s) := allocatePageTable s in
      let! s := vstore s entry t in
      let! s := memset0 512 s table in
      Ok (true, s)
    else Ok (false, s)
  else Ok (true, s).

Definition getPageTableEntry (s : PState) (virtualAddress : Z) (allocatePageTables : bool)
  : outcome (option Z * PState) :=
  let address := Z.land virtualAddress (Z.shiftl 1 48 - 1) in
  let address := Z.shiftr address 12 in
  let pml1Index := Z.land address 511 in
  let address := Z.shiftr address 9 in
  let pml2Index := Z.land address 511 in
  let address := Z.shiftr address 9 in
  let pml3Index := Z.land address 511 in
  let address := Z.shiftr address 9 in
  let pml4Index := Z.land address 511 in
  let! '(ok, s) := ensureTable s (PML4ENTRY pml4Index) (PML3TABLE pml4Index) allocatePageTables in
  if negb ok then Ok (None, s) else
  let! '(ok, s) := ensureTable s (PML3ENTRY pml4Index pml3Index)
                     (PML2TABLE pml4Index pml3Index) allocatePageTables in
  if negb ok then Ok (None, s) else
  let! '(ok, s) := ensureTable s (PML2ENTRY pml4Index pml3Index pml2Index)
                     (PML1TABLE pml4Index pml3Index pml2Index) allocatePageTables in
  if negb ok then Ok (None, s) else
  Ok (Some (PML1ENTRY pml4Index pml3Index pml2Index pml1Index), s).

Definition mapPage (s : PState) (virtualAddress physicalAddress flags : Z) (allocated cacheable : bool)
  : outcome PState :=
  let flags := flag_or flags PRESENT in
  let flags := if allocated then flag_or flags ALLOCATED else flags in
  let flags := if negb cacheable then flag_or flags UNCACHEABLE else flags in
  let pageTableEntry := Z.lor flags (Z.land physicalAddress (u64 (Z.lnot 4095))) in
  let! '(p, s) := getPageTableEntry s virtualAddress true in
  let! p := of_option p in
  vstore s p pageTableEntry.

Definition unmapPage (s : PState) (virtualAddress : Z) : outcome PState :=
  let! '(p, s) := getPageTableEntry s virtualAddress false in
  match p with
  | None => Ok s
  | Some pageTableEntry =>
      let! e := vload s pageTableEntry in
      let! s :=
        (if negb (flag_and e ALLOCATED =? 0) then
           let! e := vload s pageTableEntry in
           returnFrame s (Z.land (Z.shiftr e 12) (Z.shiftl 1 52 - 1))
         else Ok s) in
      let! s := vstore s pageTableEntry 0 in
      Ok (invalidateTlb s virtualAddress)
  end.

(** ** The initial tables (pageTableInit.cpp)

    [pml1] .. [pml4] are the physical addresses [PHYSICAL_ADDRESS(pml1)] ..
    of the four static tables; the other words of [m] are the rest of memory. *)
Definition tableFlags (e : Z) : Z := flag_or (flag_or e PRESENT) WRITABLE.

Fixpoint fillPml1 (n : nat) (i : Z) (pml1 : Z) (m : Mem) : Mem :=
  match n with
  | O => m
  | S n =>
      let address := u32 (u32 (i * 4096) + 0x200000) in
      fillPml1 n (i + 1) pml1 (upd m (pml1 + 8 * i) (tableFlags address))
  end.

Definition initPageTables (m : Mem) (pml1 pml2 pml3 pml4 : Z) : Mem * Z :=
  let m := upd m (pml4 + 8 * 256) (tableFlags pml3) in
  let m := upd m (pml3 + 8 * 0) (tableFlags pml2) in
  let m := upd m (pml2 + 8 * 1) (tableFlags pml1) in
  let m := fillPml1 512 0 pml1 m in
  let m := upd m (pml4 + 8 * 511) (tableFlags pml4) in
  (m, m (pml4 + 8 * 511)).

(** ** Words and bit fields *)

Lemma frameOf_div e : frameOf e = (e / 4096) mod 2 ^ 40 * 4096.
Proof.
  unfold frameOf. rewrite Z.shiftl_mul_pow2, Z.land_ones, Z.shiftr_div_pow2 by lia. done.
Qed.

Lemma frameOf_aligned e : frameOf e mod 4096 = 0.
Proof. rewrite frameOf_div. apply Z.mod_mul. lia. Qed.

Lemma frameOf_entry f x : 0 <= f < 2 ^ 52 -> f mod 4096 = 0 -> 0 <= x < 4096 -> frameOf (f + x) = f.
Proof.
  intros Hf Hm Hx. rewrite frameOf_div.
  replace ((f + x) / 4096) with (f / 4096) by dlia.
  rewrite Z.mod_small; [dlia|]. change (2 ^ 40) with 1099511627776.
  change (2 ^ 52) with 4503599627370496 in Hf. dlia.
Qed.

Lemma isPresent_odd e : isPresent e = Z.odd e.
Proof.
  unfold isPresent, flag_and. change PRESENT with (Z.ones 1). rewrite Z.land_ones by lia.
  rewrite Zmod_odd. by destruct (Z.odd e).
Qed.

Lemma isPresent_0 : isPresent 0 = false.
Proof. reflexivity. Qed.

Lemma index_range l va : 0 <= index l va < 512.
Proof. unfold index. apply Z.mod_pos_bound. lia. Qed.

(** The recursive addresses of the tables have the indices they should. *)
Lemma indices_element a b c d :
  0 <= a < 512 -> 0 <= b < 512 -> 0 <= c < 512 -> 0 <= d < 512 ->
  indices (element a b c d) = [511; a; b; c] /\ element a b c d mod 4096 = 8 * d.
Proof.
  intros Ha Hb Hc Hd. unfold indices, index, element, PAGE_TABLE_POINTER.
  change (12 + 9 * 3) with 39. change (12 + 9 * 2) with 30. change (12 + 9 * 1) with 21.
  change (12 + 9 * 0) with 12.
  change (2 ^ 39) with 549755813888. change (2 ^ 30) with 1073741824. change (2 ^ 21) with 2097152.
  change (2 ^ 12) with 4096.
  split; [repeat f_equal|]; dlia.
Qed.

Ltac flag_consts :=
  change PRESENT with 1 in *; change WRITABLE with 2 in *; change USER with 4 in *;
  change UNCACHEABLE with 16 in *; change ALLOCATED with 2048 in *.

(** [operator|] is a bitwise or exactly when no bit is set twice. *)
Lemma flag_or_lor a b : Z.land a b = 0 -> 0 <= a + b < 2 ^ 64 -> flag_or a b = Z.lor a b.
Proof.
  intros Hd Hr. unfold flag_or. rewrite wrap_small by done.
  pose proof (Z.add_lor_land a b). lia.
Qed.

Lemma land_page_mask pa : 0 <= pa < 2 ^ 64 -> Z.land pa (u64 (Z.lnot 4095)) = pa - pa mod 4096.
Proof.
  intros H. change (u64 (Z.lnot 4095)) with (Z.ldiff (Z.ones 64) (Z.ones 12)).
  replace (Z.land pa (Z.ldiff (Z.ones 64) (Z.ones 12))) with (Z.ldiff (Z.land pa (Z.ones 64)) (Z.ones 12)).
  - rewrite Z.land_ones, Z.mod_small, Z.ldiff_ones_r by lia.
    rewrite Z.shiftl_mul_pow2, Z.shiftr_div_pow2 by lia. change (2 ^ 12) with 4096. dlia.
  - apply Z.bits_inj'. intros n Hn. rewrite !Z.ldiff_spec, !Z.land_spec, Z.ldiff_spec.
    by destruct (Z.testbit pa n), (Z.testbit (Z.ones 64) n), (Z.testbit (Z.ones 12) n).
Qed.

(** The index extraction of [getPageTableEntry]. *)
Lemma code_index va k n :
  0 <= k <= 3 -> n = 12 + 9 * k ->
  Z.land (Z.shiftr (Z.land va (Z.shiftl 1 48 - 1)) n) 511 = index k va.
Proof.
  intros Hk ->. change (Z.shiftl 1 48 - 1) with (Z.ones 48). change 511 with (Z.ones 9).
  rewrite !Z.land_ones, Z.shiftr_div_pow2 by lia. unfold index.
  change (2 ^ 48) with 281474976710656. change (2 ^ 9) with 512.
  assert (k = 0 \/ k = 1 \/ k = 2 \/ k = 3) as [-> | [-> | [-> | ->]]] by lia.
  - change (2 ^ (12 + 9 * 0)) with 4096. dlia.
  - change (2 ^ (12 + 9 * 1)) with 2097152. dlia.
  - change (2 ^ (12 + 9 * 2)) with 1073741824. dlia.
  - change (2 ^ (12 + 9 * 3)) with 549755813888. dlia.
Qed.

(** ** Following paths *)

Lemma follow_app m t p q :
  follow m t (p ++ q) = match follow m t p with Some t' => follow m t' q | None => None end.
Proof. revert t. induction p as [|i p IH]; intros t; cbn; [done|]. by destruct (isPresent _). Qed.

Lemma follow_snoc m t p i t' :
  follow m t p = Some t' ->
  follow m t (p ++ [i]) = (if isPresent (m (t' + 8 * i)) then Some (frameOf (m (t' + 8 * i))) else None).
Proof. intros H. by rewrite follow_app, H. Qed.

Lemma follow_aligned m t p t' : t mod 4096 = 0 -> follow m t p = Some t' -> t' mod 4096 = 0.
Proof.
  revert t. induction p as [|i p IH]; cbn; intros t Ht H; [by simplify_eq|].
  destruct (isPresent _); [|done]. by apply IH in H; [|apply frameOf_aligned].
Qed.

Definition inRange (i : Z) : Prop := 0 <= i < 512.

(** Indices in range, and not entering through the recursive slot. *)
Definition goodPath (p : list Z) : Prop := Forall inRange p /\ head p <> Some 511.

(** A path that ends at a table (as opposed to a page). *)
Definition tablePath (p : list Z) : Prop := goodPath p /\ (length p <= 3)%nat.

Lemma goodPath_app p q : goodPath (p ++ q) -> goodPath p.
Proof.
  intros [H1 H2]. rewrite Forall_app in H1. split; [tauto|]. by destruct p.
Qed.

Lemma goodPath_range p i : goodPath (p ++ [i]) -> inRange i.
Proof. intros [H _]. rewrite Forall_app, Forall_singleton in H. tauto. Qed.

(** Two words of page-aligned tables are the same only if table and index
    are. *)
Lemma entry_address_inj t i t' i' :
  t mod 4096 = 0 -> t' mod 4096 = 0 -> inRange i -> inRange i' ->
  t + 8 * i = t' + 8 * i' -> t = t' /\ i = i'.
Proof. unfold inRange. intros. dlia. Qed.

(** ** The invariant of the page tables *)

Definition root (s : PState) : Z := frameOf (cr3 s).
Definition at_path (s : PState) (p : list Z) : option Z := follow (mem s) (root s) p.

Definition frameBlock (b : Block) : Prop :=
  wfBlock b /\ start b mod 4096 = 0 /\ end_ b <= 2 ^ 52.

(** Whole frames left in the allocator. *)
Fixpoint framesFree (bs : list Block) : Z :=
  match bs with
  | [] => 0
  | b :: bs => capacity b / 4096 + framesFree bs
  end.

Record frames_ok (s : PState) : Prop := {
  fo_lock : locked (bm_lock (physicalMemory s)) = false;
  fo_blocks : Forall frameBlock (blocks (physicalMemory s));
  fo_length : (length (blocks (physicalMemory s)) <= BLOCKMAP_SIZE)%nat;
  fo_disjoint : disjointMap (blocks (physicalMemory s))
}.

Definition selfMap (m : Mem) (r : Z) : Prop :=
  isPresent (m (r + 8 * 511)) = true /\ frameOf (m (r + 8 * 511)) = r.

Record tables_ok (s : PState) : Prop := {
  to_self : selfMap (mem s) (root s);
  to_inj : forall p q t, tablePath p -> tablePath q ->
             at_path s p = Some t -> at_path s q = Some t -> p = q;
  to_free : forall p t, tablePath p -> at_path s p = Some t ->
              freeCount (blocks (physicalMemory s)) t = 0;
  to_frames : frames_ok s
}.

Lemma root_aligned s : root s mod 4096 = 0.
Proof. apply frameOf_aligned. Qed.

Lemma at_path_aligned s p t : at_path s p = Some t -> t mod 4096 = 0.
Proof. apply follow_aligned, root_aligned. Qed.

(** The recursive slot is transparent. *)
Lemma follow_511 m r p : selfMap m r -> follow m r (511 :: p) = follow m r p.
Proof. intros [H1 H2]. cbn [follow]. by rewrite H1, H2. Qed.

Lemma translate_element m c a b c' d :
  inRange a -> inRange b -> inRange c' -> inRange d -> selfMap m (frameOf c) ->
  translate m c (element a b c' d)
  = match follow m (frameOf c) [a; b; c'] with Some t => Some (t + 8 * d) | None => None end.
Proof.
  intros Ha Hb Hc Hd Hok. unfold translate.
  destruct (indices_element a b c' d Ha Hb Hc Hd) as [-> ->]. by rewrite follow_511.
Qed.

(** ** The frame allocator *)

Lemma framesFree_nonneg bs : Forall frameBlock bs -> 0 <= framesFree bs.
Proof.
  induction 1 as [|b bs (H & _) _ IH]; cbn; [lia|].
  pose proof (capacity_wf b H). unfold wfBlock in H. dlia.
Qed.

Lemma framesFree_fits bs :
  Forall frameBlock bs -> 1 <= framesFree bs -> exists b, b ∈ bs /\ PAGE_SIZE <= capacity b.
Proof.
  intros Hf H. induction Hf as [|b bs (Hb & _) _ IH]; cbn in H; [lia|].
  destruct (Z.leb_spec PAGE_SIZE (capacity b)) as [?|Hlt]; [exists b; set_solver|].
  destruct IH as (d & ? & ?); [|exists d; set_solver]. unfold PAGE_SIZE in *.
  pose proof (capacity_wf b Hb). unfold wfBlock in Hb. dlia.
Qed.

Lemma allocate_loop_frames bs p bs' :
  Forall frameBlock bs -> allocate_loop bs PAGE_SIZE = (p, bs') ->
  Forall frameBlock bs' /\
  (1 <= framesFree bs -> framesFree bs' = framesFree bs - 1 /\ p mod 4096 = 0 /\ 0 <= p < 2 ^ 52).
Proof.
  intros Hf. revert p bs'. induction Hf as [|b bs Hb Hbs IH]; intros p bs' E; cbn in E.
  - simplify_eq. split; [by constructor|]. cbn. lia.
  - pose proof Hb as (Hw & Ha & He). pose proof (capacity_wf b Hw) as Hc. unfold wfBlock in Hw.
    destruct (Z.leb_spec PAGE_SIZE (capacity b)) as [Hfit|Hfit]; unfold PAGE_SIZE in *.
    + rewrite Block_reserve_wf in E by (unfold wfBlock; lia). simplify_eq.
      assert (Hw' : wfBlock (mkBlock (start b + 4096) (end_ b))) by (unfold wfBlock; cbn; lia).
      split; [constructor; [|done]; split; [done|]; cbn; split; [dlia|lia]|].
      intros _. cbn. rewrite Hc, (capacity_wf _ Hw'). cbn. split; [dlia|]. split; [done|lia].
    + destruct (allocate_loop bs 4096) as [r bs1] eqn:E1. simplify_eq.
      destruct (IH _ _ eq_refl) as [I1 I2]. split; [by constructor|]. cbn. intros H.
      assert (capacity b / 4096 = 0) by dlia. destruct I2 as (? & ? & ?); [lia|]. split; [lia|done].
Qed.

(** A successful [allocateFrame]: a frame that was free and no longer is. *)
Lemma allocateFrame_ok s :
  frames_ok s -> 1 <= framesFree (blocks (physicalMemory s)) ->
  exists F b, allocateFrame s = Ok (F / 4096, set_phys s (cpu s) b) /\
    F mod 4096 = 0 /\ 0 <= F < 2 ^ 52 /\
    frames_ok (set_phys s (cpu s) b) /\
    framesFree (blocks b) = framesFree (blocks (physicalMemory s)) - 1 /\
    (forall a, freeCount (blocks (physicalMemory s)) a
       = freeCount (blocks b) a + cov (mkBlock F (F + 4096)) a).
Proof.
  intros [Hl Hb Hn Hd] Hfree.
  assert (Hw : Forall wfBlock (blocks (physicalMemory s))) by (eapply Forall_impl; [exact Hb|intros ? [? _]; done]).
  destruct (allocate_run (cpu s) (physicalMemory s) PAGE_SIZE Hl Hw) as (p & bs & E & Eloop); [done|].
  destruct (allocate_loop_spec _ PAGE_SIZE _ _ Hw ltac:(done) Eloop) as (L1 & _ & L3 & _).
  destruct (allocate_loop_frames _ _ _ Hb Eloop) as [M1 M2].
  destruct (M2 Hfree) as (M3 & M4 & M5). destruct L3 as [_ Hcov]; [by apply framesFree_fits|].
  eexists p, _. unfold allocateFrame. rewrite E. cbn [obind].
  split; [done|]. split; [done|]. split; [done|]. split; [|split; [done|exact Hcov]].
  constructor; cbn; [done|done|lia|]. intros a. specialize (Hcov a). specialize (Hd a).
  pose proof (cov_range (mkBlock p (p + PAGE_SIZE)) a). lia.
Qed.

(** ** Addresses and their entries *)

Definition tableIndices (va : Z) : list Z := [index 3 va; index 2 va; index 1 va].

Lemma indices_split va : indices va = tableIndices va ++ [index 0 va].
Proof. reflexivity. Qed.

Definition userAddress (va : Z) : Prop := index 3 va <> 511.

Lemma goodPath_prefix va p q : userAddress va -> p ++ q = indices va -> goodPath p.
Proof.
  intros Hu H. apply (goodPath_app p q). rewrite H. split; [|by intros [= ?]].
  repeat constructor; unfold inRange; apply index_range.
Qed.

Lemma tablePath_prefix va p q : userAddress va -> p ++ q = tableIndices va -> tablePath p.
Proof.
  intros Hu H. split.
  - apply (goodPath_prefix va p (q ++ [index 0 va])); [done|].
    by rewrite app_assoc, H.
  - apply (f_equal length) in H. rewrite length_app in H. cbn in H. lia.
Qed.

Definition samePage (va va' : Z) : Prop := indices va = indices va'.

(** The entry of the last-level table for a virtual address. *)
Definition pageEntry (s : PState) (va : Z) : option Z :=
  match at_path s (tableIndices va) with
  | Some t => Some (mem s (t + 8 * index 0 va))
  | None => None
  end.

(** ** Updating the tables *)

(** Two memories agree on every word that following [q] reads, except the
    word of entry [i] of the table at path [p]. *)
Lemma follow_update m m' r p i q :
  (forall q' j t, (exists rest, q = q' ++ j :: rest) -> (q', j) <> (p, i) ->
     follow m r q' = Some t -> m' (t + 8 * j) = m (t + 8 * j)) ->
  (forall rest, q <> p ++ i :: rest) ->
  follow m' r q = follow m r q.
Proof.
  revert p i. induction q as [|j q IH] using rev_ind; intros p i Hag Hno; [done|].
  assert (Hq : follow m' r q = follow m r q).
  { apply (IH p i).
    - intros q' k t [rest ->] Hne Ht. apply (Hag q' k t); [|done|done].
      exists (rest ++ [j]). by rewrite <- app_assoc.
    - intros rest ->. apply (Hno (rest ++ [j])). by rewrite <- app_assoc. }
  rewrite !follow_app, Hq. destruct (follow m r q) as [t|] eqn:Ht; [|done]. cbn.
  rewrite (Hag q j t); [done|by exists []| |done].
  intros [= -> ->]. by apply (Hno []).
Qed.

(** [s'] extends the tables of [s]: same allocator invariant, every mapping
    and every table of [s] is still there, and no page appeared. *)
Record extends (s s' : PState) : Prop := {
  ex_cr3 : cr3 s' = cr3 s;
  ex_cpu : cpu s' = cpu s;
  ex_invlpg : invlpg s' = invlpg s;
  ex_keep : forall q t, goodPath q -> (length q <= 4)%nat -> at_path s q = Some t -> at_path s' q = Some t;
  ex_entries : forall va e, userAddress va -> pageEntry s va = Some e -> pageEntry s' va = Some e;
  ex_pages : forall q, goodPath q -> length q = 4%nat -> at_path s' q = at_path s q;
  ex_tables : forall q t, tablePath q -> at_path s' q = Some t ->
                at_path s q = Some t \/ 0 < freeCount (blocks (physicalMemory s)) t;
  ex_free : forall a, freeCount (blocks (physicalMemory s')) a <= freeCount (blocks (physicalMemory s)) a
}.

Lemma extends_refl s : extends s s.
Proof. constructor; auto. lia. Qed.

Lemma extends_trans s1 s2 s3 : extends s1 s2 -> extends s2 s3 -> extends s1 s3.
Proof.
  intros H1 H2. constructor.
  - by rewrite (ex_cr3 _ _ H2), (ex_cr3 _ _ H1).
  - by rewrite (ex_cpu _ _ H2), (ex_cpu _ _ H1).
  - by rewrite (ex_invlpg _ _ H2), (ex_invlpg _ _ H1).
  - intros q t Hq Hl Ht. apply (ex_keep _ _ H2); [done..|]. by apply (ex_keep _ _ H1).
  - intros va e Hu He. apply (ex_entries _ _ H2); [done|]. by apply (ex_entries _ _ H1).
  - intros q Hq Hl. by rewrite (ex_pages _ _ H2), (ex_pages _ _ H1).
  - intros q t Hq Ht. apply (ex_tables _ _ H2) in Ht as [Ht|Ht]; [| |done].
    + by apply (ex_tables _ _ H1).
    + right. pose proof (ex_free _ _ H1 t). lia.
  - intros a. etrans; [apply (ex_free _ _ H2) | apply (ex_free _ _ H1)].
Qed.

#[export] Hint Resolve extends_refl extends_trans : kernel.

(** A memory in which entry [i] of the table at [t] is [e] and only that word
    and the page [F] changed. *)
Definition newTable (m : Mem) (t i F e : Z) (m' : Mem) : Prop :=
  m' (t + 8 * i) = e /\
  forall a, a <> t + 8 * i -> (forall j, inRange j -> a <> F + 8 * j) -> m' a = m a.

Section NewTable.
Context (s : PState) (Hok : tables_ok s) (p : list Z) (i t F e : Z) (m' : Mem).
Context (Hp : tablePath p) (Hpi : goodPath (p ++ [i])) (Ht : at_path s p = Some t).
Context (Hmiss : at_path s (p ++ [i]) = None).
Context (HF : F mod 4096 = 0) (Hfresh : forall q u, tablePath q -> at_path s q = Some u -> u <> F).
Context (He : isPresent e = true /\ frameOf e = F) (Hm : newTable (mem s) t i F e m').

Lemma newTable_agree q' j u :
  tablePath q' -> inRange j -> (q', j) <> (p, i) -> at_path s q' = Some u ->
  m' (u + 8 * j) = mem s (u + 8 * j).
Proof.
  intros Hq Hj Hne Hu. destruct Hm as [_ Hrest].
  assert (Hu0 : u mod 4096 = 0) by by eapply at_path_aligned.
  assert (Ht0 : t mod 4096 = 0) by by eapply at_path_aligned.
  assert (Hi : inRange i) by by eapply goodPath_range.
  apply Hrest.
  - intros Heq. apply entry_address_inj in Heq as [-> ->]; [|done..].
    apply Hne. f_equal. by apply (to_inj s Hok q' p t).
  - intros k Hk Heq. apply entry_address_inj in Heq as [-> _]; [|done..]. by eapply Hfresh.
Qed.

Lemma newTable_other q :
  goodPath q -> (length q <= 4)%nat -> (forall rest, q <> p ++ i :: rest) ->
  follow m' (root s) q = at_path s q.
Proof.
  intros Hq Hl Hno. apply (follow_update _ _ _ p i); [|done].
  intros q' j u [rest ->] Hne Hu. apply (newTable_agree q'); [|destruct Hq as [Hq _]|done|done].
  - split; [by eapply goodPath_app|]. rewrite length_app in Hl. cbn in Hl. lia.
  - rewrite Forall_app, Forall_cons in Hq. tauto.
Qed.

Lemma newTable_self : selfMap m' (root s).
Proof.
  destruct (to_self s Hok) as [H1 H2]. unfold selfMap.
  rewrite (newTable_agree [] 511 (root s)); [done | | | |done].
  - split; [split; [by constructor|done] | cbn; lia].
  - unfold inRange; lia.
  - intros [= <- <-]. by destruct Hpi as [_ []].
Qed.

Lemma newTable_here : follow m' (root s) (p ++ [i]) = Some F.
Proof.
  destruct Hm as [He' _]. destruct He as [Hpres Hfr].
  rewrite (follow_snoc _ _ _ _ t); [by rewrite He', Hpres, Hfr|].
  rewrite <- Ht. apply newTable_other; [by destruct Hp as [? _] | by destruct Hp; lia|].
  intros r Hr. apply (f_equal length) in Hr. rewrite length_app in Hr. cbn in Hr. lia.
Qed.

Lemma prefix_split (q : list Z) : {rest | q = p ++ i :: rest} + {forall rest, q <> p ++ i :: rest}.
Proof.
  destruct (decide (take (S (length p)) q = p ++ [i])) as [H|H].
  - left. exists (drop (S (length p)) q).
    rewrite <- (take_drop (S (length p)) q) at 1. by rewrite H, <- app_assoc.
  - right. intros rest ->. apply H. by rewrite take_app_add' || (rewrite take_app_ge by lia;
      replace (S (length p) - length p)%nat with 1%nat by lia).
Qed.

Context (Hz : forall j, inRange j -> m' (F + 8 * j) = 0).

Lemma newTable_at q :
  goodPath q -> (length q <= 4)%nat ->
  follow m' (root s) q = match prefix_split q with
                         | inleft (exist _ [] _) => Some F
                         | inleft _ => None
                         | inright _ => at_path s q
                         end.
Proof.
  intros Hq Hl. destruct (prefix_split q) as [[rest ->]|Hno]; [|by apply newTable_other].
  destruct rest as [|j rest]; [apply newTable_here|].
  replace (p ++ i :: j :: rest) with ((p ++ [i]) ++ j :: rest) by (by rewrite <- app_assoc).
  rewrite follow_app, newTable_here. cbn. rewrite Hz, isPresent_0; [done|].
  destruct Hq as [Hq _]. rewrite Forall_app, !Forall_cons in Hq. tauto.
Qed.

Lemma newTable_miss rest : at_path s (p ++ i :: rest) = None.
Proof.
  replace (p ++ i :: rest) with ((p ++ [i]) ++ rest) by (by rewrite <- app_assoc).
  unfold at_path in *. by rewrite follow_app, Hmiss.
Qed.
End NewTable.

(** ** memset of a fresh table *)

(** Provided every store of the loop translates to its word of the page [F],
    also after other words of that page were overwritten, the loop zeroes
    the page and nothing else. *)
Lemma memset0_page table F (m0 : Mem) (s0 : PState)
  (Hst : forall m1 j, inRange j ->
     (forall a, (forall j, inRange j -> a <> F + 8 * j) -> m1 a = m0 a) ->
     translate m1 (cr3 s0) (table + 8 * j) = Some (F + 8 * j)) n : forall k s1,
  0 <= k -> k + Z.of_nat n <= 512 -> cr3 s1 = cr3 s0 ->
  (forall a, (forall j, inRange j -> a <> F + 8 * j) -> mem s1 a = m0 a) ->
  (forall j, 0 <= j < k -> mem s1 (F + 8 * j) = 0) ->
  exists m1, memset0 n s1 (table + 8 * k) = Ok (set_mem s1 m1) /\
    (forall a, (forall j, inRange j -> a <> F + 8 * j) -> m1 a = m0 a) /\
    (forall j, 0 <= j < k + Z.of_nat n -> m1 (F + 8 * j) = 0).
Proof.
  induction n as [|n IH]; intros k s1 Hk Hn Hc Hag Hz; cbn [memset0].
  - exists (mem s1). split; [by destruct s1|]. split; [done|]. intros j Hj. apply Hz. lia.
  - unfold vstore. rewrite Hc, (Hst (mem s1) k); [|unfold inRange; lia|done]. cbn [obind].
    set (s2 := set_mem s1 (upd (mem s1) (F + 8 * k) 0)).
    destruct (IH (k + 1) s2) as (m1 & E & H1 & H2); try lia.
    + done.
    + intros a Ha. cbn. unfold upd. rewrite (proj2 (Z.eqb_neq _ _)); [by apply Hag|].
      apply Ha. unfold inRange. lia.
    + intros j Hj. cbn. unfold upd. destruct (Z.eqb_spec (F + 8 * j) (F + 8 * k)); [done|].
      apply Hz. lia.
    + replace (table + 8 * k + 8) with (table + 8 * (k + 1)) by lia.
      exists m1. split; [exact E|]. split; [done|]. intros j Hj. apply H2. lia.
Qed.

Lemma newTableEntry F :
  0 <= F < 2 ^ 52 -> F mod 4096 = 0 ->
  let e := flag_or (flag_or (flag_or (flag_or (u64 (Z.shiftl (F / 4096) 12)) PRESENT) WRITABLE) ALLOCATED) USER in
  isPresent e = true /\ frameOf e = F.
Proof.
  intros HF Ha. cbn zeta.
  assert (Hsh : Z.shiftl (F / 4096) 12 = F)
    by (rewrite Z.shiftl_mul_pow2 by lia; change (2 ^ 12) with 4096; dlia).
  rewrite Hsh. unfold flag_or. change PRESENT with 1. change WRITABLE with 2.
  change ALLOCATED with 2048. change USER with 4. change (2 ^ 52) with 4503599627370496 in HF.
  unwrap.
  replace (F + 1 + 2 + 2048 + 4) with (F + 2055) by lia. split; [|by apply frameOf_entry].
  rewrite isPresent_odd, Z.odd_add. change (Z.odd 2055) with true.
  replace F with (2 * (F / 2)) by dlia. by rewrite Z.odd_mul.
Qed.

(** ** ensureTable *)

(** [entry] is the recursive address of entry [i] of the table at path [p],
    and [table] that of the table it points to. *)
Definition recursiveAddresses (p : list Z) (i entry table : Z) : Prop :=
  forall m c, selfMap m (frameOf c) ->
    translate m c entry
      = match follow m (frameOf c) p with Some t => Some (t + 8 * i) | None => None end /\
    forall j, inRange j -> translate m c (table + 8 * j)
      = match follow m (frameOf c) (p ++ [i]) with Some t => Some (t + 8 * j) | None => None end.

Lemma element_word a b c d : element a b c 0 + 8 * d = element a b c d.
Proof. unfold element. lia. Qed.

Lemma recursive_4 i4 : inRange i4 -> recursiveAddresses [] i4 (PML4ENTRY i4) (PML3TABLE i4).
Proof.
  intros H m c Hs. assert (inRange 511) by (unfold inRange; lia).
  unfold PML4ENTRY, PML3TABLE. split; [|intros j Hj]; rewrite ?element_word, translate_element by done;
    by rewrite !follow_511.
Qed.

Lemma recursive_3 i4 i3 :
  inRange i4 -> inRange i3 -> recursiveAddresses [i4] i3 (PML3ENTRY i4 i3) (PML2TABLE i4 i3).
Proof.
  intros H4 H3 m c Hs. assert (inRange 511) by (unfold inRange; lia).
  unfold PML3ENTRY, PML2TABLE. split; [|intros j Hj]; rewrite ?element_word, translate_element by done;
    by rewrite !follow_511.
Qed.

Lemma recursive_2 i4 i3 i2 :
  inRange i4 -> inRange i3 -> inRange i2 ->
  recursiveAddresses [i4; i3] i2 (PML2ENTRY i4 i3 i2) (PML1TABLE i4 i3 i2).
Proof.
  intros H4 H3 H2 m c Hs. assert (inRange 511) by (unfold inRange; lia).
  unfold PML2ENTRY, PML1TABLE. split; [|intros j Hj]; rewrite ?element_word, translate_element by done;
    by rewrite ?follow_511.
Qed.

(** A frame just taken from the allocator is no table. *)
Lemma frame_fresh s b F :
  tables_ok s -> frames_ok (set_phys s (cpu s) b) ->
  (forall a, freeCount (blocks (physicalMemory s)) a
     = freeCount (blocks b) a + cov (mkBlock F (F + 4096)) a) ->
  freeCount (blocks b) F = 0 /\
  forall q u, tablePath q -> at_path s q = Some u -> u <> F.
Proof.
  intros Hok Hfo Hcov. specialize (Hcov F).
  pose proof (fo_disjoint _ (to_frames _ Hok) F) as Hd.
  pose proof (freeCount_nonneg (blocks b) F).
  assert (cov (mkBlock F (F + 4096)) F = 1) by (apply cov_1; cbn; lia).
  split; [lia|]. intros q u Hq Hu ->. pose proof (to_free _ Hok q F Hq Hu). lia.
Qed.

(** A new table keeps the invariant and every existing mapping. *)
Lemma newTable_ok s b p i t F e m' :
  tables_ok s -> tablePath p -> tablePath (p ++ [i]) -> at_path s p = Some t ->
  at_path s (p ++ [i]) = None ->
  F mod 4096 = 0 -> isPresent e = true /\ frameOf e = F ->
  newTable (mem s) t i F e m' -> (forall j, inRange j -> m' (F + 8 * j) = 0) ->
  frames_ok (set_phys s (cpu s) b) ->
  (forall a, freeCount (blocks (physicalMemory s)) a
     = freeCount (blocks b) a + cov (mkBlock F (F + 4096)) a) ->
  let s' := set_mem (set_phys s (cpu s) b) m' in
  tables_ok s' /\ extends s s' /\ at_path s' (p ++ [i]) = Some F.
Proof.
  intros Hok Hp [Hpi Hl] Ht Hmiss HF He Hm Hz Hfo Hcov s'.
  destruct (frame_fresh s b F Hok Hfo Hcov) as [HF1 Hfresh].
  pose proof (newTable_at s Hok p i t F e m' Hp Hpi Ht HF Hfresh He Hm Hz) as Hat.
  assert (Hle : forall a, freeCount (blocks b) a <= freeCount (blocks (physicalMemory s)) a)
    by (intros a; specialize (Hcov a); pose proof (cov_range (mkBlock F (F + 4096)) a); lia).
  assert (Htab : forall q u, tablePath q -> at_path s' q = Some u -> at_path s q = Some u \/ q = p ++ [i] /\ u = F).
  { intros q u [Hq Hql] Hu. change (follow m' (root s) q = Some u) in Hu.
    rewrite Hat in Hu by (done || lia). destruct (prefix_split p i q) as [[[|j r] ->]|]; simplify_eq; auto. }
  split; [|split].
  - constructor; [| | |by destruct Hfo; constructor].
    + by apply (newTable_self s Hok p i t F e m').
    + intros q1 q2 u T1 T2 H1 H2. apply Htab in H1, H2; [|done..].
      destruct H1 as [H1|[-> ->]], H2 as [H2|[-> E2]]; try done.
      * by apply (to_inj s Hok q1 q2 u).
      * subst. by destruct (Hfresh q1 F T1 H1).
      * by destruct (Hfresh q2 F T2 H2).
    + intros q u Hq Hu. apply Htab in Hu as [Hu|[-> ->]]; [|exact HF1|done].
      pose proof (to_free _ Hok q u Hq Hu). specialize (Hle u).
      pose proof (freeCount_nonneg (blocks b) u). cbn. lia.
  - constructor; [done..| | | | |exact Hle].
    + intros q u Hq Hlq Hu. change (follow m' (root s) q = Some u).
      rewrite Hat by done. destruct (prefix_split p i q) as [[r ->]|]; [|done].
      by rewrite (newTable_miss s p i Hmiss) in Hu.
    + intros va x Hu Hx. unfold pageEntry in *.
      destruct (at_path s (tableIndices va)) as [u|] eqn:Eu; [|done].
      assert (T3 : tablePath (tableIndices va)) by (apply (tablePath_prefix va _ []); [done|apply app_nil_r]).
      assert (at_path s' (tableIndices va) = Some u) as ->.
      { change (follow m' (root s) (tableIndices va) = Some u). destruct T3 as [Tg Tl].
        rewrite Hat by (done || lia). destruct (prefix_split p i (tableIndices va)) as [[r Hr]|]; [|done].
        rewrite Hr, (newTable_miss s p i Hmiss) in Eu. done. }
      rewrite <- Hx. f_equal. apply (newTable_agree s Hok p i t F e m' Hp Hpi Ht HF Hfresh Hm (tableIndices va));
        [done|apply index_range| |done].
      intros [= <- _]. rewrite length_app in Hl. cbn in Hl. lia.
    + intros q Hq Hlq. change (follow m' (root s) q = at_path s q). rewrite Hat by (done || lia).
      destruct (prefix_split p i q) as [[[|j r] ->]|]; [| |done].
      * exfalso. rewrite length_app in Hl, Hlq. cbn in *. lia.
      * by rewrite (newTable_miss s p i Hmiss).
    + intros q u Hq Hu. apply Htab in Hu as [Hu|[-> ->]]; [by left| |done]. right.
      specialize (Hcov F). assert (cov (mkBlock F (F + 4096)) F = 1) by (apply cov_1; cbn; lia).
      pose proof (freeCount_nonneg (blocks b) F). lia.
  - change (follow m' (root s) (p ++ [i]) = Some F).
    by apply (newTable_here s Hok p i t F e m').
Qed.

Lemma ensureTable_spec s p i entry table t :
  tables_ok s -> tablePath p -> tablePath (p ++ [i]) -> at_path s p = Some t ->
  recursiveAddresses p i entry table -> 1 <= framesFree (blocks (physicalMemory s)) ->
  exists s' t', ensureTable s entry table true = Ok (true, s') /\ tables_ok s' /\ extends s s' /\
    at_path s' (p ++ [i]) = Some t' /\
    framesFree (blocks (physicalMemory s)) - 1 <= framesFree (blocks (physicalMemory s')).
Proof.
  intros Hok Hp Hpi Ht Hrec Hfree.
  destruct (Hrec (mem s) (cr3 s) (to_self s Hok)) as [Hentry _].
  change (follow (mem s) (frameOf (cr3 s)) p) with (at_path s p) in Hentry. rewrite Ht in Hentry.
  unfold ensureTable, vload. rewrite Hentry. cbn [obind].
  pose proof (follow_snoc (mem s) (root s) p i t Ht) as Hsn. unfold isPresent in Hsn.
  destruct (flag_and (mem s (t + 8 * i)) PRESENT =? 0) eqn:Hpr; cbn [negb] in Hsn.
  2: { exists s, (frameOf (mem s (t + 8 * i))). split; [done|]. split; [done|].
       split; [auto with kernel|]. split; [exact Hsn|lia]. }
  destruct (allocateFrame_ok s (to_frames s Hok) Hfree) as (F & b & E & HFa & HFr & Hfo & Hff & Hcov).
  destruct (frame_fresh s b F Hok Hfo Hcov) as [_ Hfresh].
  unfold allocatePageTable. rewrite E. cbn [obind].
  pose proof (newTableEntry F HFr HFa) as He. cbn zeta in He.
  set (e := flag_or (flag_or (flag_or (flag_or (u64 (Z.shiftl (F / 4096) 12)) PRESENT) WRITABLE) ALLOCATED) USER) in *.
  unfold vstore at 1. cbn [mem cr3 set_phys]. rewrite Hentry. cbn [obind].
  set (m0 := upd (mem s) (t + 8 * i) e).
  set (s2 := set_mem (set_phys s (cpu s) b) m0).
  assert (Ht0 : t mod 4096 = 0) by by eapply at_path_aligned.
  assert (Hi : inRange i) by (destruct Hpi; by eapply goodPath_range).
  assert (Hoff : forall j, inRange j -> t + 8 * i <> F + 8 * j).
  { intros j Hj Heq. apply entry_address_inj in Heq as [-> _]; [|done..]. by apply (Hfresh p F). }
  assert (Hnew : forall m1, (forall a, (forall j, inRange j -> a <> F + 8 * j) -> m1 a = m0 a) ->
            newTable (mem s) t i F e m1).
  { intros m1 Hag. split; [rewrite Hag by done; unfold m0, upd; by rewrite Z.eqb_refl|].
    intros a Ha Hpage. rewrite Hag by done. unfold m0, upd. by rewrite (proj2 (Z.eqb_neq _ _)). }
  destruct (memset0_page table F m0 s2) with (n := 512%nat) (k := 0) (s1 := s2) as (m1 & Em & Hag & Hz);
    [|lia|lia|done|done|intros; lia|].
  { intros m1 j Hj Hag. destruct Hpi as [Hpi _].
    destruct (Hrec m1 (cr3 s2)) as [_ Hw].
    - by apply (newTable_self s Hok p i t F e m1); auto.
    - rewrite Hw by done. change (frameOf (cr3 s2)) with (root s).
      by rewrite (newTable_here s Hok p i t F e m1); auto. }
  replace (table + 8 * 0) with table in Em by lia. rewrite Em. cbn [obind].
  destruct (newTable_ok s b p i t F e m1) as (N1 & N2 & N3); auto.
  exists (set_mem s2 m1), F. split; [done|]. split; [exact N1|]. split; [exact N2|]. split; [exact N3|].
  cbn. lia.
Qed.

(** ** getPageTableEntry *)

Lemma getPageTableEntry_unfold s va al :
  getPageTableEntry s va al =
  (let! '(ok, s) := ensureTable s (PML4ENTRY (index 3 va)) (PML3TABLE (index 3 va)) al in
   if negb ok then Ok (None, s) else
   let! '(ok, s) := ensureTable s (PML3ENTRY (index 3 va) (index 2 va)) (PML2TABLE (index 3 va) (index 2 va)) al in
   if negb ok then Ok (None, s) else
   let! '(ok, s) := ensureTable s (PML2ENTRY (index 3 va) (index 2 va) (index 1 va))
                      (PML1TABLE (index 3 va) (index 2 va) (index 1 va)) al in
   if negb ok then Ok (None, s) else
   Ok (Some (PML1ENTRY (index 3 va) (index 2 va) (index 1 va) (index 0 va)), s)).
Proof.
  unfold getPageTableEntry. cbv zeta. rewrite !Z.shiftr_shiftr by lia.
  rewrite (code_index va 0 12), (code_index va 1 (12 + 9)), (code_index va 2 (12 + (9 + 9))),
    (code_index va 3 (12 + (9 + (9 + 9)))) by lia. done.
Qed.

Lemma getPageTableEntry_alloc s va :
  tables_ok s -> userAddress va -> 3 <= framesFree (blocks (physicalMemory s)) ->
  exists s' t,
    getPageTableEntry s va true
      = Ok (Some (PML1ENTRY (index 3 va) (index 2 va) (index 1 va) (index 0 va)), s') /\
    tables_ok s' /\ extends s s' /\ at_path s' (tableIndices va) = Some t /\
    framesFree (blocks (physicalMemory s)) - 3 <= framesFree (blocks (physicalMemory s')).
Proof.
  intros Hok Hu Hf. rewrite getPageTableEntry_unfold. unfold tableIndices.
  assert (T0 : tablePath []) by by apply (tablePath_prefix va [] (tableIndices va)).
  assert (T1 : tablePath [index 3 va]) by by apply (tablePath_prefix va [index 3 va] [index 2 va; index 1 va]).
  assert (T2 : tablePath [index 3 va; index 2 va])
    by by apply (tablePath_prefix va [index 3 va; index 2 va] [index 1 va]).
  assert (T3 : tablePath (tableIndices va)) by (apply (tablePath_prefix va _ []); [done|apply app_nil_r]).
  destruct (ensureTable_spec s [] (index 3 va) _ _ (root s) Hok T0 T1 eq_refl
    (recursive_4 _ (index_range 3 va)) ltac:(lia)) as (s1 & t1 & E1 & Hok1 & Hx1 & Ht1 & Hf1).
  rewrite E1. cbn [obind negb].
  destruct (ensureTable_spec s1 [index 3 va] (index 2 va) _ _ t1 Hok1 T1 T2 Ht1
    (recursive_3 _ _ (index_range 3 va) (index_range 2 va)) ltac:(lia)) as (s2 & t2 & E2 & Hok2 & Hx2 & Ht2 & Hf2).
  rewrite E2. cbn [obind negb].
  destruct (ensureTable_spec s2 [index 3 va; index 2 va] (index 1 va) _ _ t2 Hok2 T2 T3 Ht2
    (recursive_2 _ _ _ (index_range 3 va) (index_range 2 va) (index_range 1 va)) ltac:(lia))
    as (s3 & t3 & E3 & Hok3 & Hx3 & Ht3 & Hf3).
  rewrite E3. cbn [obind negb].
  exists s3, t3. split; [done|]. split; [done|]. split; [eauto with kernel|]. split; [exact Ht3|lia].
Qed.

(** Writing the entry of one page changes the translation of that page only. *)
Lemma set_leaf s va t v :
  tables_ok s -> userAddress va -> at_path s (tableIndices va) = Some t ->
  let s' := set_mem s (upd (mem s) (t + 8 * index 0 va) v) in
  tables_ok s' /\
  (forall q, goodPath q -> (length q <= 4)%nat -> q <> indices va -> at_path s' q = at_path s q) /\
  at_path s' (indices va) = (if isPresent v then Some (frameOf v) else None) /\
  pageEntry s' va = Some v /\
  (forall va', userAddress va' -> ~ samePage va' va -> pageEntry s' va' = pageEntry s va').
Proof.
  intros Hok Hu Ht s'.
  assert (Ht0 : t mod 4096 = 0) by by eapply at_path_aligned.
  assert (T3 : tablePath (tableIndices va)) by (apply (tablePath_prefix va _ []); [done|apply app_nil_r]).
  assert (Hag : forall q' j u, tablePath q' -> inRange j -> (q', j) <> (tableIndices va, index 0 va) ->
            at_path s q' = Some u -> mem s' (u + 8 * j) = mem s (u + 8 * j)).
  { intros q' j u Hq Hj Hne Hx. cbn. unfold upd.
    destruct (Z.eqb_spec (u + 8 * j) (t + 8 * index 0 va)) as [Heq|]; [exfalso|done].
    apply entry_address_inj in Heq as [-> ->]; [|by eapply at_path_aligned|done|done|apply index_range].
    apply Hne. f_equal. by apply (to_inj s Hok q' (tableIndices va) t). }
  assert (Hother : forall q, goodPath q -> (length q <= 4)%nat -> q <> indices va -> at_path s' q = at_path s q).
  { intros q Hq Hl Hne. apply (follow_update _ _ _ (tableIndices va) (index 0 va)).
    - intros q' j u [rest ->] Hne' Hx. rewrite length_app in Hl. cbn in Hl.
      apply (Hag q'); [split; [by eapply goodPath_app|lia]| |done|done].
      destruct Hq as [Hq _]. rewrite Forall_app, Forall_cons in Hq. tauto.
    - intros [|j rest] ->; [done|]. cbn in Hl. lia. }
  assert (Htab : forall q, tablePath q -> at_path s' q = at_path s q).
  { intros q [Hq Hl]. apply Hother; [done|lia|]. intros ->. cbn in Hl. lia. }
  split; [|split; [exact Hother|]].
  - constructor.
    + unfold selfMap. change (root s') with (root s).
      rewrite (Hag [] 511 (root s)); [apply Hok|by split; [split; [constructor|]|cbn; lia]| |done|done].
      unfold inRange; lia.
    + intros p q u Hp Hq. rewrite !Htab by done. by apply (to_inj s Hok).
    + intros p u Hp. rewrite Htab by done. by apply (to_free s Hok).
    + by destruct (to_frames s Hok); constructor.
  - split; [|split].
    + rewrite indices_split. unfold at_path. rewrite (follow_snoc _ _ _ _ t).
      * cbn. unfold upd. by rewrite Z.eqb_refl.
      * by rewrite <- Ht, <- Htab.
    + unfold pageEntry. rewrite Htab, Ht by done. cbn. unfold upd. by rewrite Z.eqb_refl.
    + intros va' Hu' Hne. unfold pageEntry.
      assert (T3' : tablePath (tableIndices va')) by (apply (tablePath_prefix va' _ []); [done|apply app_nil_r]).
      rewrite Htab by done. destruct (at_path s (tableIndices va')) as [u|] eqn:Eu; [|done].
      f_equal. apply (Hag (tableIndices va')); [done|apply index_range| |done].
      intros [= E3 E2 E1 E0]. apply Hne. unfold samePage, indices. by rewrite E3, E2, E1, E0.
Qed.

(** ** mapPage *)

(** The page-table entry [mapPage] stores. *)
Definition entryFor (pa flags : Z) (allocated cacheable : bool) : Z :=
  pa - pa mod 4096 + flags + PRESENT + (if allocated then ALLOCATED else 0)
  + (if cacheable then 0 else UNCACHEABLE).

(** The caller leaves the bits [mapPage] sets to it. *)
Definition callerFlags (flags : Z) : Prop :=
  0 <= flags < 4096 /\ Z.land flags (PRESENT + ALLOCATED + UNCACHEABLE) = 0.

Lemma callerFlags_sum flags al ca :
  callerFlags flags ->
  flags + PRESENT + (if al : bool then ALLOCATED else 0) + (if ca : bool then 0 else UNCACHEABLE) < 4096
  /\ Z.odd flags = false.
Proof.
  intros [Hr Hd]. change (PRESENT + ALLOCATED + UNCACHEABLE) with 2065 in Hd.
  pose proof (Z.add_nocarry_lt_pow2 flags 2065 12 Hd ltac:(lia) ltac:(done)) as Hs.
  change (2 ^ 12) with 4096 in Hs. flag_consts. split; [destruct al, ca; lia|].
  rewrite <- Z.bit0_odd. apply (f_equal (fun z => Z.testbit z 0)) in Hd.
  rewrite Z.land_spec, Z.bits_0 in Hd. change (Z.testbit 2065 0) with true in Hd.
  by rewrite andb_true_r in Hd.
Qed.

Lemma mapPage_flags pa flags al ca :
  0 <= pa < 2 ^ 52 -> callerFlags flags ->
  let f := flag_or flags PRESENT in
  let f := if al : bool then flag_or f ALLOCATED else f in
  let f := if negb ca then flag_or f UNCACHEABLE else f in
  Z.lor f (Z.land pa (u64 (Z.lnot 4095))) = entryFor pa flags al ca /\
  isPresent (entryFor pa flags al ca) = true /\
  frameOf (entryFor pa flags al ca) = pa - pa mod 4096.
Proof.
  intros Hpa Hf. destruct (callerFlags_sum flags al ca Hf) as [Hs Hodd]. destruct Hf as [Hr _].
  change (2 ^ 52) with 4503599627370496 in Hpa. cbv zeta.
  set (sum := flags + PRESENT + (if al then ALLOCATED else 0) + (if ca then 0 else UNCACHEABLE)) in *.
  assert (Hent : entryFor pa flags al ca = (pa - pa mod 4096) + sum) by (unfold entryFor, sum; lia).
  assert (Hsum : 0 <= sum) by (unfold sum; flag_consts; destruct al, ca; lia).
  assert (Heff : (if negb ca
     then flag_or (if al then flag_or (flag_or flags PRESENT) ALLOCATED else flag_or flags PRESENT) UNCACHEABLE
     else (if al then flag_or (flag_or flags PRESENT) ALLOCATED else flag_or flags PRESENT)) = sum).
  { unfold flag_or. destruct al, ca; cbn [negb]; flag_consts; unfold sum in *; unwrap; lia. }
  rewrite Heff, land_page_mask by lia. rewrite Hent. split; [|split].
  - pose proof (Z.add_lor_land sum (pa - pa mod 4096)) as Ha.
    enough (Z.land sum (pa - pa mod 4096) = 0) by lia.
    apply Z.bits_inj'. intros n Hn. rewrite Z.land_spec, Z.bits_0.
    destruct (Z.ltb_spec n 12).
    + replace (pa - pa mod 4096) with (Z.shiftl (pa / 4096) 12)
        by (rewrite Z.shiftl_mul_pow2 by lia; change (2 ^ 12) with 4096; dlia).
      rewrite Z.shiftl_spec_low by done. apply andb_false_r.
    + rewrite (Z.bits_above_log2 sum); [done|lia|].
      destruct (decide (sum = 0)) as [->|]; [cbn; lia|].
      assert (Z.log2 sum < 12) by (apply Z.log2_lt_pow2; lia). lia.
  - rewrite isPresent_odd, Z.odd_add.
    replace (pa - pa mod 4096) with (2 * (pa / 4096 * 2048)) by dlia. rewrite Z.odd_mul.
    assert (Z.odd sum = true) as ->; [|done].
    unfold sum. rewrite !Z.odd_add, Hodd. by destruct al, ca.
  - apply frameOf_entry; [change (2 ^ 52) with 4503599627370496; dlia|dlia|lia].
Qed.

Lemma translate_at_path s va :
  translate (mem s) (cr3 s) va = match at_path s (indices va) with Some f => Some (f + va mod 4096) | None => None end.
Proof. reflexivity. Qed.

Lemma mapPage_run s va pa flags al ca :
  tables_ok s -> userAddress va -> 3 <= framesFree (blocks (physicalMemory s)) ->
  0 <= pa < 2 ^ 52 -> callerFlags flags ->
  exists s', mapPage s va pa flags al ca = Ok s' /\ tables_ok s' /\
    cr3 s' = cr3 s /\ cpu s' = cpu s /\ invlpg s' = invlpg s /\
    (forall a, freeCount (blocks (physicalMemory s')) a <= freeCount (blocks (physicalMemory s)) a) /\
    framesFree (blocks (physicalMemory s)) - 3 <= framesFree (blocks (physicalMemory s')) /\
    pageEntry s' va = Some (entryFor pa flags al ca) /\
    translate (mem s') (cr3 s') va = Some (pa - pa mod 4096 + va mod 4096) /\
    (forall va', userAddress va' -> ~ samePage va' va ->
       translate (mem s') (cr3 s') va' = translate (mem s) (cr3 s) va' /\
       forall e, pageEntry s va' = Some e -> pageEntry s' va' = Some e) /\
    (forall q u, tablePath q -> at_path s' q = Some u ->
       at_path s q = Some u \/ 0 < freeCount (blocks (physicalMemory s)) u).
Proof.
  intros Hok Hu Hf Hpa Hfl.
  destruct (getPageTableEntry_alloc s va Hok Hu Hf) as (s1 & t & E & Hok1 & Hx & Ht & Hf1).
  destruct (mapPage_flags pa flags al ca Hpa Hfl) as (Hflags & Hpres & Hframe). cbv zeta in Hflags.
  unfold mapPage. cbv zeta. rewrite Hflags, E. cbn [obind of_option].
  destruct (set_leaf s1 va t (entryFor pa flags al ca) Hok1 Hu Ht) as (Hok2 & Hother & Hthis & Hent & Hents).
  unfold vstore, PML1ENTRY.
  rewrite translate_element by (try apply index_range; apply (to_self s1 Hok1)).
  change (follow (mem s1) (frameOf (cr3 s1)) _) with (at_path s1 (tableIndices va)). rewrite Ht.
  set (s2 := set_mem s1 _) in *. exists s2.
  split; [done|]. split; [done|]. split; [apply (ex_cr3 _ _ Hx)|]. split; [apply (ex_cpu _ _ Hx)|].
  split; [apply (ex_invlpg _ _ Hx)|]. split; [apply (ex_free _ _ Hx)|]. split; [exact Hf1|].
  split; [|split; [|split]].
  4: { intros q u Hq Hu'. apply (ex_tables _ _ Hx); [done|]. rewrite <- Hu'. symmetry.
       destruct Hq as [Hq Hl]. apply Hother; [done|lia|]. intros ->. cbn in Hl. lia. }
  - exact Hent.
  - by rewrite translate_at_path, Hthis, Hpres, Hframe.
  - intros va' Hu' Hne. split; [|intros e He; rewrite Hents by done; by apply (ex_entries _ _ Hx)].
    rewrite !translate_at_path.
    assert (Hg : goodPath (indices va')) by (apply (goodPath_prefix va' _ []); [done|apply app_nil_r]).
    rewrite Hother by (done || cbn; lia). by rewrite (ex_pages _ _ Hx).
Qed.

(** ** unmapPage *)

Lemma ensureTable_lookup s p i entry table t :
  tables_ok s -> recursiveAddresses p i entry table -> at_path s p = Some t ->
  ensureTable s entry table false
  = Ok (match at_path s (p ++ [i]) with Some _ => true | None => false end, s).
Proof.
  intros Hok Hrec Ht. destruct (Hrec (mem s) (cr3 s) (to_self s Hok)) as [Hentry _].
  change (follow (mem s) (frameOf (cr3 s)) p) with (at_path s p) in Hentry. rewrite Ht in Hentry.
  unfold ensureTable, vload. rewrite Hentry. cbn [obind].
  unfold at_path in *. rewrite (follow_snoc _ _ _ _ t Ht). unfold isPresent.
  by destruct (flag_and _ _ =? 0).
Qed.

(** Without allocation the lookup finds the entry exactly when its table
    exists, and changes nothing. *)
Lemma getPageTableEntry_lookup s va :
  tables_ok s ->
  getPageTableEntry s va false
  = Ok (match at_path s (tableIndices va) with
        | Some _ => Some (PML1ENTRY (index 3 va) (index 2 va) (index 1 va) (index 0 va))
        | None => None end, s).
Proof.
  intros Hok. rewrite getPageTableEntry_unfold. unfold tableIndices.
  rewrite (ensureTable_lookup s [] (index 3 va) _ _ (root s)); [|done|apply recursive_4, index_range|done].
  cbn [app obind].
  assert (Hsplit : forall (p : list Z) (i : Z) q r, at_path s r = None -> r = p ++ [i] -> at_path s (r ++ q) = None).
  { intros p i q r H _. unfold at_path in *. by rewrite follow_app, H. }
  destruct (at_path s [index 3 va]) as [t1|] eqn:E1; cbn [negb].
  2: { pose proof (Hsplit [] (index 3 va) [index 2 va; index 1 va] _ E1 eq_refl) as Hx. cbn [app] in Hx. by rewrite Hx. }
  rewrite (ensureTable_lookup s [index 3 va] (index 2 va) _ _ t1);
    [|done|apply recursive_3; apply index_range|done]. cbn [app obind].
  destruct (at_path s [index 3 va; index 2 va]) as [t2|] eqn:E2; cbn [negb].
  2: { pose proof (Hsplit [index 3 va] (index 2 va) [index 1 va] _ E2 eq_refl) as Hx. cbn [app] in Hx. by rewrite Hx. }
  rewrite (ensureTable_lookup s [index 3 va; index 2 va] (index 1 va) _ _ t2);
    [|done|apply recursive_2; apply index_range|done]. cbn [app obind].
  by destruct (at_path s [index 3 va; index 2 va; index 1 va]).
Qed.

(** The frame an entry returns to the allocator, and that it may return. *)
Definition returnedFrame (e : Z) : Z := e - e mod 4096.

Definition returnable (s : PState) (F : Z) : Prop :=
  (forall a, F <= a < F + 4096 -> freeCount (blocks (physicalMemory s)) a = 0) /\
  (forall p t, tablePath p -> at_path s p = Some t -> ~ F <= t < F + 4096).

Lemma returned_index e : 0 <= e < 2 ^ 52 ->
  u64 (Z.land (Z.shiftr e 12) (Z.shiftl 1 52 - 1) * PAGE_SIZE) = returnedFrame e.
Proof.
  intros He. change (Z.shiftl 1 52 - 1) with (Z.ones 52).
  rewrite Z.land_ones, Z.shiftr_div_pow2 by lia. change (2 ^ 12) with 4096.
  change (2 ^ 52) with 4503599627370496 in *. unfold PAGE_SIZE, returnedFrame.
  rewrite (Z.mod_small (e / 4096)) by dlia. rewrite u64_small by dlia. dlia.
Qed.

(** Returning a frame that is neither free nor a table keeps the invariant. *)
Lemma returnFrame_ok s e :
  tables_ok s -> 0 <= e < 2 ^ 52 -> returnable s (returnedFrame e) ->
  exists b, returnFrame s (Z.land (Z.shiftr e 12) (Z.shiftl 1 52 - 1)) = Ok (set_phys s (cpu s) b) /\
    tables_ok (set_phys s (cpu s) b) /\
    (length (blocks b) <= S (length (blocks (physicalMemory s))))%nat /\
    forall a, freeCount (blocks b) a = freeCount (blocks (physicalMemory s)) a
      + (if hasRoom (blocks (physicalMemory s))
         then cov (mkBlock (returnedFrame e) (returnedFrame e + 4096)) a else 0).
Proof.
  intros Hok He [Hfree Htab]. destruct (to_frames s Hok) as [Hl Hb Hn Hd].
  set (F := returnedFrame e) in *.
  assert (HF : 0 <= F /\ F + 4096 <= 2 ^ 52 /\ F mod 4096 = 0)
    by (unfold F, returnedFrame; change (2 ^ 52) with 4503599627370496 in *; dlia).
  change (2 ^ 52) with 4503599627370496 in HF.
  assert (Hw : wfMap (blocks (physicalMemory s)))
    by (split; [eapply Forall_impl; [exact Hb|intros ? [? _]; done]|done]).
  assert (Hfb : frameBlock (mkBlock F (F + 4096)))
    by (split; [unfold wfBlock; cbn; change (2 ^ 64) with 18446744073709551616; lia|cbn; split; [tauto|lia]]).
  unfold returnFrame. rewrite returned_index by done. fold F. unfold returnMemory, PAGE_SIZE.
  rewrite u64_small by lia.
  destruct (addBlock_run (cpu s) (physicalMemory s) (mkBlock F (F + 4096)) Hl Hw (proj1 Hfb))
    as (bs & l & E & Hl' & Hw' & Hbs & Hc). rewrite E. cbn [obind].
  exists (mkBlockMap bs l). split; [done|].
  split; [|split; [subst bs; apply addBlock_unlocked_grows, Hw|exact Hc]].
  assert (Hnew : Forall frameBlock bs).
  { assert (He' : Forall (endpoints (fun x => x mod 4096 = 0) (fun x => x <= 2 ^ 52)) bs).
    { subst bs. apply addBlock_unlocked_endpoints; [|split; apply Hfb].
      eapply Forall_impl; [exact Hb|]. by intros d (_ & ? & ?). }
    destruct Hw' as [Hw' _]. rewrite Forall_forall in *. intros d Hd'.
    split; [by apply Hw'|]. apply (He' d Hd'). }
  constructor; [apply Hok|apply Hok| |].
  - intros p t Hp Ht. cbn. rewrite Hc, (to_free s Hok p t Hp Ht).
    destruct (hasRoom _); [|done]. apply cov_0. cbn. by apply (Htab p t).
  - constructor; [done|done|apply Hw'|]. intros a. cbn. rewrite Hc. specialize (Hd a).
    destruct (hasRoom _); [|lia]. unfold cov, covers; cbn.
    destruct (Z.leb_spec F a), (Z.ltb_spec a (F + 4096)); cbn; try lia. rewrite Hfree by lia. lia.
Qed.

(** What [unmapPage] does to a mapped page. *)
Lemma unmapPage_run s va t :
  tables_ok s -> userAddress va -> at_path s (tableIndices va) = Some t ->
  let e := mem s (t + 8 * index 0 va) in
  let frees := negb (flag_and e ALLOCATED =? 0) in
  0 <= e < 2 ^ 52 -> (frees = true -> returnable s (returnedFrame e)) ->
  exists s', unmapPage s va = Ok s' /\ tables_ok s' /\
    invlpg s' = va :: invlpg s /\ cpu s' = cpu s /\ cr3 s' = cr3 s /\
    translate (mem s') (cr3 s') va = None /\
    (forall va', userAddress va' -> ~ samePage va' va ->
       translate (mem s') (cr3 s') va' = translate (mem s) (cr3 s) va' /\
       pageEntry s' va' = pageEntry s va') /\
    (forall p, tablePath p -> at_path s' p = at_path s p) /\
    (length (blocks (physicalMemory s')) <= S (length (blocks (physicalMemory s))))%nat /\
    (forall a, freeCount (blocks (physicalMemory s')) a = freeCount (blocks (physicalMemory s)) a
       + (if frees && hasRoom (blocks (physicalMemory s))
          then cov (mkBlock (returnedFrame e) (returnedFrame e + 4096)) a else 0)).
Proof.
  intros Hok Hu Ht e frees He Hret.
  assert (Htr : forall s1, mem s1 = mem s -> cr3 s1 = cr3 s ->
    translate (mem s1) (cr3 s1) (PML1ENTRY (index 3 va) (index 2 va) (index 1 va) (index 0 va)) = Some (t + 8 * index 0 va)).
  { intros s1 -> ->. unfold PML1ENTRY. rewrite translate_element by (try apply index_range; apply (to_self s Hok)).
    change (follow (mem s) (frameOf (cr3 s)) _) with (at_path s (tableIndices va)). by rewrite Ht. }
  assert (Hfree : exists b, (if frees then returnFrame s (Z.land (Z.shiftr e 12) (Z.shiftl 1 52 - 1)) else Ok s)
      = Ok (set_phys s (cpu s) b) /\ tables_ok (set_phys s (cpu s) b) /\
    (length (blocks b) <= S (length (blocks (physicalMemory s))))%nat /\
    forall a, freeCount (blocks b) a = freeCount (blocks (physicalMemory s)) a
      + (if frees && hasRoom (blocks (physicalMemory s))
         then cov (mkBlock (returnedFrame e) (returnedFrame e + 4096)) a else 0)).
  { destruct frees eqn:Hfr; cbn [andb]; [by apply returnFrame_ok; auto|].
    exists (physicalMemory s). assert (set_phys s (cpu s) (physicalMemory s) = s) as -> by by destruct s.
    split; [done|]. split; [done|]. split; [lia|]. intros a. lia. }
  destruct Hfree as (b & Efree & Hok1 & Hlen & Hcount).
  destruct (set_leaf (set_phys s (cpu s) b) va t 0 Hok1 Hu Ht) as (Hok2 & Hother & Hthis & _ & Hents).
  unfold unmapPage. rewrite getPageTableEntry_lookup, Ht by done. cbn [obind].
  unfold vload. rewrite (Htr s) by done. cbn [obind]. fold e. fold frees. rewrite Efree. cbn [obind].
  unfold vstore. rewrite Htr by done. cbn [obind].
  set (s2 := set_mem _ _) in *. exists (invalidateTlb s2 va).
  split; [done|]. split; [by destruct Hok2 as [? ? ? []]; constructor|].
  split; [done|]. split; [done|]. split; [done|]. split; [|split; [|split; [|split; [exact Hlen|exact Hcount]]]].
  - change (translate (mem s2) (cr3 s2) va = None). by rewrite translate_at_path, Hthis.
  - intros va' Hu' Hne. split; [|by apply (Hents va' Hu' Hne)]. change (translate (mem s2) (cr3 s2) va' = translate (mem s) (cr3 s) va').
    rewrite !translate_at_path.
    assert (Hg : goodPath (indices va')) by (apply (goodPath_prefix va' _ []); [done|apply app_nil_r]).
    by rewrite Hother by (done || cbn; lia).
  - intros p [Hp Hl]. change (at_path s2 p = at_path s p). rewrite Hother; [done|done|lia|].
    intros ->. cbn in Hl. lia.
Qed.

(** ** The initial tables *)

Lemma upd_entry m t i v t' i' :
  t mod 4096 = 0 -> t' mod 4096 = 0 -> inRange i -> inRange i' ->
  upd m (t + 8 * i) v (t' + 8 * i') = (if (t' =? t) && (i' =? i) then v else m (t' + 8 * i')).
Proof.
  intros Ht Ht' Hi Hi'. unfold upd. destruct (Z.eqb_spec (t' + 8 * i') (t + 8 * i)) as [E|E].
  - apply entry_address_inj in E as [-> ->]; [|done..]. by rewrite !Z.eqb_refl.
  - destruct (Z.eqb_spec t' t) as [->|]; [|done]. destruct (Z.eqb_spec i' i) as [->|]; [done|done].
Qed.

Lemma fillPml1_spec n : forall i pml1 m t j,
  pml1 mod 4096 = 0 -> t mod 4096 = 0 -> 0 <= i -> i + Z.of_nat n <= 512 -> inRange j ->
  fillPml1 n i pml1 m (t + 8 * j)
  = if (t =? pml1) && (i <=? j) && (j <? i + Z.of_nat n)
    then tableFlags (u32 (u32 (j * 4096) + 0x200000)) else m (t + 8 * j).
Proof.
  induction n as [|n IH]; intros i pml1 m t j Hp Ht Hi Hn Hj; cbn [fillPml1].
  - destruct (t =? pml1); cbn [andb]; [|done]. zcase; cbn [andb]; (done || lia).
  - cbv zeta. rewrite IH by (done || lia). rewrite upd_entry by (unfold inRange in *; done || lia).
    destruct (t =? pml1); cbn [andb]; [|done].
    zcase; cbn [andb]; try lia; by subst.
Qed.

Lemma tableFlags_entry f : 0 <= f < 2 ^ 52 -> f mod 4096 = 0 ->
  isPresent (tableFlags f) = true /\ frameOf (tableFlags f) = f.
Proof.
  intros Hf Ha. unfold tableFlags, flag_or. flag_consts. change (2 ^ 52) with 4503599627370496 in Hf.
  unwrap. replace (f + 1 + 2) with (f + 3) by lia. split; [|by apply frameOf_entry].
  rewrite isPresent_odd, Z.odd_add. replace f with (2 * (f / 2)) by dlia. by rewrite Z.odd_mul.
Qed.

Definition physicalTable (t : Z) : Prop := 0 <= t < 2 ^ 52 /\ t mod 4096 = 0.

Definition allDistinct (a b c d : Z) : Prop :=
  a <> b /\ a <> c /\ a <> d /\ b <> c /\ b <> d /\ c <> d.

Section InitPageTables.
Context (m : Mem) (pml1 pml2 pml3 pml4 : Z).
Context (P1 : physicalTable pml1) (P2 : physicalTable pml2).
Context (P3 : physicalTable pml3) (P4 : physicalTable pml4).
Context (Hnd : allDistinct pml1 pml2 pml3 pml4).
(** The tables are static arrays: zero before the kernel starts. *)
Context (Hbss : forall t i, t = pml2 \/ t = pml3 \/ t = pml4 -> inRange i -> m (t + 8 * i) = 0).

Let m' := fst (initPageTables m pml1 pml2 pml3 pml4).

Lemma init_entry t i : t = pml1 \/ t = pml2 \/ t = pml3 \/ t = pml4 -> inRange i ->
  m' (t + 8 * i)
  = if (t =? pml4) && (i =? 511) then tableFlags pml4
    else if t =? pml1 then tableFlags (i * 4096 + 0x200000)
    else if (t =? pml2) && (i =? 1) then tableFlags pml1
    else if (t =? pml3) && (i =? 0) then tableFlags pml2
    else if (t =? pml4) && (i =? 256) then tableFlags pml3
    else 0.
Proof.
  intros Hin Hi. destruct P1 as [_ A1], P2 as [_ A2], P3 as [_ A3], P4 as [_ A4].
  assert (Ht : t mod 4096 = 0) by (destruct Hin as [->|[->|[->| ->]]]; done).
  assert (R : inRange 511 /\ inRange 256 /\ inRange 0 /\ inRange 1) by (unfold inRange; lia).
  destruct R as (R1 & R2 & R3 & R4).
  unfold m', initPageTables; cbn [fst]. rewrite upd_entry by done.
  destruct ((t =? pml4) && (i =? 511)) eqn:E1; [done|].
  rewrite fillPml1_spec by (done || lia). change (0 + Z.of_nat 512) with 512.
  assert (Hr : (0 <=? i) && (i <? 512) = true) by (unfold inRange in Hi; lia).
  rewrite <- andb_assoc, Hr, andb_true_r.
  destruct (t =? pml1) eqn:E2; [unfold inRange in Hi; unwrap; done|].
  rewrite !upd_entry by done.
  destruct ((t =? pml2) && (i =? 1)); [done|]. destruct ((t =? pml3) && (i =? 0)); [done|].
  destruct ((t =? pml4) && (i =? 256)); [done|].
  apply Hbss; [|done]. apply Z.eqb_neq in E2. tauto.
Qed.

(** The four tables and the one page-table path between them. *)
Lemma init_step t i : t = pml2 \/ t = pml3 \/ t = pml4 -> inRange i ->
  follow m' t [i] =
    if (t =? pml4) && (i =? 511) then Some pml4
    else if (t =? pml2) && (i =? 1) then Some pml1
    else if (t =? pml3) && (i =? 0) then Some pml2
    else if (t =? pml4) && (i =? 256) then Some pml3 else None.
Proof.
  intros Hin Hi. cbn [follow]. rewrite init_entry by tauto.
  destruct Hnd as (D12 & D13 & D14 & _).
  assert (Hn1 : t =? pml1 = false) by (apply Z.eqb_neq; destruct Hin as [->|[->| ->]]; congruence).
  rewrite Hn1. destruct P1 as [B1 A1], P2 as [B2 A2], P3 as [B3 A3], P4 as [B4 A4].
  destruct (tableFlags_entry pml1 B1 A1) as [F1 G1], (tableFlags_entry pml2 B2 A2) as [F2 G2],
    (tableFlags_entry pml3 B3 A3) as [F3 G3], (tableFlags_entry pml4 B4 A4) as [F4 G4].
  destruct ((t =? pml4) && (i =? 511)); [by rewrite F4, G4|].
  destruct ((t =? pml2) && (i =? 1)); [by rewrite F1, G1|].
  destruct ((t =? pml3) && (i =? 0)); [by rewrite F2, G2|].
  destruct ((t =? pml4) && (i =? 256)); [by rewrite F3, G3|]. done.
Qed.

Lemma follow_cons_some mm t i p u :
  follow mm t (i :: p) = Some u -> exists t', follow mm t [i] = Some t' /\ follow mm t' p = Some u.
Proof. cbn. destruct (isPresent _); [eauto|done]. Qed.

Lemma eqb_ne a b : a <> b -> (a =? b) = false.
Proof. apply Z.eqb_neq. Qed.

(** The only tables are the four static ones, each on one path. *)
Lemma init_tables p u :
  tablePath p -> follow m' pml4 p = Some u ->
  p = [] /\ u = pml4 \/ p = [256] /\ u = pml3 \/ p = [256; 0] /\ u = pml2 \/ p = [256; 0; 1] /\ u = pml1.
Proof.
  destruct Hnd as (D12 & D13 & D14 & D23 & D24 & D34).
  assert (S4 : forall i, inRange i -> i <> 511 -> follow m' pml4 [i] = if i =? 256 then Some pml3 else None).
  { intros i Hi Hne. rewrite init_step, (eqb_ne i 511), (eqb_ne pml4 pml2), (eqb_ne pml4 pml3), Z.eqb_refl by auto. done. }
  assert (S3 : forall i, inRange i -> follow m' pml3 [i] = if i =? 0 then Some pml2 else None).
  { intros i Hi. rewrite init_step, (eqb_ne pml3 pml4), (eqb_ne pml3 pml2), Z.eqb_refl by auto. done. }
  assert (S2 : forall i, inRange i -> follow m' pml2 [i] = if i =? 1 then Some pml1 else None).
  { intros i Hi. rewrite init_step, (eqb_ne pml2 pml4), (eqb_ne pml2 pml3), Z.eqb_refl by auto.
    cbn [andb]. by destruct (i =? 1). }
  intros [[Hr Hh] Hl] Hu. destruct p as [|i p]; [left; cbn in Hu; simplify_eq; auto|right].
  apply Forall_cons in Hr as [Hi Hr]. apply follow_cons_some in Hu as (t' & H1 & Hu).
  rewrite S4 in H1 by (done || (intros ->; by apply Hh)). destruct (Z.eqb_spec i 256) as [->|]; [|done]. injection H1 as <-.
  destruct p as [|j p]; [left; cbn in Hu; simplify_eq; auto|right].
  apply Forall_cons in Hr as [Hj Hr]. apply follow_cons_some in Hu as (t' & H1 & Hu).
  rewrite S3 in H1 by done. destruct (Z.eqb_spec j 0) as [->|]; [|done]. injection H1 as <-.
  destruct p as [|k p]; [left; cbn in Hu; simplify_eq; auto|right].
  apply Forall_cons in Hr as [Hk Hr]. apply follow_cons_some in Hu as (t' & H1 & Hu).
  rewrite S2 in H1 by done. destruct (Z.eqb_spec k 1) as [->|]; [|done]. injection H1 as <-.
  destruct p; [cbn in Hu; simplify_eq; auto|]. cbn in Hl. lia.
Qed.

Lemma init_window i : inRange i -> follow m' pml4 [256; 0; 1; i] = Some (0x200000 + i * 4096).
Proof.
  intros Hi. destruct Hnd as (D12 & D13 & D14 & D23 & D24 & D34).
  assert (H4 : follow m' pml4 [256] = Some pml3).
  { rewrite init_step, (eqb_ne pml4 pml2), (eqb_ne pml4 pml3), Z.eqb_refl by (unfold inRange; auto; lia). done. }
  assert (H3 : follow m' pml3 [0] = Some pml2).
  { rewrite init_step, (eqb_ne pml3 pml4), (eqb_ne pml3 pml2), Z.eqb_refl by (unfold inRange; auto; lia). done. }
  assert (H2 : follow m' pml2 [1] = Some pml1).
  { rewrite init_step, (eqb_ne pml2 pml4), Z.eqb_refl by (unfold inRange; auto; lia). done. }
  change [256; 0; 1; i] with ([256] ++ [0] ++ [1] ++ [i]).
  rewrite follow_app, H4, follow_app, H3, follow_app, H2.
  cbn [follow]. rewrite init_entry, (eqb_ne pml1 pml4), Z.eqb_refl by auto. cbn [andb].
  unfold inRange in Hi. destruct (tableFlags_entry (i * 4096 + 0x200000)) as [-> ->];
    [change (2 ^ 52) with 4503599627370496; lia | dlia |]. f_equal. lia.
Qed.
End InitPageTables.

(** ** A smallest state: a root table with only its recursive entry *)

Definition emptyRoot (r : Z) (bs : list Block) : PState :=
  mkPState (upd (fun _ => 0) (r + 8 * 511) (tableFlags r)) (tableFlags r) (mkCpu 512 0)
    (mkBlockMap bs Spinlock_init) [].

Lemma emptyRoot_ok r bs :
  physicalTable r -> frames_ok (emptyRoot r bs) -> freeCount bs r = 0 -> tables_ok (emptyRoot r bs).
Proof.
  intros [Hr Ha] Hf H0. destruct (tableFlags_entry r Hr Ha) as [E1 E2].
  assert (Hroot : root (emptyRoot r bs) = r) by exact E2.
  assert (Hpath : forall p t, tablePath p -> at_path (emptyRoot r bs) p = Some t -> p = [] /\ t = r).
  { intros [|i p] t [[Hi Hh] _] Ht; [cbn in Ht; split; congruence|exfalso].
    apply Forall_cons in Hi as [Hi _]. unfold at_path in Ht. rewrite Hroot in Ht.
    apply follow_cons_some in Ht as (t' & H1 & _). cbn [follow mem emptyRoot] in H1.
    rewrite upd_entry in H1 by (done || (unfold inRange in *; lia)).
    rewrite Z.eqb_refl, (eqb_ne i 511) in H1 by (intros ->; by apply Hh). done. }
  constructor; [|intros p q t Hp Hq H1 H2|intros p t Hp Ht|done].
  - unfold selfMap. rewrite Hroot. cbn [mem emptyRoot]. unfold upd. by rewrite Z.eqb_refl.
  - destruct (Hpath p t Hp H1) as [-> _]. by destruct (Hpath q t Hq H2) as [-> _].
  - by destruct (Hpath p t Hp Ht) as [_ ->].
Qed.

Lemma oneBlock_frames_ok r b :
  frameBlock b -> frames_ok (emptyRoot r [b]).
Proof.
  intros Hb. constructor; cbn; [done|by apply Forall_singleton|unfold BLOCKMAP_SIZE; lia|].
  intros a. cbn. pose proof (cov_range b a). lia.
Qed.

Ltac frame_block := split; [unfold wfBlock; cbn; lia | cbn; split; [reflexivity | lia]].

(** ** Properties *)

(** [C4] [mapPage] through the recursive mapping: whatever tables are missing,
    it terminates without faulting, the address then translates to the given
    page with exactly the requested flags, no other address changes its
    translation, and the table invariant (a tree of distinct tables none of
    which is free memory) still holds. *)
Theorem mapPage_correct s va pa flags allocated cacheable :
  tables_ok s -> userAddress va -> 3 <= framesFree (blocks (physicalMemory s)) ->
  0 <= pa < 2 ^ 52 -> callerFlags flags ->
  exists s', mapPage s va pa flags allocated cacheable = Ok s' /\ tables_ok s' /\
    pageEntry s' va = Some (entryFor pa flags allocated cacheable) /\
    translate (mem s') (cr3 s') va = Some (pa - pa mod 4096 + va mod 4096) /\
    (forall va', userAddress va' -> ~ samePage va' va ->
       translate (mem s') (cr3 s') va' = translate (mem s) (cr3 s) va').
Proof.
  intros Hok Hu Hf Hpa Hfl.
  destruct (mapPage_run s va pa flags allocated cacheable Hok Hu Hf Hpa Hfl)
    as (s' & E & H1 & _ & _ & _ & _ & _ & H2 & H3 & H4 & _).
  exists s'. split; [done|]. split; [done|]. split; [done|]. split; [done|].
  intros va' Hu' Hne. by apply (H4 va' Hu' Hne).
Qed.

Lemma mapPage_correct_witness :
  let s := emptyRoot 4096 [mkBlock 0x100000 0x200000] in
  exists s', mapPage s 0xFFFF900000001234 0x5000 WRITABLE false true = Ok s' /\
    translate (mem s') (cr3 s') 0xFFFF900000001234 = Some 0x5234.
Proof.
  intros s.
  destruct (mapPage_correct s 0xFFFF900000001234 0x5000 WRITABLE false true) as (s' & E & _ & _ & H & _).
  - apply emptyRoot_ok; [split; [lia|reflexivity]| |reflexivity].
    apply oneBlock_frames_ok. frame_block.
  - unfold userAddress. vm_compute. discriminate.
  - vm_compute. discriminate.
  - lia.
  - split; vm_compute; [split; [discriminate|reflexivity]|reflexivity].
  - exists s'. split; [exact E|exact H].
Defined.

(** [C5] [unmapPage] on a page whose table exists removes that translation and
    no other, invalidates the address in the TLB, and gives the frame back to
    the allocator exactly when the entry carries ALLOCATED (unless the map of
    free memory is full); the tree of tables stays well formed. *)
Theorem unmapPage_correct s va e :
  tables_ok s -> userAddress va -> pageEntry s va = Some e -> 0 <= e < 2 ^ 52 ->
  (flag_and e ALLOCATED <> 0 -> returnable s (returnedFrame e)) ->
  exists s', unmapPage s va = Ok s' /\ tables_ok s' /\ invlpg s' = va :: invlpg s /\
    translate (mem s') (cr3 s') va = None /\
    (forall va', userAddress va' -> ~ samePage va' va ->
       translate (mem s') (cr3 s') va' = translate (mem s) (cr3 s) va') /\
    (forall a, freeCount (blocks (physicalMemory s')) a = freeCount (blocks (physicalMemory s)) a
       + (if negb (flag_and e ALLOCATED =? 0) && hasRoom (blocks (physicalMemory s))
          then cov (mkBlock (returnedFrame e) (returnedFrame e + 4096)) a else 0)).
Proof.
  intros Hok Hu He Hr Hret. unfold pageEntry in He.
  destruct (at_path s (tableIndices va)) as [t|] eqn:Ht; [|done]. injection He as <-.
  destruct (unmapPage_run s va t Hok Hu Ht Hr) as (s' & E & H1 & H2 & _ & _ & H3 & H4 & _ & _ & H5).
  - intros Hn. apply Hret. by apply negb_true_iff, Z.eqb_neq in Hn.
  - exists s'. split; [done|]. split; [done|]. split; [done|]. split; [done|]. split; [|done].
    intros va' Hu' Hne. by apply (H4 va' Hu' Hne).
Qed.

(** A page mapped by [mapPage] from a frame outside the allocator. *)
Lemma unmapPage_correct_witness :
  exists s s', mapPage (emptyRoot 4096 [mkBlock 0x100000 0x200000]) 0xFFFF900000001234 0x5000 WRITABLE false true = Ok s /\
    unmapPage s 0xFFFF900000001234 = Ok s' /\
    translate (mem s') (cr3 s') 0xFFFF900000001234 = None.
Proof.
  destruct (mapPage_run (emptyRoot 4096 [mkBlock 0x100000 0x200000]) 0xFFFF900000001234 0x5000 WRITABLE false true)
    as (s & E & Hok & _ & _ & _ & _ & _ & He & _).
  - apply emptyRoot_ok; [split; [lia|reflexivity]| |reflexivity].
    apply oneBlock_frames_ok. frame_block.
  - unfold userAddress. vm_compute. discriminate.
  - vm_compute. discriminate.
  - lia.
  - split; vm_compute; [split; [discriminate|reflexivity]|reflexivity].
  - destruct (unmapPage_correct s 0xFFFF900000001234 (entryFor 0x5000 WRITABLE false true)) as (s' & E' & _ & _ & H & _).
    + exact Hok.
    + unfold userAddress. vm_compute. discriminate.
    + exact He.
    + vm_compute. split; [discriminate|reflexivity].
    + intros Hn. exfalso. apply Hn. reflexivity.
    + exists s, s'. split; [exact E|]. split; [exact E'|exact H].
Defined.

(** The boot tables: from four distinct zeroed table pages outside free
    memory, [initPageTables] establishes the invariant [mapPage] needs, with
    the root loaded in cr3, and maps exactly the kernel's 2 MiB window at
    physical 0x200000. *)
Theorem initPageTables_correct m pml1 pml2 pml3 pml4 c phys :
  physicalTable pml1 -> physicalTable pml2 -> physicalTable pml3 -> physicalTable pml4 ->
  allDistinct pml1 pml2 pml3 pml4 ->
  (forall t i, t = pml2 \/ t = pml3 \/ t = pml4 -> inRange i -> m (t + 8 * i) = 0) ->
  (forall t, t = pml1 \/ t = pml2 \/ t = pml3 \/ t = pml4 -> freeCount (blocks phys) t = 0) ->
  let s := mkPState (fst (initPageTables m pml1 pml2 pml3 pml4))
             (snd (initPageTables m pml1 pml2 pml3 pml4)) c phys [] in
  frames_ok s ->
  tables_ok s /\ root s = pml4 /\
  forall off, 0 <= off < 2 ^ 21 ->
    translate (mem s) (cr3 s) (0xFFFF800000200000 + off) = Some (0x200000 + off).
Proof.
  intros P1 P2 P3 P4 Hnd Hbss Hfree s Hf.
  assert (R511 : inRange 511) by (unfold inRange; lia).
  pose proof (init_entry m pml1 pml2 pml3 pml4 P1 P2 P3 P4 Hbss pml4 511 ltac:(auto) R511) as Hself.
  rewrite Z.eqb_refl in Hself. cbn [andb Z.eqb] in Hself.
  change (511 =? 511) with true in Hself. cbv iota in Hself.
  destruct P4 as [P4r P4a]. destruct (tableFlags_entry pml4 P4r P4a) as [F1 F2].
  assert (Hroot : root s = pml4) by (unfold root; cbn [cr3 s]; unfold initPageTables in *; cbn [snd fst] in *; by rewrite Hself).
  pose proof (init_tables m pml1 pml2 pml3 pml4 P1 P2 P3 (conj P4r P4a) Hnd Hbss) as Htab.
  split; [|split; [done|]].
  - constructor; [| | |done].
    + unfold selfMap. rewrite Hroot. cbn [mem s]. by rewrite Hself.
    + intros p q t Hp Hq H1 H2. unfold at_path in *. rewrite Hroot in *.
      destruct Hnd as (? & ? & ? & ? & ? & ?).
      destruct (Htab p t Hp H1) as [[-> ->]|[[-> ->]|[[-> ->]|[-> ->]]]],
        (Htab q _ Hq H2) as [[-> ?]|[[-> ?]|[[-> ?]|[-> ?]]]]; congruence.
    + intros p t Hp Ht. unfold at_path in Ht. rewrite Hroot in Ht.
      destruct (Htab p t Hp Ht) as [[_ ->]|[[_ ->]|[[_ ->]|[_ ->]]]]; apply Hfree; auto.
  - intros off Hoff. change (2 ^ 21) with 2097152 in Hoff. rewrite translate_at_path.
    assert (Hidx : indices (0xFFFF800000200000 + off) = [256; 0; 1; off / 4096]).
    { unfold indices, index.
      change (2 ^ (12 + 9 * 3)) with 549755813888. change (2 ^ (12 + 9 * 2)) with 1073741824.
      change (2 ^ (12 + 9 * 1)) with 2097152. change (2 ^ (12 + 9 * 0)) with 4096. repeat f_equal; dlia. }
    rewrite Hidx. unfold at_path. rewrite Hroot. cbn [mem s].
    rewrite init_window by (auto; split; auto || (unfold inRange; dlia)). f_equal. dlia.
Qed.

Lemma initPageTables_correct_witness :
  exists s, tables_ok s /\ translate (mem s) (cr3 s) 0xFFFF800000212345 = Some 0x212345.
Proof.
  destruct (initPageTables_correct (fun _ => 0) 0x201000 0x202000 0x203000 0x204000 (mkCpu 0 0)
    (mkBlockMap [mkBlock 0x400000 0x800000] Spinlock_init)) as (H1 & _ & H2).
  - split; [lia|reflexivity].
  - split; [lia|reflexivity].
  - split; [lia|reflexivity].
  - split; [lia|reflexivity].
  - unfold allDistinct. lia.
  - reflexivity.
  - intros t Ht. cbn. unfold cov, covers; cbn. zcase; cbn; lia.
  - constructor; cbn; [reflexivity| |unfold BLOCKMAP_SIZE; lia|].
    + constructor; [frame_block|constructor].
    + intros a. cbn. pose proof (cov_range (mkBlock 0x400000 0x800000) a). lia.
  - eexists. split; [exact H1|]. exact (H2 0x12345 ltac:(lia)).
Defined.

(** The flag operator: [operator|] adds, so it is the bitwise or exactly
    when the two flag sets have no bit in common. *)
Theorem flag_or_is_or a b :
  0 <= a < 2 ^ 63 -> 0 <= b < 2 ^ 63 ->
  (flag_or a b = Z.lor a b <-> Z.land a b = 0).
Proof.
  intros Ha Hb. change (2 ^ 63) with 9223372036854775808 in *.
  pose proof (Z.add_lor_land a b) as Hsum. unfold flag_or. rewrite u64_small by lia. lia.
Qed.

(** Setting PRESENT twice sets WRITABLE instead. *)
Lemma flag_or_is_or_witness :
  (flag_or PRESENT WRITABLE = Z.lor PRESENT WRITABLE) /\ flag_or PRESENT PRESENT = WRITABLE /\
  Z.lor PRESENT PRESENT = PRESENT.
Proof.
  split; [|split; reflexivity].
  apply (flag_or_is_or PRESENT WRITABLE); [split; [discriminate|reflexivity]..|reflexivity].
Defined.
