(* ===== verification/Kmalloc.v ===== *)
(** * Kernel memory ([kmalloc.cpp], [kmalloc.h], [virtualMemory.cpp],
    [stacks.h])

    Page-granular kernel allocations: a range of the kernel's virtual heap
    backed by fresh frames ([allocateMemory], [kmalloc]) or by given physical
    addresses ([mapAddress]), and [unmapMemory] with its TLB shootdown on
    every other processor. *)

From Stdlib Require Import ZArith Lia String.
From stdpp Require Import base tactics numbers sets list.
From S2P Require Import Prelude Spinlock MemoryBlock Paging.

Open Scope Z_scope.

(** ** State *)

(** The paging state, the virtual address allocator, the number of running
    processors, and the TLB invalidations run on other processors (cpu,
    address), latest first. *)
Record KState := mkKState {
  ps : PState;
  virtualMemory : BlockMap;
  processorCount : Z;
  remote : list (Z * Z)
}.

Definition set_ps (k : KState) (s : PState) : KState :=
  mkKState s (virtualMemory k) (processorCount k) (remote k).

(** Calls that need the CPU and the virtual map. *)
Definition valloc (k : KState) (amount : Z) : outcome (Z * KState) :=
  let! '(p, (c, v)) := allocate (cpu (ps k)) (virtualMemory k) amount in
  Ok (p, mkKState (mkPState (mem (ps k)) (cr3 (ps k)) c (physicalMemory (ps k)) (invlpg (ps k)))
           v (processorCount k) (remote k)).

Definition vreturn (k : KState) (ptr amount : Z) : outcome KState :=
  let! '(c, v) := returnMemory (cpu (ps k)) (virtualMemory k) ptr amount in
  Ok (mkKState (mkPState (mem (ps k)) (cr3 (ps k)) c (physicalMemory (ps k)) (invlpg (ps k)))
           v (processorCount k) (remote k)).

(** [initVirtualMemory]: the linker's heap range. *)
Definition initVirtualMemory (c : Cpu) (heapStart heapEnd : Z) : outcome (Cpu * BlockMap) :=
  addBlock c BlockMap_init (mkBlock heapStart heapEnd) true.

Definition KmallocHeaderSize : Z := 8.

(** ** Loops over the pages of a range

    [for (size_t i = 0; i < size; i += PAGE_SIZE)], with one unit of fuel per
    iteration. *)
Fixpoint pageLoop {S} (fuel : nat) (f : S -> Z -> outcome S) (size i : Z) (s : S) : outcome S :=
  if i <? size then
    match fuel with
    | O => Hang
    | Datatypes.S fuel => let! s := f s i in pageLoop fuel f size (i + PAGE_SIZE) s
    end
  else Ok s.

Definition pages (size : Z) : nat := Z.to_nat (size / PAGE_SIZE).

(** ** Operations *)

(** The body of [allocateMemory]'s loop: back one page with a fresh frame. *)
Definition allocateBody (ptr : Z) (s : PState) (i : Z) : outcome PState :=
  let! '(frame, s) := allocateFrame s in
  if negb (frame =? 0)
  then mapPage s (u64 (ptr + i)) (u64 (frame * PAGE_SIZE)) WRITABLE true true
  else Panic "Out of memory".

Definition allocateMemory (k : KState) (size : Z) : outcome (Z * KState) :=
  let size := PAGE_ALIGN_UP (u64 (size + KmallocHeaderSize)) in
  let! '(ptr, k) := valloc k size in
  if ptr =? 0 then Ok (0, k) else
  let! s := pageLoop (pages size) (allocateBody ptr) size 0 (ps k) in
  Ok (ptr, set_ps k s).

Definition kmalloc (k : KState) (size : Z) : outcome (Z * KState) :=
  let! '(ptr, k) := allocateMemory k size in
  if ptr =? 0 then Ok (0, k) else
  let! s := vstore (ps k) ptr size in
  Ok (u64 (ptr + KmallocHeaderSize), set_ps k s).

Definition mapAddress (k : KState) (physicalAddress size : Z) (cacheable : bool)
  : outcome (Z * KState) :=
  let pageOffset := physicalAddress mod PAGE_SIZE in
  let physicalEnd := PAGE_ALIGN_UP (u64 (physicalAddress + size)) in
  let physicalAddress := PAGE_ALIGN_DOWN physicalAddress in
  let size := u64 (physicalEnd - physicalAddress) in
  let! '(ptr, k) := valloc k size in
  if ptr =? 0 then Ok (0, k) else
  let! s := pageLoop (pages size) (fun s i =>
      mapPage s (u64 (ptr + i)) (u64 (physicalAddress + i)) WRITABLE false cacheable) size 0 (ps k) in
  Ok (u64 (ptr + pageOffset), set_ps k s).

(** The callback run on processor [i]: invalidate every page of the range. *)
Fixpoint remoteInvalidate (n : nat) (i address size offset : Z) (log : list (Z * Z)) : list (Z * Z) :=
  match n with
  | O => log
  | S n =>
      if offset <? size
      then remoteInvalidate n i address size (offset + 4096) ((i, u64 (address + offset)) :: log)
      else log
  end.

(** The loop over the processors; [processors::runOn] ignores numbers that
    are not below MAX_CPUS. *)
Definition MAX_CPUS : Z := 64.

Fixpoint shootdown (n : nat) (i : Z) (me address size : Z) (log : list (Z * Z)) : list (Z * Z) :=
  match n with
  | O => log
  | S n =>
      shootdown n (i + 1) me address size
        (if negb (i =? me) && (i <? MAX_CPUS)
         then remoteInvalidate (pages size) i address size 0 log else log)
  end.

Definition unmapMemory (k : KState) (address size : Z) : outcome KState :=
  if negb (address =? 0) then
    let endAddress := PAGE_ALIGN_UP (u64 (address + size)) in
    let address := PAGE_ALIGN_DOWN address in
    let size := u64 (endAddress - address) in
    let! s := pageLoop (pages size) (fun s i => unmapPage s (u64 (address + i))) size 0 (ps k) in
    let log := shootdown (Z.to_nat (processorCount k)) 0 (getCpuNumber (cpu s)) address size (remote k) in
    vreturn (mkKState s (virtualMemory k) (processorCount k) log) address size
  else Panic "Attempt to unmap null".

Definition freeMemory (k : KState) (ptr size : Z) : outcome KState := unmapMemory k ptr size.

Definition kfree (k : KState) (ptr : Z) : outcome KState :=
  if ptr =? 0 then Panic "Attempt to free null" else
  let headerPtr := u64 (ptr - KmallocHeaderSize) in
  let! size := vload (ps k) headerPtr in
  unmapMemory k headerPtr size.

(** [operator new] and [operator delete]. *)
Definition operator_new (k : KState) (size : Z) : outcome (Z * KState) := kmalloc k size.
Definition operator_delete (k : KState) (ptr : Z) : outcome KState := kfree k ptr.

(** Stacks (stacks.h): the pointer is the end of the allocation. *)
Definition DEFAULT_STACK_SIZE : Z := 16384.
Definition allocateStack (k : KState) : outcome (Z * KState) :=
  let! '(p, k) := allocateMemory k DEFAULT_STACK_SIZE in Ok (u64 (p + DEFAULT_STACK_SIZE), k).
Definition freeStack (k : KState) (stackPointer : Z) : outcome KState :=
  freeMemory k (u64 (stackPointer - DEFAULT_STACK_SIZE)) DEFAULT_STACK_SIZE.

(** ** The virtual heap *)

(** A range of virtual addresses none of which lies in the recursive window
    and no two pages of which are the same to the processor. *)
Record heap_ok (lo hi : Z) : Prop := {
  hp_lo : 0 < lo /\ lo mod 4096 = 0;
  hp_hi : hi <= 2 ^ 64 - 4096 /\ hi - lo <= 2 ^ 47;
  hp_user : forall va, lo <= va < hi -> userAddress va
}.

(** The virtual map holds page-aligned ranges of the heap. *)
Definition heapBlock (lo hi : Z) (b : Block) : Prop :=
  wfBlock b /\ endpoints (fun x => lo <= x /\ x mod 4096 = 0) (fun x => x <= hi) b.

Record kernel_ok (lo hi : Z) (k : KState) : Prop := {
  ko_tables : tables_ok (ps k);
  ko_frame0 : freeCount (blocks (physicalMemory (ps k))) 0 = 0;
  ko_lock : locked (bm_lock (virtualMemory k)) = false;
  ko_heap : heap_ok lo hi;
  ko_blocks : Forall (heapBlock lo hi) (blocks (virtualMemory k));
  ko_length : (length (blocks (virtualMemory k)) <= BLOCKMAP_SIZE)%nat;
  ko_disjoint : disjointMap (blocks (virtualMemory k))
}.

(** ** Pages *)

Lemma index_page l va : 0 <= l <= 3 -> index l va = (va / 4096) / 2 ^ (9 * l) mod 512.
Proof.
  intros Hl. unfold index. rewrite Z.pow_add_r by lia. change (2 ^ 12) with 4096.
  by rewrite Zdiv_Zdiv by (try apply Z.pow_nonneg; lia).
Qed.

Lemma samePage_mod a b : samePage a b -> (a / 4096) mod 68719476736 = (b / 4096) mod 68719476736.
Proof.
  unfold samePage, indices. intros [= H3 H2 H1 H0]. rewrite !index_page in * by lia.
  change (2 ^ (9 * 3)) with 134217728 in *. change (2 ^ (9 * 2)) with 262144 in *.
  change (2 ^ (9 * 1)) with 512 in *. change (2 ^ (9 * 0)) with 1 in *.
  generalize dependent (a / 4096). generalize dependent (b / 4096). intros. dlia.
Qed.

Lemma samePage_heap lo hi a b :
  heap_ok lo hi -> lo <= a < hi -> lo <= b < hi -> samePage a b -> a / 4096 = b / 4096.
Proof.
  intros [_ [_ Hs] _] Ha Hb H%samePage_mod. change (2 ^ 47) with 140737488355328 in Hs.
  assert (Hq : -68719476736 < a / 4096 - b / 4096 < 68719476736) by dlia.
  generalize dependent (a / 4096). generalize dependent (b / 4096). intros. dlia.
Qed.

Lemma samePage_page a b : 0 <= a -> 0 <= b -> a / 4096 = b / 4096 -> samePage a b.
Proof.
  intros Ha Hb H. unfold samePage, indices. by rewrite !(index_page _ a), !(index_page _ b), H by lia.
Qed.

Lemma translate_page m c a b :
  0 <= a -> 0 <= b -> a / 4096 = b / 4096 ->
  translate m c b = match translate m c a with Some x => Some (x - a mod 4096 + b mod 4096) | None => None end.
Proof.
  intros Ha Hb H. unfold translate. rewrite <- (samePage_page a b Ha Hb H).
  destruct (follow m (frameOf c) (indices a)); [f_equal; lia|done].
Qed.

(** ** The page loop *)

Lemma pageLoop_rule {S} (P : Z -> S -> Prop) f size s :
  0 <= size -> size mod 4096 = 0 -> P 0 s ->
  (forall j s, 0 <= j < size -> j mod 4096 = 0 -> P j s ->
     exists s', f s j = Ok s' /\ P (j + 4096) s') ->
  exists s', pageLoop (pages size) f size 0 s = Ok s' /\ P size s'.
Proof.
  intros H0 Ha HP Hstep. unfold pages, PAGE_SIZE.
  assert (Hgen : forall n i s, i = size - 4096 * Z.of_nat n -> 0 <= i -> P i s ->
    exists s', pageLoop n f size i s = Ok s' /\ P size s').
  { clear s HP. induction n as [|n IH]; intros i s Hi Hi0 HP.
    - exists s. cbn. replace (i <? size) with false by (symmetry; apply Z.ltb_ge; lia).
      split; [done|]. by replace size with i by lia.
    - cbn [pageLoop]. replace (i <? size) with true by (symmetry; apply Z.ltb_lt; lia).
      destruct (Hstep i s) as (s' & E & HP'); [lia|dlia|done|]. rewrite E. cbn [obind].
      apply IH; [unfold PAGE_SIZE; lia|unfold PAGE_SIZE; lia|done]. }
  apply Hgen; [dlia|lia|done].
Qed.

Lemma PAGE_ALIGN_UP_spec x : 0 <= x <= 2 ^ 64 - 4096 ->
  PAGE_ALIGN_UP x mod 4096 = 0 /\ x <= PAGE_ALIGN_UP x < x + 4096.
Proof.
  intros Hx. change (2 ^ 64) with 18446744073709551616 in Hx. unfold PAGE_ALIGN_UP.
  rewrite (u64_small (x + 4095)) by lia. rewrite (u64_small ((x + 4095) / 4096)) by dlia.
  rewrite u64_small by dlia. split; [dlia|dlia].
Qed.

Lemma PAGE_ALIGN_DOWN_spec x : 0 <= x < 2 ^ 64 -> PAGE_ALIGN_DOWN x = x - x mod 4096.
Proof.
  intros Hx. change (2 ^ 64) with 18446744073709551616 in Hx. unfold PAGE_ALIGN_DOWN.
  rewrite u64_small by dlia. dlia.
Qed.

(** ** The virtual address allocator *)

Lemma allocate_loop_heap lo hi bs n p bs' :
  Forall (heapBlock lo hi) bs -> 0 <= n -> n mod 4096 = 0 -> allocate_loop bs n = (p, bs') ->
  Forall (heapBlock lo hi) bs' /\
  ((exists b, b ∈ bs /\ n <= capacity b) -> lo <= p /\ p + n <= hi /\ p mod 4096 = 0).
Proof.
  intros Hf Hn Ha. revert p bs'. induction Hf as [|b bs Hb Hbs IH]; intros p bs' E; cbn in E.
  - simplify_eq. split; [by constructor|]. intros (b & Hb & _). by apply elem_of_nil in Hb.
  - pose proof Hb as (Hw & [Hlo Hal] & Hhi). pose proof (capacity_wf b Hw) as Hc. unfold wfBlock in Hw.
    destruct (Z.leb_spec n (capacity b)) as [Hfit|Hfit].
    + rewrite Block_reserve_wf in E by (unfold wfBlock; lia). simplify_eq.
      split; [constructor; [|done]|lia]. split; [unfold wfBlock; cbn; lia|].
      split; cbn; [split; [lia|dlia]|lia].
    + destruct (allocate_loop bs n) as [r bs1] eqn:E1. simplify_eq.
      destruct (IH _ _ eq_refl) as [I1 I2]. split; [by constructor|]. intros (b' & Hin & Hcap).
      apply I2. exists b'. split; [|done]. apply elem_of_cons in Hin as [->|]; [lia|done].
Qed.

Definition virtualRoom (k : KState) (n : Z) : Prop :=
  exists b, b ∈ blocks (virtualMemory k) /\ n <= capacity b.

Lemma valloc_ok lo hi k n :
  kernel_ok lo hi k -> 0 <= n -> n mod 4096 = 0 -> virtualRoom k n ->
  exists p v, valloc k n = Ok (p, mkKState (ps k) v (processorCount k) (remote k)) /\
    lo <= p /\ p + n <= hi /\ p mod 4096 = 0 /\
    kernel_ok lo hi (mkKState (ps k) v (processorCount k) (remote k)) /\
    length (blocks v) = length (blocks (virtualMemory k)) /\
    forall a, freeCount (blocks (virtualMemory k)) a
              = freeCount (blocks v) a + cov (mkBlock p (p + n)) a.
Proof.
  intros [Ht H0 Hl Hh Hb Hn Hd] Hn0 Ha Hroom.
  assert (Hw : Forall wfBlock (blocks (virtualMemory k))) by (eapply Forall_impl; [exact Hb|by intros ? [? _]]).
  destruct (allocate_run (cpu (ps k)) (virtualMemory k) n Hl Hw Hn0) as (p & bs & E & Eloop).
  destruct (allocate_loop_spec _ n _ _ Hw Hn0 Eloop) as (L1 & _ & L3 & _).
  destruct (allocate_loop_heap lo hi _ _ _ _ Hb Hn0 Ha Eloop) as [M1 M2].
  destruct (M2 Hroom) as (P1 & P2 & P3). destruct L3 as [_ Hcov]; [done|].
  exists p, (mkBlockMap bs (unlocked_by (cpu (ps k)))). unfold valloc. rewrite E. cbn [obind].
  split; [by destruct (ps k)|]. split; [done|]. split; [done|]. split; [done|]. split; [|by split].
  constructor; cbn; [done|done|done|done|done|lia|]. intros a. specialize (Hcov a). specialize (Hd a).
  pose proof (cov_range (mkBlock p (p + n)) a). lia.
Qed.

Lemma vreturn_ok lo hi k p n :
  kernel_ok lo hi k -> 0 <= n -> lo <= p -> p + n <= hi -> p mod 4096 = 0 ->
  (forall a, p <= a < p + n -> freeCount (blocks (virtualMemory k)) a = 0) ->
  exists v, vreturn k p n = Ok (mkKState (ps k) v (processorCount k) (remote k)) /\
    kernel_ok lo hi (mkKState (ps k) v (processorCount k) (remote k)) /\
    forall a, freeCount (blocks v) a = freeCount (blocks (virtualMemory k)) a
      + (if hasRoom (blocks (virtualMemory k)) then cov (mkBlock p (p + n)) a else 0).
Proof.
  intros [Ht H0 Hl Hh Hb Hn Hd] Hn0 Hlo Hhi Ha Hfree.
  assert (Hw : wfMap (blocks (virtualMemory k))) by (split; [eapply Forall_impl; [exact Hb|by intros ? [? _]]|done]).
  pose proof (hp_lo _ _ Hh). pose proof (proj1 (hp_hi _ _ Hh)) as Hh2.
  change (2 ^ 64) with 18446744073709551616 in Hh2.
  assert (Hwb : wfBlock (mkBlock p (p + n))) by (unfold wfBlock; cbn; change (2 ^ 64) with 18446744073709551616; lia).
  unfold vreturn, returnMemory. rewrite u64_small by lia.
  destruct (addBlock_run (cpu (ps k)) (virtualMemory k) (mkBlock p (p + n)) Hl Hw Hwb)
    as (bs & l & E & Hl' & Hw' & Hbs & Hc). rewrite E. cbn [obind].
  exists (mkBlockMap bs l). split; [by destruct (ps k)|]. split; [|exact Hc].
  constructor; cbn; [done|done|done|done| |apply Hw'|].
  - assert (He' : Forall (endpoints (fun x => lo <= x /\ x mod 4096 = 0) (fun x => x <= hi)) bs).
    { subst bs. apply addBlock_unlocked_endpoints; [|by repeat split].
      eapply Forall_impl; [exact Hb|]. by intros d (_ & ?). }
    destruct Hw' as [Hw' _]. rewrite Forall_forall in *. intros d Hd'. split; auto.
  - intros a. rewrite Hc. specialize (Hd a). destruct (hasRoom _); [|lia]. unfold cov, covers; cbn.
    destruct (Z.leb_spec p a), (Z.ltb_spec a (p + n)); cbn; try lia. rewrite Hfree by lia. lia.
Qed.

(** ** Mapping a range *)

(** The first [j] bytes at [ptr] are mapped: page [i] to [pa i]. *)
Record mappedTo (s0 : PState) (ptr : Z) (pa : Z -> Z) (al ca : bool) (j : Z) (s : PState) : Prop := {
  mt_tables : tables_ok s;
  mt_cr3 : cr3 s = cr3 s0;
  mt_cpu : cpu s = cpu s0;
  mt_invlpg : invlpg s = invlpg s0;
  mt_free : forall a, freeCount (blocks (physicalMemory s)) a <= freeCount (blocks (physicalMemory s0)) a;
  mt_entries : forall i, 0 <= i < j -> i mod 4096 = 0 ->
    pageEntry s (ptr + i) = Some (entryFor (pa i) WRITABLE al ca);
  mt_translate : forall o, 0 <= o < j ->
    translate (mem s) (cr3 s) (ptr + o) = Some (pa (o - o mod 4096) + o mod 4096);
  mt_others : forall va, userAddress va -> (forall o, 0 <= o < j -> ~ samePage va (ptr + o)) ->
    translate (mem s) (cr3 s) va = translate (mem s0) (cr3 s0) va /\
    forall e, pageEntry s0 va = Some e -> pageEntry s va = Some e;
  mt_newTables : forall q u, tablePath q -> at_path s q = Some u ->
    at_path s0 q = Some u \/ 0 < freeCount (blocks (physicalMemory s0)) u
}.

Lemma mappedTo_nothing s ptr pa al ca : tables_ok s -> mappedTo s ptr pa al ca 0 s.
Proof. intros H. constructor; try done; intros; lia || auto. Qed.

Lemma writable_caller : callerFlags WRITABLE.
Proof. split; vm_compute; [split; [discriminate|reflexivity]|reflexivity]. Qed.

#[export] Hint Resolve writable_caller mappedTo_nothing : kernel.

(** Changing only the frame allocator keeps the tables' invariant when no
    memory becomes free. *)
Lemma set_phys_tables s b :
  tables_ok s -> frames_ok (set_phys s (cpu s) b) ->
  (forall a, freeCount (blocks b) a <= freeCount (blocks (physicalMemory s)) a) ->
  tables_ok (set_phys s (cpu s) b).
Proof.
  intros Hok Hf Hle. constructor; [apply Hok|apply Hok| |exact Hf].
  intros p t Hp Ht. pose proof (to_free s Hok p t Hp Ht). specialize (Hle t).
  pose proof (freeCount_nonneg (blocks b) t). cbn. lia.
Qed.

Section MapStep.
Context (lo hi ptr size : Z) (Hheap : heap_ok lo hi) (Hlo : lo <= ptr) (Hhi : ptr + size <= hi)
  (Hptr : ptr mod 4096 = 0).

Lemma range_user o : 0 <= o < size -> userAddress (ptr + o).
Proof. intros Ho. apply (hp_user _ _ Hheap). lia. Qed.

Lemma range_samePage o o' : 0 <= o < size -> 0 <= o' < size -> samePage (ptr + o) (ptr + o') -> o / 4096 = o' / 4096.
Proof.
  intros Ho Ho' H. apply (samePage_heap lo hi) in H; [|done|lia|lia]. dlia.
Qed.

Lemma range_pos : 0 < ptr.
Proof. pose proof (hp_lo _ _ Hheap). lia. Qed.

Lemma range_small o : 0 <= o <= size -> u64 (ptr + o) = ptr + o.
Proof.
  intros Ho. pose proof range_pos. pose proof (proj1 (hp_hi _ _ Hheap)) as Hhi2.
  change (2 ^ 64) with 18446744073709551616 in Hhi2. apply u64_small. lia.
Qed.

Lemma mappedTo_step s0 s b pa pa' al ca j :
  mappedTo s0 ptr pa al ca j s -> 0 <= j < size -> j mod 4096 = 0 -> j + 4096 <= size ->
  frames_ok (set_phys s (cpu s) b) -> 3 <= framesFree (blocks b) ->
  (forall a, freeCount (blocks b) a <= freeCount (blocks (physicalMemory s)) a) ->
  0 <= pa' j < 2 ^ 52 -> pa' j mod 4096 = 0 -> (forall i, i < j -> pa' i = pa i) ->
  exists s', mapPage (set_phys s (cpu s) b) (u64 (ptr + j)) (pa' j) WRITABLE al ca = Ok s' /\
    mappedTo s0 ptr pa' al ca (j + 4096) s' /\
    framesFree (blocks b) - 3 <= framesFree (blocks (physicalMemory s')) /\
    (forall a, freeCount (blocks (physicalMemory s')) a <= freeCount (blocks b) a) /\
    (forall q u, tablePath q -> at_path s' q = Some u ->
       at_path s q = Some u \/ 0 < freeCount (blocks b) u).
Proof.
  intros [M1 M2 M3 M4 M5 M6 M7 M8 M9] Hj Hja Hjs Hfo Hff Hle Hpa Hpaa Hagree.
  rewrite range_small by lia.
  destruct (mapPage_run (set_phys s (cpu s) b) (ptr + j) (pa' j) WRITABLE al ca)
    as (s' & E & R1 & R2 & R3 & R4 & R5 & R6 & R7 & R8 & R9 & R10);
    [by apply set_phys_tables|apply range_user; lia|done|done|auto with kernel|].
  assert (Hne : forall o, 0 <= o < j -> userAddress (ptr + o) /\ ~ samePage (ptr + o) (ptr + j)).
  { intros o Ho. split; [apply range_user; lia|]. intros Hs%range_samePage; [dlia|lia..]. }
  exists s'. split; [done|]. split; [|split; [exact R6|split; [exact R5|exact R10]]].
  constructor; cbn in *; try congruence; try done.
  - intros a. etrans; [apply R5|]. etrans; [apply Hle|apply M5].
  - intros i Hi Hia. destruct (Z.eq_dec i j) as [->|Hij]; [exact R7|].
    assert (Hi' : 0 <= i < j) by dlia. destruct (Hne i Hi') as [U N].
    rewrite (Hagree i) by lia. apply (R9 _ U N), M6; done.
  - intros o Ho. destruct (Z.lt_ge_cases o j) as [Hoj|Hoj].
    + destruct (Hne o ltac:(lia)) as [U N]. rewrite (proj1 (R9 _ U N)).
      rewrite Hagree by dlia. apply M7. lia.
    + pose proof range_pos. rewrite (translate_page _ _ (ptr + j) (ptr + o)) by (lia || dlia).
      rewrite R8, Hpaa. replace (o - o mod 4096) with j by dlia. f_equal. dlia.
  - intros va Hu Ho. destruct (M8 va Hu) as [T1 T2]; [intros o Ho'; apply Ho; lia|].
    destruct (R9 va Hu (Ho j ltac:(lia))) as [T3 T4]. split; [by rewrite T3, T1|].
    intros e He. by apply T4, T2.
  - intros q u Hq Hu. apply R10 in Hu as [Hu|Hu]; [by apply M9| |done].
    right. specialize (Hle u). specialize (M5 u). lia.
Qed.
End MapStep.

(** The pages of a range are backed by distinct frames taken from the
    allocator, none of which is a page table. *)
Record ownedFrames (s0 : PState) (pa : Z -> Z) (j : Z) (s : PState) : Prop := {
  of_range : forall i, 0 <= i < j -> i mod 4096 = 0 ->
    0 < pa i < 2 ^ 52 /\ pa i mod 4096 = 0;
  of_taken : forall i a, 0 <= i < j -> i mod 4096 = 0 -> pa i <= a < pa i + 4096 ->
    freeCount (blocks (physicalMemory s0)) a = 1 /\ freeCount (blocks (physicalMemory s)) a = 0;
  of_tables : forall i q u, 0 <= i < j -> i mod 4096 = 0 -> tablePath q -> at_path s q = Some u -> u <> pa i;
  of_distinct : forall i i', 0 <= i < j -> 0 <= i' < j -> i mod 4096 = 0 -> i' mod 4096 = 0 ->
    pa i = pa i' -> i = i'
}.

Lemma ownedFrames_nothing s0 pa s : ownedFrames s0 pa 0 s.
Proof. constructor; intros; lia. Qed.

Section AllocateStep.
Context (lo hi ptr size : Z) (Hheap : heap_ok lo hi) (Hlo : lo <= ptr) (Hhi : ptr + size <= hi)
  (Hptr : ptr mod 4096 = 0) (Hsize : size mod 4096 = 0) (s0 : PState)
  (Hdisj : disjointMap (blocks (physicalMemory s0))).

Definition allocateInv (j : Z) (s : PState) : Prop :=
  exists pa, mappedTo s0 ptr pa true true j s /\ ownedFrames s0 pa j s /\
    framesFree (blocks (physicalMemory s0)) - 4 * (j / 4096) <= framesFree (blocks (physicalMemory s)).

Lemma allocateBody_step j s :
  freeCount (blocks (physicalMemory s0)) 0 = 0 ->
  4 * (size / 4096) <= framesFree (blocks (physicalMemory s0)) ->
  0 <= j < size -> j mod 4096 = 0 -> allocateInv j s ->
  exists s', allocateBody ptr s j = Ok s' /\ allocateInv (j + 4096) s'.
Proof.
  intros Hzero Henough Hj Hja (pa & HM & HO & Hff).
  assert (H4 : 4 <= framesFree (blocks (physicalMemory s))) by dlia.
  destruct (allocateFrame_ok s (to_frames _ (mt_tables _ _ _ _ _ _ _ HM)) ltac:(lia))
    as (F & b & E & HFa & HFr & Hfo & HF1 & Hcov).
  destruct (frame_fresh s b F (mt_tables _ _ _ _ _ _ _ HM) Hfo Hcov) as [_ Hfresh].
  assert (Hbyte : forall a, F <= a < F + 4096 ->
    freeCount (blocks (physicalMemory s)) a = 1 /\ freeCount (blocks b) a = 0).
  { intros a Ha. specialize (Hcov a). pose proof (freeCount_nonneg (blocks b) a).
    assert (cov (mkBlock F (F + 4096)) a = 1) by (apply cov_1; cbn; lia).
    pose proof (fo_disjoint _ (to_frames _ (mt_tables _ _ _ _ _ _ _ HM)) a). lia. }
  assert (Hle : forall a, freeCount (blocks b) a <= freeCount (blocks (physicalMemory s)) a)
    by (intros a; specialize (Hcov a); pose proof (cov_range (mkBlock F (F + 4096)) a); lia).
  assert (HF0 : F <> 0).
  { intros ->. destruct (Hbyte 0 ltac:(lia)) as [H1 _].
    pose proof (mt_free _ _ _ _ _ _ _ HM 0). lia. }
  unfold allocateBody. rewrite E. cbn [obind].
  replace (F / 4096 =? 0) with false by (symmetry; apply Z.eqb_neq; dlia). cbn [negb].
  assert (u64 (F / 4096 * PAGE_SIZE) = F) as ->.
  { unfold PAGE_SIZE. change (2 ^ 52) with 4503599627370496 in HFr. rewrite u64_small; dlia. }
  set (pa' := fun i => if i =? j then F else pa i).
  assert (Epa : pa' j = F) by (unfold pa'; by rewrite Z.eqb_refl).
  assert (Epo : forall i, i < j -> pa' i = pa i) by (intros i Hi; unfold pa'; by rewrite (proj2 (Z.eqb_neq i j)) by lia).
  destruct (mappedTo_step lo hi ptr size Hheap Hlo Hhi Hptr s0 s b pa pa' true true j)
    as (s' & E' & HM' & Hff' & Hle' & Htab); try done; try (rewrite Epa; done); [dlia|lia|].
  rewrite Epa in E'. exists s'. split; [exact E'|]. exists pa'. split; [exact HM'|]. split; [|dlia].
  assert (Hold : forall i, 0 <= i < j + 4096 -> i mod 4096 = 0 -> i = j \/ 0 <= i < j) by (intros; dlia).
  assert (HFpa : forall i, 0 <= i < j -> i mod 4096 = 0 -> pa i <> F).
  { intros i Hi Hia Heq. destruct (of_taken _ _ _ _ HO i F Hi Hia ltac:(lia)) as [_ H1].
    destruct (Hbyte F ltac:(lia)) as [H2 _]. lia. }
  constructor.
  - intros i Hi Hia. destruct (Hold i Hi Hia) as [->|Hi']; [rewrite Epa; lia|].
    rewrite Epo by lia. by apply (of_range _ _ _ _ HO).
  - intros i a Hi Hia Ha. pose proof (Hle' a). pose proof (freeCount_nonneg (blocks (physicalMemory s')) a).
    specialize (Hle a). destruct (Hold i Hi Hia) as [->|Hi'].
    + rewrite Epa in Ha. destruct (Hbyte a Ha) as [B1 B2]. pose proof (mt_free _ _ _ _ _ _ _ HM a).
      split; [|lia]. rewrite <- B1. destruct (Z.eq_dec (freeCount (blocks (physicalMemory s0)) a) 1) as [->|Hn]; [done|].
      pose proof (mt_free _ _ _ _ _ _ _ HM' a) as H3.
      assert (freeCount (blocks (physicalMemory s0)) a <= 1); [|lia].
      by apply Hdisj.
    + rewrite Epo in Ha by lia. destruct (of_taken _ _ _ _ HO i a Hi' Hia Ha). lia.
  - intros i q u Hi Hia Hq Hu. apply Htab in Hu as [Hu|Hu]; [| |done].
    + destruct (Hold i Hi Hia) as [->|Hi']; [rewrite Epa; by apply (Hfresh q)|].
      rewrite Epo by lia. by apply (of_tables _ _ _ _ HO i q).
    + intros ->. destruct (Hold i Hi Hia) as [->|Hi'].
      * rewrite Epa in Hu. destruct (Hbyte F ltac:(lia)). lia.
      * rewrite Epo in Hu by lia. destruct (of_taken _ _ _ _ HO i (pa i) Hi' Hia ltac:(lia)).
        specialize (Hle (pa i)). lia.
  - intros i i' Hi Hi' Hia Hia' Heq.
    destruct (Hold i Hi Hia) as [->|Hj1], (Hold i' Hi' Hia') as [->|Hj2]; try done.
    + rewrite Epa, Epo in Heq by lia. by destruct (HFpa i' Hj2 Hia').
    + rewrite Epa, (Epo i) in Heq by lia. by destruct (HFpa i Hj1 Hia).
    + rewrite !Epo in Heq by lia. by apply (of_distinct _ _ _ _ HO).
Qed.
End AllocateStep.

(** ** Runs of the allocating operations *)

Lemma kernel_ok_mapped lo hi k v s :
  kernel_ok lo hi (mkKState (ps k) v (processorCount k) (remote k)) -> tables_ok s ->
  (forall a, freeCount (blocks (physicalMemory s)) a <= freeCount (blocks (physicalMemory (ps k))) a) ->
  kernel_ok lo hi (mkKState s v (processorCount k) (remote k)).
Proof.
  intros [Ht H0 Hl Hh Hb Hn Hd] Hs Hle. constructor; try done. cbn in *.
  specialize (Hle 0). pose proof (freeCount_nonneg (blocks (physicalMemory s)) 0). lia.
Qed.

Lemma allocateMemory_run lo hi k size :
  kernel_ok lo hi k -> 0 <= size <= 2 ^ 64 - 4104 ->
  let n := PAGE_ALIGN_UP (size + 8) in
  virtualRoom k n -> 4 * (n / 4096) <= framesFree (blocks (physicalMemory (ps k))) ->
  exists ptr pa s v, allocateMemory k size = Ok (ptr, mkKState s v (processorCount k) (remote k)) /\
    kernel_ok lo hi (mkKState s v (processorCount k) (remote k)) /\
    lo <= ptr /\ ptr + n <= hi /\ ptr mod 4096 = 0 /\
    mappedTo (ps k) ptr pa true true n s /\ ownedFrames (ps k) pa n s /\
    (length (blocks v) <= length (blocks (virtualMemory k)))%nat /\
    (valloc k n = Ok (ptr, mkKState (ps k) v (processorCount k) (remote k)) /\
     framesFree (blocks (physicalMemory (ps k))) - 4 * (n / 4096) <= framesFree (blocks (physicalMemory s))) /\
    forall a, freeCount (blocks (virtualMemory k)) a = freeCount (blocks v) a + cov (mkBlock ptr (ptr + n)) a.
Proof.
  intros Hok Hsize n Hroom Hff. change (2 ^ 64) with 18446744073709551616 in Hsize.
  destruct (PAGE_ALIGN_UP_spec (size + 8)) as [Hna Hn]; [change (2 ^ 64) with 18446744073709551616; lia|]. fold n in Hna, Hn.
  destruct (valloc_ok lo hi k n Hok ltac:(lia) Hna Hroom) as (p & v & E & P1 & P2 & P3 & Hok1 & Hlen & Hcov).
  pose proof (hp_lo _ _ (ko_heap _ _ _ Hok)) as Hlo.
  unfold allocateMemory, KmallocHeaderSize. rewrite u64_small by lia. fold n. rewrite E. cbn [obind].
  rewrite (proj2 (Z.eqb_neq p 0)) by lia. cbn [ps].
  destruct (pageLoop_rule (allocateInv p (ps k)) (allocateBody p) n (ps k)) as (s & Es & pa & HM & HO & Hfr); [lia|done| | |].
  - exists (fun _ => 0). split; [apply mappedTo_nothing, Hok|]. split; [apply ownedFrames_nothing|]. change (0 / 4096) with 0. lia.
  - intros j s Hj Hja HI.
    apply (allocateBody_step lo hi p n (ko_heap _ _ _ Hok) P1 P2 P3 Hna (ps k)); try done.
    + apply (fo_disjoint _ (to_frames _ (ko_tables _ _ _ Hok))).
    + apply Hok.
  - rewrite Es. cbn [obind]. exists p, pa, s, v. split; [done|].
    split; [by apply kernel_ok_mapped; [|apply HM|apply HM]|]. do 5 (split; [done|]). split; [lia|done].
Qed.

Lemma mapAddress_run lo hi k pa size ca :
  kernel_ok lo hi k -> 0 <= pa -> 0 <= size -> pa + size <= 2 ^ 52 ->
  let n := PAGE_ALIGN_UP (pa + size) - (pa - pa mod 4096) in
  virtualRoom k n -> 3 * (n / 4096) <= framesFree (blocks (physicalMemory (ps k))) ->
  exists ptr s v, mapAddress k pa size ca
      = Ok (ptr + pa mod 4096, mkKState s v (processorCount k) (remote k)) /\
    kernel_ok lo hi (mkKState s v (processorCount k) (remote k)) /\
    lo <= ptr /\ ptr + n <= hi /\ ptr mod 4096 = 0 /\ size + pa mod 4096 <= n /\ n mod 4096 = 0 /\
    mappedTo (ps k) ptr (fun i => pa - pa mod 4096 + i) false ca n s /\
    (valloc k n = Ok (ptr, mkKState (ps k) v (processorCount k) (remote k)) /\
     framesFree (blocks (physicalMemory (ps k))) - 3 * (n / 4096) <= framesFree (blocks (physicalMemory s))) /\
    forall a, freeCount (blocks (virtualMemory k)) a = freeCount (blocks v) a + cov (mkBlock ptr (ptr + n)) a.
Proof.
  intros Hok Hpa Hsize Hend n Hroom Hff. change (2 ^ 52) with 4503599627370496 in Hend.
  destruct (PAGE_ALIGN_UP_spec (pa + size)) as [Hna Hn]; [change (2 ^ 64) with 18446744073709551616; lia|].
  assert (Hn1 : size + pa mod 4096 <= n /\ n mod 4096 = 0 /\ 0 <= n /\ pa - pa mod 4096 + n <= 4503599627370496)
    by (unfold n; dlia).
  destruct Hn1 as (N1 & N2 & N3 & N4).
  destruct (valloc_ok lo hi k n Hok N3 N2 Hroom) as (p & v & E & P1 & P2 & P3 & Hok1 & Hlen & Hcov).
  pose proof (hp_lo _ _ (ko_heap _ _ _ Hok)) as Hlo.
  pose proof (proj1 (hp_hi _ _ (ko_heap _ _ _ Hok))) as Hhi. change (2 ^ 64) with 18446744073709551616 in Hhi.
  unfold mapAddress. rewrite (u64_small (pa + size)) by lia.
  rewrite PAGE_ALIGN_DOWN_spec by (change (2 ^ 64) with 18446744073709551616; lia). fold n.
  rewrite (u64_small n) by dlia. rewrite E. cbn [obind].
  rewrite (proj2 (Z.eqb_neq p 0)) by lia. cbn [ps]. unfold PAGE_SIZE.
  set (P := pa - pa mod 4096) in *.
  assert (HP : P mod 4096 = 0 /\ 0 <= P) by (unfold P; dlia).
  set (inv := fun j s => mappedTo (ps k) p (fun i => P + i) false ca j s /\
    framesFree (blocks (physicalMemory (ps k))) - 3 * (j / 4096) <= framesFree (blocks (physicalMemory s))).
  match goal with |- context [pageLoop _ ?b _ _ _] => set (body := b) end.
  destruct (pageLoop_rule inv body n (ps k)) as (s & Es & HM & Hfr); [exact N3|exact N2| | |].
  - split; [apply mappedTo_nothing, Hok|]. change (0 / 4096) with 0. lia.
  - intros j s Hj Hja (HM & Hf).
    assert (Hs : set_phys s (cpu s) (physicalMemory s) = s) by by destruct s.
    destruct (mappedTo_step lo hi p n (ko_heap _ _ _ Hok) P1 P2 P3 (ps k) s (physicalMemory s)
      (fun i => P + i) (fun i => P + i) false ca j) as (s' & E' & HM' & Hf' & _); try done.
    + dlia.
    + rewrite Hs. apply (to_frames _ (mt_tables _ _ _ _ _ _ _ HM)).
    + dlia.
    + change (2 ^ 52) with 4503599627370496. dlia.
    + dlia.
    + rewrite Hs in E'. exists s'. unfold body. rewrite (u64_small (P + j)) by dlia. split; [exact E'|]. split; [exact HM'|dlia].
  - rewrite Es. cbn [obind]. exists p, s, v. rewrite (u64_small (p + pa mod 4096)) by dlia. split; [done|].
    split; [by apply kernel_ok_mapped; [|apply HM|apply HM]|]. do 6 (split; [done|]). done.
Qed.

(** ** Unmapping a range *)

Definition releases (e : Z) : bool := negb (flag_and e ALLOCATED =? 0).

(** What [unmapMemory] relies on: every page of the range has a page-table
    entry, and the frames it will return are distinct, in use and not tables. *)
Record ownedRange (s : PState) (p : Z) (e : Z -> Z) (n : Z) : Prop := {
  or_entry : forall i, 0 <= i < n -> i mod 4096 = 0 -> pageEntry s (p + i) = Some (e i) /\ 0 <= e i < 2 ^ 52;
  or_returnable : forall i, 0 <= i < n -> i mod 4096 = 0 -> releases (e i) = true ->
    returnable s (returnedFrame (e i)) /\ 0 < returnedFrame (e i);
  or_distinct : forall i i', 0 <= i < n -> 0 <= i' < n -> i mod 4096 = 0 -> i' mod 4096 = 0 ->
    releases (e i) = true -> releases (e i') = true ->
    returnedFrame (e i) = returnedFrame (e i') -> i = i'
}.

(** Byte [a] belongs to a frame the first [j] bytes of the range release. *)
Definition released (e : Z -> Z) (j a : Z) : Prop :=
  exists i, 0 <= i < j /\ i mod 4096 = 0 /\ releases (e i) = true /\
    returnedFrame (e i) <= a < returnedFrame (e i) + 4096.

Record unmappedTo (s0 : PState) (p : Z) (e : Z -> Z) (j : Z) (s : PState) : Prop := {
  um_tables : tables_ok s;
  um_cpu : cpu s = cpu s0;
  um_paths : forall q, tablePath q -> at_path s q = at_path s0 q;
  um_gone : forall o, 0 <= o < j -> translate (mem s) (cr3 s) (p + o) = None;
  um_invlpg : forall i, 0 <= i < j -> i mod 4096 = 0 -> p + i ∈ invlpg s;
  um_others : forall va, userAddress va -> (forall o, 0 <= o < j -> ~ samePage va (p + o)) ->
    translate (mem s) (cr3 s) va = translate (mem s0) (cr3 s0) va /\ pageEntry s va = pageEntry s0 va;
  um_length : Z.of_nat (length (blocks (physicalMemory s))) <= Z.of_nat (length (blocks (physicalMemory s0))) + j / 4096;
  um_kept : forall a, ~ released e j a ->
    freeCount (blocks (physicalMemory s)) a = freeCount (blocks (physicalMemory s0)) a;
  um_freed : Z.of_nat (length (blocks (physicalMemory s0))) + j / 4096 <= Z.of_nat BLOCKMAP_SIZE ->
    forall a, released e j a -> freeCount (blocks (physicalMemory s)) a = 1
}.

Lemma unmappedTo_nothing s p e : tables_ok s -> unmappedTo s p e 0 s.
Proof.
  intros H. constructor; try done; try (intros; lia).
  - change (0 / 4096) with 0. lia.
  - intros _ a (i & Hi & _). lia.
Qed.

Section UnmapStep.
Context (lo hi p n : Z) (Hheap : heap_ok lo hi) (Hlo : lo <= p) (Hhi : p + n <= hi)
  (Hp : p mod 4096 = 0) (Hn : n mod 4096 = 0) (s0 : PState) (e : Z -> Z) (Howned : ownedRange s0 p e n).

Lemma released_step j a : 0 <= j -> j mod 4096 = 0 ->
  released e (j + 4096) a <-> released e j a \/
    releases (e j) = true /\ returnedFrame (e j) <= a < returnedFrame (e j) + 4096.
Proof.
  intros Hj Hja. split.
  - intros (i & Hi & Hia & Hr & Ha). destruct (Z.eq_dec i j) as [->|]; [by right|].
    left. exists i. split; [dlia|done].
  - intros [(i & Hi & Hr)|[Hr Ha]]; [exists i; split; [lia|done]|].
    exists j. split; [lia|done].
Qed.

Lemma returnedFrame_aligned x : returnedFrame x mod 4096 = 0.
Proof. unfold returnedFrame. dlia. Qed.

(** The frame of page [j] has not been released by the pages before it. *)
Lemma not_released_yet j a :
  0 <= j < n -> j mod 4096 = 0 -> releases (e j) = true ->
  returnedFrame (e j) <= a < returnedFrame (e j) + 4096 -> ~ released e j a.
Proof.
  intros Hj Hja Hr Ha (i & Hi & Hia & Hri & Hai).
  pose proof (returnedFrame_aligned (e i)). pose proof (returnedFrame_aligned (e j)).
  assert (i = j); [|lia]. apply (or_distinct _ _ _ _ Howned); try done; [lia|dlia].
Qed.

Lemma unmappedTo_step s j :
  0 <= j < n -> j mod 4096 = 0 -> unmappedTo s0 p e j s ->
  exists s', unmapPage s (u64 (p + j)) = Ok s' /\ unmappedTo s0 p e (j + 4096) s'.
Proof.
  intros Hj Hja [U1 U2 U3 U4 U5 U6 U7 U8 U9].
  rewrite (range_small lo hi p n Hheap Hlo Hhi) by lia.
  assert (Huser : forall o, 0 <= o < n -> userAddress (p + o)) by (intros o Ho; by apply (range_user lo hi p n)).
  assert (Hne : forall o, 0 <= o < n -> ~ j <= o < j + 4096 -> ~ samePage (p + o) (p + j)).
  { intros o Ho Hoj Hs. apply (range_samePage lo hi p n Hheap Hlo Hhi Hp) in Hs; [dlia|lia..]. }
  assert (Hent : pageEntry s (p + j) = Some (e j)).
  { rewrite (proj2 (U6 (p + j) (Huser j Hj) ltac:(intros o Ho Hs;
      apply (range_samePage lo hi p n Hheap Hlo Hhi Hp) in Hs; [dlia|lia..]))).
    by apply (or_entry _ _ _ _ Howned). }
  destruct (or_entry _ _ _ _ Howned j Hj Hja) as [_ He].
  unfold pageEntry in Hent. destruct (at_path s (tableIndices (p + j))) as [t|] eqn:Ht; [|done].
  injection Hent as Hent.
  destruct (unmapPage_run s (p + j) t U1 (Huser j Hj) Ht) as
    (s' & E & R1 & R2 & R3 & R4 & R5 & R6 & R7 & R8 & R9); [by rewrite Hent|rewrite Hent|].
  { intros Hr. destruct (or_returnable _ _ _ _ Howned j Hj Hja Hr) as [[Q1 Q2] _]. split.
    - intros a Ha. rewrite U8 by by apply (not_released_yet j). by apply Q1.
    - intros q u Hq. rewrite U3 by done. by apply Q2. }
  rewrite Hent in R9. fold (releases (e j)) in R9. exists s'. split; [done|]. constructor; [done|congruence| | | | |dlia| |].
  - intros q Hq. rewrite R7 by done. by apply U3.
  - intros o Ho. destruct (Z.lt_ge_cases o j).
    + rewrite (proj1 (R6 (p + o) (Huser o ltac:(dlia)) (Hne o ltac:(dlia) ltac:(lia)))). apply U4. lia.
    + pose proof (range_pos lo hi p Hheap Hlo).
      rewrite (translate_page _ _ (p + j) (p + o)) by (lia || dlia). by rewrite R5.
  - intros i Hi Hia. rewrite R2. destruct (Z.eq_dec i j) as [->|]; [by left|]. right. apply U5; [dlia|done].
  - intros va Hu Ho. destruct (R6 va Hu (Ho j ltac:(lia))) as [-> ->].
    apply U6; [done|]. intros o Ho'. apply Ho. lia.
  - intros a Ha. rewrite released_step in Ha by lia. rewrite R9, U8 by tauto.
    destruct (releases (e j)) eqn:Hr; [|cbn; lia]. cbn [andb].
    destruct (hasRoom _); [|lia]. rewrite (proj2 (cov_0 _ _)); [lia|cbn; tauto].
  - intros Hroom a Ha. rewrite released_step in Ha by lia. rewrite R9.
    rewrite (hasRoom_short (blocks (physicalMemory s))) by dlia. rewrite andb_true_r.
    destruct Ha as [Ha|[Hr Ha]].
    + rewrite U9 by (dlia || done). destruct (releases (e j)) eqn:Hr; [|lia].
      rewrite (proj2 (cov_0 _ _)); [lia|]. cbn. intros Ha'. by apply (not_released_yet j a).
    + rewrite Hr, (proj2 (cov_1 _ _)) by done. rewrite U8 by by apply (not_released_yet j).
      destruct (or_returnable _ _ _ _ Howned j Hj Hja Hr) as [[Q1 _] _]. by rewrite Q1.
Qed.
End UnmapStep.

(** ** The TLB shootdown *)

Lemma remoteInvalidate_spec n : forall i address size offset log,
  0 <= offset -> size = offset + 4096 * Z.of_nat n ->
  (forall x, x ∈ log -> x ∈ remoteInvalidate n i address size offset log) /\
  (forall o, offset <= o < size -> (o - offset) mod 4096 = 0 ->
     (i, u64 (address + o)) ∈ remoteInvalidate n i address size offset log).
Proof.
  induction n as [|n IH]; intros i address size offset log H0 Hs; cbn [remoteInvalidate]; [split; [done|intros; lia]|].
  rewrite (proj2 (Z.ltb_lt offset size)) by lia.
  destruct (IH i address size (offset + 4096) ((i, u64 (address + offset)) :: log)) as [I1 I2]; [lia|lia|].
  split; [intros x Hx; apply I1; by right|]. intros o Ho Ha.
  destruct (Z.eq_dec o offset) as [->|]; [apply I1; by left|]. apply I2; dlia.
Qed.

Lemma shootdown_spec n : forall i me address size log,
  0 <= size -> size mod 4096 = 0 ->
  (forall x, x ∈ log -> x ∈ shootdown n i me address size log) /\
  (forall j o, i <= j < i + Z.of_nat n -> j < MAX_CPUS -> j <> me -> 0 <= o < size -> o mod 4096 = 0 ->
     (j, u64 (address + o)) ∈ shootdown n i me address size log).
Proof.
  induction n as [|n IH]; intros i me address size log H0 Ha; cbn [shootdown]; [split; [done|intros; lia]|].
  set (log' := if negb (i =? me) && (i <? MAX_CPUS) then _ else log).
  destruct (IH (i + 1) me address size log' H0 Ha) as [I1 I2].
  destruct (remoteInvalidate_spec (pages size) i address size 0 log) as [R1 R2]; [lia|unfold pages, PAGE_SIZE; dlia|].
  assert (Hlog : forall x, x ∈ log -> x ∈ log') by (intros x Hx; unfold log'; destruct (_ && _); auto).
  split; [auto|]. intros j o Hj Hmax Hme Ho Hoa.
  destruct (Z.eq_dec j i) as [->|]; [|apply I2; lia || done].
  apply I1. unfold log'. rewrite (proj2 (Z.eqb_neq i me)), (proj2 (Z.ltb_lt i MAX_CPUS)) by done.
  apply R2; [lia|]. by rewrite Z.sub_0_r.
Qed.

Lemma unmapMemory_run lo hi k address size e :
  kernel_ok lo hi k -> 0 < address -> 0 <= size ->
  let p := address - address mod 4096 in
  let n := PAGE_ALIGN_UP (address + size) - p in
  lo <= p -> address + size <= hi -> p + n <= hi -> ownedRange (ps k) p e n ->
  (forall a, p <= a < p + n -> freeCount (blocks (virtualMemory k)) a = 0) ->
  exists s v r, unmapMemory k address size = Ok (mkKState s v (processorCount k) r) /\
    kernel_ok lo hi (mkKState s v (processorCount k) r) /\ unmappedTo (ps k) p e n s /\
    (forall i o, 0 <= i < processorCount k -> i < MAX_CPUS -> i <> getCpuNumber (cpu (ps k)) ->
       0 <= o < n -> o mod 4096 = 0 -> (i, p + o) ∈ r) /\
    (forall a, freeCount (blocks v) a = freeCount (blocks (virtualMemory k)) a
       + (if hasRoom (blocks (virtualMemory k)) then cov (mkBlock p (p + n)) a else 0)).
Proof.
  intros Hok Haddr Hsize p n Hlo Hend Hhi Howned Hfree.
  pose proof (proj1 (hp_hi _ _ (ko_heap _ _ _ Hok))) as Hh.
  pose proof (hp_lo _ _ (ko_heap _ _ _ Hok)) as [Hl _].
  destruct (PAGE_ALIGN_UP_spec (address + size)) as [Hna Hn]; [lia|].
  change (2 ^ 64) with 18446744073709551616 in Hh.
  assert (Hpn : p mod 4096 = 0 /\ n mod 4096 = 0 /\ 0 <= n /\ 0 < p) by (unfold n, p in *; dlia).
  destruct Hpn as (Hp & Hnm & Hn0 & Hp0).
  unfold unmapMemory. rewrite (proj2 (Z.eqb_neq address 0)) by lia. cbn [negb].
  rewrite (u64_small (address + size)) by lia.
  rewrite PAGE_ALIGN_DOWN_spec by (change (2 ^ 64) with 18446744073709551616; lia). fold p. fold n.
  rewrite (u64_small n) by lia.
  destruct (pageLoop_rule (unmappedTo (ps k) p e) (fun s i => unmapPage s (u64 (p + i))) n (ps k))
    as (s & Es & HU); [done|done|apply unmappedTo_nothing, Hok| |].
  { intros j s Hj Hja HI. by apply (unmappedTo_step lo hi p n (ko_heap _ _ _ Hok) Hlo Hhi Hp Hnm). }
  rewrite Es. cbn [obind]. rewrite (um_cpu _ _ _ _ _ HU).
  destruct (shootdown_spec (Z.to_nat (processorCount k)) 0 (getCpuNumber (cpu (ps k))) p n (remote k) Hn0 Hnm) as [_ HS].
  set (r := shootdown _ _ _ _ _ _) in *.
  assert (Hok1 : kernel_ok lo hi (mkKState s (virtualMemory k) (processorCount k) r)).
  { destruct Hok as [K1 K2 K3 K4 K5 K6 K7]. constructor; try done; cbn; [apply HU|].
    rewrite (um_kept _ _ _ _ _ HU); [done|]. intros (i & Hi & Hia & Hr & Ha).
    destruct (or_returnable _ _ _ _ Howned i Hi Hia Hr). lia. }
  destruct (vreturn_ok lo hi _ p n Hok1 Hn0 Hlo Hhi Hp) as (v & Ev & Hok2 & Hc); [done|].
  exists s, v, r. split; [exact Ev|]. split; [exact Hok2|]. split; [exact HU|]. split; [|exact Hc].
  intros i o Hi Hmax Hme Ho Hoa. rewrite <- (u64_small (p + o)) by lia. apply HS; lia || done.
Qed.

(** ** Data pages *)

(** A store that misses every page table changes no mapping. *)
Lemma vstore_data s va a v :
  tables_ok s -> translate (mem s) (cr3 s) va = Some a -> a mod 4096 = 0 ->
  (forall q u, tablePath q -> at_path s q = Some u -> u <> a) ->
  let s' := set_mem s (upd (mem s) a v) in
  vstore s va v = Ok s' /\ tables_ok s' /\
  (forall q, goodPath q -> (length q <= 4)%nat -> at_path s' q = at_path s q) /\
  (forall va, userAddress va -> pageEntry s' va = pageEntry s va).
Proof.
  intros Hok Ht Ha Hmiss s'.
  assert (Hag : forall q u j, tablePath q -> inRange j -> at_path s q = Some u ->
            mem s' (u + 8 * j) = mem s (u + 8 * j)).
  { intros q u j Hq Hj Hu. cbn. unfold upd. destruct (Z.eqb_spec (u + 8 * j) a) as [Heq|]; [exfalso|done].
    pose proof (at_path_aligned s q u Hu). apply (Hmiss q u Hq Hu). unfold inRange in Hj. dlia. }
  assert (Hpath : forall q, goodPath q -> (length q <= 4)%nat -> at_path s' q = at_path s q).
  { intros q Hq Hl. apply (follow_update _ _ _ [512] 0).
    - intros q' j u [rest ->] _ Hx. rewrite length_app in Hl. cbn in Hl.
      apply (Hag q'); [split; [by eapply goodPath_app|lia]| |done].
      destruct Hq as [Hq _]. rewrite Forall_app, Forall_cons in Hq. tauto.
    - intros rest ->. destruct Hq as [Hq _]. cbn in Hq. apply Forall_cons in Hq as [Hq _]. unfold inRange in Hq. lia. }
  assert (Htab : forall q, tablePath q -> at_path s' q = at_path s q) by (intros q [Hq Hl]; apply Hpath; [done|lia]).
  split; [unfold vstore; by rewrite Ht|]. split; [|split; [exact Hpath|]].
  - constructor.
    + unfold selfMap. change (root s') with (root s). rewrite (Hag [] (root s) 511); [apply Hok| | |done].
      * split; [split; [constructor|done]|cbn; lia].
      * unfold inRange; lia.
    + intros p q u Hp Hq. rewrite !Htab by done. by apply (to_inj s Hok).
    + intros p u Hp. rewrite Htab by done. by apply (to_free s Hok).
    + by destruct (to_frames s Hok); constructor.
  - intros va' Hu'. unfold pageEntry.
    assert (T3 : tablePath (tableIndices va')) by (apply (tablePath_prefix va' _ []); [done|apply app_nil_r]).
    rewrite Htab by done. destruct (at_path s (tableIndices va')) as [u|] eqn:Eu; [|done].
    f_equal. by apply (Hag (tableIndices va')); [|apply index_range|].
Qed.

Lemma land_pow2_eqb x n : 0 <= n -> (Z.land x (2 ^ n) =? 0) = negb (Z.testbit x n).
Proof.
  intros Hn. destruct (Z.testbit x n) eqn:E; cbn [negb].
  - apply Z.eqb_neq. intros H0. apply (f_equal (fun z => Z.testbit z n)) in H0.
    by rewrite Z.land_spec, Z.pow2_bits_true, E, Z.bits_0 in H0 by lia.
  - apply Z.eqb_eq, Z.bits_inj'. intros i Hi. rewrite Z.land_spec, Z.bits_0.
    destruct (Z.eq_dec i n) as [->|]; [by rewrite E|]. by rewrite Z.pow2_bits_false, andb_false_r by lia.
Qed.

(** The two bits of the entries [mapAddress] stores. *)
Lemma mappedEntry_bits F ca : 0 <= F -> F mod 4096 = 0 ->
  releases (entryFor F WRITABLE false ca) = false /\
  (flag_and (entryFor F WRITABLE false ca) UNCACHEABLE =? 0) = ca.
Proof.
  intros HF Ha. assert (Hk : exists q, F = 4096 * q) by (exists (F / 4096); dlia). destruct Hk as [q ->].
  assert (He : entryFor (4096 * q) WRITABLE false ca = 4096 * q + (if ca then 3 else 19)).
  { unfold entryFor. rewrite Ha. change WRITABLE with 2. change PRESENT with 1. change UNCACHEABLE with 16. destruct ca; lia. }
  rewrite He. unfold releases, flag_and. change ALLOCATED with (2 ^ 11). change UNCACHEABLE with (2 ^ 4).
  rewrite !land_pow2_eqb, !Z.testbit_odd, !Z.shiftr_div_pow2 by lia. change (2 ^ 11) with 2048. change (2 ^ 4) with 16.
  replace ((4096 * q + (if ca then 3 else 19)) / 2048) with (2 * q) by (destruct ca; dlia).
  replace ((4096 * q + (if ca then 3 else 19)) / 16) with (2 * (128 * q) + (if ca then 0 else 1)) by (destruct ca; dlia).
  rewrite Z.odd_add, !Z.odd_mul. by destruct ca.
Qed.

Lemma heapEntry F : 0 < F < 2 ^ 52 -> F mod 4096 = 0 ->
  let e := entryFor F WRITABLE true true in
  0 <= e < 2 ^ 52 /\ releases e = true /\ returnedFrame e = F.
Proof.
  intros HF Ha e. change (2 ^ 52) with 4503599627370496 in *.
  assert (He : e = F + 2051).
  { unfold e, entryFor. change WRITABLE with 2. change PRESENT with 1. change ALLOCATED with 2048. lia. }
  rewrite He. split; [dlia|]. split; [|unfold returnedFrame; dlia].
  unfold releases, flag_and. change ALLOCATED with (2 ^ 11).
  rewrite land_pow2_eqb, negb_involutive, Z.testbit_odd, Z.shiftr_div_pow2 by lia. change (2 ^ 11) with 2048.
  replace ((F + 2051) / 2048) with (2 * (F / 4096) + 1) by dlia. by rewrite Z.odd_add, Z.odd_mul.
Qed.

(** A range mapped by [allocateMemory] is one [unmapMemory] may release. *)
Lemma allocated_range s0 ptr pa n s s' :
  mappedTo s0 ptr pa true true n s -> ownedFrames s0 pa n s ->
  (forall i, 0 <= i < n -> userAddress (ptr + i)) ->
  (forall a, freeCount (blocks (physicalMemory s')) a = freeCount (blocks (physicalMemory s)) a) ->
  (forall q, tablePath q -> at_path s' q = at_path s q) ->
  (forall va, userAddress va -> pageEntry s' va = pageEntry s va) ->
  forall m, m <= n -> ownedRange s' ptr (fun i => entryFor (pa i) WRITABLE true true) m.
Proof.
  intros HM HO Huser Hfree Hpath Hent m Hm.
  assert (Hp : forall i, 0 <= i < m -> i mod 4096 = 0 ->
    let e := entryFor (pa i) WRITABLE true true in 0 <= e < 2 ^ 52 /\ releases e = true /\ returnedFrame e = pa i).
  { intros i Hi Hia. destruct (of_range _ _ _ _ HO i ltac:(lia) Hia). by apply heapEntry. }
  constructor.
  - intros i Hi Hia. rewrite Hent by (apply Huser; lia). split; [apply (mt_entries _ _ _ _ _ _ _ HM); lia || done|].
    by apply Hp.
  - intros i Hi Hia _. destruct (Hp i Hi Hia) as (_ & _ & ->).
    destruct (of_range _ _ _ _ HO i ltac:(lia) Hia) as [H1 H2]. split; [|lia]. split.
    + intros a Ha. rewrite Hfree. by destruct (of_taken _ _ _ _ HO i a ltac:(lia) Hia Ha).
    + intros q u Hq Hu. rewrite Hpath in Hu by done.
      pose proof (of_tables _ _ _ _ HO i q u ltac:(lia) Hia Hq Hu). pose proof (at_path_aligned s q u Hu). dlia.
  - intros i i' Hi Hi' Hia Hia' _ _. destruct (Hp i Hi Hia) as (_ & _ & ->). destruct (Hp i' Hi' Hia') as (_ & _ & ->).
    apply (of_distinct _ _ _ _ HO); lia || done.
Qed.

(** The word [kmalloc] writes in front of the block it gives out changes only
    data. *)
Lemma header_written lo hi k p pa n s v size :
  kernel_ok lo hi (mkKState s v (processorCount k) (remote k)) -> mappedTo (ps k) p pa true true n s -> ownedFrames (ps k) pa n s ->
  0 < n -> (forall o, 0 <= o < n -> userAddress (p + o)) ->
  exists s1, vstore s p size = Ok s1 /\ translate (mem s1) (cr3 s1) p = Some (pa 0) /\ mem s1 (pa 0) = size /\
    (forall va, userAddress va -> translate (mem s1) (cr3 s1) va = translate (mem s) (cr3 s) va) /\
    kernel_ok lo hi (mkKState s1 v (processorCount k) (remote k)) /\
    forall m, m <= n -> ownedRange s1 p (fun i => entryFor (pa i) WRITABLE true true) m.
Proof.
  intros Hok HM HO Hn Huser. destruct (of_range _ _ _ _ HO 0 ltac:(lia) eq_refl) as [F1 F2].
  assert (Htr : translate (mem s) (cr3 s) p = Some (pa 0)).
  { rewrite <- (Z.add_0_r p) at 1. rewrite (mt_translate _ _ _ _ _ _ _ HM 0) by lia. change (0 mod 4096) with 0. by rewrite Z.add_0_r. }
  destruct (vstore_data s p (pa 0) size (mt_tables _ _ _ _ _ _ _ HM) Htr F2) as (Est & Ht1 & Hpath & Hent).
  { intros q u. apply (of_tables _ _ _ _ HO 0); [lia|done]. }
  set (s1 := set_mem s (upd (mem s) (pa 0) size)) in *.
  assert (Htrans : forall va, userAddress va -> translate (mem s1) (cr3 s1) va = translate (mem s) (cr3 s) va).
  { intros va Hu. rewrite !translate_at_path, Hpath; [done| |cbn; lia].
    apply (goodPath_prefix va _ []); [done|apply app_nil_r]. }
  exists s1. split; [exact Est|]. split; [rewrite Htrans; [exact Htr|rewrite <- (Z.add_0_r p); apply Huser; lia]|].
  split; [cbn; unfold upd; by rewrite Z.eqb_refl|]. split; [exact Htrans|]. split.
  - apply (kernel_ok_mapped lo hi (mkKState s v (processorCount k) (remote k)) v s1); [exact Hok|exact Ht1|intros; cbn; lia].
  - apply (allocated_range (ps k) p pa n s s1 HM HO Huser); [done| |exact Hent]. intros q [Hq Hql]. apply Hpath; [done|lia].
Qed.

Lemma PAGE_ALIGN_UP_add p size : p mod 4096 = 0 -> 0 <= p -> 0 <= size -> p + size + 4096 <= 2 ^ 64 ->
  PAGE_ALIGN_UP (p + size) = p + PAGE_ALIGN_UP size.
Proof.
  intros Hp H0 Hs Hb. change (2 ^ 64) with 18446744073709551616 in Hb.
  destruct (PAGE_ALIGN_UP_spec size) as [A1 A2]; [change (2 ^ 64) with 18446744073709551616; lia|].
  destruct (PAGE_ALIGN_UP_spec (p + size)) as [A3 A4]; [change (2 ^ 64) with 18446744073709551616; lia|].
  clear - A1 A2 A3 A4 Hp. dlia.
Qed.

(** ** Properties *)

(** [C7] [allocateMemory]: given virtual room and frames, it returns a page-aligned
    range of the heap, all of whose bytes translate to distinct frames that
    were free before, are not free any more and are not page tables; every
    page carries PRESENT, WRITABLE and ALLOCATED; no other address changes its
    translation; exactly that range leaves the virtual allocator. *)
Theorem allocateMemory_correct lo hi k size :
  kernel_ok lo hi k -> 0 <= size <= 2 ^ 64 - 4104 ->
  let n := PAGE_ALIGN_UP (size + 8) in
  virtualRoom k n -> 4 * (n / 4096) <= framesFree (blocks (physicalMemory (ps k))) ->
  exists ptr pa k', allocateMemory k size = Ok (ptr, k') /\ kernel_ok lo hi k' /\
    lo <= ptr /\ ptr + n <= hi /\ ptr mod 4096 = 0 /\
    (forall o, 0 <= o < n ->
       translate (mem (ps k')) (cr3 (ps k')) (ptr + o) = Some (pa (o - o mod 4096) + o mod 4096)) /\
    (forall i, 0 <= i < n -> i mod 4096 = 0 -> pageEntry (ps k') (ptr + i) = Some (pa i + 2051)) /\
    ownedFrames (ps k) pa n (ps k') /\
    (forall va, userAddress va -> (forall o, 0 <= o < n -> ~ samePage va (ptr + o)) ->
       translate (mem (ps k')) (cr3 (ps k')) va = translate (mem (ps k)) (cr3 (ps k)) va) /\
    (forall a, freeCount (blocks (virtualMemory k)) a
               = freeCount (blocks (virtualMemory k')) a + cov (mkBlock ptr (ptr + n)) a).
Proof.
  intros Hok Hsize n Hroom Hff.
  destruct (allocateMemory_run lo hi k size Hok Hsize Hroom Hff) as (ptr & pa & s & v & E & H1 & H2 & H3 & H4 & HM & HO & _ & _ & Hc).
  exists ptr, pa, (mkKState s v (processorCount k) (remote k)). do 5 (split; [done|]). cbn [ps virtualMemory].
  split; [apply HM|]. split; [|split; [done|split; [|done]]].
  - intros i Hi Hia. rewrite (mt_entries _ _ _ _ _ _ _ HM i Hi Hia). f_equal.
    destruct (of_range _ _ _ _ HO i Hi Hia). unfold entryFor.
    change WRITABLE with 2. change PRESENT with 1. change ALLOCATED with 2048. lia.
  - intros va Hu Ho. by apply (mt_others _ _ _ _ _ _ _ HM).
Qed.

(** A kernel with one heap range and one range of free frames. *)
Definition smallKernel (n : Z) : KState :=
  mkKState (emptyRoot 4096 [mkBlock 0x100000 0x200000])
    (mkBlockMap [mkBlock 0xFFFF900000000000 0xFFFF900000100000] Spinlock_init) n [].

Lemma heap_ok_small : heap_ok 0xFFFF900000000000 0xFFFF900000100000.
Proof.
  constructor; [split; [lia|reflexivity]|lia|]. intros va Hva. unfold userAddress, index.
  change (2 ^ (12 + 9 * 3)) with 549755813888. dlia.
Qed.

Lemma kernel_ok_small n : kernel_ok 0xFFFF900000000000 0xFFFF900000100000 (smallKernel n).
Proof.
  constructor.
  - apply emptyRoot_ok; [split; [lia|reflexivity]| |reflexivity]. apply oneBlock_frames_ok. frame_block.
  - reflexivity.
  - reflexivity.
  - apply heap_ok_small.
  - apply Forall_singleton. split; [unfold wfBlock; cbn; lia|]. split; cbn; [split; [lia|reflexivity]|lia].
  - cbn. unfold BLOCKMAP_SIZE. lia.
  - intros a. cbn. pose proof (cov_range (mkBlock 0xFFFF900000000000 0xFFFF900000100000) a). lia.
Qed.

Lemma virtualRoom_small n m : m <= 0x100000 -> virtualRoom (smallKernel n) m.
Proof. intros H. eexists. split; [by left|]. exact H. Qed.

Lemma allocateMemory_correct_witness :
  exists ptr k', allocateMemory (smallKernel 1) 5000 = Ok (ptr, k') /\ 0xFFFF900000000000 <= ptr.
Proof.
  destruct (allocateMemory_correct _ _ (smallKernel 1) 5000 (kernel_ok_small 1)) as (ptr & pa & k' & E & _ & H & _).
  - lia.
  - apply virtualRoom_small. vm_compute. discriminate.
  - vm_compute. discriminate.
  - exists ptr, k'. split; [exact E|exact H].
Defined.

(** [mapAddress] maps exactly the pages the physical range
    [physicalAddress, physicalAddress + size) touches: the returned pointer
    keeps the offset within the page, byte [o] of it translates to physical
    byte [physicalAddress + o], the pages are not marked ALLOCATED, and they
    are uncacheable exactly when asked for. *)
Theorem mapAddress_correct lo hi k physicalAddress size cacheable :
  kernel_ok lo hi k -> 0 <= physicalAddress -> 0 <= size -> physicalAddress + size <= 2 ^ 52 ->
  let n := PAGE_ALIGN_UP (physicalAddress + size) - (physicalAddress - physicalAddress mod 4096) in
  virtualRoom k n -> 3 * (n / 4096) <= framesFree (blocks (physicalMemory (ps k))) ->
  exists ptr k', mapAddress k physicalAddress size cacheable = Ok (ptr, k') /\ kernel_ok lo hi k' /\
    ptr mod 4096 = physicalAddress mod 4096 /\ lo <= ptr /\ ptr + size <= hi /\
    (forall o, 0 <= o < size ->
       translate (mem (ps k')) (cr3 (ps k')) (ptr + o) = Some (physicalAddress + o) /\
       exists e, pageEntry (ps k') (ptr + o) = Some e /\ releases e = false /\
         (flag_and e UNCACHEABLE =? 0) = cacheable) /\
    (forall va, userAddress va ->
       (forall o, - (physicalAddress mod 4096) <= o < n - physicalAddress mod 4096 -> ~ samePage va (ptr + o)) ->
       translate (mem (ps k')) (cr3 (ps k')) va = translate (mem (ps k)) (cr3 (ps k)) va).
Proof.
  intros Hok Hpa Hsize Hend n Hroom Hff.
  destruct (mapAddress_run lo hi k physicalAddress size cacheable Hok Hpa Hsize Hend Hroom Hff)
    as (p & s & v & E & H1 & H2 & H3 & H4 & H5 & Hn & HM & _ & Hc). fold n in H3, H5, HM, Hn.
  set (r := physicalAddress mod 4096) in *. assert (Hr : 0 <= r < 4096) by (unfold r; dlia).
  exists (p + r), (mkKState s v (processorCount k) (remote k)). split; [done|]. split; [done|].
  split; [dlia|]. split; [lia|]. split; [lia|]. cbn [ps]. split.
  - intros o Ho. split.
    + rewrite <- Z.add_assoc, (mt_translate _ _ _ _ _ _ _ HM) by lia. f_equal. dlia.
    + set (i := (r + o) - (r + o) mod 4096).
      assert (Hi : 0 <= i < n /\ i mod 4096 = 0 /\ (p + r + o) / 4096 = (p + i) / 4096 /\ 0 <= i) by (unfold i; dlia).
      destruct Hi as (Hi & Hia & Hpage & Hi0).
      pose proof (proj1 (hp_lo _ _ (ko_heap _ _ _ Hok))).
      exists (entryFor (physicalAddress - r + i) WRITABLE false cacheable). split.
      * assert (Hs : samePage (p + r + o) (p + i)) by (apply samePage_page; lia).
        rewrite <- (mt_entries _ _ _ _ _ _ _ HM i Hi Hia).
        unfold samePage, indices in Hs. injection Hs as S3 S2 S1 S0.
        unfold pageEntry, tableIndices. by rewrite S3, S2, S1, S0.
      * apply mappedEntry_bits; unfold r in *; dlia.
  - intros va Hu Ho. apply (mt_others _ _ _ _ _ _ _ HM); [done|]. intros o Hon.
    replace (p + o) with (p + r + (o - r)) by lia. apply Ho. lia.
Qed.

Lemma mapAddress_correct_witness :
  exists ptr k', mapAddress (smallKernel 1) 0xFEE00030 8 false = Ok (ptr, k') /\
    translate (mem (ps k')) (cr3 (ps k')) (ptr + 1) = Some 0xFEE00031.
Proof.
  destruct (mapAddress_correct _ _ (smallKernel 1) 0xFEE00030 8 false (kernel_ok_small 1))
    as (ptr & k' & E & _ & _ & _ & _ & H & _).
  - lia.
  - lia.
  - lia.
  - apply virtualRoom_small. vm_compute. discriminate.
  - vm_compute. discriminate.
  - exists ptr, k'. split; [exact E|]. destruct (H 1) as [Ht _]; [lia|exact Ht].
Defined.

(** [C8] [unmapMemory] on a mapped range: afterwards no byte of it
    translates, every page was invalidated here and on every other running
    processor, no address outside it changes its translation, the ALLOCATED
    frames are free again (while the frame allocator has slots) and nothing
    else becomes free, and the address range goes back to the heap. *)
Theorem unmapMemory_correct lo hi k address size e :
  kernel_ok lo hi k -> 0 < address -> 0 <= size ->
  let p := address - address mod 4096 in
  let n := PAGE_ALIGN_UP (address + size) - p in
  lo <= p -> address + size <= hi -> p + n <= hi -> ownedRange (ps k) p e n ->
  (forall a, p <= a < p + n -> freeCount (blocks (virtualMemory k)) a = 0) ->
  exists k', unmapMemory k address size = Ok k' /\ kernel_ok lo hi k' /\
    (forall o, 0 <= o < n -> translate (mem (ps k')) (cr3 (ps k')) (p + o) = None) /\
    (forall i, 0 <= i < n -> i mod 4096 = 0 -> p + i ∈ invlpg (ps k')) /\
    (forall c i, 0 <= c < processorCount k -> c < MAX_CPUS -> c <> getCpuNumber (cpu (ps k)) ->
       0 <= i < n -> i mod 4096 = 0 -> (c, p + i) ∈ remote k') /\
    (forall va, userAddress va -> (forall o, 0 <= o < n -> ~ samePage va (p + o)) ->
       translate (mem (ps k')) (cr3 (ps k')) va = translate (mem (ps k)) (cr3 (ps k)) va) /\
    (forall a, ~ released e n a ->
       freeCount (blocks (physicalMemory (ps k'))) a = freeCount (blocks (physicalMemory (ps k))) a) /\
    (Z.of_nat (length (blocks (physicalMemory (ps k)))) + n / 4096 <= Z.of_nat BLOCKMAP_SIZE ->
       forall a, released e n a -> freeCount (blocks (physicalMemory (ps k'))) a = 1) /\
    (forall a, freeCount (blocks (virtualMemory k')) a = freeCount (blocks (virtualMemory k)) a
       + (if hasRoom (blocks (virtualMemory k)) then cov (mkBlock p (p + n)) a else 0)).
Proof.
  intros Hok Ha Hs p n Hlo Hend Hhi Ho Hf.
  destruct (unmapMemory_run lo hi k address size e Hok Ha Hs Hlo Hend Hhi Ho Hf)
    as (s & v & r & E & Hok' & HU & Hr & Hc). fold p in Hr, Hc, HU. fold n in Hr, Hc, HU.
  exists (mkKState s v (processorCount k) r). cbn [ps remote virtualMemory].
  split; [exact E|]. split; [exact Hok'|]. split; [apply (um_gone _ _ _ _ _ HU)|].
  split; [apply (um_invlpg _ _ _ _ _ HU)|]. split; [exact Hr|].
  split; [intros va Hu Hv; by apply (um_others _ _ _ _ _ HU)|].
  split; [apply (um_kept _ _ _ _ _ HU)|]. split; [apply (um_freed _ _ _ _ _ HU)|exact Hc].
Qed.

Lemma unmapMemory_correct_witness :
  exists ptr k1 k2, allocateMemory (smallKernel 4) 5000 = Ok (ptr, k1) /\ unmapMemory k1 ptr 5008 = Ok k2 /\
    translate (mem (ps k2)) (cr3 (ps k2)) (ptr + 4097) = None.
Proof.
  destruct (allocateMemory_run _ _ (smallKernel 4) 5000 (kernel_ok_small 4))
    as (ptr & pa & s & v & E & Hok & H1 & H2 & H3 & HM & HO & _ & _ & Hc); [lia| |vm_compute; discriminate|].
  { apply virtualRoom_small. vm_compute. discriminate. }
  change (PAGE_ALIGN_UP (5000 + 8)) with 8192 in *.
  destruct (PAGE_ALIGN_UP_spec (ptr + 5008)) as [A1 A2]; [lia|].
  assert (Hn : PAGE_ALIGN_UP (ptr + 5008) - (ptr - ptr mod 4096) = 8192)
    by (clear - A1 A2 H3; rewrite H3; dlia).
  destruct (unmapMemory_correct 0xFFFF900000000000 0xFFFF900000100000 (mkKState s v 4 []) ptr 5008
    (fun i => entryFor (pa i) WRITABLE true true)) as (k2 & E2 & _ & H & _).
  - exact Hok.
  - lia.
  - lia.
  - lia.
  - lia.
  - lia.
  - rewrite Hn. replace (ptr - ptr mod 4096) with ptr by (rewrite H3; lia).
    apply (allocated_range _ _ _ _ s s HM HO); [|done..|lia].
    intros i Hi. apply (hp_user _ _ heap_ok_small). lia.
  - intros a Ha. specialize (Hc a). rewrite Hn in Ha. rewrite (proj2 (cov_1 _ a)) in Hc by (clear - Ha H3; cbn; rewrite H3 in Ha; lia).
    pose proof (ko_disjoint _ _ _ (kernel_ok_small 4) a). pose proof (freeCount_nonneg (blocks v) a). cbn [virtualMemory]. lia.
  - exists ptr, (mkKState s v 4 []), k2. split; [exact E|]. split; [exact E2|].
    replace (ptr + 4097) with (ptr - ptr mod 4096 + 4097) by (rewrite H3; lia). apply H. rewrite Hn. lia.
Defined.

(** [C38] A [kmalloc] followed by [kfree] of its result: with [n] the pages taken
    (for [size + 8] bytes) and [m] the pages given back (for [size] bytes),
    the pointer lies 8 bytes into the allocation, [kfree] reads back the
    header and unmaps and returns exactly the first [m] bytes. The page in
    [m, n), if there is one, stays mapped and out of the heap for ever. *)
Theorem kmalloc_kfree lo hi k size :
  kernel_ok lo hi k -> 0 <= size <= 2 ^ 64 - 8200 ->
  let n := PAGE_ALIGN_UP (size + 8) in
  let m := PAGE_ALIGN_UP size in
  virtualRoom k n -> 4 * (n / 4096) <= framesFree (blocks (physicalMemory (ps k))) ->
  (length (blocks (virtualMemory k)) < BLOCKMAP_SIZE)%nat ->
  exists ptr k1 k2, kmalloc k size = Ok (ptr + 8, k1) /\ kfree k1 (ptr + 8) = Ok k2 /\ kernel_ok lo hi k2 /\
    (forall o, 0 <= o < m -> translate (mem (ps k2)) (cr3 (ps k2)) (ptr + o) = None) /\
    (forall o, m <= o < n -> is_Some (translate (mem (ps k2)) (cr3 (ps k2)) (ptr + o))) /\
    (forall a, freeCount (blocks (virtualMemory k2)) a
       = freeCount (blocks (virtualMemory k)) a - cov (mkBlock (ptr + m) (ptr + n)) a).
Proof.
  intros Hok Hsize n m Hroom Hff Hslots. change (2 ^ 64) with 18446744073709551616 in Hsize.
  destruct (PAGE_ALIGN_UP_spec size) as [Hma Hm]; [change (2 ^ 64) with 18446744073709551616; lia|]. fold m in Hma, Hm.
  destruct (PAGE_ALIGN_UP_spec (size + 8)) as [Hna Hn]; [change (2 ^ 64) with 18446744073709551616; lia|]. fold n in Hna, Hn.
  assert (Hmn : 0 <= m <= n) by (clear - Hma Hm Hna Hn Hsize; dlia).
  destruct (allocateMemory_run lo hi k size Hok ltac:(change (2 ^ 64) with 18446744073709551616; lia) Hroom Hff)
    as (p & pa & s & v & E & Hok1 & P1 & P2 & P3 & HM & HO & Hlen & _ & Hc). fold n in P2, HM, HO, Hc.
  pose proof (hp_lo _ _ (ko_heap _ _ _ Hok)) as [Hl _].
  pose proof (proj1 (hp_hi _ _ (ko_heap _ _ _ Hok))) as Hh. change (2 ^ 64) with 18446744073709551616 in Hh.
  assert (Huser : forall o, 0 <= o < n -> userAddress (p + o)) by (intros o Ho; apply (hp_user _ _ (ko_heap _ _ _ Hok)); lia).
  destruct (header_written lo hi k p pa n s v size Hok1 HM HO ltac:(lia) Huser) as (s1 & Est & Htr & Hword & Htrans & Hok2 & Hrange).
  assert (Hsz : PAGE_ALIGN_UP (p + size) = p + m) by (apply PAGE_ALIGN_UP_add; change (2 ^ 64) with 18446744073709551616; lia).
  destruct (unmapMemory_run lo hi (mkKState s1 v (processorCount k) (remote k)) p size
    (fun i => entryFor (pa i) WRITABLE true true) Hok2) as (s2 & v2 & r & E2 & Hok3 & HU & _ & Hc2);
    rewrite ?P3, ?Hsz, ?Z.sub_0_r, ?Z.add_simpl_l in *; [lia|lia|lia|lia|lia|apply Hrange; lia| |].
  { intros a Ha. specialize (Hc a). rewrite (proj2 (cov_1 _ a)) in Hc by (cbn; lia).
    pose proof (ko_disjoint _ _ _ Hok a). pose proof (freeCount_nonneg (blocks v) a). cbn [virtualMemory]. lia. }
  exists p, (mkKState s1 v (processorCount k) (remote k)), (mkKState s2 v2 (processorCount k) r).
  split; [|split; [|split; [exact Hok3|split; [apply (um_gone _ _ _ _ _ HU)|split]]]].
  - unfold kmalloc. rewrite E. cbn [obind ps]. rewrite (proj2 (Z.eqb_neq p 0)), Est by lia. cbn [obind].
    unfold KmallocHeaderSize. by rewrite u64_small by lia.
  - unfold kfree. rewrite (proj2 (Z.eqb_neq (p + 8) 0)) by lia. unfold KmallocHeaderSize.
    rewrite Z.add_simpl_r, u64_small by lia. unfold vload. cbn [ps].
    rewrite Htr. cbn [obind]. rewrite Hword. exact E2.
  - intros o Ho. cbn [ps]. rewrite (proj1 (um_others _ _ _ _ _ HU (p + o) (Huser o ltac:(lia))
      ltac:(intros o' Ho' Hs; apply (range_samePage lo hi p n (ko_heap _ _ _ Hok) P1 P2 P3) in Hs;
            [clear - Hs Ho Ho' Hma; dlia|lia|lia]))).
    cbn [ps]. rewrite Htrans, (mt_translate _ _ _ _ _ _ _ HM) by (lia || apply Huser; lia). eauto.
  - intros a. cbn [virtualMemory]. rewrite Hc2. cbn [virtualMemory].
    rewrite (hasRoom_short (blocks v)), Hc by lia. unfold cov, covers. cbn [start end_]. zcase; cbn; lia.
Qed.

(** A 4096-byte block occupies two pages and its [kfree] leaves the second
    one mapped. *)
Lemma kmalloc_kfree_witness :
  exists ptr k1 k2, kmalloc (smallKernel 2) 4096 = Ok (ptr + 8, k1) /\ kfree k1 (ptr + 8) = Ok k2 /\
    translate (mem (ps k2)) (cr3 (ps k2)) ptr = None /\
    is_Some (translate (mem (ps k2)) (cr3 (ps k2)) (ptr + 4096)).
Proof.
  destruct (kmalloc_kfree _ _ (smallKernel 2) 4096 (kernel_ok_small 2)) as (ptr & k1 & k2 & E1 & E2 & _ & H1 & H2 & _).
  - lia.
  - apply virtualRoom_small. vm_compute. discriminate.
  - vm_compute. discriminate.
  - cbn. unfold BLOCKMAP_SIZE. lia.
  - exists ptr, k1, k2. split; [exact E1|]. split; [exact E2|].
    split; [rewrite <- (Z.add_0_r ptr); apply H1; vm_compute; split; [discriminate|reflexivity]|].
    apply H2. vm_compute. split; [discriminate|reflexivity].
Defined.

(** The two ways [allocateMemory] fails: with no virtual block large enough
    it returns null and changes neither the page tables nor the free memory;
    with virtual room but an empty frame allocator it panics. *)
Theorem allocateMemory_errors lo hi k size :
  kernel_ok lo hi k -> 0 <= size <= 2 ^ 64 - 4104 ->
  let n := PAGE_ALIGN_UP (size + 8) in
  ((forall b, b ∈ blocks (virtualMemory k) -> capacity b < n) ->
     exists l, allocateMemory k size
       = Ok (0, mkKState (ps k) (mkBlockMap (blocks (virtualMemory k)) l) (processorCount k) (remote k))
     /\ locked l = false) /\
  (virtualRoom k n -> blocks (physicalMemory (ps k)) = [] ->
     allocateMemory k size = Panic "Out of memory").
Proof.
  intros Hok Hsize n. change (2 ^ 64) with 18446744073709551616 in Hsize.
  destruct (PAGE_ALIGN_UP_spec (size + 8)) as [Hna Hn]; [change (2 ^ 64) with 18446744073709551616; lia|]. fold n in Hna, Hn.
  pose proof (hp_lo _ _ (ko_heap _ _ _ Hok)) as [Hl _].
  assert (Hn0 : 0 <= n) by lia. unfold allocateMemory, KmallocHeaderSize. rewrite u64_small by lia. fold n. split.
  - intros Hbig. assert (Hw : Forall wfBlock (blocks (virtualMemory k)))
      by (eapply Forall_impl; [exact (ko_blocks _ _ _ Hok)|by intros ? [? _]]).
    destruct (allocate_run (cpu (ps k)) (virtualMemory k) n (ko_lock _ _ _ Hok) Hw Hn0) as (p & bs & E & Eloop).
    destruct (allocate_loop_spec _ n _ _ Hw Hn0 Eloop) as (_ & _ & _ & L4). destruct (L4 Hbig) as [-> ->].
    unfold valloc. rewrite E. cbn [obind]. rewrite Z.eqb_refl. exists (unlocked_by (cpu (ps k))).
    split; [by destruct (ps k)|done].
  - intros Hroom Hempty.
    destruct (valloc_ok lo hi k n Hok Hn0 Hna Hroom) as (p & v & E & P1 & _). rewrite E. cbn [obind].
    rewrite (proj2 (Z.eqb_neq p 0)) by lia. cbn [ps].
    assert (Hpg : exists q, pages n = S q) by (exists (pred (pages n)); unfold pages, PAGE_SIZE; dlia).
    destruct Hpg as [q Hq]. rewrite Hq. cbn [pageLoop]. rewrite (proj2 (Z.ltb_lt 0 n)) by lia.
    unfold allocateBody, allocateFrame.
    destruct (allocate_run (cpu (ps k)) (physicalMemory (ps k)) PAGE_SIZE) as (p' & bs & E' & Eloop);
      [apply (to_frames _ (ko_tables _ _ _ Hok))|rewrite Hempty; constructor|done|].
    rewrite Hempty in Eloop. cbn in Eloop. simplify_eq. rewrite E'. done.
Qed.

Lemma allocateMemory_errors_witness :
  exists l, allocateMemory (smallKernel 1) 0x100000
    = Ok (0, mkKState (ps (smallKernel 1)) (mkBlockMap (blocks (virtualMemory (smallKernel 1))) l) 1 []).
Proof.
  destruct (allocateMemory_errors _ _ (smallKernel 1) 0x100000 (kernel_ok_small 1)) as [H _]; [lia|].
  destruct H as (l & H & _); [|exists l; exact H].
  intros b Hb. cbn in Hb. apply list_elem_of_singleton in Hb as ->. vm_compute. reflexivity.
Defined.
