(* ===== verification/Strings.v ===== *)
(** * Memory and string routines ([copying.cpp], [string.cpp], [string.h],
    [iterator.h], [util.h])

    Byte memory is a function from addresses to byte values. [memset] and
    [memcpy] run the quad-word and byte string instructions the code uses;
    [Str] is the class [String] (pointer and length) and [RangedIterator] the
    bounds-checked iterator. Addresses are mathematical integers: the ranges
    the callers pass do not wrap around the end of the address space. *)

From Stdlib Require Import ZArith Lia.
From stdpp Require Import base tactics numbers list.
From S2P Require Import Prelude.

Open Scope Z_scope.

(** ** copying.cpp *)

Definition Memory : Type := Z -> Z.

(** The values a [char] array can hold. *)
Definition isBytes (m : Memory) : Prop := forall a, 0 <= m a < 256.

Definition storeb (m : Memory) (a v : Z) : Memory := fun x => if x =? a then v else m x.

(** A [char] is signed. *)
Definition toChar (b : Z) : Z := if b <? 128 then b else b - 256.

(** A little-endian quad-word. *)
Definition storeq (m : Memory) (a v : Z) : Memory :=
  fun x => if (a <=? x) && (x <? a + 8) then v / 2 ^ (8 * (x - a)) mod 256 else m x.

Definition loadq (m : Memory) (a : Z) : Z :=
  m a + 256 * (m (a + 1) + 256 * (m (a + 2) + 256 * (m (a + 3) + 256 * (m (a + 4)
  + 256 * (m (a + 5) + 256 * (m (a + 6) + 256 * m (a + 7))))))).

(** A little-endian word and double word. *)
Definition loadw (m : Memory) (a : Z) : Z := m a + 256 * m (a + 1).
Definition loadd (m : Memory) (a : Z) : Z := loadw m a + 65536 * loadw m (a + 2).

(** [rep stosq], [rep stosb], [rep movsq], [rep movsb] with the direction flag
    clear; they advance the pointers. *)
Fixpoint rep_stosq (n : nat) (m : Memory) (d v : Z) : Memory * Z :=
  match n with
  | O => (m, d)
  | S n => rep_stosq n (storeq m d v) (d + 8) v
  end.

Fixpoint rep_stosb (n : nat) (m : Memory) (d v : Z) : Memory :=
  match n with
  | O => m
  | S n => rep_stosb n (storeb m d v) (d + 1) v
  end.

Fixpoint rep_movsq (n : nat) (m : Memory) (d s : Z) : Memory * (Z * Z) :=
  match n with
  | O => (m, (d, s))
  | S n => rep_movsq n (storeq m d (loadq m s)) (d + 8) (s + 8)
  end.

Fixpoint rep_movsb (n : nat) (m : Memory) (d s : Z) : Memory :=
  match n with
  | O => m
  | S n => rep_movsb n (storeb m d (m s)) (d + 1) (s + 1)
  end.

Definition memset (m : Memory) (str c n : Z) : Memory :=
  let '(m, tmpStr) := rep_stosq (Z.to_nat (n / 8)) m str (u64 (u8 c * 0x0101010101010101)) in
  rep_stosb (Z.to_nat (Z.land n 7)) m tmpStr (u8 c).

Definition memcpy (m : Memory) (dst src n : Z) : Memory :=
  let '(m, (tmpDst, tmpSrc)) := rep_movsq (Z.to_nat (n / 8)) m dst src in
  rep_movsb (Z.to_nat (Z.land n 7)) m tmpDst tmpSrc.

Fixpoint memcmp_loop (n : nat) (m : Memory) (a b : Z) : Z :=
  match n with
  | O => 0
  | S n => if negb (m a =? m b) then m a - m b else memcmp_loop n m (a + 1) (b + 1)
  end.

Definition memcmp (m : Memory) (a b n : Z) : Z := memcmp_loop (Z.to_nat n) m a b.

(** ** string.cpp *)

(** [c] is the [int] argument, compared as it is with the unsigned bytes. *)
Fixpoint memchr_loop (n : nat) (m : Memory) (str c : Z) : option Z :=
  match n with
  | O => None
  | S n => if m str =? c then Some str else memchr_loop n m (str + 1) c
  end.

Definition memchr (m : Memory) (ptr c n : Z) : option Z := memchr_loop (Z.to_nat n) m ptr c.

(** [fuel] bounds the characters read; [Hang] is a string without an end. *)
Fixpoint strlen_loop (fuel : nat) (m : Memory) (str i : Z) : outcome Z :=
  match fuel with
  | O => Hang
  | S fuel => if m str =? 0 then Ok i else strlen_loop fuel m (str + 1) (i + 1)
  end.

Definition strlen (fuel : nat) (m : Memory) (str : Z) : outcome Z := strlen_loop fuel m str 0.

Definition strcpy (fuel : nat) (m : Memory) (dst src : Z) : outcome Memory :=
  let! size := strlen fuel m src in
  Ok (storeb (memcpy m dst src size) (dst + size) 0).

(** [chr] is the low byte of [c]. *)
Definition strchr (fuel : nat) (m : Memory) (str c : Z) : outcome (option Z) :=
  let! len := strlen fuel m str in
  Ok (memchr_loop (Z.to_nat len) m str (u8 c)).

Definition memeq (m : Memory) (a b n : Z) : bool := memcmp m a b n =? 0.

(** ** class String *)

Record Str := mkStr { cString : Z; length : Z }.

Definition Str_null : Str := mkStr 0 0.

Definition Str_of (fuel : nat) (m : Memory) (cString : Z) : outcome Str :=
  let! n := strlen fuel m cString in Ok (mkStr cString n).

Definition Str_index (m : Memory) (s : Str) (index : Z) : Z :=
  if index <? length s then m (cString s + index) else 0.

Definition subString (s : Str) (begin end_ : Z) : Str :=
  if (length s <? begin) || (end_ <? begin) then Str_null
  else
    let end_ := if length s <? end_ then length s else end_ in
    mkStr (cString s + begin) (end_ - begin).

Definition subStringFrom (s : Str) (begin : Z) : Str := subString s begin (length s).

Definition findNext (m : Memory) (s : Str) (c : Z) : Str :=
  if length s =? 0 then Str_null
  else
    match memchr m (cString s + 1) c (length s - 1) with
    | None => Str_null
    | Some p => mkStr p (cString s + length s - p)
    end.

Definition findBefore (m : Memory) (s : Str) (delimiter : Z) : Str :=
  subString s 0 (length s - length (findNext m s delimiter)).

Definition startsWith (m : Memory) (s other : Str) : bool :=
  if length other <=? length s then memeq m (cString s) (cString other) (length other) else false.

Definition Str_isNull (s : Str) : bool := cString s =? 0.

Definition Str_eq (m : Memory) (s other : Str) : bool :=
  if negb (length other =? length s) then false
  else if length s =? 0 then true
  else memeq m (cString s) (cString other) (length s).

(** ** util::RangedIterator, util::Accessor

    Pointers count elements. *)
Record RangedIterator := mkRangedIterator { begin : Z; end_ : Z; pointer : Z }.

(** The accessor: the element's address, or null. *)
Definition RI_index (it : RangedIterator) (index : Z) : option Z :=
  if (pointer it + index <? end_ it) && (begin it <=? pointer it + index)
  then Some (pointer it + index) else None.

Definition RI_add (it : RangedIterator) (offset : Z) : RangedIterator :=
  mkRangedIterator (begin it) (end_ it) (pointer it + offset).
Definition RI_next (it : RangedIterator) : RangedIterator := RI_add it 1.
Definition RI_prev (it : RangedIterator) : RangedIterator := RI_add it (-1).

Definition RI_diff (it other : RangedIterator) : Z :=
  if (begin other =? begin it) && (end_ other =? end_ it) then pointer it - pointer other else -1.

Definition RI_eq (it other : RangedIterator) : bool :=
  (begin other =? begin it) && (end_ other =? end_ it) && (pointer other =? pointer it).

Definition Str_begin (s : Str) : RangedIterator :=
  mkRangedIterator (cString s) (cString s + length s) (cString s).
Definition Str_end (s : Str) : RangedIterator :=
  mkRangedIterator (cString s) (cString s + length s) (cString s + length s).

(** [T Accessor::operator T()]: the default value through a null accessor. *)
Definition Accessor_get {T} (default : T) (value : option T) : T :=
  match value with Some x => x | None => default end.

(** ** Specifications *)

(** Memory with the bytes [l] at [p]. *)
Definition putBytes (m : Memory) (p : Z) (l : list Z) : Memory :=
  fun x => match (if p <=? x then l !! Z.to_nat (x - p) else None) with Some b => b | None => m x end.

(** The characters of a string. *)
Definition bytesAt (m : Memory) (p n : Z) : list Z := m <$> seqZ p n.
Definition contents (m : Memory) (s : Str) : list Z := bytesAt m (cString s) (length s).

(** The NUL-terminated string [l] is at [p]. *)
Definition cstring (m : Memory) (p : Z) (l : list Z) : Prop :=
  bytesAt m p (Z.of_nat (base.length l)) = l /\ m (p + Z.of_nat (base.length l)) = 0 /\ Forall (fun c => c <> 0) l.

(** A for-loop over the characters through the iterators: the addresses
    [operator*] yields from [begin()] until [end()]. *)
Fixpoint iterate (fuel : nat) (it last : RangedIterator) : outcome (list (option Z)) :=
  if RI_eq it last then Ok [] else
  match fuel with
  | O => Hang
  | S fuel => let! l := iterate fuel (RI_next it) last in Ok (RI_index it 0 :: l)
  end.

(** ** Quad-words *)

Lemma storeb_bytes m a v : isBytes m -> 0 <= v < 256 -> isBytes (storeb m a v).
Proof. intros Hm Hv x. unfold storeb. zcase; [done|apply Hm]. Qed.

Lemma storeq_bytes m a v : isBytes m -> isBytes (storeq m a v).
Proof. intros Hm x. unfold storeq. zcase; cbn; try apply Hm. dlia. Qed.

#[export] Hint Resolve storeb_bytes storeq_bytes : kernel.

(** Case analysis on a byte offset below eight. *)
Lemma byte_offset k : 0 <= k < 8 -> k ∈ [0; 1; 2; 3; 4; 5; 6; 7].
Proof.
  intros Hk. assert (k = 0 \/ k = 1 \/ k = 2 \/ k = 3 \/ k = 4 \/ k = 5 \/ k = 6 \/ k = 7) by lia.
  rewrite !elem_of_cons, elem_of_nil. intuition.
Qed.

Ltac byte_cases k Hk :=
  apply byte_offset in Hk; repeat rewrite elem_of_cons in Hk; rewrite elem_of_nil in Hk;
  destruct Hk as [->|[->|[->|[->|[->|[->|[->|[->|[]]]]]]]]].

Lemma loadq_byte m a k : isBytes m -> 0 <= k < 8 -> loadq m a / 2 ^ (8 * k) mod 256 = m (a + k).
Proof.
  intros Hm Hk. unfold loadq.
  pose proof (Hm a). pose proof (Hm (a + 1)). pose proof (Hm (a + 2)). pose proof (Hm (a + 3)).
  pose proof (Hm (a + 4)). pose proof (Hm (a + 5)). pose proof (Hm (a + 6)). pose proof (Hm (a + 7)).
  byte_cases k Hk; rewrite ?Z.add_0_r;
  generalize dependent (m a); generalize dependent (m (a + 1)); generalize dependent (m (a + 2));
  generalize dependent (m (a + 3)); generalize dependent (m (a + 4)); generalize dependent (m (a + 5));
  generalize dependent (m (a + 6)); generalize dependent (m (a + 7)); intros.
  - change (2 ^ (8 * 0)) with 1. dlia.
  - change (2 ^ (8 * 1)) with 256. dlia.
  - change (2 ^ (8 * 2)) with 65536. dlia.
  - change (2 ^ (8 * 3)) with 16777216. dlia.
  - change (2 ^ (8 * 4)) with 4294967296. dlia.
  - change (2 ^ (8 * 5)) with 1099511627776. dlia.
  - change (2 ^ (8 * 6)) with 281474976710656. dlia.
  - change (2 ^ (8 * 7)) with 72057594037927936. dlia.
Qed.

Lemma storeq_loadq m d s a : isBytes m ->
  storeq m d (loadq m s) a = if (d <=? a) && (a <? d + 8) then m (s + (a - d)) else m a.
Proof.
  intros Hm. unfold storeq. destruct ((d <=? a) && (a <? d + 8)) eqn:E; [|done].
  apply loadq_byte; [done|]. apply andb_true_iff in E as [?%Z.leb_le ?%Z.ltb_lt]. lia.
Qed.

Lemma repeated_byte c k : 0 <= c < 256 -> 0 <= k < 8 ->
  u64 (c * 0x0101010101010101) / 2 ^ (8 * k) mod 256 = c.
Proof.
  intros Hc Hk. rewrite u64_small by lia. change 0x0101010101010101 with 72340172838076673.
  byte_cases k Hk.
  - change (2 ^ (8 * 0)) with 1. dlia.
  - change (2 ^ (8 * 1)) with 256. dlia.
  - change (2 ^ (8 * 2)) with 65536. dlia.
  - change (2 ^ (8 * 3)) with 16777216. dlia.
  - change (2 ^ (8 * 4)) with 4294967296. dlia.
  - change (2 ^ (8 * 5)) with 1099511627776. dlia.
  - change (2 ^ (8 * 6)) with 281474976710656. dlia.
  - change (2 ^ (8 * 7)) with 72057594037927936. dlia.
Qed.

(** ** memset and memcpy *)

Lemma rep_stosq_spec c n : 0 <= c < 256 -> forall m d,
  exists m', rep_stosq n m d (u64 (c * 0x0101010101010101)) = (m', d + 8 * Z.of_nat n) /\
  forall a, m' a = if (d <=? a) && (a <? d + 8 * Z.of_nat n) then c else m a.
Proof.
  intros Hc. induction n as [|n IH]; intros m d; cbn [rep_stosq].
  - exists m. split; [f_equal; lia|]. intros a. zcase; cbn; lia.
  - destruct (IH (storeq m d (u64 (c * 72340172838076673))) (d + 8)) as (m' & E & H).
    exists m'. rewrite E. split; [f_equal; lia|]. intros a. rewrite H. unfold storeq.
    destruct (Z.leb_spec d a), (Z.ltb_spec a (d + 8)); cbn [andb]; zcase; cbn [andb]; try lia.
    apply (repeated_byte c (a - d)); lia.
Qed.

Lemma rep_stosb_spec c n : forall m d a,
  rep_stosb n m d c a = if (d <=? a) && (a <? d + Z.of_nat n) then c else m a.
Proof.
  induction n as [|n IH]; intros m d a; cbn [rep_stosb]; [zcase; cbn; lia|].
  rewrite IH. unfold storeb. zcase; cbn; lia.
Qed.

Lemma rep_movsq_spec n : forall m d s,
  isBytes m -> d <= s \/ s + 8 * Z.of_nat n <= d ->
  exists m', rep_movsq n m d s = (m', (d + 8 * Z.of_nat n, s + 8 * Z.of_nat n)) /\ isBytes m' /\
  forall a, m' a = if (d <=? a) && (a <? d + 8 * Z.of_nat n) then m (s + (a - d)) else m a.
Proof.
  induction n as [|n IH]; intros m d s Hm Hov; cbn [rep_movsq].
  - exists m. split; [f_equal; f_equal; lia|]. split; [done|]. intros a. zcase; cbn; lia.
  - destruct (IH (storeq m d (loadq m s)) (d + 8) (s + 8)) as (m' & E & Hm' & H); [auto with kernel|lia|].
    exists m'. rewrite E. split; [f_equal; f_equal; lia|]. split; [done|]. intros a.
    rewrite H, !storeq_loadq by done. replace (s + 8 + (a - (d + 8))) with (s + (a - d)) by lia.
    destruct (Z.leb_spec (d + 8) a), (Z.ltb_spec a (d + 8 + 8 * Z.of_nat n)); cbn [andb]; zcase; cbn [andb]; try lia; done.
Qed.

Lemma rep_movsb_spec n : forall m d s a,
  d <= s \/ s + Z.of_nat n <= d ->
  rep_movsb n m d s a = if (d <=? a) && (a <? d + Z.of_nat n) then m (s + (a - d)) else m a.
Proof.
  induction n as [|n IH]; intros m d s a Hov; cbn [rep_movsb]; [zcase; cbn; lia|].
  rewrite IH by lia. unfold storeb. replace (s + 1 + (a - (d + 1))) with (s + (a - d)) by lia.
  destruct (Z.leb_spec (d + 1) a), (Z.ltb_spec a (d + 1 + Z.of_nat n)); cbn [andb]; zcase; cbn [andb]; subst; try lia;
    f_equal; lia.
Qed.

Lemma split_count n : 0 <= n ->
  8 * Z.of_nat (Z.to_nat (n / 8)) + Z.of_nat (Z.to_nat (Z.land n 7)) = n.
Proof.
  intros Hn. change 7 with (Z.ones 3). rewrite Z.land_ones by lia. change (2 ^ 3) with 8. dlia.
Qed.

Lemma memset_spec m str c n a : 0 <= n ->
  memset m str c n a = if (str <=? a) && (a <? str + n) then u8 c else m a.
Proof.
  intros Hn. unfold memset. pose proof (split_count n Hn) as Hs.
  destruct (rep_stosq_spec (u8 c) (Z.to_nat (n / 8)) (wrap_range 8 c ltac:(lia)) m str) as (m' & -> & H).
  rewrite rep_stosb_spec, H.
  destruct (Z.leb_spec str a), (Z.ltb_spec a (str + n)); cbn [andb]; zcase; cbn [andb]; try lia; done.
Qed.

Lemma memcpy_spec m dst src n a : isBytes m -> 0 <= n -> dst <= src \/ src + n <= dst ->
  memcpy m dst src n a = if (dst <=? a) && (a <? dst + n) then m (src + (a - dst)) else m a.
Proof.
  intros Hm Hn Hov. unfold memcpy. pose proof (split_count n Hn) as Hs.
  destruct (rep_movsq_spec (Z.to_nat (n / 8)) m dst src Hm ltac:(lia)) as (m' & -> & Hm' & H).
  rewrite rep_movsb_spec by lia. set (q := 8 * Z.of_nat (Z.to_nat (n / 8))) in *. rewrite !H.
  replace (src + q + (a - (dst + q))) with (src + (a - dst)) by lia.
  destruct (Z.leb_spec (dst + q) a), (Z.ltb_spec a (dst + q + Z.of_nat (Z.to_nat (Z.land n 7)))); cbn [andb]; zcase; cbn [andb]; try lia; done.
Qed.

(** ** Comparing and searching *)

Lemma memcmp_loop_spec n : forall m a b,
  (memcmp_loop n m a b = 0 /\ forall i, 0 <= i < Z.of_nat n -> m (a + i) = m (b + i)) \/
  exists i, 0 <= i < Z.of_nat n /\ (forall j, 0 <= j < i -> m (a + j) = m (b + j)) /\
    m (a + i) <> m (b + i) /\ memcmp_loop n m a b = m (a + i) - m (b + i).
Proof.
  induction n as [|n IH]; intros m a b; cbn [memcmp_loop]; [left; split; [done|lia]|].
  destruct (Z.eqb_spec (m a) (m b)) as [Heq|Hne]; cbn [negb].
  - assert (Hshift : forall i, 0 < i -> (forall j, 0 <= j < i - 1 -> m (a + 1 + j) = m (b + 1 + j)) ->
      forall j, 0 <= j < i -> m (a + j) = m (b + j)).
    { intros i Hi H j Hj. destruct (Z.eq_dec j 0) as [->|]; [by rewrite !Z.add_0_r|].
      specialize (H (j - 1) ltac:(lia)). by replace (a + 1 + (j - 1)) with (a + j) in H by lia;
        replace (b + 1 + (j - 1)) with (b + j) in H by lia. }
    destruct (IH m (a + 1) (b + 1)) as [[H0 H]|(i & Hi & H & Hd & Hr)].
    + left. split; [done|]. apply Hshift; [lia|]. intros j Hj. apply H. lia.
    + right. exists (i + 1). replace (a + (i + 1)) with (a + 1 + i) by lia. replace (b + (i + 1)) with (b + 1 + i) by lia.
      split; [lia|]. split; [|by split]. apply Hshift; [lia|]. intros j Hj. apply H. lia.
  - right. exists 0. rewrite !Z.add_0_r. split; [lia|]. split; [intros; lia|done].
Qed.

Lemma bytesAt_length m p n : 0 <= n -> Z.of_nat (base.length (bytesAt m p n)) = n.
Proof. intros Hn. unfold bytesAt. rewrite length_fmap, length_seqZ. lia. Qed.

Lemma bytesAt_app m p n1 n2 : 0 <= n1 -> 0 <= n2 ->
  bytesAt m p (n1 + n2) = bytesAt m p n1 ++ bytesAt m (p + n1) n2.
Proof. intros H1 H2. unfold bytesAt. by rewrite seqZ_app, fmap_app. Qed.

Lemma bytesAt_lookup m p n i : bytesAt m p n !! i = (if Z.of_nat i <? n then Some (m (p + Z.of_nat i)) else None).
Proof.
  unfold bytesAt. rewrite list_lookup_fmap. zcase; [by rewrite lookup_seqZ_lt by lia|].
  by rewrite lookup_seqZ_ge by lia.
Qed.

Lemma bytesAt_eq m p q n : bytesAt m p n = bytesAt m q n <-> forall i, 0 <= i < n -> m (p + i) = m (q + i).
Proof.
  split.
  - intros H i Hi. apply (f_equal (fun l => l !! Z.to_nat i)) in H. rewrite !bytesAt_lookup in H.
    rewrite Z2Nat.id in H by lia. destruct (Z.ltb_spec i n); [by injection H|lia].
  - intros H. apply list_eq. intros i. rewrite !bytesAt_lookup. zcase; [|done]. f_equal. apply H. lia.
Qed.

Lemma memeq_spec m a b n : 0 <= n -> memeq m a b n = true <-> bytesAt m a n = bytesAt m b n.
Proof.
  intros Hn. rewrite bytesAt_eq. unfold memeq, memcmp. rewrite Z.eqb_eq.
  destruct (memcmp_loop_spec (Z.to_nat n) m a b) as [[H0 H]|(i & Hi & _ & Hd & Hr)].
  - split; [intros _ i Hi; apply H; lia|done].
  - split; [lia|]. intros H. exfalso. apply Hd, H. lia.
Qed.

Lemma memchr_loop_spec n : forall m p c,
  match memchr_loop n m p c with
  | Some q => p <= q < p + Z.of_nat n /\ m q = c /\ forall x, p <= x < q -> m x <> c
  | None => forall x, p <= x < p + Z.of_nat n -> m x <> c
  end.
Proof.
  induction n as [|n IH]; intros m p c; cbn [memchr_loop]; [lia|].
  destruct (Z.eqb_spec (m p) c) as [Heq|Hne]; [split; [lia|]; split; [done|lia]|].
  specialize (IH m (p + 1) c). destruct (memchr_loop n m (p + 1) c) as [q|].
  - destruct IH as (H1 & H2 & H3). split; [lia|]. split; [done|]. intros x Hx.
    destruct (Z.eq_dec x p) as [->|]; [done|]. apply H3. lia.
  - intros x Hx. destruct (Z.eq_dec x p) as [->|]; [done|]. apply IH. lia.
Qed.

Lemma strlen_loop_spec k : forall fuel m p i,
  (k < fuel)%nat -> m (p + Z.of_nat k) = 0 -> (forall j, 0 <= j < Z.of_nat k -> m (p + j) <> 0) ->
  strlen_loop fuel m p i = Ok (i + Z.of_nat k).
Proof.
  induction k as [|k IH]; intros [|fuel] m p i Hf H0 Hn; [lia| |lia|]; cbn [strlen_loop].
  - rewrite Z.add_0_r in H0. rewrite H0. cbn. f_equal. lia.
  - rewrite (proj2 (Z.eqb_neq (m p) 0)); [|specialize (Hn 0 ltac:(lia)); by rewrite Z.add_0_r in Hn].
    rewrite IH; [f_equal; lia|lia| |].
    + by replace (p + 1 + Z.of_nat k) with (p + Z.of_nat (S k)) by lia.
    + intros j Hj. replace (p + 1 + j) with (p + (j + 1)) by lia. apply Hn. lia.
Qed.

(** ** Properties *)

Lemma strlen_spec fuel m p l :
  cstring m p l -> (base.length l < fuel)%nat -> strlen fuel m p = Ok (Z.of_nat (base.length l)).
Proof.
  intros (Hn & He & Hc) Hl. unfold strlen. rewrite (strlen_loop_spec (base.length l)); [done|done|done|].
  intros j Hj Hz. assert (Hx : l !! Z.to_nat j = Some (m (p + j))).
  { rewrite <- Hn at 1. rewrite bytesAt_lookup, Z2Nat.id by lia. by rewrite (proj2 (Z.ltb_lt _ _)) by lia. }
  rewrite Forall_lookup in Hc. by apply (Hc _ _ Hx).
Qed.

Lemma bytesAt_pointwise m m' p q n :
  (forall i, 0 <= i < n -> m (p + i) = m' (q + i)) -> bytesAt m p n = bytesAt m' q n.
Proof. intros H. apply list_eq. intros i. rewrite !bytesAt_lookup. zcase; [|done]. f_equal. apply H. lia. Qed.

Lemma cstring_ext m m' p l :
  (forall i, 0 <= i <= Z.of_nat (base.length l) -> m' (p + i) = m (p + i)) -> cstring m p l -> cstring m' p l.
Proof.
  intros H (H1 & H2 & H3). split; [|split; [|done]].
  - etransitivity; [|exact H1]. apply bytesAt_pointwise. intros i Hi. apply H. lia.
  - rewrite H by lia. done.
Qed.

Lemma strcpy_spec fuel m dst src l :
  isBytes m -> cstring m src l -> (base.length l < fuel)%nat ->
  dst + Z.of_nat (base.length l) < src \/ src + Z.of_nat (base.length l) < dst ->
  exists m', strcpy fuel m dst src = Ok m' /\ isBytes m' /\ cstring m' dst l /\
    forall a, a < dst \/ dst + Z.of_nat (base.length l) < a -> m' a = m a.
Proof.
  intros Hm Hs Hf Hov. unfold strcpy. rewrite (strlen_spec _ _ _ _ Hs Hf). cbn [obind].
  assert (E : forall a, memcpy m dst src (Z.of_nat (base.length l)) a
    = if (dst <=? a) && (a <? dst + Z.of_nat (base.length l)) then m (src + (a - dst)) else m a).
  { intros a. apply memcpy_spec; [done|lia|lia]. }
  eexists. split; [done|]. split; [|split].
  - apply storeb_bytes; [|lia]. intros a. rewrite E. destruct (_ && _); apply Hm.
  - destruct Hs as (H1 & H2 & H3). split; [|split; [|done]].
    + etransitivity; [|exact H1]. apply bytesAt_pointwise. intros i Hi. unfold storeb. rewrite E.
      zcase; cbn [andb]; try lia. f_equal. lia.
    + unfold storeb. by rewrite Z.eqb_refl.
  - intros a Ha. unfold storeb. rewrite E. zcase; cbn [andb]; try lia; done.
Qed.

Lemma putBytes_bytes m p l : isBytes m -> Forall (fun b => 0 <= b < 256) l -> isBytes (putBytes m p l).
Proof.
  intros Hm Hl a. unfold putBytes. destruct (if p <=? a then l !! Z.to_nat (a - p) else None) as [b|] eqn:E; [|apply Hm].
  destruct (p <=? a); [|done]. rewrite Forall_lookup in Hl. by eapply Hl.
Qed.

Lemma bytesAt_1 m p : bytesAt m p 1 = [m p].
Proof. done. Qed.

Lemma bytesAt_S m p n : bytesAt m p (Z.of_nat (S n)) = m p :: bytesAt m (p + 1) (Z.of_nat n).
Proof.
  replace (Z.of_nat (S n)) with (1 + Z.of_nat n) by lia. by rewrite bytesAt_app, bytesAt_1 by lia.
Qed.

Lemma bytesAt_take m p n k : 0 <= k <= n -> firstn (Z.to_nat k) (bytesAt m p n) = bytesAt m p k.
Proof.
  intros Hk. replace n with (k + (n - k)) by lia. rewrite bytesAt_app by lia.
  pose proof (bytesAt_length m p k). rewrite take_app_le by lia. apply take_ge. lia.
Qed.

Lemma bytesAt_drop m p n k : 0 <= k <= n -> skipn (Z.to_nat k) (bytesAt m p n) = bytesAt m (p + k) (n - k).
Proof.
  intros Hk. replace n with (k + (n - k)) at 1 by lia. rewrite bytesAt_app by lia.
  pose proof (bytesAt_length m p k ltac:(lia)). rewrite drop_app_ge by lia.
  replace (Z.to_nat k - _)%nat with 0%nat by lia. done.
Qed.

(** A string that is not null. *)
Definition validStr (s : Str) : Prop := 0 < cString s /\ 0 <= length s.

Lemma contents_length m s : 0 <= length s -> Z.of_nat (base.length (contents m s)) = length s.
Proof. apply bytesAt_length. Qed.

Lemma subStringFrom_spec m s k : validStr s -> 0 <= k <= length s ->
  validStr (subStringFrom s k) /\ contents m (subStringFrom s k) = skipn (Z.to_nat k) (contents m s).
Proof.
  intros [Hp Hl] Hk. unfold subStringFrom, subString. rewrite (proj2 (Z.ltb_ge (length s) k)) by lia. cbn [orb].
  rewrite Z.ltb_irrefl. unfold contents, validStr. cbn [cString length]. split; [lia|]. by rewrite bytesAt_drop by lia.
Qed.

(** [C12] [memset] and [memcpy] as quad-words plus a byte tail: for every count,
    aligned or not, exactly the [n] bytes of the destination change, to the
    low byte of [c], respectively to what the source held before; [memcpy] is
    right for overlapping ranges too as long as it copies towards lower
    addresses. *)
Theorem copying_correct m a b c n :
  isBytes m -> 0 <= n -> a <= b \/ b + n <= a ->
  (forall x, memset m a c n x = if (a <=? x) && (x <? a + n) then u8 c else m x) /\
  (forall x, memcpy m a b n x = if (a <=? x) && (x <? a + n) then m (b + (x - a)) else m x).
Proof.
  intros Hm Hn Hov. split; intros x; [by apply memset_spec|by apply memcpy_spec].
Qed.

Lemma copying_correct_witness :
  let m := fun x => x mod 256 in
  memcpy m 100 103 13 112 = 115 /\ memset m 100 511 13 112 = 255.
Proof.
  intros m. destruct (copying_correct m 100 103 511 13) as [H1 H2].
  - intros a. unfold m. dlia.
  - lia.
  - left. lia.
  - split; [rewrite H2; vm_compute; reflexivity|rewrite H1; vm_compute; reflexivity].
Defined.

(** [String::operator==] is equality of the character sequences, whatever
    the pointers (a null string equals every empty one). *)
Theorem Str_eq_correct m s t :
  0 <= length s -> 0 <= length t ->
  Str_eq m s t = true <-> contents m s = contents m t.
Proof.
  intros Hs Ht. unfold Str_eq, contents.
  destruct (Z.eqb_spec (length t) (length s)) as [Hl|Hl]; cbn [negb].
  - rewrite Hl. destruct (Z.eqb_spec (length s) 0) as [->|]; [done|]. by apply memeq_spec.
  - split; [done|]. intros H. exfalso. apply Hl.
    rewrite <- (bytesAt_length m (cString s) _ Hs), <- (bytesAt_length m (cString t) _ Ht). by rewrite H.
Qed.

Lemma Str_eq_correct_witness :
  let m := fun x => x mod 4 in
  contents m (mkStr 4 3) = contents m (mkStr 8 3).
Proof.
  intros m. apply (Str_eq_correct m (mkStr 4 3) (mkStr 8 3)); [cbn; lia|cbn; lia|]. vm_compute. reflexivity.
Defined.

(** [findBefore] and [findNext] split a non-empty string at the first
    occurrence of a delimiter after its first character: the two parts
    make up the string, the first has no delimiter beyond its first
    character, the second is empty or begins with the delimiter. This is what
    path traversal relies on. *)
Theorem findBefore_findNext_split m s c :
  1 <= length s -> 0 <= cString s ->
  contents m s = contents m (findBefore m s c) ++ contents m (findNext m s c) /\
  (forall i, (1 <= i)%nat -> contents m (findBefore m s c) !! i <> Some c) /\
  (length (findNext m s c) = 0 \/ head (contents m (findNext m s c)) = Some c).
Proof.
  intros Hl Hp. unfold findBefore, findNext, memchr.
  rewrite (proj2 (Z.eqb_neq (length s) 0)) by lia.
  pose proof (memchr_loop_spec (Z.to_nat (length s - 1)) m (cString s + 1) c) as H.
  destruct (memchr_loop _ m (cString s + 1) c) as [p|].
  - destruct H as (Hr & Hc & Hf). cbn [length cString].
    replace (length s - (cString s + length s - p)) with (p - cString s) by lia.
    unfold subString. rewrite (proj2 (Z.ltb_ge (length s) 0)), (proj2 (Z.ltb_ge (p - cString s) 0)) by lia. cbn [orb].
    rewrite (proj2 (Z.ltb_ge (length s) (p - cString s))) by lia. unfold contents. cbn [length cString].
    rewrite Z.add_0_r, Z.sub_0_r. split; [|split].
    + rewrite <- (Z.add_simpl_l (p - cString s) (length s)) at 1.
      replace (p - cString s + length s - (p - cString s)) with ((p - cString s) + (cString s + length s - p)) by lia.
      rewrite bytesAt_app by lia. do 2 f_equal. lia.
    + intros i Hi. rewrite bytesAt_lookup. zcase; [|done]. intros [= Hx]. apply (Hf (cString s + Z.of_nat i)); lia || done.
    + right. assert (Hh : bytesAt m p (cString s + length s - p) !! 0%nat = Some c).
      { rewrite bytesAt_lookup. zcase; [|lia]. by rewrite Z.add_0_r, Hc. }
      destruct (bytesAt m p (cString s + length s - p)); [done|exact Hh].
  - cbn [length cString Str_null]. rewrite Z.sub_0_r. unfold subString.
    rewrite (proj2 (Z.ltb_ge (length s) 0)), (proj2 (Z.ltb_ge (length s) (length s))) by lia. cbn [orb].
    unfold contents. cbn [length cString Str_null]. rewrite Z.add_0_r, Z.sub_0_r. split; [|split; [|by left]].
    + by rewrite app_nil_r.
    + intros i Hi. rewrite bytesAt_lookup. zcase; [|done]. intros [= Hx]. apply (H (cString s + Z.of_nat i)); lia || done.
Qed.

(** The path "/ab/c" (47 is the slash). *)
Definition path5 : Memory := fun x => nth (Z.to_nat (x - 16)) [47; 97; 98; 47; 99] 0.

Lemma findBefore_findNext_split_witness :
  contents path5 (mkStr 16 5) = [47; 97; 98] ++ [47; 99].
Proof.
  destruct (findBefore_findNext_split path5 (mkStr 16 5) 47) as [H _]; [cbn; lia|cbn; lia|].
  rewrite H. vm_compute. reflexivity.
Defined.
