(* ===== verification/Vector.v ===== *)
(** * util::Vector ([vector.h])

    A growable array on the kernel heap. The heap of arrays is explicit, so
    that growing really moves the elements to another array and deletes the
    old one: a double delete, an access through a deleted or null array and an
    index outside an array are faults. *)

From Stdlib Require Import ZArith Lia.
From stdpp Require Import base tactics numbers gmap list.
From S2P Require Import Prelude.

Open Scope Z_scope.

Definition MINIMUM_VECTOR_SIZE : Z := 16.

Section Vector.
Context {T : Type} (T_default : T).

(** Whether [new T[n]] gets memory: [operator new] returns null when the
    kernel heap has no room. *)
Context (kmallocFits : Z -> bool).

(** The arrays that were allocated and not deleted, by address; [nextArray]
    is an address never used before. *)
Record Heap := mkHeap { arrays : gmap Z (list T); nextArray : Z }.

Definition newArray (h : Heap) (n : Z) : Z * Heap :=
  if kmallocFits n then
    (nextArray h,
     mkHeap (<[nextArray h := replicate (Z.to_nat n) T_default]> (arrays h)) (nextArray h + 1))
  else (0, h).

Definition deleteArray (h : Heap) (p : Z) : outcome Heap :=
  match arrays h !! p with
  | Some _ => Ok (mkHeap (delete p (arrays h)) (nextArray h))
  | None => Fault
  end.

Definition loadElement (h : Heap) (p i : Z) : outcome T :=
  if i <? 0 then Fault else
  match arrays h !! p with
  | Some l => of_option (l !! Z.to_nat i)
  | None => Fault
  end.

Definition storeElement (h : Heap) (p i : Z) (x : T) : outcome Heap :=
  if i <? 0 then Fault else
  match arrays h !! p with
  | Some l =>
      if (Z.to_nat i <? length l)%nat
      then Ok (mkHeap (<[p := <[Z.to_nat i := x]> l]> (arrays h)) (nextArray h)) else Fault
  | None => Fault
  end.

(** [util::move(dst, src, n)]. *)
Fixpoint moveElements (n : nat) (h : Heap) (dst src i : Z) : outcome Heap :=
  match n with
  | O => Ok h
  | S n =>
      let! x := loadElement h src i in
      let! h := storeElement h dst i x in
      moveElements n h dst src (i + 1)
  end.

Record Vector := mkVector { capacity : Z; size : Z; data : Z }.

Definition Vector_init : Vector := mkVector 0 0 0.

Definition Vector_reserve (h : Heap) (initialCapacity : Z) : Vector * Heap :=
  let '(p, h) := newArray h initialCapacity in (mkVector initialCapacity 0 p, h).

(** [Vector(Vector&&)]: the new vector and what is left of the old one. *)
Definition Vector_move (other : Vector) : Vector * Vector := (other, mkVector 0 0 0).

Definition Vector_destroy (h : Heap) (v : Vector) : outcome Heap :=
  if negb (data v =? 0) then deleteArray h (data v) else Ok h.

(** [operator=(Vector&&)]. *)
Definition Vector_assign (h : Heap) (v other : Vector) : outcome (Vector * Vector * Heap) :=
  let! h := Vector_destroy h v in Ok (other, mkVector 0 0 0, h).

(** [operator[]]: the index of the element or the null accessor. The offset
    is a [ptrdiff_t] by the time it is compared. *)
Definition Vector_index (v : Vector) (offset : Z) : option Z :=
  if (offset <? size v) && (0 <=? offset) then Some offset else None.

(** Reading through the accessor. *)
Definition Vector_get (h : Heap) (v : Vector) (offset : Z) : outcome T :=
  match Vector_index v offset with
  | Some i => loadElement h (data v) i
  | None => Ok T_default
  end.

(** Assigning through the accessor. *)
Definition Vector_set (h : Heap) (v : Vector) (offset : Z) (x : T) : outcome Heap :=
  match Vector_index v offset with
  | Some i => storeElement h (data v) i x
  | None => Ok h
  end.

Definition resize (h : Heap) (v : Vector) (newCapacity : Z) : outcome (Vector * Heap) :=
  let '(newData, h) := newArray h newCapacity in
  let! h :=
    (if negb (data v =? 0) then
       let! h := moveElements (Z.to_nat (size v)) h newData (data v) 0 in
       deleteArray h (data v)
     else Ok h) in
  Ok (mkVector newCapacity (size v) newData, h).

Definition push_back (h : Heap) (v : Vector) (value : T) : outcome (Vector * Heap) :=
  let index := size v in
  let! '(v, h) :=
    (if capacity v <=? index then
       if capacity v <? MINIMUM_VECTOR_SIZE then resize h v MINIMUM_VECTOR_SIZE
       else resize h v (u64 (capacity v * 2))
     else Ok (v, h)) in
  let! h := storeElement h (data v) index value in
  Ok (mkVector (capacity v) (u64 (size v + 1)) (data v), h).

Definition pop_back (h : Heap) (v : Vector) : outcome (T * (Vector * Heap)) :=
  let index := u64 (size v - 1) in
  let v := mkVector (capacity v) index (data v) in
  let! result := loadElement h (data v) index in
  if (u64 (size v * 2) <=? capacity v) && (MINIMUM_VECTOR_SIZE <? size v) then
    let! '(v, h) := resize h v (size v) in Ok (result, (v, h))
  else if size v =? 0 then
    let! h := deleteArray h (data v) in
    Ok (result, (mkVector 0 (size v) 0, h))
  else Ok (result, (v, h)).

Definition getSize (v : Vector) : Z := size v.

(** ** Specification *)

(** Null is not an array, and the next address is fresh. *)
Definition heap_wf (h : Heap) : Prop :=
  0 < nextArray h /\ forall p, is_Some (arrays h !! p) -> 0 < p < nextArray h.

(** [v] holds the elements [l] in an array of its own, and [others] are all the
    other arrays of the heap. *)
Record represents (others : gmap Z (list T)) (h : Heap) (v : Vector) (l : list T) : Prop := {
  vr_wf : heap_wf h;
  vr_size : size v = Z.of_nat (length l);
  vr_fits : size v <= capacity v < 2 ^ 62;
  vr_null : data v = 0 -> capacity v = 0 /\ arrays h = others;
  vr_data : data v <> 0 -> exists a, arrays h = <[data v := a]> others /\ others !! data v = None /\
    Z.of_nat (length a) = capacity v /\ forall j, (j < length l)%nat -> a !! j = l !! j
}.

(** The vector as a client uses it. *)
Inductive Op := Push (x : T) | Pop | Get (i : Z) | Set_ (i : Z) (x : T).

Definition runOp (h : Heap) (v : Vector) (o : Op) : outcome (list T * (Vector * Heap)) :=
  match o with
  | Push x => let! s := push_back h v x in Ok ([], s)
  | Pop => let! '(x, s) := pop_back h v in Ok ([x], s)
  | Get i => let! x := Vector_get h v i in Ok ([x], (v, h))
  | Set_ i x => let! h := Vector_set h v i x in Ok ([], (v, h))
  end.

Fixpoint runOps (h : Heap) (v : Vector) (os : list Op) : outcome (list T * (Vector * Heap)) :=
  match os with
  | [] => Ok ([], (v, h))
  | o :: os =>
      let! '(r, (v, h)) := runOp h v o in
      let! '(rs, s) := runOps h v os in Ok (r ++ rs, s)
  end.

(** The same client on a list. *)
Definition specOp (l : list T) (o : Op) : outcome (list T * list T) :=
  match o with
  | Push x => Ok ([], l ++ [x])
  | Pop => match rev l with x :: r => Ok ([x], rev r) | [] => Fault end
  | Get i => Ok ([if i <? 0 then T_default else nth (Z.to_nat i) l T_default], l)
  | Set_ i x => Ok ([], if i <? 0 then l else <[Z.to_nat i := x]> l)
  end.

Fixpoint specOps (l : list T) (os : list Op) : outcome (list T * list T) :=
  match os with
  | [] => Ok ([], l)
  | o :: os =>
      let! '(r, l) := specOp l o in
      let! '(rs, l) := specOps l os in Ok (r ++ rs, l)
  end.

(** ** Arrays *)

Lemma loadElement_ok h p i a x :
  arrays h !! p = Some a -> a !! i = Some x -> loadElement h p (Z.of_nat i) = Ok x.
Proof.
  intros Ha Hx. unfold loadElement. rewrite (proj2 (Z.ltb_ge _ _)), Ha, Nat2Z.id, Hx by lia. done.
Qed.

Lemma storeElement_ok h p i a x :
  arrays h !! p = Some a -> (i < length a)%nat ->
  storeElement h p (Z.of_nat i) x = Ok (mkHeap (<[p := <[i := x]> a]> (arrays h)) (nextArray h)).
Proof.
  intros Ha Hi. unfold storeElement. rewrite (proj2 (Z.ltb_ge _ _)), Ha, Nat2Z.id by lia.
  by destruct (Nat.ltb_spec i (length a)); [|lia].
Qed.

Lemma moveElements_spec n : forall h dst src i a d,
  dst <> src -> arrays h !! src = Some a -> arrays h !! dst = Some d ->
  (i + n <= length a)%nat -> (i + n <= length d)%nat ->
  exists d', moveElements n h dst src (Z.of_nat i) = Ok (mkHeap (<[dst := d']> (arrays h)) (nextArray h)) /\
    length d' = length d /\
    forall j, d' !! j = if (i <=? j)%nat && (j <? i + n)%nat then a !! j else d !! j.
Proof.
  induction n as [|n IH]; intros h dst src i a d Hne Ha Hd Hla Hld; cbn [moveElements].
  - exists d. rewrite insert_id by done. destruct h. split; [done|]. split; [done|]. intros j.
    destruct (Nat.leb_spec i j), (Nat.ltb_spec j (i + 0)); cbn; done || lia.
  - destruct (lookup_lt_is_Some_2 a i ltac:(lia)) as [x Hx].
    rewrite (loadElement_ok h src i a x Ha Hx). cbn [obind].
    rewrite (storeElement_ok h dst i d x Hd) by lia. cbn [obind].
    replace (Z.of_nat i + 1) with (Z.of_nat (S i)) by lia.
    destruct (IH (mkHeap (<[dst := <[i := x]> d]> (arrays h)) (nextArray h)) dst src (S i) a (<[i := x]> d))
      as (d' & E & Hl & Hj); [done|cbn; by rewrite lookup_insert_ne|cbn; by rewrite lookup_insert_eq|lia|
      rewrite length_insert; lia|].
    exists d'. rewrite E. cbn [arrays nextArray]. rewrite insert_insert_eq. rewrite length_insert in Hl.
    split; [done|]. split; [done|]. intros j. rewrite Hj.
    destruct (Nat.leb_spec (S i) j), (Nat.ltb_spec j (S i + n)), (Nat.leb_spec i j), (Nat.ltb_spec j (i + S n));
      cbn [andb]; try lia; try done; try (by rewrite list_lookup_insert_ne by lia).
    assert (j = i) as -> by lia. by rewrite list_lookup_insert_eq by lia.
Qed.

Lemma heap_wf_insert others p a n :
  0 < p < n -> (forall q, is_Some (others !! q) -> 0 < q < n) -> heap_wf (mkHeap (<[p := a]> others) n).
Proof.
  intros Hp Ho. split; cbn; [lia|]. intros q Hq. destruct (decide (q = p)) as [->|Hne]; [lia|].
  rewrite lookup_insert_ne in Hq by done. by apply Ho.
Qed.

Lemma represents_data_range others h v l :
  represents others h v l -> data v <> 0 -> 0 < data v < nextArray h.
Proof.
  intros [[_ Hwf] _ _ _ Hd] Hz. destruct (Hd Hz) as (a & Ha & _). apply Hwf. rewrite Ha, lookup_insert_eq. eauto.
Qed.

Lemma represents_others others h v l :
  represents others h v l -> forall q, is_Some (others !! q) -> 0 < q < nextArray h.
Proof.
  intros [[_ Hwf] _ _ H0 Hd] q Hq. apply Hwf. destruct (decide (data v = 0)) as [Hz|Hz].
  - by destruct (H0 Hz) as [_ ->].
  - destruct (Hd Hz) as (a & -> & Hn & _). destruct (decide (q = data v)) as [->|Hne]; [rewrite lookup_insert_eq; eauto|].
    by rewrite lookup_insert_ne.
Qed.

Lemma resize_spec others h v l n :
  represents others h v l -> kmallocFits n = true -> size v <= n < 2 ^ 62 ->
  exists v' h', resize h v n = Ok (v', h') /\ represents others h' v' l /\ capacity v' = n /\ data v' <> 0.
Proof.
  intros Hr Hfit Hsz. pose proof (represents_others _ _ _ _ Hr) as Hoth. pose proof (represents_data_range _ _ _ _ Hr) as Hdr.
  destruct Hr as [[Hn Hwf] Hs Hc H0 Hd]. unfold resize, newArray. rewrite Hfit.
  set (q := nextArray h) in *. set (fresh := replicate (Z.to_nat n) T_default).
  assert (Hq : others !! q = None).
  { destruct (others !! q) eqn:E; [|done]. destruct (Hoth q ltac:(by eexists)). lia. }
  destruct (Z.eqb_spec (data v) 0) as [Hz|Hz]; cbn [negb obind].
  - destruct (H0 Hz) as [Hcap Harr]. rewrite Harr.
    exists (mkVector n (size v) q), (mkHeap (<[q := fresh]> others) (q + 1)).
    split; [done|]. split; [|split; [done|cbn; lia]].
    constructor; cbn; [|done|lia|lia|].
    + apply heap_wf_insert; [lia|]. intros p Hp. specialize (Hoth p Hp). lia.
    + intros _. exists fresh. unfold fresh. rewrite length_replicate.
      split; [done|]. split; [done|]. split; [lia|]. intros j Hj. lia.
  - destruct (Hd Hz) as (a & Ha & Hnone & Hla & Htake). specialize (Hdr Hz).
    destruct (moveElements_spec (Z.to_nat (size v)) (mkHeap (<[q := fresh]> (arrays h)) (q + 1)) q (data v) 0 a fresh)
      as (d' & E & Hl & Hj); [lia|cbn; by rewrite lookup_insert_ne, Ha, lookup_insert_eq by lia|cbn; by rewrite lookup_insert_eq|lia| |].
    { unfold fresh. rewrite length_replicate. lia. }
    change (Z.of_nat 0) with 0 in E. rewrite E. cbn [obind arrays nextArray]. unfold deleteArray. cbn [arrays nextArray].
    rewrite insert_insert_eq, lookup_insert_ne, Ha, lookup_insert_eq by lia. cbn [obind].
    exists (mkVector n (size v) q), (mkHeap (delete (data v) (<[q := d']> (<[data v := a]> others))) (q + 1)).
    unfold fresh in Hl. rewrite length_replicate in Hl.
    assert (Hdel : delete (data v) (<[q := d']> (<[data v := a]> others)) = <[q := d']> others).
    { rewrite delete_insert_ne, delete_insert_id by (done || lia). done. }
    rewrite Hdel. split; [done|]. split; [|split; [done|cbn; lia]].
    constructor; cbn; [|done|lia|lia|].
    + apply heap_wf_insert; [lia|]. intros p Hp. specialize (Hoth p Hp). lia.
    + intros _. exists d'. split; [done|]. split; [done|]. split; [lia|]. intros j Hjl. rewrite Hj.
      destruct (Nat.leb_spec 0 j), (Nat.ltb_spec j (0 + Z.to_nat (size v))); cbn [andb]; try lia. by apply Htake.
Qed.

(** ** Operations *)

Lemma push_back_spec others h v l x :
  (forall n, kmallocFits n = true) -> represents others h v l -> Z.of_nat (length l) < 2 ^ 60 ->
  exists v' h', push_back h v x = Ok (v', h') /\ represents others h' v' (l ++ [x]).
Proof.
  intros Hfit Hr Hlen. change (2 ^ 60) with 1152921504606846976 in Hlen.
  assert (Hgrow : exists v1 h1,
    (if capacity v <=? size v then
       if capacity v <? MINIMUM_VECTOR_SIZE then resize h v MINIMUM_VECTOR_SIZE
       else resize h v (u64 (capacity v * 2))
     else Ok (v, h)) = Ok (v1, h1) /\ represents others h1 v1 l /\ size v < capacity v1 /\ data v1 <> 0).
  { pose proof (vr_size _ _ _ _ Hr). pose proof (vr_fits _ _ _ _ Hr). change (2 ^ 62) with 4611686018427387904 in *.
    destruct (Z.leb_spec (capacity v) (size v)); [destruct (Z.ltb_spec (capacity v) MINIMUM_VECTOR_SIZE)|].
    - unfold MINIMUM_VECTOR_SIZE in *.
      destruct (resize_spec others h v l 16 Hr (Hfit _)) as (v1 & h1 & E & R1 & R2 & R3); [change (2 ^ 62) with 4611686018427387904; lia|].
      exists v1, h1. split; [done|]. split; [done|]. split; [lia|done].
    - unfold MINIMUM_VECTOR_SIZE in *. rewrite u64_small by lia.
      destruct (resize_spec others h v l (capacity v * 2) Hr (Hfit _)) as (v1 & h1 & E & R1 & R2 & R3);
        [change (2 ^ 62) with 4611686018427387904; lia|].
      exists v1, h1. split; [done|]. split; [done|]. split; [lia|done].
    - exists v, h. split; [done|]. split; [done|]. split; [lia|]. intros Hz. destruct (vr_null _ _ _ _ Hr Hz). lia. }
  destruct Hgrow as (v1 & h1 & E & Hr1 & Hcap & Hz). pose proof (vr_size _ _ _ _ Hr) as Hsv.
  pose proof (represents_others _ _ _ _ Hr1) as Hoth. pose proof (represents_data_range _ _ _ _ Hr1 Hz) as Hdr.
  unfold push_back. rewrite E. cbn [obind].
  destruct Hr1 as [Hwf Hs Hc _ Hd]. destruct (Hd Hz) as (a & Ha & Hnone & Hla & Htake).
  rewrite Hsv, (storeElement_ok h1 (data v1) (length l) a x) by (lia || by rewrite Ha, lookup_insert_eq). cbn [obind].
  change (2 ^ 62) with 4611686018427387904 in *. rewrite u64_small by lia. rewrite Ha, insert_insert_eq.
  eexists _, _. split; [done|]. constructor; cbn; [by apply heap_wf_insert| | |done|].
  - rewrite length_app. cbn. lia.
  - change (2 ^ 62) with 4611686018427387904. lia.
  - intros _. exists (<[length l := x]> a). rewrite length_insert. split; [done|]. split; [done|]. split; [done|].
    intros j Hj. rewrite length_app in Hj. cbn in Hj. destruct (decide (j = length l)) as [->|Hne].
    + rewrite list_lookup_insert_eq, lookup_app_r, Nat.sub_diag by lia. done.
    + rewrite list_lookup_insert_ne, lookup_app_l by lia. apply Htake. lia.
Qed.

Lemma pop_back_spec others h v l x :
  (forall n, kmallocFits n = true) -> represents others h v (l ++ [x]) ->
  exists v' h', pop_back h v = Ok (x, (v', h')) /\ represents others h' v' l.
Proof.
  intros Hfit Hr. pose proof (represents_others _ _ _ _ Hr) as Hoth. pose proof (represents_data_range _ _ _ _ Hr) as Hdr.
  destruct Hr as [Hwf Hs Hc H0 Hd]. rewrite length_app in *. cbn [length] in *.
  change (2 ^ 62) with 4611686018427387904 in *.
  assert (Hz : data v <> 0) by (intros Hz; destruct (H0 Hz); lia).
  destruct (Hd Hz) as (a & Ha & Hnone & Hla & Htake). specialize (Hdr Hz).
  assert (Hx : a !! length l = Some x) by (rewrite Htake, lookup_app_r, Nat.sub_diag by lia; done).
  unfold pop_back. cbn [size capacity data]. replace (size v - 1) with (Z.of_nat (length l)) by lia.
  rewrite !(u64_small (Z.of_nat (length l))) by lia. rewrite (u64_small (Z.of_nat (length l) * 2)) by lia.
  rewrite (loadElement_ok h (data v) (length l) a x) by (done || by rewrite Ha, lookup_insert_eq). cbn [obind].
  set (v1 := mkVector (capacity v) (Z.of_nat (length l)) (data v)).
  assert (Hr1 : represents others h v1 l).
  { constructor; cbn; [done|done|change (2 ^ 62) with 4611686018427387904; lia|done|].
    intros _. exists a. split; [done|]. split; [done|]. split; [done|]. intros j Hj.
    rewrite Htake, lookup_app_l by lia. done. }
  destruct (_ && _) eqn:Hshrink.
  - apply andb_true_iff in Hshrink as [H1%Z.leb_le H2%Z.ltb_lt]. unfold MINIMUM_VECTOR_SIZE in H2.
    destruct (resize_spec others h v1 l (Z.of_nat (length l)) Hr1 (Hfit _)) as (v2 & h2 & E & R1 & _);
      [change (2 ^ 62) with 4611686018427387904; cbn; lia|].
    rewrite E. cbn [obind]. by exists v2, h2.
  - destruct (Z.eqb_spec (Z.of_nat (length l)) 0) as [Hl|Hl]; [|by exists v1, h].
    unfold deleteArray. rewrite Ha, lookup_insert_eq. cbn [obind]. rewrite delete_insert_id by done.
    eexists _, _. split; [done|]. destruct l; [|cbn in Hl; lia]. constructor; cbn; [|done|lia|done|lia].
    destruct Hwf as [Hn _]. split; cbn; [exact Hn|]. intros q Hq. by apply Hoth.
Qed.

Lemma pop_back_empty others h v : represents others h v [] -> pop_back h v = Fault.
Proof.
  intros [[Hn Hwf] Hs Hc H0 Hd]. cbn [length] in Hs. change (2 ^ 62) with 4611686018427387904 in Hc.
  unfold pop_back. cbn [size capacity data]. rewrite Hs. change (u64 (Z.of_nat 0 - 1)) with 18446744073709551615.
  unfold loadElement. cbn [Z.ltb Z.compare].
  destruct (decide (data v = 0)) as [Hz|Hz].
  - rewrite Hz. destruct (arrays h !! 0) eqn:E; [|done]. destruct (Hwf 0 ltac:(by eexists)). lia.
  - destruct (Hd Hz) as (a & -> & _ & Hla & _). rewrite lookup_insert_eq.
    by rewrite lookup_ge_None_2 by lia.
Qed.

Lemma Vector_get_spec others h v l i :
  represents others h v l ->
  Vector_get h v i = Ok (if i <? 0 then T_default else nth (Z.to_nat i) l T_default).
Proof.
  intros [_ Hs Hc H0 Hd]. unfold Vector_get, Vector_index.
  destruct (Z.ltb_spec i 0) as [Hi|Hi]; [by rewrite (proj2 (Z.leb_gt 0 i)), andb_false_r by lia|].
  rewrite (proj2 (Z.leb_le 0 i)), andb_true_r by lia.
  destruct (Z.ltb_spec i (size v)) as [Hlt|Hge].
  - destruct (Hd ltac:(intros Hz; destruct (H0 Hz); lia)) as (a & Ha & _ & Hla & Hl).
    destruct (lookup_lt_is_Some_2 l (Z.to_nat i) ltac:(lia)) as [x Hx].
    pose proof (loadElement_ok h (data v) (Z.to_nat i) a x) as E. rewrite Z2Nat.id in E by lia.
    rewrite E; [|by rewrite Ha, lookup_insert_eq|by rewrite Hl by lia].
    f_equal. symmetry. by apply nth_lookup_Some.
  - by rewrite nth_overflow by lia.
Qed.

Lemma Vector_set_spec others h v l i x :
  represents others h v l ->
  exists h', Vector_set h v i x = Ok h' /\ represents others h' v (if i <? 0 then l else <[Z.to_nat i := x]> l).
Proof.
  intros Hr. pose proof (represents_others _ _ _ _ Hr) as Hoth. pose proof (represents_data_range _ _ _ _ Hr) as Hdr.
  pose proof Hr as [Hwf Hs Hc H0 Hd]. unfold Vector_set, Vector_index.
  destruct (Z.ltb_spec i 0) as [Hi|Hi]; [rewrite (proj2 (Z.leb_gt 0 i)), andb_false_r by lia; by exists h|].
  rewrite (proj2 (Z.leb_le 0 i)), andb_true_r by lia.
  destruct (Z.ltb_spec i (size v)) as [Hlt|Hge]; [|exists h; by rewrite list_insert_ge by lia].
  assert (Hz : data v <> 0) by (intros Hz; destruct (H0 Hz); lia).
  destruct (Hd Hz) as (a & Ha & Hnone & Hla & Hl). specialize (Hdr Hz).
  pose proof (storeElement_ok h (data v) (Z.to_nat i) a x) as E. rewrite Z2Nat.id in E by lia.
  rewrite E by (lia || by rewrite Ha, lookup_insert_eq).
  rewrite Ha, insert_insert_eq. eexists. split; [done|].
  constructor; cbn; [by apply heap_wf_insert|by rewrite length_insert|done|done|].
  intros _. exists (<[Z.to_nat i := x]> a). rewrite !length_insert. split; [done|]. split; [done|]. split; [done|].
  intros j Hj. destruct (decide (j = Z.to_nat i)) as [->|Hne].
  - by rewrite !list_lookup_insert_eq by lia.
  - rewrite !list_lookup_insert_ne by done. by apply Hl.
Qed.

(** One client operation. *)
Lemma runOp_spec others h v l o :
  (forall n, kmallocFits n = true) -> represents others h v l -> Z.of_nat (length l) < 2 ^ 60 ->
  match specOp l o with
  | Ok (r, l') => exists v' h', runOp h v o = Ok (r, (v', h')) /\ represents others h' v' l' /\
                    (length l' <= S (length l))%nat
  | _ => runOp h v o = Fault
  end.
Proof.
  intros Hfit Hr Hlen. destruct o as [x| |i|i x]; cbn [specOp runOp].
  - destruct (push_back_spec others h v l x Hfit Hr Hlen) as (v' & h' & E & Hr'). rewrite E. cbn [obind].
    exists v', h'. rewrite length_app. cbn. split; [done|]. split; [done|lia].
  - destruct (rev l) as [|x r] eqn:E.
    + assert (l = []) as -> by (rewrite <- (rev_involutive l), E; done). by rewrite (pop_back_empty others).
    + assert (l = rev r ++ [x]) as -> by (rewrite <- (rev_involutive l), E; done).
      destruct (pop_back_spec others h v (rev r) x Hfit Hr) as (v' & h' & Ep & Hr'). rewrite Ep. cbn [obind].
      exists v', h'. rewrite length_app. split; [done|]. split; [done|lia].
  - rewrite (Vector_get_spec others h v l) by done. cbn [obind]. exists v, h. split; [done|]. split; [done|lia].
  - destruct (Vector_set_spec others h v l i x Hr) as (h' & E & Hr'). rewrite E. cbn [obind].
    exists v, h'. split; [done|]. split; [done|]. destruct (i <? 0); rewrite ?length_insert; lia.
Qed.

(** ** What a successful [push_back] did *)

(** The array of a vector has its capacity. *)
Definition vector_ok (h : Heap) (v : Vector) : Prop :=
  0 <= size v <= capacity v /\ capacity v < 2 ^ 60 /\ (data v = 0 -> capacity v = 0) /\
  (data v <> 0 -> exists a, arrays h !! data v = Some a /\ Z.of_nat (length a) = capacity v).

Lemma loadElement_inv (h : Heap) a i x :
  loadElement h a i = Ok x -> 0 <= i /\ exists l, arrays h !! a = Some l /\ l !! Z.to_nat i = Some x.
Proof.
  unfold loadElement. destruct (Z.ltb_spec i 0); [done|]. destruct (arrays h !! a) as [l|]; [|done].
  destruct (l !! Z.to_nat i) as [y|] eqn:E; [|done]. cbn. intros [= ->]. split; [done|]. by exists l.
Qed.

Lemma storeElement_inv (h : Heap) p i x h' :
  storeElement h p i x = Ok h' ->
  0 <= i /\ exists a, arrays h !! p = Some a /\ (Z.to_nat i < length a)%nat /\
    h' = mkHeap (<[p := <[Z.to_nat i := x]> a]> (arrays h)) (nextArray h).
Proof.
  unfold storeElement. destruct (Z.ltb_spec i 0); [done|]. destruct (arrays h !! p) as [a|]; [|done].
  destruct (Nat.ltb_spec (Z.to_nat i) (length a)); [|done]. intros [= <-]. split; [done|]. by exists a.
Qed.

(** The array that growing to [n] elements makes of the first [k] of [a]. *)
Definition grown (a : list T) (k : Z) (d : list T) : Prop :=
  forall j, (j < length d)%nat -> d !! j = if (j <? Z.to_nat k)%nat then a !! j else Some T_default.

Lemma resize_inv h v n v' h' :
  heap_wf h -> vector_ok h v -> size v <= n -> data v' <> 0 -> resize h v n = Ok (v', h') ->
  kmallocFits n = true /\ v' = mkVector n (size v) (nextArray h) /\
  exists d, h' = mkHeap (<[nextArray h := d]> (delete (data v) (arrays h))) (nextArray h + 1) /\
    Z.of_nat (length d) = n /\ grown (default [] (arrays h !! data v)) (size v) d.
Proof.
  intros [Hn Hwf] (Hs & _ & H0 & Hd) Hle Hnz. unfold resize, newArray. destruct (kmallocFits n) eqn:Hfit;
    [|destruct (negb _); cbn [obind]; intros E; inv_ok; by cbn in Hnz].
  set (q := nextArray h) in *. set (fresh := replicate (Z.to_nat n) T_default).
  assert (Hq : arrays h !! q = None).
  { destruct (arrays h !! q) eqn:E; [|done]. destruct (Hwf q ltac:(by eexists)). unfold q in *. lia. }
  assert (Hf : forall j, (j < length fresh)%nat -> fresh !! j = Some T_default).
  { intros j Hj. unfold fresh in *. rewrite length_replicate in Hj. by apply lookup_replicate_2. }
  destruct (Z.eqb_spec (data v) 0) as [Hz|Hz]; cbn [negb obind].
  - intros E. inv_ok. split; [done|]. split; [done|]. exists fresh. split; [|split].
    + rewrite delete_id; [done|]. rewrite Hz. destruct (arrays h !! 0) eqn:E; [|done]. destruct (Hwf 0 ltac:(by eexists)). lia.
    + unfold fresh. rewrite length_replicate. lia.
    + intros j Hj. specialize (H0 Hz). replace (Z.to_nat (size v)) with 0%nat by lia. by apply Hf.
  - destruct (Hd Hz) as (a & Ha & Hla). rewrite Ha. cbn [default].
    assert (Hqd : data v <> q) by congruence.
    destruct (moveElements_spec (Z.to_nat (size v)) (mkHeap (<[q := fresh]> (arrays h)) (q + 1)) q (data v) 0 a fresh)
      as (d' & E & Hl & Hj); [done|cbn; by rewrite lookup_insert_ne|cbn; by rewrite lookup_insert_eq|lia| |].
    { unfold fresh. rewrite length_replicate. lia. }
    change (Z.of_nat 0) with 0 in E. rewrite E. cbn [obind arrays nextArray]. unfold deleteArray. cbn [arrays nextArray].
    rewrite insert_insert_eq, lookup_insert_ne, Ha by done. cbn [obind]. intros E2. inv_ok.
    split; [done|]. split; [done|]. exists d'. rewrite delete_insert_ne by done. split; [done|]. split.
    + rewrite Hl. unfold fresh. rewrite length_replicate. lia.
    + intros j Hjl. rewrite Hj. cbn [Nat.leb andb Nat.add]. destruct (_ <? _)%nat; [done|]. apply Hf. lia.
Qed.

(** Either the element was stored in the vector's array, or the array was
    moved to a new one. *)
Lemma push_back_inv h v x v' h' :
  (forall n, kmallocFits n = true -> n < 2 ^ 60) ->
  heap_wf h -> vector_ok h v -> push_back h v x = Ok (v', h') ->
  (size v < capacity v /\ v' = mkVector (capacity v) (size v + 1) (data v) /\
    exists a, arrays h !! data v = Some a /\
      h' = mkHeap (<[data v := <[Z.to_nat (size v) := x]> a]> (arrays h)) (nextArray h)) \/
  (exists n d, size v < n < 2 ^ 60 /\ v' = mkVector n (size v + 1) (nextArray h) /\
    h' = mkHeap (<[nextArray h := <[Z.to_nat (size v) := x]> d]> (delete (data v) (arrays h))) (nextArray h + 1) /\
    Z.of_nat (length d) = n /\ grown (default [] (arrays h !! data v)) (size v) d).
Proof.
  intros Hfits Hwf Hv E. pose proof Hv as (Hs & Hc & H0 & Hd). change (2 ^ 60) with 1152921504606846976 in *.
  unfold push_back in E. apply obind_ok in E as ([v1 h1] & E1 & E2). apply obind_ok in E2 as (h2 & E2 & E3). inv_ok.
  apply storeElement_inv in E2 as (_ & a & Ha & Hlt & ->).
  destruct (Z.leb_spec (capacity v) (size v)) as [Hfull|Hroom].
  - right. set (n := if capacity v <? MINIMUM_VECTOR_SIZE then MINIMUM_VECTOR_SIZE else u64 (capacity v * 2)).
    assert (En : resize h v n = Ok (v1, h1)) by (unfold n; by destruct (capacity v <? MINIMUM_VECTOR_SIZE)).
    assert (Hn : size v < n).
    { unfold n, MINIMUM_VECTOR_SIZE. destruct (Z.ltb_spec (capacity v) 16); [lia|]. rewrite u64_small by lia. lia. }
    assert (Hnz : data v1 <> 0).
    { intros Hz. rewrite Hz in Ha. unfold resize, newArray in En. destruct Hwf as [Hpos Hwf].
      destruct (arrays h !! 0) as [b|] eqn:E0; [destruct (Hwf 0 ltac:(by eexists)); lia|].
      destruct (kmallocFits n); [apply obind_ok in En as (h2 & _ & En); inv_ok; cbn in Hz; lia|].
      destruct (negb _); [|cbn [obind] in En; inv_ok; congruence].
      apply obind_ok in En as (h2 & En & En2). injection En2 as <- <-. apply obind_ok in En as (h3 & En3 & En).
      unfold deleteArray in En. destruct (arrays h3 !! data v) eqn:Eq; [|done]. inv_ok. cbn [arrays] in Ha.
      assert (size v = 0).
      { destruct (Z.to_nat (size v)) as [|k] eqn:Ek; [lia|]. cbn [moveElements] in En3.
        apply obind_ok in En3 as (y & _ & En3). apply obind_ok in En3 as (h4 & En4 & _).
        apply storeElement_inv in En4 as (_ & b & Hb & _). congruence. }
      replace (Z.to_nat (size v)) with 0%nat in En3 by lia. cbn in En3. inv_ok. apply lookup_delete_Some in Ha as [_ Ha]. congruence. }
    destruct (resize_inv h v n v1 h1 Hwf Hv ltac:(lia) Hnz En) as (Hfit & -> & d & -> & Hl & Hg).
    specialize (Hfits n Hfit). cbn [size capacity data arrays nextArray] in *.
    rewrite lookup_insert_eq in Ha. injection Ha as <-. rewrite insert_insert_eq, u64_small by lia.
    exists n, d. by split.
  - left. inv_ok. split; [done|]. rewrite u64_small by lia. split; [done|]. by exists a.
Qed.

(** The same as the client of an explicit heap sees it: what is where. *)
Record grew (h h' : Heap) (v v' : Vector) (x : T) : Prop := {
  gr_wf : heap_wf h';
  gr_vector : vector_ok h' v';
  gr_size : size v' = size v + 1;
  gr_next : nextArray h <= nextArray h';
  gr_array : data v' = data v \/ (data v' = nextArray h /\ arrays h' !! data v = None);
  gr_other b : b <> data v -> b <> data v' -> arrays h' !! b = arrays h !! b;
  gr_load i y : loadElement h' (data v') i = Ok y ->
    (i = size v /\ y = x) \/ (i <> size v /\ data v' = data v /\ loadElement h (data v) i = Ok y) \/
    (i < size v /\ loadElement h (data v) i = Ok y) \/ (size v < i /\ data v' <> data v /\ y = T_default);
  gr_kept i y : i < size v -> loadElement h (data v) i = Ok y -> loadElement h' (data v') i = Ok y
}.

Lemma push_back_grew h v x v' h' :
  (forall n, kmallocFits n = true -> n < 2 ^ 60) ->
  heap_wf h -> vector_ok h v -> push_back h v x = Ok (v', h') -> grew h h' v v' x.
Proof.
  intros Hfits Hwf Hv E. pose proof Hv as (Hs & Hc & H0 & Hd). pose proof Hwf as [Hpos Hrange].
  destruct (push_back_inv h v x v' h' Hfits Hwf Hv E) as [(Hroom & -> & a & Ha & ->)|(n & d & Hn & -> & -> & Hl & Hg)];
    [assert (Hz : data v <> 0) by (intros Hz; specialize (H0 Hz); lia)|];
    [destruct (Hd Hz) as (a' & Ha' & Hla); rewrite Ha in Ha'; injection Ha' as <-|].
  - constructor; cbn [size data capacity arrays nextArray]; try done; try lia.
    + split; [done|]. cbn. intros b Hb. apply Hrange. destruct (decide (b = data v)) as [->|Hne]; [eauto|].
      by rewrite lookup_insert_ne in Hb.
    + split; [cbn; lia|]. split; [done|]. split; [done|]. intros _. cbn. eexists. rewrite lookup_insert_eq. split; [done|].
      by rewrite length_insert.
    + intros b Hb _. by rewrite lookup_insert_ne.
    + intros i y (Hi & l & Hl & Hy)%loadElement_inv. cbn [arrays] in Hl. rewrite lookup_insert_eq in Hl. injection Hl as <-.
      destruct (decide (i = size v)) as [->|Hne]; [left; rewrite list_lookup_insert_eq in Hy by lia; by injection Hy|].
      right. left. split; [done|]. split; [done|]. rewrite list_lookup_insert_ne in Hy by lia.
      pose proof (loadElement_ok h (data v) (Z.to_nat i) a y Ha Hy) as El. by rewrite Z2Nat.id in El.
    + intros i y Hi (Hi0 & l & Hl & Hy)%loadElement_inv. rewrite Ha in Hl. injection Hl as <-.
      pose proof (loadElement_ok (mkHeap (<[data v:=<[Z.to_nat (size v):=x]> a]> (arrays h)) (nextArray h)) (data v) (Z.to_nat i) _ y
        (lookup_insert_eq _ _ _)) as El. rewrite Z2Nat.id in El by done. apply El. by rewrite list_lookup_insert_ne by lia.
  - assert (Hne : data v <> nextArray h).
    { intros Hne. destruct (decide (data v = 0)); [lia|]. destruct (Hd ltac:(done)) as (b & Hb & _).
      specialize (Hrange (data v) ltac:(by eexists)). lia. }
    constructor; cbn [size data capacity arrays nextArray]; try done; try lia.
    + apply heap_wf_insert; [lia|]. intros b Hb. destruct (decide (b = data v)) as [->|Hbv]; [by rewrite lookup_delete_eq in Hb; destruct Hb|].
      rewrite lookup_delete_ne in Hb by done. specialize (Hrange b Hb). lia.
    + split; [cbn; lia|]. split; [cbn; lia|]. split; [cbn; lia|]. intros _. cbn. eexists. rewrite lookup_insert_eq. split; [done|].
      by rewrite length_insert.
    + right. split; [done|]. by rewrite lookup_insert_ne, lookup_delete_eq by done.
    + intros b Hb1 Hb2. by rewrite lookup_insert_ne, lookup_delete_ne by done.
    + intros i y (Hi & l & Hll & Hy)%loadElement_inv. cbn [arrays] in Hll. rewrite lookup_insert_eq in Hll. injection Hll as <-.
      destruct (decide (i = size v)) as [->|Hiv]; [left; rewrite list_lookup_insert_eq in Hy by lia; by injection Hy|].
      right. right. rewrite list_lookup_insert_ne in Hy by lia.
      rewrite Hg in Hy by (by eapply lookup_lt_Some). destruct (Nat.ltb_spec (Z.to_nat i) (Z.to_nat (size v))); [left|right].
      * split; [lia|]. destruct (arrays h !! data v) as [a|] eqn:Ha; [|done]. cbn in Hy.
        pose proof (loadElement_ok h (data v) (Z.to_nat i) a y Ha Hy) as El. by rewrite Z2Nat.id in El.
      * split; [lia|]. split; [done|]. by injection Hy.
    + intros i y Hi (Hi0 & l & Hll & Hy)%loadElement_inv. rewrite Hll in Hg. cbn in Hg.
      pose proof (loadElement_ok (mkHeap (<[nextArray h:=<[Z.to_nat (size v):=x]> d]> (delete (data v) (arrays h))) (nextArray h + 1))
        (nextArray h) (Z.to_nat i) _ y (lookup_insert_eq _ _ _)) as El. rewrite Z2Nat.id in El by done. apply El.
      rewrite list_lookup_insert_ne by lia. rewrite Hg by lia. by destruct (Nat.ltb_spec (Z.to_nat i) (Z.to_nat (size v))); [|lia].
Qed.

(** ** Properties *)

(** [C13] A vector behaves as a list: every sequence of [push_back],
    [pop_back] and reads and writes through [operator[]] gives the results the
    same sequence gives on a list (default values for reads out of range,
    ignored writes, a fault for popping the empty vector), and leaves no
    array behind and touches no other: the heap is always the untouched
    [others] plus at most the vector's own array. *)
Theorem vector_refines_list others os h v l :
  (forall n, kmallocFits n = true) -> represents others h v l ->
  Z.of_nat (length l) + Z.of_nat (length os) < 2 ^ 60 ->
  match specOps l os with
  | Ok (rs, l') => exists v' h', runOps h v os = Ok (rs, (v', h')) /\ represents others h' v' l'
  | _ => runOps h v os = Fault
  end.
Proof.
  intros Hfit. revert h v l. induction os as [|o os IH]; intros h v l Hr Hlen; cbn [specOps runOps].
  - by exists v, h.
  - cbn [length] in Hlen. pose proof (runOp_spec others h v l o Hfit Hr ltac:(lia)) as Ho.
    destruct (specOp l o) as [[r l1]| | |] eqn:Eo; cbn [obind]; try (by rewrite Ho).
    destruct Ho as (v1 & h1 & E & Hr1 & Hl1). rewrite E. cbn [obind].
    specialize (IH h1 v1 l1 Hr1 ltac:(lia)).
    destruct (specOps l1 os) as [[rs l2]| | |]; cbn [obind]; try (by rewrite IH).
    destruct IH as (v2 & h2 & -> & Hr2). cbn [obind]. by exists v2, h2.
Qed.
End Vector.

Lemma represents_init {T} : represents (T := T) ∅ (mkHeap ∅ 1) Vector_init [].
Proof.
  constructor; cbn; [|done|lia|done|done].
  split; cbn; [lia|]. intros p [x Hx]. by rewrite lookup_empty in Hx.
Qed.

Definition manyOps : list (Op (T := Z)) :=
  (Push <$> seqZ 0 40) ++ replicate 25 Pop ++ [Get 3; Set_ 3 7; Get 3; Get 99] ++ replicate 15 Pop.

Lemma vector_refines_list_witness :
  exists v' h', runOps 0 (fun _ => true) (mkHeap ∅ 1) Vector_init manyOps
    = Ok (rev (seqZ 15 25) ++ [3; 7; 0] ++ rev (<[3%nat := 7]> (seqZ 0 15)), (v', h')) /\ arrays h' = ∅.
Proof.
  pose proof (vector_refines_list 0 (fun _ => true) ∅ manyOps (mkHeap ∅ 1) Vector_init []) as H.
  assert (E : specOps 0 [] manyOps = Ok (rev (seqZ 15 25) ++ [3; 7; 0] ++ rev (<[3%nat := 7]> (seqZ 0 15)), []))
    by (vm_compute; reflexivity).
  rewrite E in H. destruct H as (v' & h' & Hrun & Hr).
  - reflexivity.
  - apply represents_init.
  - vm_compute. reflexivity.
  - exists v', h'. split; [exact Hrun|].
    assert (Hrun2 : runOps 0 (fun _ => true) (mkHeap ∅ 1) Vector_init manyOps
      = Ok (rev (seqZ 15 25) ++ [3; 7; 0] ++ rev (<[3%nat := 7]> (seqZ 0 15)), (mkVector 0 0 0, mkHeap ∅ 5)))
      by (vm_compute; reflexivity).
    rewrite Hrun2 in Hrun. injection Hrun as <- <-. reflexivity.
Defined.
