(* ===== verification/TaskQueue.v ===== *)
(** * Tasks and task queues ([controlBlock.h], [registers.h], [taskQueue.h])

    Control blocks live in a store by address; a [Queue] is intrusive: its
    links are the [next] fields of the control blocks, which every queue of
    the kernel shares. *)

From Stdlib Require Import ZArith Lia.
From stdpp Require Import base tactics numbers gmap list.
From S2P Require Import Prelude Spinlock.

Open Scope Z_scope.

(** ** Control blocks *)

Record Registers := mkRegisters {
  rax : Z; rcx : Z; rdx : Z; rbx : Z; rsp : Z; rbp : Z; rsi : Z; rdi : Z;
  r8 : Z; r9 : Z; r10 : Z; r11 : Z; r12 : Z; r13 : Z; r14 : Z; r15 : Z;
  cr3 : Z; rip : Z; rflags : Z
}.

Definition Registers_zero : Registers := mkRegisters 0 0 0 0 0 0 0 0 0 0 0 0 0 0 0 0 0 0 0.

Inductive State := RUNNING | RUNNABLE | BLOCKING.

#[export] Instance State_eq_dec : EqDecision State.
Proof. solve_decision. Defined.

Record ControlBlock := mkControlBlock {
  registers : Registers;
  originalStackPointer : Z;
  runLock : Spinlock;
  state : State;
  timeSlice : Z;
  priority : Z;
  next : Z
}.

(** [new task::ControlBlock()]: zero-initialised. *)
Definition ControlBlock_new : ControlBlock :=
  mkControlBlock Registers_zero 0 Spinlock_init RUNNING 0 0 0.

Definition set_registers (b : ControlBlock) (r : Registers) : ControlBlock :=
  mkControlBlock r (originalStackPointer b) (runLock b) (state b) (timeSlice b) (priority b) (next b).
Definition set_runLock (b : ControlBlock) (l : Spinlock) : ControlBlock :=
  mkControlBlock (registers b) (originalStackPointer b) l (state b) (timeSlice b) (priority b) (next b).
Definition set_state (b : ControlBlock) (s : State) : ControlBlock :=
  mkControlBlock (registers b) (originalStackPointer b) (runLock b) s (timeSlice b) (priority b) (next b).
Definition set_timeSlice (b : ControlBlock) (t : Z) : ControlBlock :=
  mkControlBlock (registers b) (originalStackPointer b) (runLock b) (state b) t (priority b) (next b).
Definition set_next (b : ControlBlock) (n : Z) : ControlBlock :=
  mkControlBlock (registers b) (originalStackPointer b) (runLock b) (state b) (timeSlice b) (priority b) n.

(** The store: [delete]d and never allocated addresses are absent; null is
    never present. *)
Abbreviation Store := (gmap Z ControlBlock).

Definition getBlock (cbs : Store) (p : Z) : outcome ControlBlock := of_option (cbs !! p).

(** [p->field = ...]. *)
Definition updBlock (cbs : Store) (p : Z) (f : ControlBlock -> ControlBlock) : outcome Store :=
  let! b := getBlock cbs p in Ok (<[p := f b]> cbs).

(** ** task::Queue *)

Record Queue := mkQueue { q_lock : Spinlock; head : Z; tail : Z; q_size : Z }.

Definition Queue_init : Queue := mkQueue Spinlock_init 0 0 0.

(** [Queue(Queue&&)]: the new queue and what is left of [other]. *)
Definition Queue_move (other : Queue) : Queue * Queue :=
  let '(l, l') := Spinlock_move (q_lock other) in
  (mkQueue l (head other) (tail other) (q_size other), mkQueue l' 0 0 0).

(** A method body between [lock.acquire()] and [lock.release()]. *)
Definition withQueue {A} (c : Cpu) (q : Queue) (f : Queue -> outcome (A * Queue)) : outcome (A * (Cpu * Queue)) :=
  let! '(c, l) := acquire c (q_lock q) in
  let! '(r, q) := f (mkQueue l (head q) (tail q) (q_size q)) in
  let '(c, l) := release c (q_lock q) in
  Ok (r, (c, mkQueue l (head q) (tail q) (q_size q))).

Definition push (c : Cpu) (cbs : Store) (q : Queue) (value : Z) : outcome (Store * (Cpu * Queue)) :=
  withQueue c q (fun q =>
    let! '(cbs, h, t) :=
      (if head q =? 0 then Ok (cbs, value, value)
       else
         let! cbs := updBlock cbs (tail q) (fun b => set_next b value) in
         Ok (cbs, head q, value)) in
    Ok (cbs, mkQueue (q_lock q) h t (u32 (q_size q + 1)))).

Definition push_front (c : Cpu) (cbs : Store) (q : Queue) (value : Z) : outcome (Store * (Cpu * Queue)) :=
  withQueue c q (fun q =>
    let! '(cbs, h, t) :=
      (if head q =? 0 then Ok (cbs, value, value)
       else
         let! cbs := updBlock cbs value (fun b => set_next b (head q)) in
         Ok (cbs, value, tail q)) in
    Ok (cbs, mkQueue (q_lock q) h t (u32 (q_size q + 1)))).

Definition pop (c : Cpu) (cbs : Store) (q : Queue) : outcome (Z * (Cpu * Queue)) :=
  withQueue c q (fun q =>
    let result := head q in
    if negb (head q =? 0) then
      if head q =? tail q then Ok (result, mkQueue (q_lock q) 0 0 (u32 (q_size q - 1)))
      else
        let! b := getBlock cbs (head q) in
        Ok (result, mkQueue (q_lock q) (next b) (tail q) (u32 (q_size q - 1)))
    else Ok (result, q)).

Definition getSize (q : Queue) : Z := q_size q.

(** ** Specification *)

(** The queue holds the tasks [l], in order. The [next] field of the last
    task is not constrained: [pop] never reads it. *)
Record holds (cbs : Store) (q : Queue) (l : list Z) : Prop := {
  qh_lock : locked (q_lock q) = false;
  qh_head : head q = default 0 (list.head l);
  qh_tail : tail q = default 0 (last l);
  qh_size : q_size q = u32 (Z.of_nat (length l));
  qh_null : 0 ∉ l;
  qh_blocks : forall x, x ∈ l -> is_Some (cbs !! x);
  qh_links : forall i x y, l !! i = Some x -> l !! S i = Some y ->
    exists b, cbs !! x = Some b /\ next b = y;
  qh_nodup : NoDup l
}.

(** The stores differ at most in links, and only in those of the tasks [l]. *)
Definition onlyLinks (cbs cbs' : Store) (l : list Z) : Prop :=
  (forall x, x ∉ l -> cbs' !! x = cbs !! x) /\
  (forall x, cbs' !! x = cbs !! x \/ exists b n, cbs !! x = Some b /\ cbs' !! x = Some (set_next b n)).

(** A client of one queue, and the same client on a list. *)
Inductive QueueOp := QPush (value : Z) | QPushFront (value : Z) | QPop | QSize.

Definition runQueueOp (c : Cpu) (cbs : Store) (q : Queue) (o : QueueOp) : outcome (option Z * (Store * (Cpu * Queue))) :=
  match o with
  | QPush value => let! s := push c cbs q value in Ok (None, s)
  | QPushFront value => let! s := push_front c cbs q value in Ok (None, s)
  | QPop => let! '(r, s) := pop c cbs q in Ok (Some r, (cbs, s))
  | QSize => Ok (Some (getSize q), (cbs, (c, q)))
  end.

Fixpoint runQueueOps (c : Cpu) (cbs : Store) (q : Queue) (os : list QueueOp) : outcome (list (option Z) * (Store * (Cpu * Queue))) :=
  match os with
  | [] => Ok ([], (cbs, (c, q)))
  | o :: os =>
      let! '(r, (cbs, (c, q))) := runQueueOp c cbs q o in
      let! '(rs, s) := runQueueOps c cbs q os in Ok (r :: rs, s)
  end.

(** [None]: the task pushed is null, not a control block or already queued. *)
Definition specQueueOp (tasks : list Z) (l : list Z) (o : QueueOp) : option (option Z * list Z) :=
  match o with
  | QPush value => if decide (value ∈ tasks /\ value ∉ l) then Some (None, l ++ [value]) else None
  | QPushFront value => if decide (value ∈ tasks /\ value ∉ l) then Some (None, value :: l) else None
  | QPop => Some (Some (default 0 (list.head l)), list.tail l)
  | QSize => Some (Some (u32 (Z.of_nat (length l))), l)
  end.

Fixpoint specQueueOps (tasks : list Z) (l : list Z) (os : list QueueOp) : option (list (option Z) * list Z) :=
  match os with
  | [] => Some ([], l)
  | o :: os =>
      match specQueueOp tasks l o with
      | Some (r, l) =>
          match specQueueOps tasks l os with Some (rs, l) => Some (r :: rs, l) | None => None end
      | None => None
      end
  end.

(** ** Frames *)

Lemma onlyLinks_refl cbs l : onlyLinks cbs cbs l.
Proof. split; auto. Qed.

Lemma onlyLinks_one cbs x b n l :
  cbs !! x = Some b -> x ∈ l -> onlyLinks cbs (<[x := set_next b n]> cbs) l.
Proof.
  intros Hb Hx. split.
  - intros y Hy. by rewrite lookup_insert_ne by (intros ->; done).
  - intros y. destruct (decide (y = x)) as [->|Hne]; [right; exists b, n; by rewrite lookup_insert_eq|].
    left. by rewrite lookup_insert_ne.
Qed.

Lemma onlyLinks_some cbs cbs' l x : onlyLinks cbs cbs' l -> is_Some (cbs !! x) -> is_Some (cbs' !! x).
Proof. intros [_ H] Hx. destruct (H x) as [->|(b & n & _ & ->)]; [done|eauto]. Qed.

(** Updates that keep the links of the queue's own tasks keep the queue. *)
Lemma holds_links cbs cbs' q l :
  holds cbs q l -> (forall x, x ∈ l -> next <$> cbs' !! x = next <$> cbs !! x) -> holds cbs' q l.
Proof.
  intros [H1 H2 H3 H4 H5 H6 H7 H8] H. constructor; try done.
  - intros x Hx. specialize (H x Hx). destruct (H6 x Hx) as [b Hb]. rewrite Hb in H.
    destruct (cbs' !! x) eqn:E; [eauto|done].
  - intros i x y Hx Hy. destruct (H7 i x y Hx Hy) as (b & Hb & Hn).
    specialize (H x ltac:(by eapply list_elem_of_lookup_2)). rewrite Hb in H.
    destruct (cbs' !! x) as [b'|] eqn:E; [|done]. exists b'. split; [done|]. cbn in H. congruence.
Qed.

Lemma holds_onlyLinks cbs cbs' q l l' :
  holds cbs q l -> onlyLinks cbs cbs' l' -> (forall x, x ∈ l -> x ∈ l' -> False) -> holds cbs' q l.
Proof.
  intros H [H1 _] Hd. apply (holds_links cbs); [done|]. intros x Hx. by rewrite H1 by (intros ?; by apply (Hd x)).
Qed.

(** A change of one task that leaves its link. *)
Lemma holds_update cbs q l x b b' :
  holds cbs q l -> cbs !! x = Some b -> next b' = next b -> holds (<[x := b']> cbs) q l.
Proof.
  intros H Hb Hn. apply (holds_links cbs); [done|]. intros y _.
  destruct (decide (y = x)) as [->|Hne]; [rewrite lookup_insert_eq, Hb; cbn; congruence|].
  by rewrite lookup_insert_ne.
Qed.

Lemma holds_head_null cbs q l : holds cbs q l -> (head q =? 0) = match l with [] => true | _ => false end.
Proof.
  intros H. rewrite (qh_head _ _ _ H). destruct l as [|x l]; [done|]. cbn. apply Z.eqb_neq.
  intros ->. apply (qh_null _ _ _ H). by left.
Qed.

(** ** Operations *)

Lemma withQueue_ok {A} c q (f : Queue -> outcome (A * Queue)) r q' :
  locked (q_lock q) = false ->
  f (mkQueue (mkSpinlock 1 (localIrqState c)) (head q) (tail q) (q_size q)) = Ok (r, q') ->
  q_lock q' = mkSpinlock 1 (localIrqState c) ->
  withQueue c q f = Ok (r, (c, mkQueue (mkSpinlock 0 (localIrqState c)) (head q') (tail q') (q_size q'))).
Proof.
  intros Hl Hf Hq. unfold withQueue. rewrite acquire_free by done. cbn [obind]. rewrite Hf. cbn [obind].
  by rewrite Hq, release_acquire.
Qed.

Lemma u32_add_l a b : u32 (u32 a + b) = u32 (a + b).
Proof. apply (wrap_add_l 32). Qed.

Lemma push_spec c cbs q l value :
  holds cbs q l -> value ∉ l -> value <> 0 -> is_Some (cbs !! value) ->
  exists cbs' q', push c cbs q value = Ok (cbs', (c, q')) /\ holds cbs' q' (l ++ [value]) /\ onlyLinks cbs cbs' l.
Proof.
  intros H Hv Hv0 Hs. pose proof (holds_head_null _ _ _ H) as Hnull. pose proof H as [H1 H2 H3 H4 H5 H6 H7 H8].
  assert (Hsize : u32 (q_size q + 1) = u32 (Z.of_nat (length (l ++ [value])))).
  { rewrite H4, u32_add_l, length_app. f_equal. cbn. lia. }
  destruct (last l) as [t|] eqn:El.
  - assert (Ht : t ∈ l) by by apply last_Some_elem_of. destruct (H6 t Ht) as [b Hb].
    assert (Hl : (head q =? 0) = false) by (rewrite Hnull; by destruct l).
    eexists (<[t := set_next b value]> cbs), _. unfold push. cbn [default] in H3. cbn in H3.
    erewrite withQueue_ok; [|done| |].
    2: { cbn [head tail q_size]. rewrite Hl. unfold updBlock, getBlock. rewrite H3, Hb. cbn [of_option obind]. done. }
    2: { done. }
    cbn [head tail q_size]. split; [done|]. split; [|by apply onlyLinks_one].
    constructor; cbn [q_lock head tail q_size]; [done| |by rewrite last_snoc|done| | | |].
    + rewrite H2. by destruct l.
    + rewrite elem_of_app, list_elem_of_singleton. intros [?|?]; [done|by subst].
    + intros x Hx. destruct (decide (x = t)) as [->|Hne]; [rewrite lookup_insert_eq; eauto|].
      rewrite lookup_insert_ne by done. apply elem_of_app in Hx as [Hx|Hx]; [by apply H6|].
      by apply list_elem_of_singleton in Hx as ->.
    + intros i x y Hx Hy. rewrite last_lookup in El.
      assert (Hi : (S i < length (l ++ [value]))%nat) by by eapply lookup_lt_Some.
      rewrite length_app in Hi. cbn in Hi. rewrite lookup_app_l in Hx by lia.
      destruct (decide (S i = length l)) as [Hil|Hil].
      * rewrite lookup_app_r, Hil, Nat.sub_diag in Hy by lia. injection Hy as <-.
        replace (pred (length l)) with i in El by lia. assert (x = t) as -> by congruence.
        exists (set_next b value). by rewrite lookup_insert_eq.
      * rewrite lookup_app_l in Hy by lia. destruct (H7 i x y Hx Hy) as (b' & Hb' & Hn).
        exists b'. rewrite lookup_insert_ne; [done|]. intros <-.
        assert (i = pred (length l)) by (by eapply (NoDup_lookup l)). lia.
    + apply NoDup_app. split; [done|]. split; [|by apply NoDup_singleton].
      intros x Hx Hx'. apply list_elem_of_singleton in Hx' as ->. done.
  - apply last_None in El as ->. cbn [app]. exists cbs.
    eexists. unfold push. erewrite withQueue_ok; [|done| |].
    2: { cbn [head tail q_size]. rewrite Hnull. cbn [obind]. done. }
    2: { done. }
    split; [done|]. split; [|apply onlyLinks_refl].
    constructor; cbn [q_lock head tail q_size]; [done|done|done|done| | | |apply NoDup_singleton].
    + rewrite list_elem_of_singleton. congruence.
    + intros x Hx. by apply list_elem_of_singleton in Hx as ->.
    + intros [|i] x y Hx Hy; [done|by destruct i].
Qed.

Lemma push_front_spec c cbs q l value :
  holds cbs q l -> value ∉ l -> value <> 0 -> is_Some (cbs !! value) ->
  exists cbs' q', push_front c cbs q value = Ok (cbs', (c, q')) /\ holds cbs' q' (value :: l) /\
    onlyLinks cbs cbs' [value].
Proof.
  intros H Hv Hv0 [b Hb]. pose proof (holds_head_null _ _ _ H) as Hnull. pose proof H as [H1 H2 H3 H4 H5 H6 H7 H8].
  assert (Hsize : u32 (q_size q + 1) = u32 (Z.of_nat (length (value :: l)))).
  { rewrite H4, u32_add_l. f_equal. cbn [length]. lia. }
  destruct l as [|h l].
  - exists cbs. eexists. unfold push_front. erewrite withQueue_ok; [|done| |].
    2: { cbn [head tail q_size]. rewrite Hnull. cbn [obind]. done. }
    2: { done. }
    split; [done|]. split; [|apply onlyLinks_refl].
    constructor; cbn [q_lock head tail q_size]; [done|done|done|done| | | |apply NoDup_singleton].
    + rewrite list_elem_of_singleton. congruence.
    + intros x Hx. apply list_elem_of_singleton in Hx as ->. eauto.
    + intros [|i] x y Hx Hy; [done|by destruct i].
  - exists (<[value := set_next b (head q)]> cbs). eexists. unfold push_front. erewrite withQueue_ok; [|done| |].
    2: { cbn [head tail q_size]. rewrite Hnull. unfold updBlock, getBlock. rewrite Hb. cbn [of_option obind]. done. }
    2: { done. }
    split; [done|]. split; [|apply onlyLinks_one; [done|by left]].
    constructor; cbn [q_lock head tail q_size]; [done|done| |done| | | |].
    + rewrite H3. by destruct l.
    + intros [Heq|Hin]%elem_of_cons; [by apply Hv0|done].
    + intros x Hx. destruct (decide (x = value)) as [->|Hne]; [rewrite lookup_insert_eq; eauto|].
      rewrite lookup_insert_ne by done. apply elem_of_cons in Hx as [->|Hx]; [done|by apply H6].
    + intros [|i] x y Hx Hy.
      * injection Hx as <-. injection Hy as <-. exists (set_next b (head q)). rewrite lookup_insert_eq.
        split; [done|]. by rewrite H2.
      * cbn in Hx, Hy. destruct (H7 i x y Hx Hy) as (b' & Hb' & Hn). exists b'.
        rewrite lookup_insert_ne; [done|]. intros <-. apply Hv. by eapply list_elem_of_lookup_2.
    + by constructor.
Qed.

Lemma pop_spec c cbs q l :
  holds cbs q l ->
  exists q', pop c cbs q = Ok (default 0 (list.head l), (c, q')) /\ holds cbs q' (list.tail l).
Proof.
  intros H. pose proof (holds_head_null _ _ _ H) as Hnull. pose proof H as [H1 H2 H3 H4 H5 H6 H7 H8].
  destruct l as [|x l].
  - eexists. unfold pop. erewrite withQueue_ok; [|done| |].
    2: { cbn [head tail q_size]. rewrite Hnull. cbn [negb]. done. }
    2: { done. }
    cbn [head tail q_size]. rewrite H2. split; [done|]. by constructor.
  - cbn in H2.
    assert (Hsize : u32 (q_size q - 1) = u32 (Z.of_nat (length l))).
    { rewrite H4. replace (u32 (Z.of_nat (length (x :: l))) - 1) with (u32 (Z.of_nat (length (x :: l))) + -1) by lia.
      rewrite u32_add_l. f_equal. cbn [length]. lia. }
    apply NoDup_cons in H8 as [Hx Hnd].
    destruct l as [|y l].
    + eexists. unfold pop. erewrite withQueue_ok; [|done| |].
      2: { cbn [head tail q_size]. rewrite Hnull. cbn [negb]. rewrite H2, H3. cbn. rewrite Z.eqb_refl. done. }
      2: { done. }
      split; [done|]. constructor; cbn [q_lock head tail q_size list.tail]; [done|done|done|done|by intros ?%elem_of_nil|by intros ? ?%elem_of_nil|done|constructor].
    + assert (Hne : x <> default 0 (last (x :: y :: l))).
      { rewrite last_cons_cons. destruct (last (y :: l)) as [t|] eqn:E; [|by apply last_None in E].
        cbn. intros ->. apply Hx. by apply last_Some_elem_of. }
      destruct (H7 0%nat x y eq_refl eq_refl) as (b & Hb & Hn).
      eexists. unfold pop. erewrite withQueue_ok; [|done| |].
      2: { cbn [head tail q_size]. rewrite Hnull, H2, H3. cbn [negb]. rewrite (proj2 (Z.eqb_neq _ _) Hne).
           unfold getBlock. rewrite Hb. cbn [of_option obind]. done. }
      2: { done. }
      cbn [head tail q_size list.tail]. split; [done|].
      constructor; cbn [q_lock head tail q_size]; [done|by rewrite Hn| |done| | | |done].
      * by rewrite last_cons_cons.
      * intros Hin. apply H5. by right.
      * intros z Hz. apply H6. by right.
      * intros i z w Hz Hw. by apply (H7 (S i)).
Qed.

(** ** Properties *)

(** [C16] The intrusive queue is a list of tasks: any sequence of [push],
    [push_front], [pop] and [getSize] by clients that never queue a task twice
    returns what it returns on a list (null from an empty queue, the length
    modulo 2^32), and changes nothing of the control blocks but their links.
    The stale links [pop] leaves behind are harmless. *)
Theorem queue_refines_list tasks os c cbs q l rs l' :
  0 ∉ tasks -> (forall x, x ∈ tasks -> is_Some (cbs !! x)) -> holds cbs q l ->
  specQueueOps tasks l os = Some (rs, l') ->
  exists cbs' q', runQueueOps c cbs q os = Ok (rs, (cbs', (c, q'))) /\ holds cbs' q' l' /\
    forall x, (fun b => set_next b 0) <$> cbs' !! x = (fun b => set_next b 0) <$> cbs !! x.
Proof.
  intros H0. revert cbs q l rs. induction os as [|o os IH]; intros cbs q l rs Ht Hq Hspec; cbn [specQueueOps runQueueOps] in *.
  - simplify_eq. by exists cbs, q.
  - destruct (specQueueOp tasks l o) as [[r l1]|] eqn:Eo; [|done].
    destruct (specQueueOps tasks l1 os) as [[rs' l2]|] eqn:Eos; [|done]. simplify_eq.
    assert (Hstep : exists cbs1 q1, runQueueOp c cbs q o = Ok (r, (cbs1, (c, q1))) /\ holds cbs1 q1 l1 /\
      exists lx, onlyLinks cbs cbs1 lx).
    { destruct o as [v|v| |]; cbn [specQueueOp runQueueOp] in *.
      - case_decide as Hd; [|done]. destruct Hd as [Hv1 Hv2]. simplify_eq.
        destruct (push_spec c cbs q l v Hq Hv2) as (cbs1 & q1 & E & Hh & Ho); [by intros ->|by apply Ht|].
        rewrite E. cbn [obind]. eauto 10.
      - case_decide as Hd; [|done]. destruct Hd as [Hv1 Hv2]. simplify_eq.
        destruct (push_front_spec c cbs q l v Hq Hv2) as (cbs1 & q1 & E & Hh & Ho); [by intros ->|by apply Ht|].
        rewrite E. cbn [obind]. eauto 10.
      - simplify_eq. destruct (pop_spec c cbs q l Hq) as (q1 & E & Hh). rewrite E. cbn [obind].
        exists cbs, q1. split; [done|]. split; [done|]. exists []. apply onlyLinks_refl.
      - simplify_eq. exists cbs, q. unfold getSize. rewrite (qh_size _ _ _ Hq).
        split; [done|]. split; [done|]. exists []. apply onlyLinks_refl. }
    destruct Hstep as (cbs1 & q1 & E & Hh & lx & Ho). rewrite E. cbn [obind].
    destruct (IH cbs1 q1 l1 rs') as (cbs2 & q2 & E2 & Hh2 & Hn2); [|done|done|].
    { intros x Hx. eapply onlyLinks_some; [done|by apply Ht]. }
    rewrite E2. cbn [obind]. exists cbs2, q2. split; [done|]. split; [done|]. intros x. rewrite Hn2.
    destruct Ho as [_ Ho]. destruct (Ho x) as [->|(b & n & -> & ->)]; [done|]. by destruct b.
Qed.

Definition threeTasks : Store := <[1 := ControlBlock_new]> (<[2 := ControlBlock_new]> (<[3 := ControlBlock_new]> ∅)).

Lemma holds_empty cbs : holds cbs Queue_init [].
Proof.
  constructor; cbn; [done|done|done|done| | |done|constructor]; [intros ?%elem_of_nil|intros ? ?%elem_of_nil]; done.
Qed.

Lemma queue_refines_list_witness :
  exists cbs' q', runQueueOps (mkCpu 0 0) threeTasks Queue_init
      [QPush 1; QPush 2; QPop; QPushFront 3; QPush 1; QSize; QPop; QPop; QPop; QPop]
    = Ok ([None; None; Some 1; None; None; Some 3; Some 3; Some 2; Some 1; Some 0], (cbs', (mkCpu 0 0, q'))).
Proof.
  destruct (queue_refines_list [1; 2; 3] [QPush 1; QPush 2; QPop; QPushFront 3; QPush 1; QSize; QPop; QPop; QPop; QPop]
    (mkCpu 0 0) threeTasks Queue_init [] [None; None; Some 1; None; None; Some 3; Some 3; Some 2; Some 1; Some 0] [])
    as (cbs' & q' & E & _).
  - by apply (bool_decide_unpack (0 ∉ [1; 2; 3])).
  - intros x Hx. apply elem_of_cons in Hx as [->|Hx]; [by eexists|].
    apply elem_of_cons in Hx as [->|Hx]; [by eexists|]. apply list_elem_of_singleton in Hx as ->. by eexists.
  - apply holds_empty.
  - vm_compute. reflexivity.
  - exists cbs', q'. exact E.
Defined.
