(* ===== verification/Scheduler.v ===== *)
(** * The scheduler ([scheduler.h], [scheduler.cpp], [threadCreator.cpp])

    One [Scheduler] per processor, sharing the store of control blocks. A call
    of [yield] ends by returning to its caller, by the processor running
    another task (which resumes inside its own earlier call of [yield], or at
    its entry point) or by halting; [Flow] says which. [swapRegisters] and
    [restoreRegisters] are assembly: their documented effect (save, unlock the
    old task, lock the new one, load) is modelled on the registers. *)

From Stdlib Require Import ZArith Lia String.
From stdpp Require Import base tactics numbers gmap list.
From S2P Require Import Prelude Spinlock TaskQueue.

Open Scope Z_scope.

Definition INITIAL_TIME_SLICE : Z := 5.
Definition MAX_CPUS : nat := 64.

Definition PRIORITY_BACKGROUND : Z := 0.
Definition PRIORITY_LOW : Z := 1.
Definition PRIORITY_NORMAL : Z := 2.
Definition PRIORITY_HIGH : Z := 3.
Definition PRIORITY_HIGHEST : Z := 4.

Record Scheduler := mkScheduler {
  s_cpuNumber : Z;
  tasks : Queue;
  schedulerStack : Z;
  currentTask : Z;
  addTaskLock : Spinlock;
  yieldLocked : bool;
  yieldPostponed : bool
}.

Definition Scheduler_init : Scheduler := mkScheduler 0 Queue_init 0 0 Spinlock_init false false.

Definition set_tasks (s : Scheduler) (q : Queue) : Scheduler :=
  mkScheduler (s_cpuNumber s) q (schedulerStack s) (currentTask s) (addTaskLock s) (yieldLocked s) (yieldPostponed s).
Definition set_stack (s : Scheduler) (p : Z) : Scheduler :=
  mkScheduler (s_cpuNumber s) (tasks s) p (currentTask s) (addTaskLock s) (yieldLocked s) (yieldPostponed s).
Definition set_current (s : Scheduler) (t : Z) : Scheduler :=
  mkScheduler (s_cpuNumber s) (tasks s) (schedulerStack s) t (addTaskLock s) (yieldLocked s) (yieldPostponed s).
Definition set_addTaskLock (s : Scheduler) (l : Spinlock) : Scheduler :=
  mkScheduler (s_cpuNumber s) (tasks s) (schedulerStack s) (currentTask s) l (yieldLocked s) (yieldPostponed s).
Definition set_yield (s : Scheduler) (locked postponed : bool) : Scheduler :=
  mkScheduler (s_cpuNumber s) (tasks s) (schedulerStack s) (currentTask s) (addTaskLock s) locked postponed.

Record Processor := mkProcessor { p_cpu : Cpu; p_regs : Registers }.

(** The frame of [yield] a suspended task will return through: its local
    [enableLocalIrqs], and whether it stopped in the self-swap of the idle
    path (of scheduler [sched]) or in the swap to another task. *)
Inductive Frame := AfterSwap (irqs : bool) | AfterIdleSave (irqs : bool) (sched : nat).

Record World := mkWorld {
  cbs : Store;
  schedulers : list Scheduler;
  cpuCount : Z;
  processors : list Processor;
  frames : gmap Z Frame;
  (* yields asked of other processors through runOn, oldest first *)
  pendingYields : list Z
}.

Definition set_cbs (w : World) (m : Store) : World :=
  mkWorld m (schedulers w) (cpuCount w) (processors w) (frames w) (pendingYields w).
Definition set_scheduler (w : World) (i : nat) (s : Scheduler) : World :=
  mkWorld (cbs w) (<[i := s]> (schedulers w)) (cpuCount w) (processors w) (frames w) (pendingYields w).
Definition set_processor (w : World) (i : nat) (p : Processor) : World :=
  mkWorld (cbs w) (schedulers w) (cpuCount w) (<[i := p]> (processors w)) (frames w) (pendingYields w).
Definition set_frames (w : World) (f : gmap Z Frame) : World :=
  mkWorld (cbs w) (schedulers w) (cpuCount w) (processors w) f (pendingYields w).

Inductive Flow := Returns | Runs (task : Z) | Halts.

Section Calls.
(** The executing processor. [stacks::allocateStack] may fail; a scheduler
    stack is allocated at most once per processor. *)
Context (me : nat) (allocateStack : outcome Z).

Definition getScheduler (w : World) (i : nat) : outcome Scheduler := of_option (schedulers w !! i).
Definition getProcessor (w : World) : outcome Processor := of_option (processors w !! me).

Definition setCpu (w : World) (c : Cpu) : outcome World :=
  let! p := getProcessor w in Ok (set_processor w me (mkProcessor c (p_regs p))).

(** [schedulers[cpu::getCpuNumber()]]. *)
Definition ownIndex (w : World) : outcome nat :=
  let! p := getProcessor w in Ok (Z.to_nat (getCpuNumber (p_cpu p))).

Definition updTask (w : World) (t : Z) (f : ControlBlock -> ControlBlock) : outcome World :=
  let! m := updBlock (cbs w) t f in Ok (set_cbs w m).

(** ** unlockTask, lockTask and the register switch *)

Definition unlockTask (w : World) (t : Z) : outcome World :=
  let! p := getProcessor w in
  let! b := getBlock (cbs w) t in
  let '(c, l) := release (p_cpu p) (runLock b) in
  let! w := updTask w t (fun b => set_runLock b l) in
  setCpu w c.

Definition lockTask (w : World) (t : Z) : outcome World :=
  let! p := getProcessor w in
  let! b := getBlock (cbs w) t in
  let! '(c, l) := acquire (p_cpu p) (runLock b) in
  let! w := updTask w t (fun b => set_runLock b l) in
  setCpu w c.

(** Flags are part of the saved registers. *)
Definition with_rflags (r : Registers) (f : Z) : Registers :=
  mkRegisters (rax r) (rcx r) (rdx r) (rbx r) (rsp r) (rbp r) (rsi r) (rdi r) (r8 r) (r9 r) (r10 r)
    (r11 r) (r12 r) (r13 r) (r14 r) (r15 r) (cr3 r) (rip r) f.

Definition saveRegisters (w : World) (from : Z) (f : Frame) : outcome World :=
  let! p := getProcessor w in
  let! w := updTask w from (fun b => set_registers b (with_rflags (p_regs p) (getFlags (p_cpu p)))) in
  Ok (set_frames w (<[from := f]> (frames w))).

Definition restoreRegisters (w : World) (to : Z) : outcome World :=
  let! w := lockTask w to in
  let! p := getProcessor w in
  let! b := getBlock (cbs w) to in
  Ok (set_processor w me (mkProcessor (setFlags (p_cpu p) (TaskQueue.rflags (registers b))) (registers b))).

Definition swapRegisters (w : World) (from to : Z) (f : Frame) : outcome World :=
  let! w := saveRegisters w from f in
  let! w := unlockTask w from in
  restoreRegisters w to.

(** ** class Scheduler: [i] is the index of [this] *)

Definition removeCurrent (w : World) (i : nat) : outcome (Z * World) :=
  let! s := getScheduler w i in
  Ok (currentTask s, set_scheduler w i (set_current s 0)).

(** [switchToSchedulerStack(haultCode, removeCurrent())]. *)
Definition idle (w : World) (i : nat) : outcome (Flow * World) :=
  let! '(t, w) := removeCurrent w i in
  let! s := getScheduler w i in
  let! w :=
    (if schedulerStack s =? 0
     then let! p := allocateStack in Ok (set_scheduler w i (set_stack s p))
     else Ok w) in
  let! w := unlockTask w t in
  let! p := getProcessor w in
  let! w := setCpu w (enableLocalIrqs (p_cpu p)) in
  Ok (Halts, w).

(** The rest of [yield] after a swap brought task [t] back, in [t]'s frame. *)
Definition finishYield (w : World) (irqs : bool) : outcome World :=
  if irqs then let! p := getProcessor w in setCpu w (enableLocalIrqs (p_cpu p)) else Ok w.

Definition resume (w : World) (t : Z) : outcome (Flow * World) :=
  match frames w !! t with
  | None => Ok (Runs t, w)
  | Some f =>
      let done := set_frames w (delete t (frames w)) in
      match f with
      | AfterSwap irqs => let! w := finishYield done irqs in Ok (Runs t, w)
      | AfterIdleSave irqs i =>
          let! b := getBlock (cbs w) t in
          if negb (bool_decide (state b = RUNNING)) then idle w i
          else let! w := finishYield done irqs in Ok (Runs t, w)
      end
  end.

(** The task that yields goes back to the queue unless it blocked. *)
Definition requeue (w : World) (i : nat) (c : Cpu) (from : Z) : outcome World :=
  let! b := getBlock (cbs w) from in
  if bool_decide (state b = RUNNING) then
    let! w := updTask w from (fun b => set_state b RUNNABLE) in
    let! s := getScheduler w i in
    let! '(m, (_, q)) := push c (cbs w) (tasks s) from in
    Ok (set_scheduler (set_cbs w m) i (set_tasks s q))
  else Ok w.

Definition Scheduler_yield (w : World) (i : nat) : outcome (Flow * World) :=
  let! s := getScheduler w i in
  if negb (yieldLocked s) then
    let! p := getProcessor w in
    let enable := localIrqState (p_cpu p) in
    let! w := setCpu w (disableLocalIrqs (p_cpu p)) in
    let from := currentTask s in
    let! '(to, (_, q)) := pop (disableLocalIrqs (p_cpu p)) (cbs w) (tasks s) in
    let w := set_scheduler w i (set_tasks s q) in
    if negb (to =? 0) then
      let! w := updTask w to (fun b => set_timeSlice (set_state b RUNNING) INITIAL_TIME_SLICE) in
      let w := set_scheduler w i (set_current (set_tasks s q) to) in
      if negb (from =? 0) then
        let! w := requeue w i (disableLocalIrqs (p_cpu p)) from in
        let! w := swapRegisters w from to (AfterSwap enable) in
        resume w to
      else
        let! w := restoreRegisters w to in
        resume w to
    else if from =? 0 then
      let! w := setCpu w (enableLocalIrqs (disableLocalIrqs (p_cpu p))) in Ok (Halts, w)
    else
      let! b := getBlock (cbs w) from in
      if negb (bool_decide (state b = RUNNING)) then
        let! w := swapRegisters w from from (AfterIdleSave enable i) in
        resume w from
      else
        let! w := finishYield w enable in Ok (Returns, w)
  else Ok (Returns, set_scheduler w i (set_yield s true true)).

Definition Scheduler_addTask (w : World) (i : nat) (task : Z) : outcome (Flow * World) :=
  let! w := updTask w task (fun b => set_state b RUNNABLE) in
  let! s := getScheduler w i in
  let! p := getProcessor w in
  let! '(c, l) := acquire (p_cpu p) (addTaskLock s) in
  let! preempts :=
    (if currentTask s =? 0 then Ok true
     else
       let! b := getBlock (cbs w) (currentTask s) in
       if negb (bool_decide (state b = RUNNING)) then Ok true
       else let! t := getBlock (cbs w) task in Ok (priority b <? priority t)) in
  if preempts : bool then
    let! '(m, (c, q)) := push_front c (cbs w) (tasks s) task in
    let '(c, l) := release c l in
    let w := set_scheduler (set_cbs w m) i (set_addTaskLock (set_tasks s q) l) in
    let! w := setCpu w c in
    if s_cpuNumber s =? getCpuNumber c then Scheduler_yield w i
    else Ok (Returns, mkWorld (cbs w) (schedulers w) (cpuCount w) (processors w) (frames w)
                        (pendingYields w ++ [s_cpuNumber s]))
  else
    let! '(m, (c, q)) := push c (cbs w) (tasks s) task in
    let '(c, l) := release c l in
    let w := set_scheduler (set_cbs w m) i (set_addTaskLock (set_tasks s q) l) in
    let! w := setCpu w c in
    Ok (Returns, w).

Definition Scheduler_tick (w : World) (i : nat) : outcome (Flow * World) :=
  let! s := getScheduler w i in
  if yieldLocked s then Ok (Returns, w)
  else if currentTask s =? 0 then Ok (Returns, w)
  else
    let! b := getBlock (cbs w) (currentTask s) in
    if negb (bool_decide (state b = RUNNING)) then Ok (Returns, w)
    else
      let slice := u32 (timeSlice b - 1) in
      let! w := updTask w (currentTask s) (fun b => set_timeSlice b slice) in
      if slice =? 0 then Scheduler_yield w i else Ok (Returns, w).

Definition Scheduler_lock (w : World) (i : nat) : outcome World :=
  let! s := getScheduler w i in Ok (set_scheduler w i (set_yield s true false)).

Definition Scheduler_unlock (w : World) (i : nat) : outcome (Flow * World) :=
  let! s := getScheduler w i in
  let w := set_scheduler w i (set_yield s false false) in
  if yieldPostponed s then Scheduler_yield w i else Ok (Returns, w).

Definition Scheduler_block (w : World) (i : nat) : outcome (Z * World) :=
  let! s := getScheduler w i in
  let! w := updTask w (currentTask s) (fun b => set_state b BLOCKING) in
  Ok (currentTask s, w).

Definition taskCount (w : World) (i : nat) : outcome Z :=
  let! s := getScheduler w i in
  if currentTask s =? 0 then Ok (getSize (tasks s))
  else
    let! b := getBlock (cbs w) (currentTask s) in
    if negb (bool_decide (state b = RUNNING)) then Ok (getSize (tasks s))
    else Ok (u32 (getSize (tasks s) + 1)).

Definition Scheduler_initialise (w : World) (i : nat) (number task : Z) : outcome World :=
  let! s := getScheduler w i in
  let! w := lockTask w task in
  Ok (set_scheduler w i (mkScheduler number (tasks s) (schedulerStack s) task (addTaskLock s)
                           (yieldLocked s) (yieldPostponed s))).

(** ** namespace scheduler *)

Fixpoint leastBusy_loop (n : nat) (w : World) (i best : nat) (bestCount : Z) : outcome nat :=
  match n with
  | O => Ok best
  | S n =>
      if bestCount =? 0 then Ok best
      else
        let! count := taskCount w i in
        if count <? bestCount then
          let! count := taskCount w i in leastBusy_loop n w (S i) i count
        else leastBusy_loop n w (S i) best bestCount
  end.

Definition getLeastBusy (w : World) : outcome nat :=
  let! i := ownIndex w in
  let! count := taskCount w i in
  leastBusy_loop (Z.to_nat (cpuCount w)) w 0 i count.

Definition addTask (w : World) (task : Z) : outcome (Flow * World) :=
  let! i := getLeastBusy w in Scheduler_addTask w i task.
Definition tick (w : World) : outcome (Flow * World) := let! i := ownIndex w in Scheduler_tick w i.
Definition yield (w : World) : outcome (Flow * World) := let! i := ownIndex w in Scheduler_yield w i.
Definition getCurrentTask (w : World) : outcome Z :=
  let! i := ownIndex w in let! s := getScheduler w i in Ok (currentTask s).
Definition removeSelf (w : World) : outcome (Z * World) := let! i := ownIndex w in removeCurrent w i.
Definition block (w : World) : outcome (Z * World) := let! i := ownIndex w in Scheduler_block w i.
Definition lock (w : World) : outcome World := let! i := ownIndex w in Scheduler_lock w i.
Definition unlock (w : World) : outcome (Flow * World) := let! i := ownIndex w in Scheduler_unlock w i.

Definition init (w : World) (cpuNumber task : Z) : outcome World :=
  let! w := Scheduler_initialise w (Z.to_nat cpuNumber) cpuNumber task in
  Ok (mkWorld (cbs w) (schedulers w) (u32 (cpuCount w + 1)) (processors w) (frames w) (pendingYields w)).

(** ** thread::create: [address] is where [new] puts the control block *)
Definition thread_create (w : World) (stack address entrypoint context priority_ cr3_ : Z) : outcome (Flow * World) :=
  let r := mkRegisters 0 0 0 0 stack 0 0 context 0 0 0 0 0 0 0 0 cr3_ entrypoint (Z.shiftl 1 9) in
  let b := mkControlBlock r stack Spinlock_init RUNNING 0 priority_ 0 in
  addTask (set_cbs w (<[address := b]> (cbs w))) address.

(** ** Specification

    [ready w i cur l]: on the executing processor, whose scheduler is number
    [i], task [cur] (0 for none) is current and the tasks [l] wait in the run
    queue: current tasks hold their run lock, waiting ones do not. *)
(** A scheduler has its stack or can get one when it needs it. *)
Definition hasStack (stack : Z) : Prop := stack <> 0 \/ is_ok allocateStack = true.

Record ready (w : World) (i : nat) (cur : Z) (l : list Z) : Prop := {
  rd_sched : exists s, schedulers w !! i = Some s /\ currentTask s = cur /\ yieldLocked s = false /\
    locked (addTaskLock s) = false /\ s_cpuNumber s = Z.of_nat i /\ hasStack (schedulerStack s) /\
    holds (cbs w) (tasks s) l;
  rd_cpu : exists p, processors w !! me = Some p /\ getCpuNumber (p_cpu p) = Z.of_nat i;
  rd_current : cur <> 0 -> cur ∉ l /\ exists b, cbs w !! cur = Some b /\ locked (runLock b) = true;
  rd_queue : forall t, t ∈ l -> exists b, cbs w !! t = Some b /\ locked (runLock b) = false /\ state b = RUNNABLE
}.

Definition taskState (w : World) (t : Z) : option State := state <$> cbs w !! t.
Definition taskPriority (w : World) (t : Z) : option Z := priority <$> cbs w !! t.

(** Whether there is a current task and it has not blocked. *)
Definition isRunning (w : World) (cur : Z) : bool :=
  negb (cur =? 0) && bool_decide (taskState w cur = Some RUNNING).

(** What [yield] does, on the abstract state: who runs next, and the queue. *)
Definition yieldSpec (cur : Z) (running : bool) (l : list Z) : Flow * (Z * list Z) :=
  match l with
  | t :: l => (Runs t, (t, if running then l ++ [cur] else l))
  | [] => if running then (Returns, (cur, [])) else (Halts, (0, []))
  end.

(** The effect of a [yield] from [cur] to [cur'] on everything else. *)
Record yielded (w w' : World) (i : nat) (cur cur' : Z) (running : bool) (l : list Z) : Prop := {
  yd_others : forall x, x ∉ cur :: l -> cbs w' !! x = cbs w !! x;
  yd_states : forall x, taskState w' x =
    if decide (x = cur' /\ cur' <> 0) then Some RUNNING
    else if decide (x = cur /\ running = true) then Some RUNNABLE else taskState w x;
  yd_priority : forall x, taskPriority w' x = taskPriority w x;
  yd_slice : cur' <> cur -> cur' <> 0 -> timeSlice <$> cbs w' !! cur' = Some INITIAL_TIME_SLICE;
  yd_unlocked : cur <> 0 -> cur' <> cur -> exists b, cbs w' !! cur = Some b /\ locked (runLock b) = false;
  yd_schedulers : forall j, j <> i -> schedulers w' !! j = schedulers w !! j;
  yd_rest : cpuCount w' = cpuCount w /\ pendingYields w' = pendingYields w
}.

(** [addTask] to the executing processor's own scheduler: who runs next, and
    the queue; [preempts] when nobody runs or the new task is more urgent. *)
Definition preempts (w : World) (cur task : Z) : bool :=
  negb (isRunning w cur) ||
  match taskPriority w cur, taskPriority w task with
  | Some p, Some p' => p <? p'
  | _, _ => false
  end.

Definition addSpec (cur : Z) (running preempts : bool) (l : list Z) (task : Z) : Flow * (Z * list Z) :=
  if preempts then (Runs task, (task, if running then l ++ [cur] else l))
  else (Returns, (cur, l ++ [task])).

Record added (w w' : World) (i : nat) (cur cur' task : Z) (l : list Z) : Prop := {
  ad_others : forall x, x ∉ task :: cur :: l -> cbs w' !! x = cbs w !! x;
  ad_states : forall x, taskState w' x =
    if decide (x = task) then Some (if decide (cur' = task) then RUNNING else RUNNABLE)
    else if decide (x = cur /\ isRunning w cur = true /\ cur' = task) then Some RUNNABLE else taskState w x;
  ad_priority : forall x, taskPriority w' x = taskPriority w x;
  ad_schedulers : forall j, j <> i -> schedulers w' !! j = schedulers w !! j;
  ad_rest : cpuCount w' = cpuCount w /\ pendingYields w' = pendingYields w;
  ad_unlocked : cur <> 0 -> cur' <> cur -> exists b, cbs w' !! cur = Some b /\ locked (runLock b) = false
}.

(** [n] successive yields, each by whoever runs then. *)
Fixpoint yields (n : nat) (w : World) (i : nat) : outcome World :=
  match n with
  | O => Ok w
  | S n => let! '(_, w) := Scheduler_yield w i in yields n w i
  end.

(** [n] timer ticks. *)
Fixpoint ticks (n : nat) (w : World) (i : nat) : outcome World :=
  match n with
  | O => Ok w
  | S n => let! '(_, w) := Scheduler_tick w i in ticks n w i
  end.

(** Who runs after a sequence of [n] yields by running tasks, and the queue. *)
Fixpoint rotate (n : nat) (cur : Z) (l : list Z) : Z * list Z :=
  match n with
  | O => (cur, l)
  | S n => match l with t :: l => rotate n t (l ++ [cur]) | [] => (cur, []) end
  end.

(** ** The register switch *)

Lemma getProcessor_eq w p : processors w !! me = Some p -> getProcessor w = Ok p.
Proof. intros H. unfold getProcessor. by rewrite H. Qed.

Lemma insert_me {A} (l : list A) i x y : l !! i = Some x -> <[i := y]> l !! i = Some y.
Proof. intros H. apply list_lookup_insert_eq. by eapply lookup_lt_Some. Qed.

Lemma setCpu_eq w p c : processors w !! me = Some p -> setCpu w c = Ok (set_processor w me (mkProcessor c (p_regs p))).
Proof. intros H. unfold setCpu. by rewrite (getProcessor_eq w p H). Qed.

Lemma updTask_eq w t b f : cbs w !! t = Some b -> updTask w t f = Ok (set_cbs w (<[t := f b]> (cbs w))).
Proof. intros H. unfold updTask, updBlock, getBlock. by rewrite H. Qed.

Lemma lockTask_eq w t p b :
  processors w !! me = Some p -> cbs w !! t = Some b -> locked (runLock b) = false ->
  lockTask w t = Ok (mkWorld (<[t := set_runLock b (mkSpinlock 1 (localIrqState (p_cpu p)))]> (cbs w))
    (schedulers w) (cpuCount w) (<[me := mkProcessor (disableLocalIrqs (p_cpu p)) (p_regs p)]> (processors w))
    (frames w) (pendingYields w)).
Proof.
  intros Hp Hb Hl. unfold lockTask. rewrite (getProcessor_eq w p Hp). cbn [obind]. unfold getBlock.
  rewrite Hb. cbn [of_option obind]. rewrite acquire_free by done. cbn [obind]. rewrite (updTask_eq w t b) by done.
  cbn [obind]. by rewrite (setCpu_eq _ p).
Qed.

Lemma unlockTask_eq w t p b c l :
  processors w !! me = Some p -> cbs w !! t = Some b -> release (p_cpu p) (runLock b) = (c, l) ->
  unlockTask w t = Ok (mkWorld (<[t := set_runLock b l]> (cbs w)) (schedulers w) (cpuCount w)
    (<[me := mkProcessor c (p_regs p)]> (processors w)) (frames w) (pendingYields w)).
Proof.
  intros Hp Hb Hr. unfold unlockTask. rewrite (getProcessor_eq w p Hp). cbn [obind]. unfold getBlock.
  rewrite Hb. cbn [of_option obind]. rewrite Hr, (updTask_eq w t b) by done. cbn [obind]. by rewrite (setCpu_eq _ p).
Qed.

Lemma release_unlocks c l c' l' : release c l = (c', l') -> locked l' = false /\ cpuNumber c' = cpuNumber c.
Proof. unfold release. intros [= <- <-]. split; [done|]. by destruct (enableIrqs l). Qed.

Lemma restoreRegisters_eq w t p b :
  processors w !! me = Some p -> cbs w !! t = Some b -> locked (runLock b) = false ->
  restoreRegisters w t = Ok (mkWorld (<[t := set_runLock b (mkSpinlock 1 (localIrqState (p_cpu p)))]> (cbs w))
    (schedulers w) (cpuCount w)
    (<[me := mkProcessor (setFlags (disableLocalIrqs (p_cpu p)) (TaskQueue.rflags (registers b))) (registers b)]> (processors w))
    (frames w) (pendingYields w)).
Proof.
  intros Hp Hb Hl. unfold restoreRegisters. rewrite (lockTask_eq w t p b) by done. cbn [obind].
  erewrite getProcessor_eq; [|cbn [processors]; by eapply insert_me]. cbn [obind cbs]. unfold getBlock.
  rewrite lookup_insert_eq. cbn [of_option obind]. unfold set_processor.
  cbn [cbs schedulers cpuCount processors frames pendingYields p_cpu registers set_runLock].
  by rewrite list_insert_insert_eq.
Qed.

(** Saving [from] and loading [to]: the run lock of [from] is free afterwards,
    that of [to] taken; a task swapped with itself keeps its lock. *)
Lemma swapRegisters_eq w from to p bf bt f :
  processors w !! me = Some p -> cbs w !! from = Some bf -> cbs w !! to = Some bt ->
  (from <> to -> locked (runLock bt) = false) ->
  exists w' lf lt, swapRegisters w from to f = Ok w' /\
    cbs w' = (if decide (from = to)
              then <[from := set_runLock (set_registers bf (with_rflags (p_regs p) (getFlags (p_cpu p)))) lt]> (cbs w)
              else <[to := set_runLock bt lt]> (<[from := set_runLock (set_registers bf (with_rflags (p_regs p) (getFlags (p_cpu p)))) lf]> (cbs w))) /\
    locked lf = false /\ locked lt = true /\
    schedulers w' = schedulers w /\ cpuCount w' = cpuCount w /\ pendingYields w' = pendingYields w /\
    frames w' = <[from := f]> (frames w) /\
    exists p', processors w' !! me = Some p' /\ getCpuNumber (p_cpu p') = getCpuNumber (p_cpu p) /\
      length (processors w') = length (processors w) /\
      (from <> to -> p_regs p' = registers bt /\ getFlags (p_cpu p') = TaskQueue.rflags (registers bt)).
Proof.
  intros Hp Hf Ht Hl. unfold swapRegisters, saveRegisters.
  rewrite (getProcessor_eq w p Hp). cbn [obind]. rewrite (updTask_eq w from bf) by done. cbn [obind].
  set (bs := set_registers bf _).
  destruct (release (p_cpu p) (runLock bs)) as [c lf] eqn:Er.
  destruct (release_unlocks _ _ _ _ Er) as [Hlf Hcn].
  rewrite (unlockTask_eq _ from p bs c lf) by (done || by cbn; rewrite lookup_insert_eq).
  cbn [obind set_frames set_cbs cbs schedulers cpuCount processors frames pendingYields].
  rewrite insert_insert_eq.
  destruct (decide (from = to)) as [<-|Hne].
  - erewrite restoreRegisters_eq; [|cbn [processors]; by eapply insert_me|cbn [cbs]; by rewrite lookup_insert_eq|exact Hlf].
    eexists _, lf, _. split; [done|]. cbn [cbs schedulers cpuCount processors frames pendingYields p_cpu p_regs].
    rewrite insert_insert_eq. split; [done|]. do 6 (split; [done|]).
    eexists. rewrite list_insert_insert_eq. split; [by eapply insert_me|]. split; [exact Hcn|].
    split; [by rewrite length_insert|done].
  - erewrite restoreRegisters_eq; [|cbn [processors]; by eapply insert_me|cbn [cbs]; by rewrite lookup_insert_ne|by apply Hl].
    eexists _, lf, _. split; [done|]. cbn [cbs schedulers cpuCount processors frames pendingYields p_cpu p_regs].
    split; [done|]. do 6 (split; [done|]).
    eexists. rewrite list_insert_insert_eq. split; [by eapply insert_me|]. split; [exact Hcn|].
    split; [by rewrite length_insert|done].
Qed.

(** ** yield *)

Lemma resume_runs w t p b :
  processors w !! me = Some p -> cbs w !! t = Some b -> state b = RUNNING ->
  exists w', resume w t = Ok (Runs t, w') /\ cbs w' = cbs w /\ schedulers w' = schedulers w /\
    cpuCount w' = cpuCount w /\ pendingYields w' = pendingYields w /\
    exists p', processors w' !! me = Some p' /\ getCpuNumber (p_cpu p') = getCpuNumber (p_cpu p) /\ p_regs p' = p_regs p.
Proof.
  intros Hp Hb Hs. unfold resume.
  assert (Hfin : forall irqs, exists w', finishYield (set_frames w (delete t (frames w))) irqs = Ok w' /\ cbs w' = cbs w /\
    schedulers w' = schedulers w /\ cpuCount w' = cpuCount w /\ pendingYields w' = pendingYields w /\
    exists p', processors w' !! me = Some p' /\ getCpuNumber (p_cpu p') = getCpuNumber (p_cpu p) /\ p_regs p' = p_regs p).
  { intros [|]; cbn [finishYield].
    - rewrite (getProcessor_eq _ p) by done. cbn [obind]. rewrite (setCpu_eq _ p) by done. eexists. split; [done|].
      do 4 (split; [done|]). eexists. split; [by eapply insert_me|done].
    - eexists. split; [done|]. do 4 (split; [done|]). by exists p. }
  destruct (frames w !! t) as [[irqs|irqs j]|].
  - destruct (Hfin irqs) as (w' & -> & H). exists w'. split; [done|exact H].
  - unfold getBlock. rewrite Hb. cbn [of_option obind]. rewrite bool_decide_eq_true_2 by done. cbn [negb].
    destruct (Hfin irqs) as (w' & -> & H). exists w'. split; [done|exact H].
  - exists w. split; [done|]. do 4 (split; [done|]). by exists p.
Qed.

Lemma isRunning_some w cur b : cbs w !! cur = Some b -> cur <> 0 -> isRunning w cur = bool_decide (state b = RUNNING).
Proof.
  intros Hb H0. unfold isRunning, taskState. rewrite Hb, (proj2 (Z.eqb_neq cur 0)) by done. cbn.
  apply bool_decide_ext. split; [by intros [= ->]|by intros ->].
Qed.

Lemma requeue_spec w i c s l cur b :
  schedulers w !! i = Some s -> holds (cbs w) (tasks s) l -> cbs w !! cur = Some b -> cur ∉ l -> cur <> 0 ->
  exists m q, requeue w i c cur
      = Ok (mkWorld m (<[i := set_tasks s q]> (schedulers w)) (cpuCount w) (processors w) (frames w) (pendingYields w)) /\
    holds m q (if bool_decide (state b = RUNNING) then l ++ [cur] else l) /\
    m !! cur = Some (if bool_decide (state b = RUNNING) then set_state b RUNNABLE else b) /\
    (forall x, x ∉ cur :: l -> m !! x = cbs w !! x) /\
    (forall x, x ∈ l -> exists y n, cbs w !! x = Some y /\ m !! x = Some (set_next y n)).
Proof.
  intros Hs Hh Hb Hl H0. unfold requeue, getBlock. rewrite Hb. cbn [of_option obind]. case_bool_decide as Hr.
  - rewrite (updTask_eq w cur b) by done. cbn [obind]. unfold getScheduler. cbn [schedulers set_cbs].
    rewrite Hs. cbn [of_option obind cbs set_cbs].
    destruct (push_spec c (<[cur := set_state b RUNNABLE]> (cbs w)) (tasks s) l cur) as (m & q & E & Hh' & Ho & Hx);
      [by apply (holds_update _ _ _ _ b)|done|done|rewrite lookup_insert_eq; eauto|].
    rewrite E. cbn [obind]. exists m, q. split; [done|]. split; [done|].
    split; [by rewrite Ho, lookup_insert_eq|]. split.
    + intros x Hx'. apply not_elem_of_cons in Hx' as [Hx1 Hx2]. by rewrite Ho, lookup_insert_ne.
    + intros x Hx'. assert (Hne : x <> cur) by (intros ->; done).
      destruct (qh_blocks _ _ _ Hh x Hx') as [y Hy]. exists y.
      destruct (Hx x) as [->|(y' & n & Hy' & ->)]; rewrite lookup_insert_ne in * by done.
      * exists (next y). rewrite Hy. by destruct y.
      * exists n. by simplify_eq.
  - exists (cbs w), (tasks s). assert (set_tasks s (tasks s) = s) as -> by by destruct s.
    rewrite list_insert_id by done. split; [by destruct w|]. split; [done|]. split; [done|]. split; [done|].
    intros x Hx'. destruct (qh_blocks _ _ _ Hh x Hx') as [y Hy]. exists y, (next y). rewrite Hy. by destruct y.
Qed.

(** Reading the effect of the switch off the final store. *)
Lemma switched w w' i cur t l m :
  ready w i cur (t :: l) -> t <> 0 ->
  m = cbs w' ->
  (exists bt lt n, cbs w !! t = Some bt /\ locked lt = true /\
     m !! t = Some (set_next (set_runLock (set_timeSlice (set_state bt RUNNING) INITIAL_TIME_SLICE) lt) n)) ->
  (cur <> 0 -> exists bc r lf n, cbs w !! cur = Some bc /\ locked lf = false /\
     m !! cur = Some (set_next (set_runLock (set_registers (if isRunning w cur then set_state bc RUNNABLE else bc) r) lf) n)) ->
  (forall x, x ∉ cur :: t :: l -> m !! x = cbs w !! x) ->
  (cur = 0 -> m !! 0 = cbs w !! 0) ->
  (forall x, x ∈ l -> exists y n, cbs w !! x = Some y /\ m !! x = Some (set_next y n)) ->
  (exists s q, schedulers w !! i = Some s /\
     holds m q (if isRunning w cur then l ++ [cur] else l) /\
     schedulers w' = <[i := set_current (set_tasks s q) t]> (schedulers w)) ->
  cpuCount w' = cpuCount w /\ pendingYields w' = pendingYields w ->
  (exists p', processors w' !! me = Some p' /\ getCpuNumber (p_cpu p') = Z.of_nat i) ->
  ready w' i t (if isRunning w cur then l ++ [cur] else l) /\ yielded w w' i cur t (isRunning w cur) (t :: l).
Proof.
  intros [Hsch Hcpu Hcur Hqueue] Ht0 -> (bt & lt & n & Hbt & Hlt & Hmt) Hmc Hmo Hm0 Hml (s & q & Hs & Hh & Hss) Hrest Hp.
  destruct Hsch as (s' & Hs' & Hct & Hyl & Hal & Hcn & Hst & Hhold). assert (s' = s) as -> by congruence.
  assert (Hnd : NoDup (t :: l)) by apply (qh_nodup _ _ _ Hhold). apply NoDup_cons in Hnd as [Htl Hnd].
  assert (Hcl : cur <> 0 -> cur <> t /\ cur ∉ l).
  { intros H0. destruct (Hcur H0) as [H _]. apply not_elem_of_cons in H as [? ?]. done. }
  assert (Hrun0 : cur = 0 -> isRunning w cur = false) by (intros ->; done).
  split; constructor.
  - exists (set_current (set_tasks s q) t). rewrite Hss. split; [by eapply insert_me|]. done.
  - exact Hp.
  - intros _. split.
    + destruct (isRunning w cur) eqn:Er; [|done]. rewrite elem_of_app, list_elem_of_singleton.
      intros [?| ->]; [done|]. destruct (decide (cur = 0)) as [->|Hc]; [done|]. by destruct (Hcl Hc).
    + eexists. split; [exact Hmt|exact Hlt].
  - intros x Hx.
    assert (Hin : x ∈ l -> exists b, cbs w' !! x = Some b /\ locked (runLock b) = false /\ state b = RUNNABLE).
    { intros Hxl. destruct (Hml x Hxl) as (y & k & Hy & Hy'). destruct (Hqueue x ltac:(by right)) as (b & Hb & H1 & H2).
      assert (b = y) as -> by congruence. eexists. split; [exact Hy'|]. done. }
    destruct (isRunning w cur) eqn:Er; [|by apply Hin]. apply elem_of_app in Hx as [Hx|Hx]; [by apply Hin|].
    apply list_elem_of_singleton in Hx as ->. destruct (decide (cur = 0)) as [->|Hc]; [done|].
    destruct (Hmc Hc) as (bc & r & lf & k & _ & Hlf & Hb). eexists. split; [exact Hb|]. done.
  - intros x Hx. by apply Hmo.
  - intros x. unfold taskState. destruct (decide (x = t)) as [->|Hxt].
    { rewrite Hmt, decide_True by done. done. }
    rewrite decide_False by (intros [? _]; done).
    destruct (decide (x = cur)) as [->|Hxc].
    + destruct (decide (cur = 0)) as [->|Hc]; [rewrite Hm0, (Hrun0 eq_refl) by done; by rewrite decide_False by (by intros [_ [=]])|].
      destruct (Hmc Hc) as (bc & r & lf & k & Hbc & _ & ->). rewrite Hbc. cbn.
      destruct (isRunning w cur); [by rewrite decide_True|by rewrite decide_False by (by intros [_ [=]])].
    + rewrite decide_False by (intros [? _]; done). destruct (decide (x ∈ l)) as [Hxl|Hxl].
      * destruct (Hml x Hxl) as (y & k & -> & ->). done.
      * rewrite Hmo; [done|]. rewrite !not_elem_of_cons. done.
  - intros x. unfold taskPriority. destruct (decide (x = t)) as [->|Hxt]; [by rewrite Hmt, Hbt|].
    destruct (decide (x = cur)) as [->|Hxc].
    + destruct (decide (cur = 0)) as [->|Hc]; [by rewrite Hm0|].
      destruct (Hmc Hc) as (bc & r & lf & k & -> & _ & ->). by destruct (isRunning w cur).
    + destruct (decide (x ∈ l)) as [Hxl|Hxl].
      * destruct (Hml x Hxl) as (y & k & -> & ->). done.
      * rewrite Hmo; [done|]. rewrite !not_elem_of_cons. done.
  - intros _ _. by rewrite Hmt.
  - intros H0 _. destruct (Hmc H0) as (bc & r & lf & k & _ & Hlf & Hb). eexists. split; [exact Hb|]. done.
  - intros j Hj. rewrite Hss. by rewrite list_lookup_insert_ne.
  - exact Hrest.
Qed.

Lemma set_next_self b : set_next b (next b) = b.
Proof. by destruct b. Qed.

(** [yield] with a task waiting. *)
Lemma yield_switch w i cur t l :
  ready w i cur (t :: l) ->
  exists w', Scheduler_yield w i = Ok (Runs t, w') /\
    ready w' i t (if isRunning w cur then l ++ [cur] else l) /\
    yielded w w' i cur t (isRunning w cur) (t :: l).
Proof.
  intros Hready. pose proof Hready as [(s & Hs & Hct & Hyl & Hal & Hcn & Hst & Hhold) (p & Hp & Hpn) Hcur Hqueue].
  destruct (Hqueue t ltac:(by left)) as (bt & Hbt & Hlt & Hrt).
  assert (Ht0 : t <> 0) by (intros ->; apply (qh_null _ _ _ Hhold); by left).
  pose proof (qh_nodup _ _ _ Hhold) as Hnd. apply NoDup_cons in Hnd as [Htl Hnd].
  destruct (pop_spec (disableLocalIrqs (p_cpu p)) (cbs w) (tasks s) (t :: l) Hhold) as (q & Epop & Hq).
  cbn [default list.head list.tail] in Epop, Hq. cbn in Epop.
  unfold Scheduler_yield, getScheduler. rewrite Hs. cbn [of_option obind]. rewrite Hyl. cbn [negb].
  rewrite (getProcessor_eq w p Hp). cbn [obind]. rewrite (setCpu_eq w p) by done. cbn [obind cbs set_processor].
  rewrite Epop. cbn [obind]. rewrite (proj2 (Z.eqb_neq t 0)) by done. cbn [negb].
  rewrite (updTask_eq _ t bt) by done. cbn [obind]. rewrite Hct.
  unfold set_cbs, set_scheduler, set_processor. cbn [cbs schedulers cpuCount processors frames pendingYields].
  rewrite list_insert_insert_eq.
  set (bt' := set_timeSlice (set_state bt RUNNING) INITIAL_TIME_SLICE).
  set (p1 := mkProcessor (disableLocalIrqs (p_cpu p)) (p_regs p)).
  assert (Hp1 : <[me := p1]> (processors w) !! me = Some p1) by by eapply insert_me.
  assert (Hq1 : holds (<[t := bt']> (cbs w)) q l) by by apply (holds_update _ _ _ _ bt).
  destruct (Z.eqb_spec cur 0) as [Hc0|Hc0]; cbn [negb].
  - erewrite restoreRegisters_eq; [|exact Hp1|cbn [cbs]; by rewrite lookup_insert_eq|exact Hlt].
    cbn [obind cbs schedulers cpuCount processors frames pendingYields]. rewrite insert_insert_eq, list_insert_insert_eq.
    match goal with |- context [resume ?W _] => pose proof (resume_runs W t) as Hres end.
    edestruct Hres as (w' & E & E1 & E2 & E3 & E4 & p' & E5 & E6 & _);
      [cbn [processors]; by eapply insert_me|cbn [cbs]; by rewrite lookup_insert_eq|done|].
    exists w'. rewrite E. split; [done|]. cbn [cbs schedulers cpuCount processors frames pendingYields] in *.
    assert (Hnr : isRunning w cur = false) by by rewrite Hc0.
    apply (switched w w' i cur t l (cbs w')); try done.
    + exists bt, (mkSpinlock 1 (localIrqState (p_cpu p1))), (next bt). split; [done|]. split; [done|].
      by rewrite E1, lookup_insert_eq.
    + intros x Hx. rewrite !not_elem_of_cons in Hx. destruct Hx as (? & ? & ?).
      by rewrite E1, lookup_insert_ne by congruence.
    + intros _. by rewrite E1, lookup_insert_ne by congruence.
    + intros x Hx. assert (t <> x) by (intros <-; done). destruct (Hqueue x ltac:(by right)) as (y & Hy & _).
      exists y, (next y). split; [done|]. by rewrite E1, lookup_insert_ne, set_next_self.
    + exists s, q. split; [done|]. rewrite Hnr. split; [|exact E2]. rewrite E1.
      rewrite <- (insert_insert_eq (cbs w) t _ bt'). apply (holds_update _ _ _ _ bt'); [done|by rewrite lookup_insert_eq|done].
    + exists p'. split; [done|]. rewrite E6. exact Hpn.
  - destruct (Hcur Hc0) as (Hcl & bc & Hbc & Hlc). apply not_elem_of_cons in Hcl as [Hct' Hcl].
    set (w1 := mkWorld (<[t := bt']> (cbs w)) _ _ _ _ _).
    destruct (requeue_spec w1 i (disableLocalIrqs (p_cpu p)) (set_current (set_tasks s q) t) l cur bc)
      as (m & q2 & Er & Hh2 & Hmc & Hmo & Hml);
      [by eapply insert_me|done|cbn; by rewrite lookup_insert_ne|done|done|].
    rewrite Er. cbn [obind]. unfold w1 in *. cbn [cbs schedulers cpuCount processors frames pendingYields] in *.
    rewrite list_insert_insert_eq. rewrite (isRunning_some w cur bc Hbc Hc0).
    assert (Hmt : m !! t = Some bt').
    { rewrite Hmo; [by rewrite lookup_insert_eq|]. apply not_elem_of_cons. split; [congruence|done]. }
    edestruct (swapRegisters_eq (mkWorld m (<[i := set_tasks (set_current (set_tasks s q) t) q2]> (schedulers w)) (cpuCount w)
      (<[me := p1]> (processors w)) (frames w) (pendingYields w)) cur t p1) as
      (w2 & lf & lt & Esw & Ecbs & Hlf & Hlt2 & Esch & Ecnt & Epend & _ & p2 & Hp2 & Hn2 & _);
      [done|exact Hmc|exact Hmt|done|].
    rewrite decide_False in Ecbs by done.
    rewrite Esw. cbn [obind]. cbn [cbs schedulers cpuCount processors frames pendingYields] in *.
    edestruct (resume_runs w2 t p2) as (w' & E & E1 & E2 & E3 & E4 & p' & E5 & E6 & _);
      [exact Hp2|rewrite Ecbs; by rewrite lookup_insert_eq|done|].
    exists w'. rewrite E. split; [done|]. rewrite <- (isRunning_some w cur bc Hbc Hc0) in *.
    apply (switched w w' i cur t l (cbs w')); try done; rewrite ?E1, ?Ecbs.
    + exists bt, lt, (next bt). split; [done|]. split; [done|]. by rewrite lookup_insert_eq.
    + intros _. eexists bc, _, lf, (next bc). split; [done|]. split; [done|].
      rewrite lookup_insert_ne, lookup_insert_eq by done. by destruct (isRunning w cur).
    + intros x Hx. rewrite !not_elem_of_cons in Hx. destruct Hx as (? & ? & ?). rewrite !lookup_insert_ne by congruence.
      rewrite Hmo, lookup_insert_ne by (rewrite ?not_elem_of_cons; done || congruence). done.
    + intros x Hx. assert (x <> t) by (intros ->; done). assert (x <> cur) by (intros ->; done).
      rewrite !lookup_insert_ne by congruence. destruct (Hml x Hx) as (y & n & Hy & Hy').
      rewrite lookup_insert_ne in Hy by congruence. by exists y, n.
    + exists s, q2. split; [done|]. split; [|by rewrite E2, Esch].
      apply (holds_links m); [exact Hh2|]. intros x _.
      destruct (decide (x = t)) as [->|Hxt]; [by rewrite lookup_insert_eq, Hmt|]. rewrite lookup_insert_ne by congruence.
      destruct (decide (x = cur)) as [->|Hxc]; [rewrite lookup_insert_eq, Hmc; by destruct (isRunning w cur)|].
      by rewrite lookup_insert_ne by congruence.
    + by rewrite E3, E4, Ecnt, Epend.
    + exists p'. split; [done|]. rewrite E6, Hn2. exact Hpn.
Qed.

(** [idle]: the current task is unlocked and the processor waits for
    interrupts on its own stack. *)
Lemma idle_eq w i s p b :
  schedulers w !! i = Some s -> processors w !! me = Some p -> cbs w !! currentTask s = Some b -> hasStack (schedulerStack s) ->
  exists w' l st, idle w i = Ok (Halts, w') /\ locked l = false /\
    cbs w' = <[currentTask s := set_runLock b l]> (cbs w) /\
    schedulers w' = <[i := set_stack (set_current s 0) st]> (schedulers w) /\ hasStack st /\
    cpuCount w' = cpuCount w /\ pendingYields w' = pendingYields w /\
    exists p', processors w' !! me = Some p' /\ getCpuNumber (p_cpu p') = getCpuNumber (p_cpu p).
Proof.
  intros Hs Hp Hb Hst. unfold idle, removeCurrent, getScheduler. rewrite Hs. cbn [of_option obind].
  unfold set_scheduler at 1. cbn [schedulers]. rewrite (insert_me _ _ _ _ Hs). cbn [of_option obind].
  assert (Hw : exists st, hasStack st /\
    (if schedulerStack (set_current s 0) =? 0
     then let! q := allocateStack in Ok (set_scheduler (set_scheduler w i (set_current s 0)) i (set_stack (set_current s 0) q))
     else Ok (set_scheduler w i (set_current s 0))) = Ok (set_scheduler w i (set_stack (set_current s 0) st))).
  { destruct (Z.eqb_spec (schedulerStack (set_current s 0)) 0) as [E|E].
    - destruct Hst as [Hst|Hst]; [done|]. destruct allocateStack as [q| | |] eqn:Ea; try done. exists q.
      split; [right; by rewrite Ea|]. cbn [obind]. unfold set_scheduler. cbn. by rewrite list_insert_insert_eq.
    - exists (schedulerStack s). split; [exact Hst|]. by destruct s. }
  destruct Hw as (st & Hst' & Ew). rewrite Ew. cbn [obind].
  destruct (release (p_cpu p) (runLock b)) as [c l] eqn:Er. destruct (release_unlocks _ _ _ _ Er) as [Hl Hn].
  rewrite (unlockTask_eq _ (currentTask s) p b c l) by done. cbn [obind].
  erewrite getProcessor_eq; [|cbn [processors]; by eapply insert_me]. cbn [obind].
  erewrite setCpu_eq; [|cbn [processors]; by eapply insert_me]. cbn [obind].
  eexists _, l, st. split; [done|]. cbn [cbs schedulers cpuCount processors frames pendingYields set_processor set_scheduler].
  do 6 (split; [done|]). eexists. rewrite list_insert_insert_eq. split; [by eapply insert_me|]. exact Hn.
Qed.

(** [yield] with nobody waiting. *)
Lemma yield_alone w i cur :
  ready w i cur [] ->
  exists w', Scheduler_yield w i = Ok (if isRunning w cur then Returns else Halts, w') /\
    ready w' i (if isRunning w cur then cur else 0) [] /\
    yielded w w' i cur (if isRunning w cur then cur else 0) (isRunning w cur) [].
Proof.
  intros Hready. pose proof Hready as [(s & Hs & Hct & Hyl & Hal & Hcn & Hst & Hhold) (p & Hp & Hpn) Hcur _].
  destruct (pop_spec (disableLocalIrqs (p_cpu p)) (cbs w) (tasks s) [] Hhold) as (q & Epop & Hq). cbn in Epop, Hq.
  unfold Scheduler_yield, getScheduler. rewrite Hs. cbn [of_option obind]. rewrite Hyl. cbn [negb].
  rewrite (getProcessor_eq w p Hp). cbn [obind]. rewrite (setCpu_eq w p) by done. cbn [obind cbs set_processor].
  rewrite Epop. cbn [obind Z.eqb negb]. rewrite Hct.
  set (p1 := mkProcessor (disableLocalIrqs (p_cpu p)) (p_regs p)).
  set (w1 := set_scheduler _ _ _).
  assert (Hp1 : processors w1 !! me = Some p1) by (unfold w1; cbn; by eapply insert_me).
  assert (Hs1 : schedulers w1 !! i = Some (set_tasks s q)) by (unfold w1; cbn; by eapply insert_me).
  (* what is common to the three ways out *)
  assert (Hfin : forall w' cur', (cur' = cur \/ cur' = 0) ->
    (cur' <> 0 -> isRunning w cur = true /\ cbs w' !! cur = cbs w !! cur) ->
    (cur' = 0 -> isRunning w cur = false /\ (cur <> 0 -> exists b, cbs w' !! cur = Some b /\ locked (runLock b) = false)) ->
    (forall x, x <> cur -> cbs w' !! x = cbs w !! x) ->
    (forall x, taskState w' x = taskState w x /\ taskPriority w' x = taskPriority w x) ->
    (exists st, schedulers w' = <[i := set_stack (set_current (set_tasks s q) cur') st]> (schedulers w) /\ hasStack st) ->
    cpuCount w' = cpuCount w -> pendingYields w' = pendingYields w ->
    (exists p', processors w' !! me = Some p' /\ getCpuNumber (p_cpu p') = Z.of_nat i) ->
    ready w' i cur' [] /\ yielded w w' i cur cur' (isRunning w cur) []).
  { intros w' cur' Hor Hsame Hgone Hoth Hst' (st & Hss & Hhs) Hcc Hpp Hpr. split; constructor; try done.
    - exists (set_stack (set_current (set_tasks s q) cur') st). rewrite Hss. split; [by eapply insert_me|].
      do 5 (split; [done|]). apply (holds_links (cbs w)); [done|]. intros x Hx. by apply elem_of_nil in Hx.
    - intros H0. split; [apply not_elem_of_nil|]. destruct Hor as [->| ->]; [|done].
      destruct (Hsame H0) as [_ ->]. apply (Hcur H0).
    - intros t Ht. by apply elem_of_nil in Ht.
    - intros x Hx. apply Hoth. rewrite not_elem_of_cons in Hx. tauto.
    - intros x. destruct (Hst' x) as [-> _]. case_decide as Hd.
      + destruct Hd as [-> Hd]. destruct Hor as [->| ->]; [|done]. destruct (Hsame Hd) as [Hr _].
        unfold isRunning in Hr. apply andb_true_iff in Hr as [_ Hr]. by apply bool_decide_eq_true in Hr.
      + case_decide as Hd2; [|done]. destruct Hd2 as [-> Hr]. exfalso.
        destruct (decide (cur' = 0)) as [->|Hne]; [destruct (Hgone eq_refl) as [Hg _]; by rewrite Hg in Hr|].
        apply Hd. split; [|done]. destruct Hor; congruence.
    - intros x. apply Hst'.
    - intros H1 H2. destruct Hor; congruence.
    - intros H1 H2. destruct Hor as [->|Hz]; [done|]. by apply (Hgone Hz).
    - intros j Hj. rewrite Hss. by rewrite list_lookup_insert_ne. }
  assert (Hss1 : forall cur', cur' = cur -> exists st,
    schedulers w1 = <[i := set_stack (set_current (set_tasks s q) cur') st]> (schedulers w) /\ hasStack st).
  { intros cur' ->. exists (schedulerStack s). split; [|done]. unfold w1. cbn. f_equal. destruct s; cbn in *; by subst. }
  destruct (Z.eqb_spec cur 0) as [Hc0|Hc0].
  - assert (Hnr : isRunning w cur = false) by by rewrite Hc0. rewrite Hnr in *.
    rewrite (setCpu_eq w1 p1) by done. cbn [obind]. eexists. split; [done|].
    apply Hfin; try done; [by right|by apply Hss1|by eexists; split; [by eapply insert_me|]].
  - destruct (Hcur Hc0) as (_ & b & Hb & Hlb).
    assert (Hb1 : cbs w1 !! cur = Some b) by exact Hb.
    unfold getBlock. rewrite Hb1. cbn [of_option obind]. rewrite (isRunning_some w cur b Hb Hc0) in *.
    case_bool_decide as Hr; cbn [negb].
    + destruct (localIrqState (p_cpu p)); cbn [finishYield].
      * rewrite (getProcessor_eq w1 p1 Hp1). cbn [obind]. rewrite (setCpu_eq w1 p1 _ Hp1). cbn [obind].
        eexists. split; [done|]. apply Hfin; try done; [by left|by apply Hss1|]. by eexists; split; [by eapply insert_me|].
      * cbn [obind]. eexists. split; [done|]. apply Hfin; try done; [by left|by apply Hss1|]. by exists p1.
    + destruct (swapRegisters_eq w1 cur cur p1 b b (AfterIdleSave (localIrqState (p_cpu p)) i) Hp1 Hb1 Hb1)
        as (w2 & lf & lt & Esw & Ecbs & _ & Hlt & Esch & Ecnt & Epend & Efr & p2 & Hp2 & Hn2 & _); [done|].
      rewrite decide_True in Ecbs by done. rewrite Esw. cbn [obind]. unfold resume. rewrite Efr, lookup_insert_eq.
      unfold getBlock. rewrite Ecbs, lookup_insert_eq. cbn [of_option obind state set_runLock set_registers].
      rewrite bool_decide_eq_false_2 by done. cbn [negb].
      edestruct (idle_eq w2 i (set_tasks s q) p2) as (w3 & l3 & st & Eid & Hl3 & E1 & E2 & Hst3 & E3 & E4 & p3 & Hp3 & Hn3);
        [by rewrite Esch|exact Hp2|cbn [currentTask set_tasks]; rewrite Hct, Ecbs; by rewrite lookup_insert_eq|done|].
      exists w3. split; [done|]. cbn [currentTask set_tasks] in E1. rewrite Hct, Ecbs, insert_insert_eq in E1.
      apply Hfin; [by right|done| | | |exists st; split; [by rewrite E2, Esch; unfold w1; cbn; rewrite list_insert_insert_eq|done]
        |by rewrite E3, Ecnt|by rewrite E4, Epend|].
      * intros _. split; [done|]. intros _. rewrite E1, lookup_insert_eq. eexists. split; [done|]. exact Hl3.
      * intros x Hx. rewrite E1. by rewrite lookup_insert_ne by congruence.
      * intros x. unfold taskState, taskPriority. rewrite E1. destruct (decide (x = cur)) as [->|Hx].
        -- rewrite lookup_insert_eq. change (cbs w1) with (cbs w). by rewrite Hb.
        -- by rewrite lookup_insert_ne by congruence.
      * exists p3. split; [done|]. rewrite Hn3, Hn2. exact Hpn.
Qed.

Lemma yield_run w i cur l :
  ready w i cur l ->
  let '(f, (cur', l')) := yieldSpec cur (isRunning w cur) l in
  exists w', Scheduler_yield w i = Ok (f, w') /\ ready w' i cur' l' /\ yielded w w' i cur cur' (isRunning w cur) l.
Proof.
  intros H. destruct l as [|t l]; cbn [yieldSpec].
  - destruct (yield_alone w i cur H) as (w' & E & H1 & H2). destruct (isRunning w cur); by exists w'.
  - by apply yield_switch.
Qed.

(** ** addTask *)

(** The store and queue after the task was put in: the state [yield] then
    works on, or the final one. *)
Lemma ready_enqueued w i s p cur l l' task bt m q c a :
  ready w i cur l -> schedulers w !! i = Some s -> processors w !! me = Some p ->
  cbs w !! task = Some bt -> locked (runLock bt) = false -> task ∉ cur :: l ->
  holds m q l' -> (forall x, x ∈ l' <-> x = task \/ x ∈ l) ->
  onlyLinks (<[task := set_state bt RUNNABLE]> (cbs w)) m (task :: l) ->
  locked a = false -> getCpuNumber c = getCpuNumber (p_cpu p) ->
  let w1 := mkWorld m (<[i := set_addTaskLock (set_tasks s q) a]> (schedulers w)) (cpuCount w)
    (<[me := mkProcessor c (p_regs p)]> (processors w)) (frames w) (pendingYields w) in
  ready w1 i cur l' /\
  (forall x, x ∉ task :: l -> cbs w1 !! x = cbs w !! x) /\
  (forall x, taskState w1 x = if decide (x = task) then Some RUNNABLE else taskState w x) /\
  (forall x, taskPriority w1 x = taskPriority w x) /\ isRunning w1 cur = isRunning w cur.
Proof.
  intros [Hsch Hcpu Hcur Hqueue] Hs Hp Hbt Hlt Hnin Hh Hin [Ho1 Ho2] Ha Hc w1.
  destruct Hsch as (s' & Hs' & Hct & Hyl & Hal & Hcn & Hst & Hhold). assert (s' = s) as -> by congruence.
  apply not_elem_of_cons in Hnin as [Htc Htl].
  assert (Hoth : forall x, x ∉ task :: l -> cbs w1 !! x = cbs w !! x).
  { intros x Hx. cbn. rewrite Ho1 by done. apply not_elem_of_cons in Hx as [? ?]. by rewrite lookup_insert_ne. }
  assert (Hblk : forall x b, x <> task -> cbs w !! x = Some b -> exists n, m !! x = Some (set_next b n)).
  { intros x b Hx Hb. destruct (Ho2 x) as [E|(b' & n & E1 & E2)].
    - exists (next b). by rewrite E, lookup_insert_ne, Hb, set_next_self.
    - exists n. rewrite lookup_insert_ne in E1 by done. rewrite E2. by simplify_eq. }
  assert (Htask : exists n, m !! task = Some (set_next (set_state bt RUNNABLE) n)).
  { destruct (Ho2 task) as [E|(b' & n & E1 & E2)].
    - exists (next bt). rewrite E, lookup_insert_eq. by destruct bt.
    - exists n. rewrite lookup_insert_eq in E1. rewrite E2. by simplify_eq. }
  assert (Hstate : forall x, taskState w1 x = if decide (x = task) then Some RUNNABLE else taskState w x).
  { intros x. unfold taskState. cbn [cbs w1]. case_decide as Hx; [subst; by destruct Htask as [n ->]|].
    destruct (cbs w !! x) as [b|] eqn:Eb.
    - by destruct (Hblk x b Hx Eb) as [n ->].
    - destruct (Ho2 x) as [->|(b' & n & E1 & _)]; [by rewrite lookup_insert_ne, Eb|].
      rewrite lookup_insert_ne in E1 by done. congruence. }
  split; [constructor|split; [exact Hoth|split; [exact Hstate|split]]].
  - eexists. split; [by eapply insert_me|]. done.
  - eexists. split; [by eapply insert_me|]. cbn. rewrite Hc. destruct Hcpu as (p' & Hp' & Hn). by simplify_eq.
  - intros H0. destruct (Hcur H0) as (Hcl & b & Hb & Hlb). split.
    + intros Hx. apply Hin in Hx as [Hx|Hx]; [congruence|done].
    + destruct (Hblk cur b ltac:(congruence) Hb) as [n Hn]. eexists. split; [exact Hn|done].
  - intros x Hx. apply Hin in Hx as [->|Hx].
    + destruct Htask as [n Hn]. eexists. split; [exact Hn|]. done.
    + destruct (Hqueue x Hx) as (b & Hb & H1 & H2).
      destruct (Hblk x b ltac:(intros ->; done) Hb) as [n Hn]. eexists. split; [exact Hn|]. done.
  - intros x. unfold taskPriority. cbn [cbs w1]. destruct (decide (x = task)) as [->|Hx].
    + destruct Htask as [n ->]. by rewrite Hbt.
    + destruct (cbs w !! x) as [b|] eqn:Eb; [by destruct (Hblk x b Hx Eb) as [n ->]|].
      destruct (Ho2 x) as [->|(b' & n & E1 & _)]; [by rewrite lookup_insert_ne, Eb|].
      rewrite lookup_insert_ne in E1 by done. congruence.
  - unfold isRunning. rewrite Hstate, decide_False by congruence. done.
Qed.

(** Adding a task that is not more urgent only puts it in the queue, even
    while yielding is locked. *)
Lemma addTask_quiet w i s p task bt m q :
  schedulers w !! i = Some s -> processors w !! me = Some p -> locked (addTaskLock s) = false ->
  cbs w !! task = Some bt -> task <> currentTask s -> preempts w (currentTask s) task = false ->
  push (disableLocalIrqs (p_cpu p)) (<[task := set_state bt RUNNABLE]> (cbs w)) (tasks s) task = Ok (m, (disableLocalIrqs (p_cpu p), q)) ->
  Scheduler_addTask w i task = Ok (Returns, mkWorld m
    (<[i := set_addTaskLock (set_tasks s q) (mkSpinlock 0 (localIrqState (p_cpu p)))]> (schedulers w)) (cpuCount w)
    (<[me := mkProcessor (p_cpu p) (p_regs p)]> (processors w)) (frames w) (pendingYields w)).
Proof.
  intros Hs Hp Hal Hbt Htc Hpre E. unfold Scheduler_addTask. rewrite (updTask_eq w task bt) by done. cbn [obind].
  unfold getScheduler, set_cbs. cbn [schedulers cbs]. rewrite Hs. cbn [of_option obind]. rewrite (getProcessor_eq _ p) by done.
  cbn [obind]. rewrite acquire_free by done. cbn [obind]. unfold preempts in Hpre. apply orb_false_iff in Hpre as [Hrun Hprio].
  apply negb_false_iff in Hrun. assert (H0 : currentTask s <> 0) by (intros H0; by rewrite H0 in Hrun).
  destruct (cbs w !! currentTask s) as [bc|] eqn:Hbc;
    [|unfold isRunning, taskState in Hrun; rewrite Hbc in Hrun; by rewrite andb_false_r in Hrun].
  rewrite (isRunning_some w _ bc Hbc H0) in Hrun. rewrite (proj2 (Z.eqb_neq _ _)) by done.
  unfold getBlock. rewrite lookup_insert_ne, Hbc by congruence. cbn [of_option obind]. rewrite Hrun. cbn [negb].
  rewrite lookup_insert_eq. cbn [of_option obind]. unfold taskPriority in Hprio. rewrite Hbc, Hbt in Hprio. cbn in Hprio.
  change (priority (set_state bt RUNNABLE)) with (priority bt). rewrite Hprio, E. cbn [obind]. rewrite release_acquire by done. unfold set_scheduler. cbn [schedulers cpuCount processors frames pendingYields cbs].
  by rewrite (setCpu_eq _ p) by done.
Qed.

Lemma addTask_run w i cur l task bt :
  ready w i cur l -> task <> 0 -> task ∉ cur :: l -> cbs w !! task = Some bt -> locked (runLock bt) = false ->
  let '(f, (cur', l')) := addSpec cur (isRunning w cur) (preempts w cur task) l task in
  exists w', Scheduler_addTask w i task = Ok (f, w') /\ ready w' i cur' l' /\ added w w' i cur cur' task l.
Proof.
  intros Hready Ht0 Hnin Hbt Hlt.
  pose proof Hready as [(s & Hs & Hct & Hyl & Hal & Hcn & Hst & Hhold) (p & Hp & Hpn) Hcur Hqueue].
  pose proof Hnin as Hnin'. apply not_elem_of_cons in Hnin' as [Htc Htl].
  assert (Hhold1 : holds (<[task := set_state bt RUNNABLE]> (cbs w)) (tasks s) l) by by apply (holds_update _ _ _ _ bt).
  unfold addSpec. destruct (preempts w cur task) eqn:Epr.
  - assert (Hpre : (if currentTask s =? 0 then Ok true
       else
         let! b := getBlock (<[task := set_state bt RUNNABLE]> (cbs w)) (currentTask s) in
         if negb (bool_decide (state b = RUNNING)) then Ok true
         else let! t := getBlock (<[task := set_state bt RUNNABLE]> (cbs w)) task in Ok (priority b <? priority t))
       = Ok true).
    { rewrite Hct. destruct (Z.eqb_spec cur 0) as [Hc|Hc]; [done|].
      destruct (Hcur Hc) as (_ & b & Hb & _). unfold getBlock. rewrite lookup_insert_ne, Hb by congruence.
      cbn [of_option obind]. rewrite lookup_insert_eq.
      rewrite <- Epr. unfold preempts, taskPriority. rewrite (isRunning_some w cur b Hb Hc), Hb, Hbt.
      by destruct (bool_decide (state b = RUNNING)). }
    unfold Scheduler_addTask. rewrite (updTask_eq w task bt) by done. cbn [obind]. unfold getScheduler, set_cbs.
    cbn [schedulers cbs]. rewrite Hs. cbn [of_option obind]. rewrite (getProcessor_eq _ p) by done. cbn [obind].
    rewrite acquire_free by done. cbn [obind]. rewrite Hpre. cbn [obind].
    destruct (push_front_spec (disableLocalIrqs (p_cpu p)) _ (tasks s) l task Hhold1 Htl Ht0) as (m & q & E & Hh & Ho);
      [rewrite lookup_insert_eq; eauto|].
    rewrite E. cbn [obind]. rewrite release_acquire by done. unfold set_scheduler. cbn [schedulers cpuCount processors frames pendingYields cbs].
    rewrite (setCpu_eq _ p) by done. cbn [obind]. unfold set_processor. cbn [schedulers cpuCount processors frames pendingYields cbs].
    rewrite Hcn, Hpn, Z.eqb_refl.
    destruct (ready_enqueued w i s p cur l (task :: l) task bt m q (p_cpu p) (mkSpinlock 0 (localIrqState (p_cpu p))))
      as (R1 & R2 & R3 & R4 & R5); try done.
    { intros x. apply elem_of_cons. }
    { split; [|apply Ho]. intros x Hx. apply Ho. rewrite list_elem_of_singleton. intros ->. apply Hx. by left. }
    set (w1 := mkWorld m _ _ _ _ _) in *.
    destruct (yield_switch w1 i cur task l R1) as (w' & Ey & Hr' & [Y1 Y2 Y3 Y4 Y7 Y5 Y6]).
    exists w'. rewrite R5 in *. split; [exact Ey|]. split; [exact Hr'|]. constructor.
    + intros x Hx. rewrite !not_elem_of_cons in Hx. destruct Hx as (? & ? & ?).
      rewrite Y1 by (rewrite !not_elem_of_cons; done). apply R2. by rewrite not_elem_of_cons.
    + intros x. rewrite Y2, R3. rewrite (decide_True (P := task = task)) by done.
      destruct (decide (x = task)) as [->|Hx]; [by rewrite decide_True|].
      rewrite (decide_False (P := x = task /\ task <> 0)) by tauto.
      destruct (decide (x = cur /\ isRunning w cur = true)); [by rewrite decide_True by tauto|].
      by rewrite decide_False by tauto.
    + intros x. by rewrite Y3, R4.
    + intros j Hj. rewrite Y5 by done. cbn. by rewrite list_lookup_insert_ne.
    + exact Y6.
    + exact Y7.
  - destruct (push_spec (disableLocalIrqs (p_cpu p)) _ (tasks s) l task Hhold1 Htl Ht0) as (m & q & E & Hh & Ho);
      [rewrite lookup_insert_eq; eauto|].
    rewrite (addTask_quiet w i s p task bt m q) by (done || congruence).
    destruct (ready_enqueued w i s p cur l (l ++ [task]) task bt m q (p_cpu p) (mkSpinlock 0 (localIrqState (p_cpu p))))
      as (R1 & R2 & R3 & R4 & R5); try done.
    { intros x. rewrite elem_of_app, list_elem_of_singleton. tauto. }
    { split; [|apply Ho]. intros x Hx. apply Ho. apply not_elem_of_cons in Hx. tauto. }
    eexists. split; [done|]. split; [exact R1|]. constructor.
    + intros x Hx. apply R2. rewrite !not_elem_of_cons in *. tauto.
    + intros x. rewrite R3. destruct (decide (x = task)); [by rewrite (decide_False (P := cur = task)) by congruence|].
      by rewrite decide_False by (intros (_ & _ & ?); congruence).
    + exact R4.
    + intros j Hj. cbn. by rewrite list_lookup_insert_ne.
    + done.
    + done.
Qed.

(** ** block, tick, getLeastBusy *)

Lemma ready_update w i cur l t b b' :
  ready w i cur l -> cbs w !! t = Some b -> next b' = next b -> runLock b' = runLock b -> t ∉ l ->
  ready (set_cbs w (<[t := b']> (cbs w))) i cur l.
Proof.
  intros [(s & Hs & Hct & Hyl & Hal & Hcn & Hst & Hhold) Hcpu Hcur Hqueue] Hb Hn Hl Ht. constructor.
  - exists s. do 6 (split; [done|]). by apply (holds_update _ _ _ _ b).
  - exact Hcpu.
  - intros H0. destruct (Hcur H0) as (H1 & x & Hx & H2). split; [done|]. cbn.
    destruct (decide (cur = t)) as [->|Hne]; [rewrite lookup_insert_eq; simplify_eq; eexists; split; [done|congruence]|].
    rewrite lookup_insert_ne by done. eauto.
  - intros x Hx. cbn. rewrite lookup_insert_ne by (intros ->; done). by apply Hqueue.
Qed.

Lemma block_run w i cur l :
  ready w i cur l -> cur <> 0 ->
  exists b, cbs w !! cur = Some b /\
    Scheduler_block w i = Ok (cur, set_cbs w (<[cur := set_state b BLOCKING]> (cbs w))) /\
    ready (set_cbs w (<[cur := set_state b BLOCKING]> (cbs w))) i cur l.
Proof.
  intros Hr H0. pose proof Hr as [(s & Hs & Hct & _) _ Hcur _]. destruct (Hcur H0) as (Hcl & b & Hb & _).
  exists b. split; [done|]. split; [|by apply (ready_update w i cur l cur b)].
  unfold Scheduler_block, getScheduler. rewrite Hs. cbn [of_option obind]. rewrite Hct, (updTask_eq w cur b) by done. done.
Qed.

(** A tick that does not end the time slice only counts it down. *)
Lemma tick_run w i cur l b :
  ready w i cur l -> cbs w !! cur = Some b -> cur <> 0 -> state b = RUNNING ->
  let w1 := set_cbs w (<[cur := set_timeSlice b (u32 (timeSlice b - 1))]> (cbs w)) in
  ready w1 i cur l /\
  Scheduler_tick w i = if u32 (timeSlice b - 1) =? 0 then Scheduler_yield w1 i else Ok (Returns, w1).
Proof.
  intros Hr Hb H0 Hs w1. pose proof Hr as [(s & Hsc & Hct & Hyl & _) _ Hcur _]. destruct (Hcur H0) as (Hcl & _).
  split; [by apply (ready_update w i cur l cur b)|].
  unfold Scheduler_tick, getScheduler. rewrite Hsc. cbn [of_option obind].
  rewrite Hyl, Hct, (proj2 (Z.eqb_neq cur 0)) by done. unfold getBlock. rewrite Hb. cbn [of_option obind].
  rewrite bool_decide_eq_true_2 by done. cbn [negb]. by rewrite (updTask_eq w cur b).
Qed.

Lemma leastBusy_loop_spec w c n : forall i best,
  (forall j, (i <= j < i + n)%nat -> taskCount w j = Ok (c j) /\ 0 <= c j) -> 0 <= c best ->
  exists k, leastBusy_loop n w i best (c best) = Ok k /\ (k = best \/ (i <= k < i + n)%nat) /\
    c k <= c best /\ forall j, (i <= j < i + n)%nat -> c k <= c j.
Proof.
  induction n as [|n IH]; intros i best Hc Hb; cbn [leastBusy_loop].
  - exists best. split; [done|]. split; [by left|]. split; [lia|]. intros; lia.
  - destruct (Z.eqb_spec (c best) 0) as [Hz|Hz].
    { exists best. split; [done|]. split; [by left|]. split; [lia|]. intros j Hj. destruct (Hc j Hj). lia. }
    destruct (Hc i ltac:(lia)) as [Hci Hci0]. rewrite Hci. cbn [obind].
    destruct (Z.ltb_spec (c i) (c best)) as [Hlt|Hge].
    + cbn [obind]. destruct (IH (S i) i) as (k & -> & H1 & H2 & H3); [intros j Hj; apply Hc; lia|lia|].
      exists k. split; [done|]. split; [lia|]. split; [lia|]. intros j Hj.
      destruct (decide (j = i)) as [->|]; [lia|]. apply H3. lia.
    + destruct (IH (S i) best) as (k & -> & H1 & H2 & H3); [intros j Hj; apply Hc; lia|lia|].
      exists k. split; [done|]. split; [lia|]. split; [lia|]. intros j Hj.
      destruct (decide (j = i)) as [->|]; [lia|]. apply H3. lia.
Qed.

Lemma yields_rotate n : forall w i cur l,
  ready w i cur l -> isRunning w cur = true ->
  exists w', yields n w i = Ok w' /\ ready w' i (fst (rotate n cur l)) (snd (rotate n cur l)) /\
    isRunning w' (fst (rotate n cur l)) = true.
Proof.
  induction n as [|n IH]; intros w i cur l Hr Hrun; cbn [yields rotate]; [by exists w|].
  pose proof (yield_run w i cur l Hr) as Hy. rewrite Hrun in Hy.
  destruct l as [|t l]; cbn [yieldSpec] in Hy.
  - destruct Hy as (w1 & E & Hr1 & [_ Y2 _ _ _ _ _]). rewrite E. cbn [obind].
    assert (Hc0 : cur <> 0) by (intros ->; done).
    assert (Hrun1 : isRunning w1 cur = true).
    { unfold isRunning. rewrite (proj2 (Z.eqb_neq cur 0)), Y2 by done. by rewrite decide_True. }
    destruct (IH w1 i cur [] Hr1 Hrun1) as (w' & Ew & H). exists w'. split; [exact Ew|].
    by destruct n.
  - destruct Hy as (w1 & E & Hr1 & [_ Y2 _ _ _ _ _]). rewrite E. cbn [obind].
    apply IH; [done|].
    assert (Ht0 : t <> 0).
    { destruct Hr as [(s & _ & _ & _ & _ & _ & _ & Hh) _ _ _]. intros ->. apply (qh_null _ _ _ Hh). by left. }
    unfold isRunning. rewrite (proj2 (Z.eqb_neq t 0)), Y2 by done. by rewrite decide_True.
Qed.

Lemma rotate_reaches k : forall cur l t, l !! k = Some t -> fst (rotate (S k) cur l) = t.
Proof.
  induction k as [|k IH]; intros cur [|x l] t Hk; try done.
  - by injection Hk as <-.
  - cbn in Hk. change (fst (rotate (S k) x (l ++ [cur])) = t). apply IH.
    by apply lookup_app_l_Some.
Qed.

(** The ticks a task may still run for: none counts as 2^32. *)
Definition slicesLeft (b : ControlBlock) : Z := if timeSlice b =? 0 then 2 ^ 32 else timeSlice b.

Lemma ticks_run n : forall w i cur l b,
  ready w i cur l -> cbs w !! cur = Some b -> cur <> 0 -> state b = RUNNING ->
  0 <= timeSlice b < 2 ^ 32 -> Z.of_nat n < slicesLeft b ->
  exists w' b', ticks n w i = Ok w' /\ ready w' i cur l /\ cbs w' !! cur = Some b' /\ state b' = RUNNING /\
    0 <= timeSlice b' < 2 ^ 32 /\ slicesLeft b' = slicesLeft b - Z.of_nat n.
Proof.
  change (2 ^ 32) with 4294967296. induction n as [|n IH]; intros w i cur l b Hr Hb H0 Hs Hts Hn; cbn [ticks].
  - exists w, b. split; [done|]. do 4 (split; [done|]). lia.
  - destruct (tick_run w i cur l b Hr Hb H0 Hs) as [Hr1 Ht]. rewrite Ht.
    assert (Hu : u32 (timeSlice b - 1) = slicesLeft b - 1).
    { unfold slicesLeft in *. change (2 ^ 32) with 4294967296 in *. destruct (Z.eqb_spec (timeSlice b) 0) as [->|]; [done|]. apply u32_small. lia. }
    assert (Hle : slicesLeft b <= 4294967296) by (unfold slicesLeft; change (2 ^ 32) with 4294967296; zcase; lia).
    rewrite Hu, (proj2 (Z.eqb_neq (slicesLeft b - 1) 0)) by lia. cbn [obind].
    destruct (IH (set_cbs w (<[cur := set_timeSlice b (slicesLeft b - 1)]> (cbs w))) i cur l (set_timeSlice b (slicesLeft b - 1)))
      as (w' & b' & E & H1 & H2 & H3 & H4 & H5); [by rewrite <- Hu|cbn; by rewrite lookup_insert_eq|done|done|cbn; lia| |].
    { unfold slicesLeft at 1. cbn. rewrite (proj2 (Z.eqb_neq _ 0)) by lia. lia. }
    exists w', b'. split; [exact E|]. do 4 (split; [done|]). rewrite H5. unfold slicesLeft at 1. cbn [timeSlice set_timeSlice].
    rewrite (proj2 (Z.eqb_neq _ 0)) by lia. lia.
Qed.

(** ** Properties *)

(** [C17] [Scheduler::yield] implements its abstract specification: the first
    waiting task runs next with a fresh time slice and holds its run lock; a
    task that was still running goes to the tail of the queue as RUNNABLE, one
    that blocked does not; with nobody waiting a running task goes on and a
    blocked one leaves the processor idle. Queue discipline, run locks, states
    and priorities of all other tasks are kept, whatever the queue holds. While
    yields are locked [yield] changes nothing and returns, but it is remembered:
    [unlock] makes it up. *)
Theorem yield_refines w i cur l :
  (ready w i cur l ->
   let '(f, (cur', l')) := yieldSpec cur (isRunning w cur) l in
   exists w', Scheduler_yield w i = Ok (f, w') /\ ready w' i cur' l' /\ yielded w w' i cur cur' (isRunning w cur) l) /\
  (forall s, schedulers w !! i = Some s -> yieldLocked s = true ->
   let w' := set_scheduler w i (set_yield s true true) in
   Scheduler_yield w i = Ok (Returns, w') /\
   Scheduler_unlock w' i = Scheduler_yield (set_scheduler w i (set_yield s false false)) i).
Proof.
  split; [apply yield_run|]. intros s Hs Hl w'. unfold Scheduler_unlock, Scheduler_yield at 1, getScheduler. rewrite Hs. cbn [of_option obind].
  rewrite Hl. cbn [negb]. split; [done|]. unfold w', set_scheduler at 1. cbn [schedulers].
  rewrite list_lookup_insert_eq by (by eapply lookup_lt_Some). cbn [of_option obind set_yield yieldPostponed].
  unfold set_scheduler. cbn [cbs schedulers cpuCount processors frames pendingYields]. by rewrite list_insert_insert_eq.
Qed.

(** [C18] Round robin: with the current task running and [t] at position [k] of
    the queue, [t] is the current task after exactly [k + 1] yields, whatever
    the queue length: no runnable task starves. *)
Theorem round_robin w i cur l k t :
  ready w i cur l -> isRunning w cur = true -> l !! k = Some t ->
  exists w' l', yields (S k) w i = Ok w' /\ ready w' i t l' /\ isRunning w' t = true.
Proof.
  intros Hr Hrun Hk. destruct (yields_rotate (S k) w i cur l Hr Hrun) as (w' & E & H1 & H2).
  rewrite (rotate_reaches k cur l t Hk) in *. eauto.
Qed.

(** [getLeastBusy] returns a processor with the fewest tasks among all
    running processors and the caller's own (the early exit on an idle
    processor included). *)
Theorem getLeastBusy_min w i c :
  ownIndex w = Ok i -> taskCount w i = Ok (c i) -> 0 <= c i ->
  (forall j, (j < Z.to_nat (cpuCount w))%nat -> taskCount w j = Ok (c j) /\ 0 <= c j) ->
  exists k, getLeastBusy w = Ok k /\ (k = i \/ (k < Z.to_nat (cpuCount w))%nat) /\
    c k <= c i /\ forall j, (j < Z.to_nat (cpuCount w))%nat -> c k <= c j.
Proof.
  intros Hi Hci H0 Hc. unfold getLeastBusy. rewrite Hi. cbn [obind]. rewrite Hci. cbn [obind].
  destruct (leastBusy_loop_spec w c (Z.to_nat (cpuCount w)) 0 i) as (k & E & H1 & H2 & H3); [|done|].
  { intros j Hj. apply Hc. lia. }
  exists k. split; [exact E|]. split; [destruct H1; [by left|right; lia]|]. split; [done|].
  intros j Hj. apply H3. lia.
Qed.

(** [C40] Time slicing: a running task is switched away from by exactly the tick
    that uses up its slice, and by no earlier one. A slice of 0, the value a
    task has that never went through [yield] (the boot tasks), counts as 2^32
    ticks. *)
Theorem tick_slices w i cur l b n :
  ready w i cur l -> cbs w !! cur = Some b -> cur <> 0 -> state b = RUNNING ->
  0 <= timeSlice b < 2 ^ 32 -> Z.of_nat n < slicesLeft b ->
  exists w' w1, ticks n w i = Ok w' /\ ready w' i cur l /\ ready w1 i cur l /\
    Scheduler_tick w' i = if Z.of_nat n + 1 =? slicesLeft b then Scheduler_yield w1 i else Ok (Returns, w1).
Proof.
  intros Hr Hb H0 Hs Hts Hn.
  destruct (ticks_run n w i cur l b Hr Hb H0 Hs Hts Hn) as (w' & b' & E & Hr' & Hb' & Hs' & Hts' & Hl).
  destruct (tick_run w' i cur l b' Hr' Hb' H0 Hs') as [Hr1 Ht].
  exists w', (set_cbs w' (<[cur := set_timeSlice b' (u32 (timeSlice b' - 1))]> (cbs w'))).
  split; [done|]. split; [done|]. split; [done|]. rewrite Ht.
  assert (Hu : u32 (timeSlice b' - 1) = slicesLeft b' - 1).
  { unfold slicesLeft in *. change (2 ^ 32) with 4294967296 in *. destruct (Z.eqb_spec (timeSlice b') 0) as [->|]; [done|]. apply u32_small. lia. }
  rewrite Hu, Hl. destruct (Z.eqb_spec (slicesLeft b - Z.of_nat n - 1) 0), (Z.eqb_spec (Z.of_nat n + 1) (slicesLeft b)); done || lia.
Qed.
End Calls.

(** One processor running task 1 with tasks 2 and 3 waiting, and a second,
    idle processor. *)
Definition aTask (held : bool) (s : State) (prio nxt : Z) : ControlBlock :=
  mkControlBlock Registers_zero 0 (mkSpinlock (if held then 1 else 0) false) s 5 prio nxt.

Definition aWorld : World :=
  mkWorld (<[1 := aTask true RUNNING 2 0]> (<[2 := aTask false RUNNABLE 2 3]> (<[3 := aTask false RUNNABLE 2 0]> ∅)))
    [mkScheduler 0 (mkQueue Spinlock_init 2 3 2) 4096 1 Spinlock_init false false;
     mkScheduler 1 Queue_init 8192 0 Spinlock_init false false] 2
    [mkProcessor (mkCpu 512 0) Registers_zero; mkProcessor (mkCpu 512 1) Registers_zero] ∅ [].

Lemma aWorld_ready : ready 0 Fault aWorld 0 1 [2; 3].
Proof.
  constructor.
  - eexists. split; [reflexivity|]. do 4 (split; [vm_compute; done|]). split; [left; cbn; lia|].
    constructor; try reflexivity.
    + by apply (bool_decide_unpack (0 ∉ [2; 3])).
    + intros x Hx. apply elem_of_cons in Hx as [->|Hx]; [by eexists|].
      apply list_elem_of_singleton in Hx as ->. by eexists.
    + intros [|[|i]] x y Hx Hy; [|done|done]. injection Hx as <-. injection Hy as <-. by eexists.
    + by apply (bool_decide_unpack (NoDup [2; 3])).
  - eexists. split; reflexivity.
  - intros _. split; [by apply (bool_decide_unpack (1 ∉ [2; 3]))|]. by eexists.
  - intros t Ht. apply elem_of_cons in Ht as [->|Ht]; [by eexists|].
    apply list_elem_of_singleton in Ht as ->. by eexists.
Qed.

Lemma yield_refines_witness :
  exists w', Scheduler_yield 0 Fault aWorld 0 = Ok (Runs 2, w') /\ ready 0 Fault w' 0 2 [3; 1].
Proof.
  destruct (proj1 (yield_refines 0 Fault aWorld 0 1 [2; 3]) aWorld_ready) as (w' & E & H & _).
  exists w'. split; [exact E|exact H].
Defined.

Lemma round_robin_witness : exists w' l', yields 0 Fault 2 aWorld 0 = Ok w' /\ ready 0 Fault w' 0 3 l'.
Proof.
  destruct (round_robin 0 Fault aWorld 0 1 [2; 3] 1 3 aWorld_ready) as (w' & l' & E & H & _).
  - vm_compute. reflexivity.
  - reflexivity.
  - exists w', l'. split; [exact E|exact H].
Defined.

Lemma getLeastBusy_min_witness : getLeastBusy 0 aWorld = Ok 1%nat.
Proof.
  destruct (getLeastBusy_min 0 aWorld 0 (fun j => match j with O => 3 | _ => 0 end)) as (k & E & Hk & _ & H).
  - vm_compute. reflexivity.
  - vm_compute. reflexivity.
  - lia.
  - intros [|[|j]] Hj; [split; [vm_compute; reflexivity|lia]|split; [vm_compute; reflexivity|lia]|].
    exfalso. vm_compute in Hj. lia.
  - destruct k as [|[|k]]; [|exact E|].
    + exfalso. specialize (H 1%nat). cbn in H. lia.
    + exfalso. change (Z.to_nat (cpuCount aWorld)) with 2%nat in Hk. lia.
Defined.

Lemma tick_slices_witness :
  exists w1, ready 0 Fault w1 0 1 [2; 3] /\
    (let! w' := ticks 0 Fault 4 aWorld 0 in Scheduler_tick 0 Fault w' 0) = Scheduler_yield 0 Fault w1 0.
Proof.
  destruct (tick_slices 0 Fault aWorld 0 1 [2; 3] (aTask true RUNNING 2 0) 4 aWorld_ready) as (w' & w1 & E & _ & H1 & H2).
  - reflexivity.
  - lia.
  - reflexivity.
  - cbn. lia.
  - cbn. lia.
  - exists w1. split; [exact H1|]. rewrite E. exact H2.
Defined.
