(* ===== verification/Sync.v ===== *)
(** * Blocking synchronisation ([mutex.h], [mutex.cpp], [completion.h],
    [completion.cpp], [queue.h], [cleaner.cpp], [threadDestroyer.cpp])

    The calls work on the scheduler's [World]. A call that blocks ends with
    the scheduler's flow; what the caller does after it is resumed is a
    separate definition ([UQueue_popResume]). *)

From Stdlib Require Import ZArith Lia String.
From stdpp Require Import base tactics numbers gmap list.
From S2P Require Import Prelude Spinlock TaskQueue Scheduler.

Open Scope Z_scope.

Section Sync.
Context (me : nat) (allocateStack : outcome Z).

(** Spinlocks taken by the executing processor. *)
Definition spinAcquire (w : World) (l : Spinlock) : outcome (World * Spinlock) :=
  let! p := getProcessor me w in
  let! '(c, l) := Spinlock.acquire (p_cpu p) l in
  let! w := setCpu me w c in Ok (w, l).

Definition spinRelease (w : World) (l : Spinlock) : outcome (World * Spinlock) :=
  let! p := getProcessor me w in
  let '(c, l) := Spinlock.release (p_cpu p) l in
  let! w := setCpu me w c in Ok (w, l).

(** Task queue operations by the executing processor. *)
Definition queuePush (w : World) (q : Queue) (t : Z) : outcome (World * Queue) :=
  let! p := getProcessor me w in
  let! '(m, (c, q)) := push (p_cpu p) (cbs w) q t in
  let! w := setCpu me (set_cbs w m) c in Ok (w, q).

Definition queuePop (w : World) (q : Queue) : outcome (Z * (World * Queue)) :=
  let! p := getProcessor me w in
  let! '(t, (c, q)) := pop (p_cpu p) (cbs w) q in
  let! w := setCpu me w c in Ok (t, (w, q)).

(** ** lock::Mutex *)

Record Mutex := mkMutex { spinlock : Spinlock; m_lock : bool; blockedTasks : Queue }.

Definition Mutex_init : Mutex := mkMutex Spinlock_init false Queue_init.

Definition Mutex_acquire (w : World) (m : Mutex) : outcome (Flow * (World * Mutex)) :=
  let! '(w, l) := spinAcquire w (spinlock m) in
  if negb (m_lock m) then
    let! '(w, l) := spinRelease w l in
    Ok (Returns, (w, mkMutex l true (blockedTasks m)))
  else
    let! '(t, w) := block me w in
    let! '(w, q) := queuePush w (blockedTasks m) t in
    let! '(w, l) := spinRelease w l in
    let! '(f, w) := yield me allocateStack w in
    Ok (f, (w, mkMutex l (m_lock m) q)).

Definition Mutex_release (w : World) (m : Mutex) : outcome (Flow * (World * Mutex)) :=
  let! '(w, l) := spinAcquire w (spinlock m) in
  let! '(nextTask, (w, q)) := queuePop w (blockedTasks m) in
  if nextTask =? 0 then
    let! '(w, l) := spinRelease w l in
    Ok (Returns, (w, mkMutex l false q))
  else
    let! '(w, l) := spinRelease w l in
    let! '(f, w) := addTask me allocateStack w nextTask in
    Ok (f, (w, mkMutex l (m_lock m) q)).

(** ** async::Completion *)

Record Completion := mkCompletion { c_lock : Spinlock; waitingTasks : Queue; completed : bool }.

Definition Completion_init : Completion := mkCompletion Spinlock_init Queue_init false.

Definition Completion_await (w : World) (c : Completion) : outcome (Flow * (World * Completion)) :=
  let! '(w, l) := spinAcquire w (c_lock c) in
  if completed c then
    let! '(w, l) := spinRelease w l in
    Ok (Returns, (w, mkCompletion l (waitingTasks c) (completed c)))
  else
    let! '(t, w) := block me w in
    let! '(w, q) := queuePush w (waitingTasks c) t in
    let! '(w, l) := spinRelease w l in
    let! '(f, w) := yield me allocateStack w in
    Ok (f, (w, mkCompletion l q (completed c))).

(** The loop of [signalComplete], from the task popped last: [fuel] bounds
    the tasks woken. *)
Fixpoint wakeAll (fuel : nat) (w : World) (q : Queue) (nextTask : Z) : outcome (World * Queue) :=
  if nextTask =? 0 then Ok (w, q) else
  match fuel with
  | O => Hang
  | S fuel =>
      let! '(_, w) := addTask me allocateStack w nextTask in
      let! '(nextTask, (w, q)) := queuePop w q in
      wakeAll fuel w q nextTask
  end.

(** When [scheduler::unlock] switches to another task, [lock.release()] has
    not run yet: the completion keeps its lock until the caller is resumed. *)
Definition Completion_signalComplete (fuel : nat) (w : World) (c : Completion)
  : outcome (Flow * (World * Completion)) :=
  let! '(w, l) := spinAcquire w (c_lock c) in
  let! '(nextTask, (w, q)) := queuePop w (waitingTasks c) in
  let! w := lock me w in
  let! '(w, q) := wakeAll fuel w q nextTask in
  let! '(f, w) := unlock me allocateStack w in
  match f with
  | Returns =>
      let! '(w, l) := spinRelease w l in Ok (Returns, (w, mkCompletion l q true))
  | _ => Ok (f, (w, mkCompletion l q true))
  end.

(** ** util::Queue<T> *)

Section UQueue.
Context {T : Type}.

(** The elements by address; [nextNode] is where [new] puts the next one. *)
Record Nodes := mkNodes { nodes : gmap Z (T * Z); nextNode : Z }.

Record UQueue := mkUQueue { u_lock : Spinlock; u_waiting : Queue; u_head : Z; u_tail : Z }.

Definition UQueue_init : UQueue := mkUQueue Spinlock_init Queue_init 0 0.

Definition setNodeNext (h : Nodes) (p n : Z) : outcome Nodes :=
  let! '(v, _) := of_option (nodes h !! p) in
  Ok (mkNodes (<[p := (v, n)]> (nodes h)) (nextNode h)).

Definition UQueue_push (w : World) (h : Nodes) (u : UQueue) (value : T)
  : outcome (Flow * (World * (Nodes * UQueue))) :=
  let newElement := nextNode h in
  let h := mkNodes (<[newElement := (value, 0)]> (nodes h)) (newElement + 1) in
  let! '(w, l) := spinAcquire w (u_lock u) in
  if negb (u_tail u =? 0) then
    let! h := setNodeNext h (u_tail u) newElement in
    let! '(w, l) := spinRelease w l in
    Ok (Returns, (w, (h, mkUQueue l (u_waiting u) (u_head u) newElement)))
  else
    let! '(wokenUpTask, (w, q)) := queuePop w (u_waiting u) in
    let! '(w, l) := spinRelease w l in
    let! '(f, w) :=
      (if negb (wokenUpTask =? 0) then addTask me allocateStack w wokenUpTask else Ok (Returns, w)) in
    Ok (f, (w, (h, mkUQueue l q newElement newElement))).

(** [pop] from the point where the lock is held and the wait is over. *)
Definition UQueue_take (w : World) (h : Nodes) (u : UQueue) (l : Spinlock)
  : outcome (T * (World * (Nodes * UQueue))) :=
  let headElement := u_head u in
  let! u :=
    (if u_head u =? u_tail u then Ok (mkUQueue (u_lock u) (u_waiting u) 0 0)
     else let! '(_, n) := of_option (nodes h !! u_head u) in
          Ok (mkUQueue (u_lock u) (u_waiting u) n (u_tail u))) in
  let! '(w, l) := spinRelease w l in
  let! '(result, _) := of_option (nodes h !! headElement) in
  Ok (result, (w, (mkNodes (delete headElement (nodes h)) (nextNode h),
                   mkUQueue l (u_waiting u) (u_head u) (u_tail u)))).

Inductive PopResult := Popped (value : T) | Waits (f : Flow).

Definition UQueue_pop (w : World) (h : Nodes) (u : UQueue)
  : outcome (PopResult * (World * (Nodes * UQueue))) :=
  let! '(w, l) := spinAcquire w (u_lock u) in
  if u_head u =? 0 then
    let! '(t, w) := block me w in
    let! '(w, q) := queuePush w (u_waiting u) t in
    let! '(w, l) := spinRelease w l in
    let! '(f, w) := yield me allocateStack w in
    Ok (Waits f, (w, (h, mkUQueue l q (u_head u) (u_tail u))))
  else
    let! '(r, s) := UQueue_take w h u l in Ok (Popped r, s).

(** The rest of [pop] once the waiting task runs again. *)
Definition UQueue_popResume (w : World) (h : Nodes) (u : UQueue)
  : outcome (T * (World * (Nodes * UQueue))) :=
  let! '(w, l) := spinAcquire w (u_lock u) in
  UQueue_take w h u l.
End UQueue.

(** ** cleaner, thread::destroy *)

(** [object] and the handler, here by its number. *)
Record CleanerObject := mkCleanerObject { object : Z; handler : Z }.

Definition addObject (w : World) (h : Nodes (T := CleanerObject)) (queue : UQueue) (obj hdl : Z) :=
  UQueue_push w h queue (mkCleanerObject obj hdl).

(** [cleanerThread] from the start of its loop: it calls the handlers of the
    objects in the queue and waits when the queue is empty; [fuel] bounds the
    number of objects. *)
Fixpoint cleanerThread (fuel : nat) (w : World) (h : Nodes (T := CleanerObject)) (queue : UQueue)
  (handlers : CleanerObject -> World -> outcome World) : outcome (Flow * (World * (Nodes (T := CleanerObject) * UQueue))) :=
  match fuel with
  | O => Hang
  | S fuel =>
      let! '(r, (w, (h, queue))) := UQueue_pop w h queue in
      match r with
      | Waits f => Ok (f, (w, (h, queue)))
      | Popped object => let! w := handlers object w in cleanerThread fuel w h queue handlers
      end
  end.

(** [cleaner::init] with the address of [cleanerThread]. *)
Definition cleaner_init (w : World) (stack address entrypoint cr3_ : Z) : outcome (Flow * World) :=
  thread_create me allocateStack w stack address entrypoint 0 PRIORITY_LOW cr3_.

(** [destructionCode] for a task: wait for its run lock, free its stack
    ([freeStack] of the kernel heap) unless it has none, delete the block. *)
Definition destructionCode (w : World) (task : Z) (freeStack : Z -> outcome unit) : outcome World :=
  let! b := getBlock (cbs w) task in
  let! '(w, l) := spinAcquire w (runLock b) in
  let! '(w, l) := spinRelease w l in
  let! _ := (if negb (originalStackPointer b =? 0) then freeStack (originalStackPointer b) else Ok tt) in
  Ok (set_cbs w (delete task (cbs w))).

(** [thread::destroy]: returning from [yield] is a panic. *)
Definition thread_destroy (w : World) (h : Nodes (T := CleanerObject)) (queue : UQueue) (hdl : Z)
  : outcome (Flow * (World * (Nodes (T := CleanerObject) * UQueue))) :=
  let! p := getProcessor me w in
  let! w := setCpu me w (disableLocalIrqs (p_cpu p)) in
  let! '(currentTask, w) := block me w in
  let! '(f, (w, (h, queue))) := addObject w h queue currentTask hdl in
  match f with
  | Returns =>
      let! '(f, w) := yield me allocateStack w in
      match f with
      | Returns => Panic "thread::destroy somehow returned!?"
      | _ => Ok (f, (w, (h, queue)))
      end
  | _ => Ok (f, (w, (h, queue)))
  end.

(** ** Specification of the mutex

    One processor. [A] is the set of tasks that called [acquire] and have not
    called [release] since: those of them that are not blocked are inside the
    critical section. *)
Inductive mutex_step : World * Mutex * list Z -> World * Mutex * list Z -> Prop :=
| ms_acquire w m A cur f w' m' :
    getCurrentTask me w = Ok cur -> cur ∉ A -> Mutex_acquire w m = Ok (f, (w', m')) ->
    mutex_step (w, m, A) (w', m', cur :: A)
| ms_release w m A cur f w' m' :
    getCurrentTask me w = Ok cur -> cur ∈ A -> Mutex_release w m = Ok (f, (w', m')) ->
    mutex_step (w, m, A) (w', m', filter (fun t => t <> cur) A)
| ms_yield w m A f w' :
    yield me allocateStack w = Ok (f, w') -> mutex_step (w, m, A) (w', m, A)
| ms_tick w m A f w' :
    tick me allocateStack w = Ok (f, w') -> mutex_step (w, m, A) (w', m, A).

(** ** The executing processor *)

Lemma set_processor_id w p : processors w !! me = Some p -> set_processor w me p = w.
Proof. intros H. unfold set_processor. rewrite list_insert_id by done. by destruct w. Qed.

Lemma spinAcquire_eq w l p :
  processors w !! me = Some p -> locked l = false ->
  spinAcquire w l = Ok (set_processor w me (mkProcessor (disableLocalIrqs (p_cpu p)) (p_regs p)),
                        mkSpinlock 1 (localIrqState (p_cpu p))).
Proof.
  intros Hp Hl. unfold spinAcquire. rewrite (getProcessor_eq me w p Hp). cbn [obind].
  rewrite acquire_free by done. cbn [obind]. by rewrite (setCpu_eq me w p).
Qed.

Lemma spinRelease_eq w c r :
  processors w !! me = Some (mkProcessor (disableLocalIrqs c) r) ->
  spinRelease w (mkSpinlock 1 (localIrqState c)) = Ok (set_processor w me (mkProcessor c r), mkSpinlock 0 (localIrqState c)).
Proof.
  intros Hp. unfold spinRelease. rewrite (getProcessor_eq me w _ Hp). cbn [obind p_cpu].
  rewrite release_acquire by done. by rewrite (setCpu_eq me w _ _ Hp).
Qed.

Lemma queuePush_ok w q l t p :
  processors w !! me = Some p -> holds (cbs w) q l -> t ∉ l -> t <> 0 -> is_Some (cbs w !! t) ->
  exists m q', queuePush w q t = Ok (set_cbs w m, q') /\ holds m q' (l ++ [t]) /\ onlyLinks (cbs w) m l.
Proof.
  intros Hp Hh Ht H0 Hs. destruct (push_spec (p_cpu p) (cbs w) q l t Hh Ht H0 Hs) as (m & q' & E & H1 & H2).
  exists m, q'. split; [|done]. unfold queuePush. rewrite (getProcessor_eq me w p Hp). cbn [obind]. rewrite E. cbn [obind].
  rewrite (setCpu_eq me _ p) by done. cbn [obind].
  assert (mkProcessor (p_cpu p) (p_regs p) = p) as -> by by destruct p. by rewrite set_processor_id.
Qed.

Lemma queuePop_ok w q l p :
  processors w !! me = Some p -> holds (cbs w) q l ->
  exists q', queuePop w q = Ok (default 0 (list.head l), (w, q')) /\ holds (cbs w) q' (list.tail l).
Proof.
  intros Hp Hh. destruct (pop_spec (p_cpu p) (cbs w) q l Hh) as (q' & E & H1).
  exists q'. split; [|done]. unfold queuePop. rewrite (getProcessor_eq me w p Hp). cbn [obind]. rewrite E. cbn [obind].
  rewrite (setCpu_eq me _ p) by done. cbn [obind].
  assert (mkProcessor (p_cpu p) (p_regs p) = p) as -> by by destruct p. by rewrite set_processor_id.
Qed.

(** Changing only the interrupt flag, or only other tasks. *)
Lemma ready_processor w i cur l p :
  ready me allocateStack w i cur l -> is_Some (processors w !! me) -> getCpuNumber (p_cpu p) = Z.of_nat i ->
  ready me allocateStack (set_processor w me p) i cur l.
Proof.
  intros [H1 H2 H3 H4] [p0 Hp0] Hp. constructor; [exact H1| |exact H3|exact H4].
  exists p. split; [|done]. by eapply insert_me.
Qed.

Lemma ready_agree w i cur l m :
  ready me allocateStack w i cur l -> (forall x, x ∈ cur :: l -> m !! x = cbs w !! x) -> ready me allocateStack (set_cbs w m) i cur l.
Proof.
  intros [(s & Hs & Hct & Hyl & Hal & Hcn & Hst & Hh) H2 H3 H4] Hm. constructor; [|exact H2| |].
  - exists s. do 6 (split; [done|]). apply (holds_links (cbs w)); [done|]. intros x Hx. cbn. rewrite Hm by by right. done.
  - intros H0. cbn. rewrite Hm by by left. by apply H3.
  - intros t Ht. cbn. rewrite Hm by by right. by apply H4.
Qed.

(** A queue keeps its tasks when only its last task's link may change. *)
Lemma holds_last cbs cbs' q l y :
  holds cbs q (l ++ [y]) -> (forall x, x ∈ l -> next <$> cbs' !! x = next <$> cbs !! x) -> is_Some (cbs' !! y) ->
  holds cbs' q (l ++ [y]).
Proof.
  intros [H1 H2 H3 H4 H5 H6 H7 H8] H Hy. constructor; try done.
  - intros x Hx. apply elem_of_app in Hx as [Hx|Hx]; [|by apply list_elem_of_singleton in Hx as ->].
    specialize (H x Hx). destruct (H6 x ltac:(apply elem_of_app; by left)) as [b Hb]. rewrite Hb in H.
    destruct (cbs' !! x) eqn:E; [eauto|done].
  - intros i x z Hx Hz. destruct (H7 i x z Hx Hz) as (b & Hb & Hn).
    assert (Hi : (S i < length (l ++ [y]))%nat) by by eapply lookup_lt_Some. rewrite length_app in Hi. cbn in Hi.
    rewrite lookup_app_l in Hx by lia. specialize (H x ltac:(by eapply list_elem_of_lookup_2)). rewrite Hb in H.
    destruct (cbs' !! x) as [b'|] eqn:E; [|done]. exists b'. split; [done|]. cbn in H. congruence.
Qed.

(** With one processor [addTask] is its own scheduler's. *)
Lemma addTask_one w s p t :
  schedulers w !! 0%nat = Some s -> processors w !! me = Some p -> getCpuNumber (p_cpu p) = 0 ->
  (currentTask s <> 0 -> is_Some (cbs w !! currentTask s)) -> cpuCount w = 1 ->
  addTask me allocateStack w t = Scheduler_addTask me allocateStack w 0 t.
Proof.
  intros Hs Hp Hn Hcur Hc. unfold addTask, getLeastBusy, ownIndex.
  rewrite (getProcessor_eq me w p Hp). cbn [obind]. rewrite Hn. change (Z.to_nat 0) with 0%nat.
  assert (Ht : exists n, taskCount w 0 = Ok n).
  { unfold taskCount, getScheduler. rewrite Hs. cbn [of_option obind].
    destruct (Z.eqb_spec (currentTask s) 0) as [|H0]; [eauto|]. destruct (Hcur H0) as (b & Hb). unfold getBlock.
    rewrite Hb. cbn [of_option obind]. destruct (negb _); eauto. }
  destruct Ht as [n Ht]. rewrite Ht. cbn [obind]. rewrite Hc. change (Z.to_nat 1) with 1%nat. cbn [leastBusy_loop].
  destruct (n =? 0); [done|]. rewrite Ht. cbn [obind]. by rewrite Z.ltb_irrefl.
Qed.

Lemma addTask_own w cur l t :
  ready me allocateStack w 0 cur l -> cpuCount w = 1 -> addTask me allocateStack w t = Scheduler_addTask me allocateStack w 0 t.
Proof.
  intros [(s & Hs & Hct & _) (p & Hp & Hn) Hcur _] Hc. apply (addTask_one w s p t Hs Hp Hn); [|done].
  rewrite Hct. intros H0. destruct (Hcur H0) as (_ & b & Hb & _). eauto.
Qed.

Lemma own_index w i cur l : ready me allocateStack w i cur l -> ownIndex me w = Ok i /\ getCurrentTask me w = Ok cur.
Proof.
  intros [(s & Hs & Hct & _) (p & Hp & Hn) _ _]. unfold getCurrentTask, ownIndex.
  rewrite (getProcessor_eq me w p Hp). cbn [obind]. rewrite Hn, Nat2Z.id. split; [done|].
  unfold getScheduler. rewrite Hs. cbn [of_option obind]. by rewrite Hct.
Qed.

(** ** One processor between two scheduling points

    [live]: nothing can run or the current task has not blocked. [detached]:
    tasks that are blocked, hold no run lock and are neither current nor in
    the run queue. *)
Definition live (w : World) (cur : Z) (l : list Z) : Prop := (cur = 0 /\ l = []) \/ isRunning w cur = true.

Definition detached (w : World) (cl l : list Z) : Prop :=
  forall t, t ∈ l -> t ∉ cl /\ t <> 0 /\
    exists b, cbs w !! t = Some b /\ state b = BLOCKING /\ locked (runLock b) = false.

(** The waiting tasks [bl] of a blocking primitive with queue [q]. *)
Definition waiting (w : World) (q : Queue) (bl cl : list Z) : Prop :=
  holds (cbs w) q bl /\ detached w cl bl.

(** A call of the scheduler that made [extra] runnable: who runs then. A
    current task that had blocked is detached, other tasks are not touched. *)
Record resumes (w w' : World) (cur : Z) (l : list Z) (cur' : Z) (l' extra : list Z) : Prop := {
  re_count : cpuCount w' = 1;
  re_ready : ready me allocateStack w' 0 cur' l';
  re_live : live w' cur' l';
  re_untouched : forall x, x ∉ extra ++ cur :: l -> cbs w' !! x = cbs w !! x;
  re_tasks : forall x, x <> 0 -> x ∈ cur' :: l' <-> x ∈ extra \/ (x = cur /\ isRunning w cur = true) \/ x ∈ l;
  re_blocked : cur <> 0 -> taskState w cur = Some BLOCKING -> detached w' (cur' :: l') [cur];
  re_priority : forall x, taskPriority w' x = taskPriority w x
}.

Lemma isRunning_nonzero w cur : isRunning w cur = true -> cur <> 0.
Proof. by intros H ->. Qed.

Lemma ready_nonzero w cur l t : ready me allocateStack w 0 cur l -> t ∈ l -> t <> 0.
Proof. intros [(s & _ & _ & _ & _ & _ & _ & Hhl) _ _ _] Ht ->. by apply (qh_null _ _ _ Hhl). Qed.

Lemma yielded_resumes w w' cur l cur' l' :
  ready me allocateStack w 0 cur l -> cpuCount w = 1 -> ready me allocateStack w' 0 cur' l' ->
  yielded w w' 0 cur cur' (isRunning w cur) l ->
  (cur', l') = snd (yieldSpec cur (isRunning w cur) l) -> resumes w w' cur l cur' l' [].
Proof.
  intros Hr Hc Hr' [Y1 Y2 Y3 _ Y5 _ [Y6 _]] Es.
  assert (Hin : forall x, x <> 0 -> x ∈ cur' :: l' <-> (x = cur /\ isRunning w cur = true) \/ x ∈ l).
  { intros x Hx. destruct l as [|t l]; cbn in Es; destruct (isRunning w cur); injection Es as -> ->;
      rewrite ?elem_of_cons, ?elem_of_app, ?elem_of_cons, ?elem_of_nil; naive_solver. }
  constructor; [congruence|done| |exact Y1| | |exact Y3].
  - destruct (decide (cur' = 0)) as [->|H0].
    + left. split; [done|]. destruct l as [|t l]; cbn in Es; destruct (isRunning w cur) eqn:E; cbn in Es; simplify_eq; try done;
        exfalso; apply (ready_nonzero _ _ _ 0 Hr); (done || by left).
    + right. unfold isRunning. rewrite (proj2 (Z.eqb_neq cur' 0)), Y2 by done. by rewrite decide_True.
  - intros x Hx. rewrite Hin by done. rewrite elem_of_nil. tauto.
  - intros H0 Hb t Ht. apply list_elem_of_singleton in Ht as ->.
    destruct (rd_current _ _ _ _ _ _ Hr H0) as (Hcl & _).
    assert (Hnr : isRunning w cur = false).
    { unfold isRunning. rewrite Hb. by rewrite bool_decide_eq_false_2, andb_false_r. }
    assert (Hn : cur ∉ cur' :: l').
    { rewrite Hin, Hnr by done. naive_solver. }
    split; [done|]. split; [done|].
    destruct (Y5 H0) as (b & Hbb & Hlb); [intros ->; apply Hn; by left|]. exists b. split; [done|]. split; [|done].
    specialize (Y2 cur). rewrite !decide_False in Y2 by (rewrite ?Hnr; intros [? ?]; subst; (done || (apply Hn; by left))).
    unfold taskState in Y2 at 1. rewrite Hb, Hbb in Y2. cbn in Y2. congruence.
Qed.

Lemma own_yield w cur l : ready me allocateStack w 0 cur l -> yield me allocateStack w = Scheduler_yield me allocateStack w 0.
Proof. intros Hr. unfold yield. by destruct (own_index w 0 cur l Hr) as [-> _]. Qed.

Lemma yield_resumes w cur l :
  ready me allocateStack w 0 cur l -> cpuCount w = 1 ->
  exists f w' cur' l', yield me allocateStack w = Ok (f, w') /\ resumes w w' cur l cur' l' [] /\
    (isRunning w cur = false -> f <> Returns).
Proof.
  intros Hr Hc. rewrite (own_yield w cur l Hr). pose proof (yield_run me allocateStack w 0 cur l Hr) as Hy.
  destruct (yieldSpec cur (isRunning w cur) l) as [f [cur' l']] eqn:E. destruct Hy as (w' & Ey & Hr' & Hyd).
  exists f, w', cur', l'. split; [done|]. split; [|by intros Hn; rewrite Hn in E; destruct l; injection E as <- _].
  apply yielded_resumes; try done. by rewrite E.
Qed.


Lemma resumes_self w cur l : ready me allocateStack w 0 cur l -> cpuCount w = 1 -> live w cur l -> resumes w w cur l cur l [].
Proof.
  intros Hr Hc Hl. constructor; try done.
  - intros x Hx. rewrite elem_of_cons, elem_of_nil. destruct Hl as [[-> ->]|Hl]; [naive_solver|]. rewrite Hl. tauto.
  - intros H0 Hb. destruct Hl as [[-> _]|Hl]; [done|]. unfold isRunning in Hl. rewrite Hb in Hl.
    by rewrite bool_decide_eq_false_2, andb_false_r in Hl.
Qed.

(** Counting down the time slice of the current task changes nothing else. *)
Lemma resumes_slice w w' cur l cur' l' b n :
  cbs w !! cur = Some b ->
  resumes (set_cbs w (<[cur := set_timeSlice b n]> (cbs w))) w' cur l cur' l' [] -> resumes w w' cur l cur' l' [].
Proof.
  intros Hb [R1 R2 R3 R4 R5 R6 R7]. set (w1 := set_cbs w _) in *.
  assert (Hts : forall x, taskState w1 x = taskState w x /\ taskPriority w1 x = taskPriority w x).
  { intros x. unfold taskState, taskPriority, w1. cbn. destruct (decide (x = cur)) as [->|Hx];
      [by rewrite lookup_insert_eq, Hb|by rewrite lookup_insert_ne by congruence]. }
  assert (Hrun : isRunning w1 cur = isRunning w cur) by (unfold isRunning; by rewrite (proj1 (Hts cur))).
  constructor; try done.
  - intros x Hx. rewrite R4 by done. unfold w1. cbn. rewrite lookup_insert_ne; [done|]. intros ->. apply Hx. by left.
  - intros x Hx. rewrite R5, Hrun by done. done.
  - intros H0 Hs. apply R6; [done|]. by rewrite (proj1 (Hts cur)).
  - intros x. by rewrite R7, (proj2 (Hts x)).
Qed.

Lemma tick_resumes w cur l :
  ready me allocateStack w 0 cur l -> cpuCount w = 1 -> live w cur l ->
  exists f w' cur' l', tick me allocateStack w = Ok (f, w') /\ resumes w w' cur l cur' l' [].
Proof.
  intros Hr Hc Hl. unfold tick. destruct (own_index w 0 cur l Hr) as [-> _]. cbn [obind].
  pose proof (resumes_self w cur l Hr Hc Hl) as Hself.
  destruct Hl as [[-> ->]|Hrun].
  - destruct Hr as [(s & Hs & Hct & Hyl & _) _ _ _]. unfold Scheduler_tick, getScheduler.
    rewrite Hs. cbn [of_option obind]. rewrite Hyl, Hct. cbn [Z.eqb]. by eexists _, _, 0, [].
  - pose proof (isRunning_nonzero w cur Hrun) as Hc0.
    destruct (rd_current _ _ _ _ _ _ Hr Hc0) as (Hcl & b & Hbc & _).
    pose proof (isRunning_some w cur b Hbc Hc0) as Hs. rewrite Hrun in Hs. symmetry in Hs. apply bool_decide_eq_true in Hs.
    destruct (tick_run me allocateStack w 0 cur l b Hr Hbc Hc0 Hs) as [Hr1 Et]. rewrite Et.
    set (w1 := set_cbs w _) in *.
    assert (Hrun1 : isRunning w1 cur = true).
    { rewrite (isRunning_some w1 cur (set_timeSlice b (u32 (timeSlice b - 1)))); [by rewrite bool_decide_eq_true_2| |done].
      unfold w1. cbn. by rewrite lookup_insert_eq. }
    destruct (_ =? 0).
    + destruct (yield_resumes w1 cur l Hr1 Hc) as (f & w' & cur' & l' & E & Hre & _).
      rewrite (own_yield w1 cur l Hr1) in E. exists f, w', cur', l'. split; [done|]. by eapply resumes_slice.
    + eexists _, w1, cur, l. split; [done|]. eapply resumes_slice; [done|]. apply resumes_self; [done|done|by right].
Qed.

Lemma addTask_resumes w cur l t bt :
  ready me allocateStack w 0 cur l -> cpuCount w = 1 -> t <> 0 -> t ∉ cur :: l -> cbs w !! t = Some bt -> locked (runLock bt) = false ->
  exists f w' cur' l', addTask me allocateStack w t = Ok (f, w') /\ resumes w w' cur l cur' l' [t] /\
    (isRunning w cur = false -> f <> Returns).
Proof.
  intros Hr Hc Ht0 Htn Hbt Hlt. rewrite (addTask_own w cur l t Hr Hc).
  pose proof (addTask_run me allocateStack w 0 cur l t bt Hr Ht0 Htn Hbt Hlt) as Ha.
  destruct (addSpec cur (isRunning w cur) (preempts w cur t) l t) as [f [cur' l']] eqn:Es.
  destruct Ha as (w' & E & Hr' & [A1 A2 A3 _ [A5 _] A6]). exists f, w', cur', l'. split; [done|].
  apply not_elem_of_cons in Htn as [Htc Htl].
  assert (Hin : forall x, x <> 0 -> x ∈ cur' :: l' <-> x = t \/ (x = cur /\ isRunning w cur = true) \/ x ∈ l).
  { intros x Hx. unfold addSpec in Es. destruct (preempts w cur t) eqn:Ep; [destruct (isRunning w cur)|]; injection Es as <- <- <-;
      rewrite ?elem_of_cons, ?elem_of_app, ?list_elem_of_singleton, ?elem_of_nil; [naive_solver..|].
    unfold preempts in Ep. apply orb_false_iff in Ep as [Ep _]. apply negb_false_iff in Ep. rewrite Ep. naive_solver. }
  split; [|unfold addSpec, preempts in Es; intros Hn; rewrite Hn in Es; cbn in Es; by injection Es as <- _ _].
  constructor; [congruence|done| |exact A1| | |exact A3].
  - right. unfold addSpec in Es. destruct (preempts w cur t) eqn:Ep; injection Es as <- <- <-; unfold isRunning; rewrite A2.
    + rewrite (proj2 (Z.eqb_neq t 0)) by done. by rewrite !decide_True.
    + unfold preempts in Ep. apply orb_false_iff in Ep as [Ep _]. apply negb_false_iff in Ep.
      rewrite decide_False by done. rewrite decide_False by (intros (_ & _ & ?); congruence). exact Ep.
  - intros x Hx. rewrite Hin by done. by rewrite list_elem_of_singleton.
  - intros H0 Hb y Hy. apply list_elem_of_singleton in Hy as ->.
    destruct (rd_current _ _ _ _ _ _ Hr H0) as (Hcl & _).
    assert (Hnr : isRunning w cur = false).
    { unfold isRunning. rewrite Hb. by rewrite bool_decide_eq_false_2, andb_false_r. }
    assert (Hn : cur ∉ cur' :: l') by (rewrite Hin, Hnr by done; naive_solver).
    split; [done|]. split; [done|].
    destruct (A6 H0) as (b & Hbb & Hlb); [intros ->; apply Hn; by left|]. exists b. split; [done|]. split; [|done].
    specialize (A2 cur). rewrite decide_False, decide_False in A2 by (rewrite ?Hnr; intros ?; intuition congruence).
    unfold taskState in A2 at 1. rewrite Hb, Hbb in A2. cbn in A2. congruence.
Qed.

(** Detached tasks stay so, and keep their place in a waiting queue. *)
Lemma resumes_detached w w' cur l cur' l' extra dl :
  resumes w w' cur l cur' l' extra -> detached w (extra ++ cur :: l) dl -> detached w' (cur' :: l') dl.
Proof.
  intros Hre Hd t Ht. destruct (Hd t Ht) as (H1 & H2 & b & H3 & H4). split; [|split; [done|]].
  - rewrite (re_tasks _ _ _ _ _ _ _ Hre) by done. rewrite elem_of_app, elem_of_cons in H1. tauto.
  - exists b. by rewrite (re_untouched _ _ _ _ _ _ _ Hre).
Qed.

Lemma resumes_waiting w w' cur l cur' l' extra q bl :
  resumes w w' cur l cur' l' extra -> waiting w q bl (extra ++ cur :: l) -> waiting w' q bl (cur' :: l').
Proof.
  intros Hre [Hh Hd]. split; [|by eapply resumes_detached].
  apply (holds_links (cbs w)); [done|]. intros x Hx. rewrite (re_untouched _ _ _ _ _ _ _ Hre); [done|]. by apply Hd.
Qed.

(** The current task blocks in a queue of waiting tasks and yields. The only
    change outside the scheduler is the link of the queue's last task. *)
Record blocked (w w' : World) (cur : Z) (l : list Z) (cur' : Z) (l' bl : list Z) (q' : Queue) : Prop := {
  bk_count : cpuCount w' = 1;
  bk_ready : ready me allocateStack w' 0 cur' l';
  bk_live : live w' cur' l';
  bk_untouched : forall x, x ∉ bl ++ cur :: l -> cbs w' !! x = cbs w !! x;
  bk_tasks : forall x, x <> 0 -> x ∈ cur' :: l' <-> x ∈ l;
  bk_waiting : waiting w' q' (bl ++ [cur]) (cur' :: l');
  bk_priority : forall x, taskPriority w' x = taskPriority w x
}.

Lemma spin_restore w p :
  processors w !! me = Some p ->
  set_processor (set_processor w me (mkProcessor (disableLocalIrqs (p_cpu p)) (p_regs p))) me (mkProcessor (p_cpu p) (p_regs p)) = w.
Proof.
  intros Hp. assert (mkProcessor (p_cpu p) (p_regs p) = p) as -> by by destruct p. unfold set_processor. cbn.
  rewrite list_insert_insert_eq, list_insert_id by done. by destruct w.
Qed.

Lemma spin_restore_cbs w p m :
  processors w !! me = Some p ->
  set_processor (set_cbs (set_processor w me (mkProcessor (disableLocalIrqs (p_cpu p)) (p_regs p))) m) me
    (mkProcessor (p_cpu p) (p_regs p)) = set_cbs w m.
Proof. intros Hp. rewrite <- (spin_restore (set_cbs w m) p) by done. done. Qed.

(** The state of the current task after [block], before [yield]. *)
Lemma block_own w cur l :
  ready me allocateStack w 0 cur l -> cur <> 0 ->
  exists b, cbs w !! cur = Some b /\ let w1 := set_cbs w (<[cur := set_state b BLOCKING]> (cbs w)) in
    block me w = Ok (cur, w1) /\ ready me allocateStack w1 0 cur l /\ taskState w1 cur = Some BLOCKING /\ isRunning w1 cur = false.
Proof.
  intros Hr H0. destruct (block_run me allocateStack w 0 cur l Hr H0) as (b & Hb & Eb & Hr1). exists b. split; [done|]. intros w1.
  assert (Hts : taskState w1 cur = Some BLOCKING) by (unfold taskState, w1; cbn; by rewrite lookup_insert_eq).
  split; [|split; [done|split; [done|]]].
  - unfold block. by destruct (own_index w 0 cur l Hr) as [-> _].
  - unfold isRunning. rewrite Hts. by rewrite bool_decide_eq_false_2, andb_false_r.
Qed.

Lemma block_in_queue w q bl p cur l :
  ready me allocateStack w 0 cur l -> cpuCount w = 1 -> cur <> 0 -> processors w !! me = Some p -> waiting w q bl (cur :: l) ->
  let w1 := set_processor w me (mkProcessor (disableLocalIrqs (p_cpu p)) (p_regs p)) in
  exists w2 m q', block me w1 = Ok (cur, w2) /\ queuePush w2 q cur = Ok (set_cbs w1 m, q') /\
    exists f w' cur' l', yield me allocateStack (set_cbs w m) = Ok (f, w') /\ f <> Returns /\
      blocked w w' cur l cur' l' bl q'.
Proof.
  intros Hr Hcnt Hcur0 Hp [Hh Hb] w1.
  pose proof (rd_cpu _ _ _ _ _ _ Hr) as (p' & Hp' & Hn). assert (p' = p) as -> by congruence.
  destruct (rd_current _ _ _ _ _ _ Hr Hcur0) as (Hcl & _).
  assert (Hr1 : ready me allocateStack w1 0 cur l) by (apply ready_processor; [done|eauto|done]).
  destruct (block_own w1 cur l Hr1 Hcur0) as (b & Hbc & Ebl & Hr2 & _).
  assert (Hcb : cur ∉ bl) by (intros Hx; destruct (Hb cur Hx) as [H _]; apply H; by left).
  destruct (queuePush_ok (set_cbs w1 (<[cur := set_state b BLOCKING]> (cbs w))) q bl cur
    (mkProcessor (disableLocalIrqs (p_cpu p)) (p_regs p))) as (m & q' & Epush & Hh' & Ho1 & Ho2);
    [cbn; by eapply insert_me|by apply (holds_update _ _ _ _ b)|done|done|cbn; rewrite lookup_insert_eq; eauto|].
  cbn [cbs set_cbs] in Ho1, Ho2.
  assert (Hmc : m !! cur = Some (set_state b BLOCKING)) by (rewrite Ho1 by done; by rewrite lookup_insert_eq).
  assert (Hr3 : ready me allocateStack (set_cbs w m) 0 cur l).
  { apply (ready_agree (set_cbs w (<[cur := set_state b BLOCKING]> (cbs w))) 0 cur l m).
    - by apply (ready_update me allocateStack w 0 cur l cur b).
    - intros x Hx. apply Ho1. intros Hxb. by destruct (Hb x Hxb). }
  assert (Hnr : isRunning (set_cbs w m) cur = false).
  { rewrite (isRunning_some _ cur (set_state b BLOCKING)) by done. by rewrite bool_decide_eq_false_2. }
  assert (Hpr : forall x, taskPriority (set_cbs w m) x = taskPriority w x).
  { intros x. unfold taskPriority. cbn. change (cbs w1) with (cbs w) in Hbc.
    assert (Hx : priority <$> <[cur := set_state b BLOCKING]> (cbs w) !! x = priority <$> cbs w !! x).
    { destruct (decide (x = cur)) as [->|Hne]; [by rewrite lookup_insert_eq, Hbc|by rewrite lookup_insert_ne by congruence]. }
    destruct (Ho2 x) as [->|(by' & n & E1 & ->)]; [done|]. rewrite E1 in Hx. by rewrite <- Hx. }
  destruct (yield_resumes (set_cbs w m) cur l Hr3 Hcnt) as (f & w' & cur' & l' & Ey & Hre & Hf).
  eexists _, m, q'. split; [exact Ebl|]. split; [exact Epush|]. exists f, w', cur', l'. split; [exact Ey|].
  split; [by apply Hf|]. pose proof Hre as [R1 R2 R3 R4 R5 R6 R7].
  assert (Hin : forall x, x <> 0 -> x ∈ cur' :: l' <-> x ∈ l).
  { intros x Hx. rewrite R5, Hnr, elem_of_nil by done. naive_solver. }
  assert (Hlocks : forall x, x ∈ bl -> exists n bx, cbs w !! x = Some bx /\ cbs w' !! x = Some (set_next bx n)).
  { intros x Hx. destruct (Hb x Hx) as (Hxc & _ & bx & Hbx & _). rewrite R4 by done. cbn [cbs set_cbs].
    assert (x <> cur) by (intros ->; apply Hxc; by left).
    destruct (Ho2 x) as [->|(by' & n & E1 & ->)].
    - rewrite lookup_insert_ne by congruence. exists (next bx), bx. by rewrite set_next_self.
    - rewrite lookup_insert_ne in E1 by congruence. exists n, bx. split; [done|]. by simplify_eq. }
  assert (Hst : taskState (set_cbs w m) cur = Some BLOCKING) by (unfold taskState; cbn; by rewrite Hmc).
  constructor; [done|done|done| |exact Hin| |intros x; by rewrite R7, Hpr].
  - intros x Hx. rewrite elem_of_app in Hx. rewrite R4 by (cbn; tauto). cbn. rewrite Ho1 by tauto.
    rewrite lookup_insert_ne; [done|]. intros ->. apply Hx. right. by left.
  - split.
    + apply (holds_last m); [done| |].
      * intros x Hx. rewrite R4; [done|]. cbn. by apply Hb.
      * destruct (R6 Hcur0 Hst cur) as (_ & _ & bc & -> & _); [by left|eauto].
    + intros x Hx. apply elem_of_app in Hx as [Hx|Hx]; [|by apply R6].
      destruct (Hb x Hx) as (Hxc & Hx0 & bx & Hbx & H1 & H2). split; [|split; [done|]].
      * rewrite Hin by done. intros Hxl. apply Hxc. by right.
      * destruct (Hlocks x Hx) as (n & bx' & E1 & ->). eexists. split; [done|]. by simplify_eq.
Qed.

Lemma blocked_detached w w' cur l cur' l' bl q' dl :
  blocked w w' cur l cur' l' bl q' -> detached w (bl ++ cur :: l) dl -> detached w' (cur' :: l') dl.
Proof.
  intros Hbk Hd t Ht. destruct (Hd t Ht) as (H1 & H2 & b & H3 & H4). split; [|split; [done|]].
  - rewrite (bk_tasks _ _ _ _ _ _ _ _ Hbk) by done. rewrite elem_of_app, elem_of_cons in H1. tauto.
  - exists b. by rewrite (bk_untouched _ _ _ _ _ _ _ _ Hbk).
Qed.

(** The current task keeps running, or another one does. *)
Lemma resumes_running w w' cur l cur' l' extra x :
  resumes w w' cur l cur' l' extra -> x <> 0 -> x ∈ extra \/ (x = cur /\ isRunning w cur = true) \/ x ∈ l ->
  isRunning w' cur' = true.
Proof.
  intros Hre H0 Hx. apply (re_tasks _ _ _ _ _ _ _ Hre) in Hx; [|done].
  destruct (re_live _ _ _ _ _ _ _ Hre) as [[-> ->]|]; [|done]. apply list_elem_of_singleton in Hx. congruence.
Qed.

(** ** The mutex *)

(** Who owns the mutex: a task that runs or waits to run; the other members
    of [A] are blocked in the mutex's queue. *)
Definition owned (m : Mutex) (A cl bl : list Z) : Prop :=
  if m_lock m then exists owner, owner <> 0 /\ owner ∈ cl /\ Permutation A (owner :: bl) else A = [] /\ bl = [].

Record mutex_at (w : World) (m : Mutex) (A : list Z) (cur : Z) (l bl : list Z) : Prop := {
  mi_count : cpuCount w = 1;
  mi_spin : locked (spinlock m) = false;
  mi_ready : ready me allocateStack w 0 cur l;
  mi_running : isRunning w cur = true;
  mi_waiting : waiting w (blockedTasks m) bl (cur :: l);
  mi_owned : owned m A (cur :: l) bl
}.

Definition mutex_inv (w : World) (m : Mutex) (A : list Z) : Prop := exists cur l bl, mutex_at w m A cur l bl.

(** A call of the scheduler that wakes nobody keeps the invariant. *)
Lemma mutex_inv_resumes w w' m A cur l bl cur' l' :
  mutex_at w m A cur l bl -> resumes w w' cur l cur' l' [] -> mutex_inv w' m A.
Proof.
  intros [Hc Hs Hr Hl Hw Hown] Hre. pose proof (isRunning_nonzero w cur Hl) as H0. exists cur', l', bl.
  constructor; [by eapply re_count|done|by eapply re_ready|eapply resumes_running; [done|exact H0|tauto]|by eapply resumes_waiting|].
  unfold owned in *. destruct (m_lock m); [|done]. destruct Hown as (owner & Hn & Ho & HP). exists owner. split; [done|].
  split; [|done]. rewrite (re_tasks _ _ _ _ _ _ _ Hre), Hl by done. rewrite elem_of_cons in Ho. tauto.
Qed.

Lemma mutex_inv_yield w m A :
  mutex_inv w m A -> exists f w', yield me allocateStack w = Ok (f, w') /\ mutex_inv w' m A.
Proof.
  intros (cur & l & bl & H). destruct (yield_resumes w cur l (mi_ready _ _ _ _ _ _ H) (mi_count _ _ _ _ _ _ H))
    as (f & w' & cur' & l' & E & Hre & _).
  exists f, w'. split; [exact E|]. by eapply mutex_inv_resumes.
Qed.

Lemma mutex_inv_tick w m A :
  mutex_inv w m A -> exists f w', tick me allocateStack w = Ok (f, w') /\ mutex_inv w' m A.
Proof.
  intros (cur & l & bl & H). destruct (tick_resumes w cur l (mi_ready _ _ _ _ _ _ H) (mi_count _ _ _ _ _ _ H))
    as (f & w' & cur' & l' & E & Hre); [right; apply H|].
  exists f, w'. split; [exact E|]. by eapply mutex_inv_resumes.
Qed.

Lemma mutex_inv_acquire w m A cur :
  mutex_inv w m A -> getCurrentTask me w = Ok cur -> cur ∉ A ->
  exists f w' m', Mutex_acquire w m = Ok (f, (w', m')) /\ mutex_inv w' m' (cur :: A).
Proof.
  intros (cur' & l & bl & [Hcnt Hspin Hr Hrun Hw Hown]) Hcur HA.
  destruct (own_index w 0 cur' l Hr) as [Hi Hc]. assert (cur' = cur) as -> by congruence.
  pose proof (rd_cpu _ _ _ _ _ _ Hr) as (p & Hp & Hn). pose proof (isRunning_nonzero w cur Hrun) as H0.
  unfold Mutex_acquire. rewrite (spinAcquire_eq w _ p) by done. cbn [obind]. unfold owned in Hown.
  destruct (m_lock m) eqn:El; cbn [negb].
  - destruct Hown as (owner & Ho0 & Ho & HP).
    assert (Hol : owner ∈ l).
    { apply elem_of_cons in Ho as [->|Ho]; [|done]. exfalso. apply HA. rewrite HP. by left. }
    destruct (block_in_queue w (blockedTasks m) bl p cur l) as (w2 & m2 & q' & Eb & Ep & f & w' & cur' & l' & Ey & _ & Hbk); try done.
    rewrite Eb. cbn [obind]. rewrite Ep. cbn [obind].
    rewrite (spinRelease_eq _ (p_cpu p) (p_regs p)) by (cbn; by eapply insert_me). cbn [obind].
    rewrite spin_restore_cbs, Ey by done. cbn [obind]. eexists _, _, _. split; [done|].
    destruct Hbk as [B1 B2 B3 B4 B5 B6 _]. exists cur', l', (bl ++ [cur]). apply B5 in Hol as Hol'; [|done].
    constructor; [done|done|done| |done|].
    + destruct B3 as [[-> ->]|]; [|done]. apply list_elem_of_singleton in Hol'. congruence.
    + unfold owned. cbn [m_lock]. exists owner. split; [done|]. split; [done|]. rewrite HP, Permutation_app_comm. cbn. apply Permutation_swap.
  - destruct Hown as [-> ->]. rewrite (spinRelease_eq _ (p_cpu p) (p_regs p)) by (cbn; by eapply insert_me). cbn [obind].
    rewrite spin_restore by done. eexists _, _, _. split; [done|]. exists cur, l, []. constructor; try done.
    unfold owned. cbn [m_lock]. exists cur. split; [done|]. split; [by left|done].
Qed.

Lemma filter_owner (A bl : list Z) cur :
  Permutation A (cur :: bl) -> cur ∉ bl -> Permutation (filter (fun t => t <> cur) A) bl.
Proof.
  intros HP Hn. rewrite HP. rewrite filter_cons_False by (intros H; by apply H).
  clear HP. assert (E : filter (fun t => t <> cur) bl = bl); [|by rewrite E].
  induction bl as [|x bl IH]; [done|]. apply not_elem_of_cons in Hn as [Hx Hn].
  rewrite filter_cons_True by congruence. by rewrite IH.
Qed.

(** The first waiting task can be handed to [addTask]. *)
Lemma waiting_first w q q' t bl cl :
  waiting w q (t :: bl) cl -> holds (cbs w) q' bl ->
  t <> 0 /\ t ∉ cl /\ waiting w q' bl (t :: cl) /\ exists b, cbs w !! t = Some b /\ locked (runLock b) = false.
Proof.
  intros [Hh Hd] Hh'. destruct (Hd t) as (H1 & H2 & b & H3 & _ & H4); [by left|].
  pose proof (qh_nodup _ _ _ Hh) as Hnd. apply NoDup_cons in Hnd as [Htb _].
  split; [done|]. split; [done|]. split; [|eauto]. split; [done|]. intros x Hx.
  destruct (Hd x) as (H5 & H6); [by right|]. split; [|done].
  rewrite elem_of_cons. intros [->|?]; done.
Qed.

Lemma mutex_inv_release w m A cur :
  mutex_inv w m A -> getCurrentTask me w = Ok cur -> cur ∈ A ->
  exists f w' m', Mutex_release w m = Ok (f, (w', m')) /\ mutex_inv w' m' (filter (fun t => t <> cur) A).
Proof.
  intros (cur' & l & bl & [Hcnt Hspin Hr Hrun Hw Hown]) Hcur HA.
  destruct (own_index w 0 cur' l Hr) as [Hi Hc]. assert (cur' = cur) as -> by congruence.
  pose proof (rd_cpu _ _ _ _ _ _ Hr) as (p & Hp & Hn). unfold owned in Hown.
  assert (Hcb : cur ∉ bl) by (intros Hx; destruct (proj2 Hw cur Hx) as [H _]; apply H; by left).
  destruct (m_lock m) eqn:El; [|destruct Hown as [-> _]; by apply elem_of_nil in HA].
  destruct Hown as (owner & Ho0 & Ho & HP).
  assert (owner = cur) as -> by (rewrite HP in HA; by apply elem_of_cons in HA as [->|HA]).
  pose proof (filter_owner A bl cur HP Hcb) as HA'.
  unfold Mutex_release. rewrite (spinAcquire_eq w _ p) by done. cbn [obind].
  destruct (queuePop_ok (set_processor w me (mkProcessor (disableLocalIrqs (p_cpu p)) (p_regs p))) (blockedTasks m) bl
    (mkProcessor (disableLocalIrqs (p_cpu p)) (p_regs p))) as (q' & Epop & Hq'); [cbn; by eapply insert_me|apply Hw|].
  rewrite Epop. cbn [obind]. change (holds (cbs w) q' (list.tail bl)) in Hq'.
  destruct bl as [|t bl]; cbn [list.head list.tail default] in *; cbn [from_option id] in *.
  - rewrite Z.eqb_refl, (spinRelease_eq _ (p_cpu p) (p_regs p)) by (cbn; by eapply insert_me). cbn [obind].
    rewrite spin_restore by done. eexists _, _, _. split; [done|]. exists cur, l, [].
    constructor; [done|done|done|done| |unfold owned; cbn [m_lock]; split; [by apply Permutation_nil_r in HA'|done]].
    split; [done|]. intros x Hx. by apply elem_of_nil in Hx.
  - destruct (waiting_first w _ q' t bl _ Hw Hq') as (Ht0 & Htn & Hwt & bt & Hbt & Hlt).
    rewrite (proj2 (Z.eqb_neq t 0)), (spinRelease_eq _ (p_cpu p) (p_regs p)) by (done || (cbn; by eapply insert_me)).
    cbn [obind]. rewrite spin_restore by done.
    destruct (addTask_resumes w cur l t bt) as (f & w' & cur' & l' & E & Hre & _); try done.
    rewrite E. cbn [obind]. eexists _, _, _. split; [done|]. exists cur', l', bl.
    constructor; [by eapply re_count|done|by eapply re_ready| |by eapply resumes_waiting|].
    + eapply (resumes_running _ _ _ _ _ _ _ t); [done|done|]. left. by left.
    + unfold owned. cbn [m_lock]. rewrite El. exists t. split; [done|]. split; [|done].
      apply (re_tasks _ _ _ _ _ _ _ Hre); [done|]. left. by left.
Qed.

Lemma mutex_inv_star a b : star mutex_step a b ->
  mutex_inv (fst (fst a)) (snd (fst a)) (snd a) -> mutex_inv (fst (fst b)) (snd (fst b)) (snd b).
Proof.
  apply (star_invariant mutex_step (fun x => mutex_inv (fst (fst x)) (snd (fst x)) (snd x))).
  intros x y Hx Hs. destruct Hs as [w m A cur f w' m' Hc HA E|w m A cur f w' m' Hc HA E|w m A f w' E|w m A f w' E]; cbn in *.
  - destruct (mutex_inv_acquire w m A cur Hx Hc HA) as (f' & w'' & m'' & E' & H). rewrite E in E'. by simplify_eq.
  - destruct (mutex_inv_release w m A cur Hx Hc HA) as (f' & w'' & m'' & E' & H). rewrite E in E'. by simplify_eq.
  - destruct (mutex_inv_yield w m A Hx) as (f' & w'' & E' & H). rewrite E in E'. by simplify_eq.
  - destruct (mutex_inv_tick w m A Hx) as (f' & w'' & E' & H). rewrite E in E'. by simplify_eq.
Qed.


(** ** Properties *)

(** [C19] The blocking mutex on one processor, after any interleaving of
    acquire, release, yield and timer ticks from a free mutex: at most one of
    the tasks that called [acquire] without [release] is not blocked (mutual
    exclusion across the hand-over), there is such a task whenever the mutex
    is taken (no wake-up is lost), the [lock] field says whether it is taken,
    and the running task's next call of acquire, release or yield neither
    faults nor hangs. *)
Theorem mutex_safe w0 cur0 l0 w m A :
  ready me allocateStack w0 0 cur0 l0 -> isRunning w0 cur0 = true -> cpuCount w0 = 1 ->
  star mutex_step (w0, Mutex_init, []) (w, m, A) ->
  (forall t1 t2, t1 ∈ A -> t2 ∈ A -> taskState w t1 <> Some BLOCKING -> taskState w t2 <> Some BLOCKING -> t1 = t2) /\
  (A <> [] -> exists t, t ∈ A /\ taskState w t <> Some BLOCKING) /\
  m_lock m = negb (bool_decide (A = [])) /\
  exists cur, getCurrentTask me w = Ok cur /\
    (cur ∉ A -> is_ok (Mutex_acquire w m) = true) /\ (cur ∈ A -> is_ok (Mutex_release w m) = true) /\
    is_ok (yield me allocateStack w) = true.
Proof.
  intros Hr0 Hrun0 Hc0 Hstar.
  assert (Hinv : mutex_inv w m A).
  { apply (mutex_inv_star (w0, Mutex_init, []) (w, m, A) Hstar). cbn. exists cur0, l0, [].
    constructor; [done|done|done|done| |done]. split; [apply holds_empty|]. intros t Ht. by apply elem_of_nil in Ht. }
  pose proof Hinv as (cur & l & bl & [_ _ Hr Hrun [Hh Hb] Hown]). unfold owned in Hown.
  assert (Hbl : forall t, t ∈ bl -> taskState w t = Some BLOCKING).
  { intros t Ht. destruct (Hb t Ht) as (_ & _ & b & Hbt & Hs & _). unfold taskState. rewrite Hbt. cbn. by rewrite Hs. }
  assert (Hcl : forall t, t ∈ cur :: l -> taskState w t <> Some BLOCKING).
  { intros t Ht. apply elem_of_cons in Ht as [->|Ht].
    - unfold isRunning in Hrun. apply andb_true_iff in Hrun as [_ Hrun]. apply bool_decide_eq_true in Hrun. by rewrite Hrun.
    - destruct (rd_queue _ _ _ _ _ _ Hr t Ht) as (b & Hbt & _ & Hs). unfold taskState. rewrite Hbt. cbn. by rewrite Hs. }
  split; [|split; [|split]].
  - intros t1 t2 H1 H2 N1 N2. destruct (m_lock m); [|destruct Hown as [-> _]; by apply elem_of_nil in H1].
    destruct Hown as (owner & _ & _ & HP). rewrite HP in H1, H2. apply elem_of_cons in H1 as [->|H1]; [|by rewrite Hbl in N1].
    apply elem_of_cons in H2 as [->|H2]; [done|by rewrite Hbl in N2].
  - intros HA. destruct (m_lock m); [|by destruct Hown]. destruct Hown as (owner & _ & Ho & HP). exists owner.
    split; [rewrite HP; by left|by apply Hcl].
  - destruct (m_lock m); [|destruct Hown as [-> _]; done]. destruct Hown as (owner & _ & _ & HP).
    rewrite bool_decide_eq_false_2; [done|]. intros ->. by apply Permutation_nil_cons in HP.
  - destruct (own_index w 0 cur l Hr) as [_ Hcur]. exists cur. split; [done|]. split; [|split].
    + intros HA. by destruct (mutex_inv_acquire w m A cur Hinv Hcur HA) as (f & w' & m' & -> & _).
    + intros HA. by destruct (mutex_inv_release w m A cur Hinv Hcur HA) as (f & w' & m' & -> & _).
    + by destruct (mutex_inv_yield w m A Hinv) as (f & w' & -> & _).
Qed.
End Sync.

(** Tasks 1, 2 and 3 on one processor, 1 running. *)
Definition oneCpu : World :=
  mkWorld (cbs aWorld) (schedulers aWorld) 1 (processors aWorld) (frames aWorld) [].

Lemma oneCpu_ready : ready 0 Fault oneCpu 0 1 [2; 3].
Proof. destruct aWorld_ready as [H1 H2 H3 H4]. by constructor. Qed.

(** Task 1 takes the mutex and yields; task 2 blocks on it, task 3 runs. *)
Lemma mutex_safe_witness :
  exists w m, star (mutex_step 0 Fault) (oneCpu, Mutex_init, []) (w, m, [2; 1]) /\
    taskState w 2 = Some BLOCKING /\ m_lock m = true.
Proof.
  eexists _, _. split; [|split].
  - eapply star_step; [eapply (ms_acquire 0 Fault oneCpu Mutex_init [] 1); [vm_compute; reflexivity|by apply not_elem_of_nil|vm_compute; reflexivity]|].
    eapply star_step; [eapply ms_yield; vm_compute; reflexivity|].
    eapply star_step; [eapply (ms_acquire 0 Fault _ _ [1] 2); [vm_compute; reflexivity|by apply (bool_decide_unpack (2 ∉ [1]))|vm_compute; reflexivity]|].
    apply star_refl.
  - vm_compute. reflexivity.
  - eapply (mutex_safe 0 Fault oneCpu 1 [2; 3] _ _ [2; 1] oneCpu_ready); [vm_compute; reflexivity|reflexivity|].
    eapply star_step; [eapply (ms_acquire 0 Fault oneCpu Mutex_init [] 1); [vm_compute; reflexivity|by apply not_elem_of_nil|vm_compute; reflexivity]|].
    eapply star_step; [eapply ms_yield; vm_compute; reflexivity|].
    eapply star_step; [eapply (ms_acquire 0 Fault _ _ [1] 2); [vm_compute; reflexivity|by apply (bool_decide_unpack (2 ∉ [1]))|vm_compute; reflexivity]|].
    apply star_refl.
Defined.

Definition noNodes : Nodes (T := Z) := mkNodes ∅ 4096.

(** Task 2 is urgent and runs; task 1 waits. *)
Definition urgentWorld : World :=
  mkWorld (<[2 := aTask true RUNNING 3 0]> (<[1 := aTask false RUNNABLE 2 3]> (<[3 := aTask false RUNNABLE 2 0]> ∅)))
    [mkScheduler 0 (mkQueue Spinlock_init 1 3 2) 4096 2 Spinlock_init false false] 1
    [mkProcessor (mkCpu 512 0) Registers_zero] ∅ [].

(** [signalComplete] unlocks the scheduler before it releases the completion:
    task 2 awaits, task 1 signals. *)
Definition signalTrace : outcome (Flow * (World * Completion)) :=
  let! '(_, (w, c)) := Completion_await 0 Fault urgentWorld Completion_init in
  Completion_signalComplete 0 Fault 8 w c.

(** Two consumers: task 1 waits for an element, task 2 pushes one (which wakes
    task 1) and pops it itself, then everybody yields. *)
Definition consumerTrace : outcome (World * (Nodes (T := Z) * UQueue)) :=
  let! '(_, (w, (h, u))) := UQueue_pop 0 Fault oneCpu noNodes UQueue_init in
  let! '(_, (w, (h, u))) := UQueue_push 0 Fault w h u 5 in
  let! '(_, (w, (h, u))) := UQueue_pop 0 Fault w h u in
  let! '(_, w) := yield 0 Fault w in
  let! '(_, w) := yield 0 Fault w in
  Ok (w, (h, u)).

(** Two hazards of these primitives. When a signalled task is more urgent
    than the signaller, [Completion::signalComplete] switches to it while it
    still holds the completion's spinlock, and that task's next [await] spins
    for ever. When a second consumer takes the element a waiting consumer of a
    [util::Queue] was woken for, the woken one dereferences null. *)
Theorem blocking_hazards :
  (exists w c, signalTrace = Ok (Runs 2, (w, c)) /\ locked (c_lock c) = true /\ getCurrentTask 0 w = Ok 2 /\
     Completion_await 0 Fault w c = Hang) /\
  (exists w h u, consumerTrace = Ok (w, (h, u)) /\ getCurrentTask 0 w = Ok 1 /\ UQueue_popResume 0 w h u = Fault).
Proof.
  split.
  - eexists _, _. split; [vm_compute; reflexivity|]. split; [reflexivity|]. split; vm_compute; reflexivity.
  - eexists _, _, _. split; [vm_compute; reflexivity|]. split; vm_compute; reflexivity.
Qed.
