(* ===== verification/Smp.v ===== *)
(** * Tasks on several processors ([scheduler.cpp], [threadDestroyer.cpp])

    [Scheduler::yield] cut at its accesses to shared state and interleaved
    with all other processors: every processor runs its own calls of [yield],
    and the running tasks block, wake each other, create and destroy tasks.
    [Scheduler.Scheduler_yield] is the same operation in one piece
    ([yield_steps]).

    A queue operation is one step, since it is done under the queue's
    spinlock, and so is [addTask] after its first write, under [addTaskLock].
    A task is woken or destroyed only after it has left its processor: the
    code does not make sure of that, and [early_wake] shows what happens
    otherwise. Stacks are not part of the states: [registers.S] uses the stack
    of the old task after it has unlocked it ([stack_in_use]). *)

From Stdlib Require Import ZArith Lia.
From stdpp Require Import base tactics numbers functions gmap list.
From S2P Require Import Prelude Spinlock TaskQueue Scheduler Sync.

Open Scope Z_scope.

(** ** yield, one access at a time *)

(** Where a processor is: in the code of a task, halted, or before one of the
    accesses of [yield]. [enable] is the local [enableLocalIrqs]. *)
Inductive YieldPc :=
| Executes (t : Z)
| Halted
| PopTask (from : Z) (enable : bool)
| Dispatch (from to : Z) (enable : bool)
| Requeue (from to : Z) (enable : bool)
| SaveRegisters (from to : Z) (f : Frame)
| UnlockTask (from to : Z)
| LockTask (to : Z)
| LoadRegisters (to : Z)
| Resume (to : Z)
| HaultCode (t : Z).

#[export] Instance YieldPc_eq_dec : EqDecision YieldPc.
Proof. intros p q. unfold Decision. repeat decide equality. Defined.

Section Smp.
(** The processor, which is also the number of its scheduler. *)
Context (me : nat) (allocateStack : outcome Z).

(** The second half of [restoreRegisters]. *)
Definition loadRegisters (w : World) (to : Z) : outcome World :=
  let! p := getProcessor me w in
  let! b := getBlock (cbs w) to in
  Ok (set_processor w me (mkProcessor (setFlags (p_cpu p) (TaskQueue.rflags (registers b))) (registers b))).

(** [switchToSchedulerStack(haultCode, context)] of scheduler [i]: from there
    on the processor is on the stack of that scheduler. *)
Definition switchToSchedulerStack (w : World) (i : nat) (context : Z) : outcome (YieldPc * World) :=
  let! s := getScheduler w i in
  let! w :=
    (if schedulerStack s =? 0
     then let! p := allocateStack in Ok (set_scheduler w i (set_stack s p))
     else Ok w) in
  Ok (HaultCode context, w).

(** [haultCode]. *)
Definition haultCode (w : World) (t : Z) : outcome World :=
  let! w := unlockTask me w t in
  let! p := getProcessor me w in
  setCpu me w (enableLocalIrqs (p_cpu p)).

(** The next access of the processor. Waiting for a run lock is [Hang]. *)
Definition yieldStep (w : World) (p : YieldPc) : outcome (YieldPc * World) :=
  match p with
  | Executes _ | Halted =>
      let! s := getScheduler w me in
      if negb (yieldLocked s) then
        let! pr := getProcessor me w in
        let! w := setCpu me w (disableLocalIrqs (p_cpu pr)) in
        Ok (PopTask (currentTask s) (localIrqState (p_cpu pr)), w)
      else Ok (p, set_scheduler w me (set_yield s true true))
  | PopTask from enable =>
      let! s := getScheduler w me in
      let! pr := getProcessor me w in
      let! '(to, (_, q)) := pop (p_cpu pr) (cbs w) (tasks s) in
      let w := set_scheduler w me (set_tasks s q) in
      if negb (to =? 0) then Ok (Dispatch from to enable, w)
      else if from =? 0 then
        let! w := setCpu me w (enableLocalIrqs (p_cpu pr)) in Ok (Halted, w)
      else
        let! b := getBlock (cbs w) from in
        if negb (bool_decide (state b = RUNNING)) then Ok (SaveRegisters from from (AfterIdleSave enable me), w)
        else let! w := finishYield me w enable in Ok (Executes from, w)
  | Dispatch from to enable =>
      let! w := updTask w to (fun b => set_timeSlice (set_state b RUNNING) INITIAL_TIME_SLICE) in
      let! s := getScheduler w me in
      Ok (if negb (from =? 0) then Requeue from to enable else LockTask to, set_scheduler w me (set_current s to))
  | Requeue from to enable =>
      let! pr := getProcessor me w in
      let! w := requeue w me (p_cpu pr) from in Ok (SaveRegisters from to (AfterSwap enable), w)
  | SaveRegisters from to f => let! w := saveRegisters me w from f in Ok (UnlockTask from to, w)
  | UnlockTask from to => let! w := unlockTask me w from in Ok (LockTask to, w)
  | LockTask to => let! w := lockTask me w to in Ok (LoadRegisters to, w)
  | LoadRegisters to => let! w := loadRegisters w to in Ok (Resume to, w)
  | Resume t =>
      match frames w !! t with
      | None => Ok (Executes t, w)
      | Some f =>
          let done := set_frames w (delete t (frames w)) in
          match f with
          | AfterSwap irqs => let! w := finishYield me done irqs in Ok (Executes t, w)
          | AfterIdleSave irqs i =>
              let! b := getBlock (cbs w) t in
              if negb (bool_decide (state b = RUNNING)) then
                let! '(current, w) := removeCurrent w i in switchToSchedulerStack w i current
              else let! w := finishYield me done irqs in Ok (Executes t, w)
          end
      end
  | HaultCode t => let! w := haultCode w t in Ok (Halted, w)
  end.

(** Whether the processor is inside [yield]. *)
Definition inYield (p : YieldPc) : bool := match p with Executes _ | Halted => false | _ => true end.

(** How many steps of [yield] are left at most. *)
Definition stepsLeft (p : YieldPc) : nat :=
  match p with
  | Executes _ | Halted => 0
  | HaultCode _ => 1 | Resume _ => 2 | LoadRegisters _ => 3 | LockTask _ => 4 | UnlockTask _ _ => 5
  | SaveRegisters _ _ _ => 6 | Requeue _ _ _ => 7 | Dispatch _ _ _ => 8 | PopTask _ _ => 9
  end.

(** [n] steps of this processor with the others at rest, stopping at the end
    of [yield]. *)
Fixpoint yieldSteps (n : nat) (w : World) (p : YieldPc) : outcome (YieldPc * World) :=
  match n with
  | O => Ok (p, w)
  | S n =>
      let! '(p, w) := yieldStep w p in
      if inYield p then yieldSteps n w p else Ok (p, w)
  end.

(** [addTask] after the state is set, up to the yield it asks for: where the
    task goes and whether somebody is preempted. *)
Definition enqueueTask (w : World) (i : nat) (task : Z) : outcome (bool * World) :=
  let! s := getScheduler w i in
  let! p := getProcessor me w in
  let! '(c, l) := acquire (p_cpu p) (addTaskLock s) in
  let! preempts :=
    (if currentTask s =? 0 then Ok true
     else
       let! b := getBlock (cbs w) (currentTask s) in
       if negb (bool_decide (state b = RUNNING)) then Ok true
       else let! t := getBlock (cbs w) task in Ok (priority b <? priority t)) in
  let! '(m, (c, q)) := (if preempts : bool then push_front c (cbs w) (tasks s) task else push c (cbs w) (tasks s) task) in
  let '(c, l) := release c l in
  let w := set_scheduler (set_cbs w m) i (set_addTaskLock (set_tasks s q) l) in
  let! w := setCpu me w c in
  Ok (preempts, w).
End Smp.

(** ** The machine

    All processors together. [places] says where every task is: it only
    records what the steps do with tasks. *)
Inductive Place := Absent | Queued (i : nat) | OnCpu (i : nat) | Parked | Adding.

#[export] Instance Place_eq_dec : EqDecision Place.
Proof. solve_decision. Defined.

Record Machine := mkMachine { world : World; pcs : list YieldPc; places : Z -> Place }.

(** What a step of processor [me] in [yield] does with tasks: it takes one
    from the queue, puts the one that yields back, and leaves a blocked one
    when its registers are saved and its lock released for good. *)
Definition relocate (me : nat) (w : World) (p p' : YieldPc) (pl : Z -> Place) : Z -> Place :=
  match p, p' with
  | PopTask _ _, Dispatch _ to _ => <[to := OnCpu me]> pl
  | Requeue from _ _, _ => if isRunning w from then <[from := Queued me]> pl else pl
  | UnlockTask from to, _ => if decide (from <> to /\ pl from = OnCpu me) then <[from := Parked]> pl else pl
  | HaultCode t, _ => <[t := Parked]> pl
  | _, _ => pl
  end.

Section Machine.
Context (allocateStack : outcome Z).

(** Any processor may begin a yield at any time, by its own call, in a timer
    interrupt or in a call from another processor. [addTask] may choose any
    scheduler. A task is woken or destroyed only when it is [Parked]: what
    happens otherwise is in [early_wake]. *)
Inductive machine_step : Machine -> Machine -> Prop :=
| ms_yield w ps pl me p p' w' : ps !! me = Some p -> yieldStep me allocateStack w p = Ok (p', w') ->
    machine_step (mkMachine w ps pl) (mkMachine w' (<[me := p']> ps) (relocate me w p p' pl))
| ms_block w ps pl me t t' w' : ps !! me = Some (Executes t) -> Scheduler_block w me = Ok (t', w') ->
    machine_step (mkMachine w ps pl) (mkMachine w' ps pl)
| ms_slice w ps pl me t w' : ps !! me = Some (Executes t) ->
    updTask w t (fun b => set_timeSlice b (u32 (timeSlice b - 1))) = Ok w' ->
    machine_step (mkMachine w ps pl) (mkMachine w' ps pl)
| ms_lock w ps pl me t w' : ps !! me = Some (Executes t) -> Scheduler_lock w me = Ok w' ->
    machine_step (mkMachine w ps pl) (mkMachine w' ps pl)
| ms_unlock w ps pl me t s : ps !! me = Some (Executes t) -> schedulers w !! me = Some s ->
    machine_step (mkMachine w ps pl) (mkMachine (set_scheduler w me (set_yield s false false)) ps pl)
| ms_create w ps pl t b : t <> 0 -> pl t = Absent -> locked (runLock b) = false ->
    machine_step (mkMachine w ps pl)
      (mkMachine (set_frames (set_cbs w (<[t := set_state b RUNNABLE]> (cbs w))) (delete t (frames w))) ps (<[t := Adding]> pl))
| ms_wake w ps pl t w' : pl t = Parked -> updTask w t (fun b => set_state b RUNNABLE) = Ok w' ->
    machine_step (mkMachine w ps pl) (mkMachine w' ps (<[t := Adding]> pl))
| ms_add w ps pl me i p t pre w' : ps !! me = Some p -> inYield p = false -> pl t = Adding -> (i < length ps)%nat ->
    enqueueTask me w i t = Ok (pre, w') ->
    machine_step (mkMachine w ps pl) (mkMachine w' ps (<[t := Queued i]> pl))
| ms_destroy w ps pl me t t' w' freeStack : ps !! me = Some (Executes t') -> pl t = Parked ->
    destructionCode me w t freeStack = Ok w' ->
    machine_step (mkMachine w ps pl) (mkMachine w' ps (<[t := Absent]> pl)).

(** ** The invariant *)

(** What the processors see of a task: its run lock, its state, its frame. *)
Definition view (w : World) (t : Z) : option (Spinlock * State) * option Frame :=
  ((fun b => (runLock b, state b)) <$> cbs w !! t, frames w !! t).

(** Task [t] has the lock and one of the states. A run lock is taken with
    interrupts off, so that giving it back leaves them off. *)
Definition taskIs (w : World) (t : Z) (lck : bool) (states : list State) : Prop :=
  exists l s, fst (view w t) = Some (l, s) /\ locked l = lck /\ (lck = true -> enableIrqs l = false) /\ s ∈ states.

Definition irqsOff (w : World) (i : nat) : Prop :=
  exists pr, processors w !! i = Some pr /\ localIrqState (p_cpu pr) = false.

(** [scheduler.currentTask]. *)
Definition currentOf (p : YieldPc) : Z :=
  match p with
  | Executes t | PopTask t _ | Dispatch t _ _ | Requeue _ t _ | SaveRegisters _ t _ | UnlockTask _ t
  | LockTask t | LoadRegisters t | Resume t => t
  | Halted | HaultCode _ => 0
  end.

(** The tasks in the hands of the processor. *)
Definition tasksOf (p : YieldPc) : list Z :=
  match p with
  | Executes t | PopTask t _ | LockTask t | LoadRegisters t | Resume t | HaultCode t => [t]
  | Dispatch f t _ | Requeue f t _ | SaveRegisters f t _ | UnlockTask f t => [f; t]
  | Halted => []
  end.

(** The task that is back in the queue while its registers are not yet saved. *)
Definition leavingTask (p : YieldPc) (t : Z) : bool :=
  match p with SaveRegisters f _ _ | UnlockTask f _ => bool_decide (f = t) | _ => false end.

Definition active : list State := [RUNNING; BLOCKING].

(** The task that is switched to: a running one, or the blocked one itself
    when the processor has nothing else to do. *)
Definition incoming (w : World) (pl : Z -> Place) (i : nat) (t : Z) (lck : bool) : Prop :=
  t <> 0 /\ pl t = OnCpu i /\
  (taskIs w t lck [RUNNING] \/ taskIs w t lck [BLOCKING] /\ exists e, snd (view w t) = Some (AfterIdleSave e i)).

Definition current (w : World) (pl : Z -> Place) (i : nat) (t : Z) : Prop :=
  t <> 0 -> pl t = OnCpu i /\ taskIs w t true active.

(** The switch from one task to the other. *)
Definition leaving (w : World) (pl : Z -> Place) (i : nat) (from to : Z) : Prop :=
  from <> 0 /\
  (from = to /\ pl from = OnCpu i /\ taskIs w from true [BLOCKING] \/
   from <> to /\ to <> 0 /\ pl to = OnCpu i /\ taskIs w to false [RUNNING] /\
   (pl from = OnCpu i /\ taskIs w from true [BLOCKING] \/ pl from = Queued i /\ taskIs w from true [RUNNABLE])).

Definition pc_inv (w : World) (pl : Z -> Place) (i : nat) (p : YieldPc) : Prop :=
  match p with
  | Halted => True
  | Executes t => t <> 0 /\ current w pl i t
  | PopTask from _ => irqsOff w i /\ current w pl i from
  | Dispatch from to _ => irqsOff w i /\ current w pl i from /\ from <> to /\ to <> 0 /\ pl to = OnCpu i /\ taskIs w to false [RUNNABLE]
  | Requeue from to _ => irqsOff w i /\ from <> 0 /\ current w pl i from /\ from <> to /\ to <> 0 /\ pl to = OnCpu i /\ taskIs w to false [RUNNING]
  | SaveRegisters from to f => irqsOff w i /\ leaving w pl i from to /\ (from = to -> exists e, f = AfterIdleSave e i)
  | UnlockTask from to => irqsOff w i /\ leaving w pl i from to /\ (from = to -> exists e, snd (view w to) = Some (AfterIdleSave e i))
  | LockTask to => irqsOff w i /\ incoming w pl i to false
  | LoadRegisters to => irqsOff w i /\ incoming w pl i to true
  | Resume to => (is_Some (frames w !! to) -> irqsOff w i) /\ incoming w pl i to true
  | HaultCode t => irqsOff w i /\ t <> 0 /\ pl t = OnCpu i /\ taskIs w t true [BLOCKING]
  end.

Definition scheduler_inv (w : World) (pl : Z -> Place) (i : nat) (cur : Z) : Prop :=
  exists s l, schedulers w !! i = Some s /\ s_cpuNumber s = Z.of_nat i /\ currentTask s = cur /\
    locked (addTaskLock s) = false /\ hasStack allocateStack (schedulerStack s) /\
    holds (cbs w) (tasks s) l /\ forall t, t ∈ l <-> pl t = Queued i.

Definition processor_inv (w : World) (i : nat) : Prop :=
  exists pr, processors w !! i = Some pr /\ getCpuNumber (p_cpu pr) = Z.of_nat i.

(** A task is where [places] says, in the state that belongs there. *)
Definition place_inv (w : World) (ps : list YieldPc) (t : Z) (x : Place) : Prop :=
  match x with
  | Absent => cbs w !! t = None
  | Queued i => exists p, ps !! i = Some p /\ taskIs w t (leavingTask p t) [RUNNABLE]
  | OnCpu i => exists p, ps !! i = Some p /\ t ∈ tasksOf p
  | Parked => t <> 0 /\ taskIs w t false [BLOCKING]
  | Adding => t <> 0 /\ taskIs w t false [RUNNABLE]
  end.

(** Registers saved in [yield] have interrupts off: the rest of the call turns
    them on again. *)
Definition saved_inv (w : World) : Prop :=
  forall t b, cbs w !! t = Some b -> is_Some (frames w !! t) -> Z.testbit (TaskQueue.rflags (registers b)) 9 = false.

Record machine_inv (m : Machine) : Prop := {
  mi_pcs : forall i p, pcs m !! i = Some p -> pc_inv (world m) (places m) i p;
  mi_schedulers : forall i p, pcs m !! i = Some p -> scheduler_inv (world m) (places m) i (currentOf p);
  mi_processors : forall i p, pcs m !! i = Some p -> processor_inv (world m) i;
  mi_places : forall t, place_inv (world m) (pcs m) t (places m t);
  mi_saved : saved_inv (world m);
  mi_null : places m 0 = Absent
}.

(** ** The start

    [kstart] calls [scheduler::init] for every processor, on the first one. *)
Fixpoint initSchedulers (w : World) (n : Z) (ts : list Z) : outcome World :=
  match ts with
  | [] => Ok w
  | t :: ts => let! w := init 0 w n t in initSchedulers w (n + 1) ts
  end.

(** The initial tasks [before] have been given to their processors, the tasks
    [ts] not yet. Interrupts are off. *)
Record starting (w : World) (before ts : list Z) : Prop := {
  st_nodup : NoDup (before ++ ts);
  st_before : forall i t, before !! i = Some t -> t <> 0 /\ taskIs w t true [RUNNING] /\
    exists s, schedulers w !! i = Some s /\ s_cpuNumber s = Z.of_nat i /\ currentTask s = t /\
      locked (addTaskLock s) = false /\ hasStack allocateStack (schedulerStack s) /\ holds (cbs w) (tasks s) [];
  st_tasks : forall t, t ∈ ts -> t <> 0 /\ taskIs w t false [RUNNING];
  st_other : forall t, t ∉ before ++ ts -> cbs w !! t = None;
  st_schedulers : forall i, (length before <= i < MAX_CPUS)%nat -> schedulers w !! i = Some Scheduler_init;
  st_processors : forall i, (i < length (before ++ ts))%nat -> processor_inv w i;
  st_irqs : irqsOff w 0;
  st_frames : frames w = ∅;
  st_length : (length (before ++ ts) <= MAX_CPUS)%nat
}.

Definition bootPlaces (ts : list Z) (t : Z) : Place :=
  match list_find (fun x => x = t) ts with Some (i, _) => OnCpu i | None => Absent end.

Definition bootMachine (w : World) (ts : list Z) : Machine := mkMachine w (Executes <$> ts) (bootPlaces ts).

(** ** What the machine promises *)
Record smp_ok (m : Machine) : Prop := {
  (* no task runs on two processors; a running one holds its run lock *)
  so_alone : forall i j t, pcs m !! i = Some (Executes t) -> pcs m !! j = Some (Executes t) -> i = j;
  so_running : forall i t, pcs m !! i = Some (Executes t) -> taskIs (world m) t true active /\
    exists s, schedulers (world m) !! i = Some s /\ currentTask s = t;
  (* the queues of the schedulers: a task that waits is in one of them and runs nowhere, and one that is not
     blocked waits, or a processor has it in its hands, or it is being added *)
  so_queues : exists queues, length queues = length (pcs m) /\
    (forall i l, queues !! i = Some l -> exists s, schedulers (world m) !! i = Some s /\ holds (cbs (world m)) (tasks s) l) /\
    (forall i j l l' t, queues !! i = Some l -> queues !! j = Some l' -> t ∈ l -> t ∈ l' -> i = j) /\
    (forall i j l t, queues !! i = Some l -> t ∈ l -> pcs m !! j <> Some (Executes t)) /\
    forall t, taskState (world m) t = Some RUNNABLE \/ taskState (world m) t = Some RUNNING ->
      (exists i l, queues !! i = Some l /\ t ∈ l) \/ (exists i p, pcs m !! i = Some p /\ t ∈ tasksOf p) \/ places m t = Adding;
  (* every processor can go on, waits for no run lock, and its yield ends *)
  so_yields : forall me p, pcs m !! me = Some p -> exists p' w', yieldStep me allocateStack (world m) p = Ok (p', w') /\
    (inYield p = true -> (stepsLeft p' < stepsLeft p)%nat);
  (* with interrupts off until the registers are loaded *)
  so_irqs : forall i p, pcs m !! i = Some p -> (match p with Executes _ | Halted | Resume _ => False | _ => True end) -> irqsOff (world m) i
}.
End Machine.

(** ** Early wake-ups

    A blocking task leaves its processor in several steps. Nothing keeps
    another processor from waking it, or from destroying it, in between. *)

(** Two processors that run the tasks 1 and 2, each on its stack. *)
Definition onStack (stack : Z) : Registers := mkRegisters 0 0 0 0 stack 0 0 0 0 0 0 0 0 0 0 0 0 0 0.

Definition twoCpus (q0 q1 : Queue) : World :=
  mkWorld (<[1 := aTask true RUNNING 2 0]> (<[2 := aTask true RUNNING 2 0]> (<[3 := aTask false RUNNABLE 2 0]> ∅)))
    [mkScheduler 0 q0 4096 1 Spinlock_init false false; mkScheduler 1 q1 8192 2 Spinlock_init false false] 2
    [mkProcessor (mkCpu 512 0) (onStack 1000); mkProcessor (mkCpu 512 1) (onStack 2000)] ∅ [].

(** The queue with task 3. *)
Definition third : Queue := mkQueue Spinlock_init 3 3 1.

(** Task 1 blocks and its processor makes [n] steps of [yield]. *)
Definition task1Leaves (n : nat) (q0 q1 : Queue) : outcome (YieldPc * World) :=
  let! '(_, w) := block 0 (twoCpus q0 q1) in
  yieldSteps 0 Fault n w (Executes 1).

(** The second processor wakes task 1, blocks task 2 and switches to task 1;
    first to task 3 if that waits there. *)
Definition task1Moves (n : nat) (q0 q1 : Queue) : outcome (YieldPc * World) :=
  let! '(_, w) := task1Leaves n q0 q1 in
  let! w := updTask w 1 (fun b => set_state b RUNNABLE) in
  let! '(_, w) := enqueueTask 1 w 1 1 in
  let! '(_, w) := block 1 w in
  let! '(p, w) := yieldSteps 1 Fault 9 w (Executes 2) in
  if head q1 =? 0 then Ok (p, w) else yieldSteps 1 Fault 9 w p.

(** The first processor has nothing else to run: it saves the registers of
    task 1, gives its lock back and wants to load them again. Task 1 blocks
    again and leaves the second processor to task 3: the first processor now
    finishes loading it and runs it, although it is blocked and nobody woke
    it. *)
Definition runsBlocked : outcome (YieldPc * World) :=
  let! '(p, w) := task1Moves 4 Queue_init third in
  let! '(_, w) := block 1 w in
  let! '(_, w) := yieldSteps 1 Fault 9 w p in
  yieldSteps 0 Fault 3 w (LockTask 1).

(** Without task 3, the second processor idles with task 1 as the first does:
    the first continues in the call made by the second and removes the current
    task of its scheduler, and the second unlocks a null task. *)
Definition idlesTwice : outcome (YieldPc * World) :=
  let! '(p, w) := task1Moves 4 Queue_init Queue_init in
  let! '(_, w) := block 1 w in
  let! '(p1, w) := yieldSteps 1 Fault 4 w p in
  let! '(p0, w) := yieldSteps 0 Fault 4 w (LockTask 1) in
  yieldSteps 1 Fault 4 w p1.

(** Task 1 ends instead, and [destructionCode] gets its run lock. *)
Definition destroyedOnCpu : outcome (YieldPc * World) :=
  let! '(p, w) := task1Leaves 4 Queue_init Queue_init in
  let! w := destructionCode 1 w 1 (fun _ => Ok tt) in
  yieldStep 0 Fault w p.

(** [swapRegisters] still runs on the stack of the old task after it has
    unlocked it. Here the first processor switches to task 3, task 1 is woken
    after that, and the second processor runs it. *)
Definition sharesStack : outcome (YieldPc * World) := task1Moves 6 third Queue_init.

Definition stackOf (w : World) (i : nat) : option Z := (fun p => rsp (p_regs p)) <$> processors w !! i.

(** ** Lemmas *)

Section Proofs.
Context (allocateStack : outcome Z).
Implicit Types (w : World) (pl : Z -> Place) (ps : list YieldPc).

Lemma taskIs_block w t lck states : taskIs w t lck states <->
  exists b, cbs w !! t = Some b /\ locked (runLock b) = lck /\ (lck = true -> enableIrqs (runLock b) = false) /\ state b ∈ states.
Proof.
  unfold taskIs, view. cbn [fst]. split.
  - intros (l & s & H & H1 & H2 & H3). destruct (cbs w !! t) as [b|]; [|done]. cbn in H. injection H as <- <-. by exists b.
  - intros (b & -> & H1 & H2 & H3). by exists (runLock b), (state b).
Qed.

Lemma taskIs_view w w' t lck states : view w' t = view w t -> taskIs w t lck states -> taskIs w' t lck states.
Proof. unfold taskIs. by intros ->. Qed.

Lemma taskIs_states w t lck states states' : (forall s, s ∈ states -> s ∈ states') -> taskIs w t lck states -> taskIs w t lck states'.
Proof. intros H (l & s & H1 & H2 & H3 & H4). exists l, s. auto. Qed.

Lemma taskIs_is w t lck states b : taskIs w t lck states -> cbs w !! t = Some b -> taskIs w t lck [state b] /\ state b ∈ states.
Proof.
  rewrite !taskIs_block. intros (b' & Hb' & H1 & H2 & H3) Hb. assert (b' = b) as -> by congruence. split; [exists b; repeat (split; [done|]); by left|done].
Qed.

Lemma taskIs_active w t lck b : taskIs w t lck active -> cbs w !! t = Some b ->
  taskIs w t lck [if bool_decide (state b = RUNNING) then RUNNING else BLOCKING].
Proof.
  intros H Hb. destruct (taskIs_is w t lck active b H Hb) as [H1 H2]. case_bool_decide as E; [by rewrite <- E|].
  replace BLOCKING with (state b); [done|]. unfold active in H2. apply elem_of_cons in H2 as [H2|H2]; [done|].
  by apply list_elem_of_singleton in H2.
Qed.

(** A processor has its tasks to itself. *)
Ltac tasks :=
  repeat match goal with
  | H : _ ∈ _ :: _ |- _ => apply elem_of_cons in H as [->|H]
  | H : _ ∈ [] |- _ => by apply elem_of_nil in H
  | H : current _ _ _ ?t, H0 : ?t <> 0 |- _ => destruct (H H0); clear H
  end.

Lemma pc_inv_owner w pl i p t :
  pc_inv w pl i p -> t ∈ tasksOf p -> t <> 0 ->
  pl t = OnCpu i \/ pl t = Queued i /\ leavingTask p t = true /\ taskIs w t true [RUNNABLE].
Proof.
  intros H Ht H0. destruct p; cbn in *; unfold incoming, leaving in *; destruct_and?; tasks; destruct_and?; auto;
    destruct_or?; destruct_and?; subst; auto; rewrite bool_decide_eq_true_2 by done; naive_solver.
Qed.

Lemma pc_inv_mine w pl i p t : pc_inv w pl i p -> t ∈ tasksOf p -> t <> 0 -> pl t = OnCpu i \/ pl t = Queued i.
Proof. intros H Ht H0. destruct (pc_inv_owner w pl i p t H Ht H0) as [|(? & _)]; auto. Qed.

(** What a processor relies on stays when nobody touches its tasks. *)
Lemma pc_inv_frame w w' pl pl' i p :
  (forall t, t ∈ tasksOf p -> t <> 0 -> view w' t = view w t /\ pl' t = pl t) -> (irqsOff w i -> irqsOff w' i) ->
  pc_inv w pl i p -> pc_inv w' pl' i p.
Proof.
  intros Hv Hi H.
  assert (Hc : forall t, t ∈ tasksOf p -> current w pl i t -> current w' pl' i t).
  { intros t Ht Hc H0. destruct (Hv t Ht H0) as [Ev Ep]. destruct (Hc H0) as [H1 H2]. rewrite Ep.
    split; [done|by apply (taskIs_view w)]. }
  assert (Ht : forall t l s, t ∈ tasksOf p -> t <> 0 -> taskIs w t l s -> taskIs w' t l s).
  { intros t l s Ht H0. apply taskIs_view. by apply Hv. }
  assert (Hin : forall t l, t ∈ tasksOf p -> incoming w pl i t l -> incoming w' pl' i t l).
  { intros t l Ht' (H0 & H1 & H2). destruct (Hv t Ht' H0) as [Ev Ep]. unfold incoming. rewrite Ep, Ev.
    split; [done|]. split; [done|]. destruct H2 as [H2|[H2 H3]]; eauto. }
  assert (Hl : forall f t, f ∈ tasksOf p -> t ∈ tasksOf p -> leaving w pl i f t -> leaving w' pl' i f t).
  { intros f t Hf Ht' (H0 & H1). destruct (Hv f Hf H0) as [Evf Epf]. unfold leaving. rewrite Epf. split; [done|].
    destruct H1 as [(-> & H1 & H2)|(Hne & Ht0 & H1 & H2 & H3)]; [left; eauto|right].
    destruct (Hv t Ht' Ht0) as [Evt Ept]. rewrite Ept. naive_solver. }
  destruct p as [t| |from e|from to e|from to e|from to f|from to|to|to|to|t]; cbn [pc_inv tasksOf] in *;
    try (destruct H as [HA HB]; split; [by auto|]).
  - apply Hc; [by left|done].
  - done.
  - apply Hc; [by left|done].
  - destruct HB as (H1 & H2 & H3 & H4 & H5). destruct (Hv to) as [_ ->]; [by right; left|done|].
    split; [apply Hc; [by left|done]|]. repeat (split; [done|]). apply Ht; [by right; left|done|done].
  - destruct HB as (H0 & H1 & H2 & H3 & H4 & H5). destruct (Hv to) as [_ ->]; [by right; left|done|].
    split; [done|]. split; [apply Hc; [by left|done]|]. repeat (split; [done|]). apply Ht; [by right; left|done|done].
  - destruct HB as (H1 & H2). split; [apply Hl; [by left|by right; left|done]|done].
  - destruct HB as (H1 & H2). split; [apply Hl; [by left|by right; left|done]|]. intros Heq.
    destruct (Hv from) as [Ev _]; [by left|by apply H1|]. destruct (H2 Heq) as [e He]. exists e. by rewrite <- Heq, Ev, Heq.
  - apply Hin; [by left|done].
  - apply Hin; [by left|done].
  - destruct H as [HA HB]. split; [|apply Hin; [by left|done]].
    intros Hs. apply Hi, HA. destruct (Hv to) as [Ev _]; [by left|by apply HB|].
    change (frames w' !! to) with (snd (view w' to)) in Hs. by rewrite Ev in Hs.
  - destruct HB as (H0 & H1 & H2). destruct (Hv t) as [_ ->]; [by left|done|]. split; [done|]. split; [done|].
    apply Ht; [by left|done|done].
Qed.

Lemma scheduler_keep w w' pl pl' i cur :
  scheduler_inv allocateStack w pl i cur -> schedulers w' !! i = schedulers w !! i ->
  (forall t, pl t = Queued i -> next <$> cbs w' !! t = next <$> cbs w !! t) ->
  (forall t, pl' t = Queued i <-> pl t = Queued i) -> scheduler_inv allocateStack w' pl' i cur.
Proof.
  intros (s & l & H1 & H2 & H3 & H4 & H5 & H6 & H7) Hs Hn Hp. exists s, l. rewrite Hs.
  repeat (split; [done|]). split.
  - apply (holds_links (cbs w)); [done|]. intros x Hx. by apply Hn, H7.
  - intros t. by rewrite Hp.
Qed.

Lemma place_keep w w' ps me p p' t x :
  ps !! me = Some p -> place_inv w ps t x -> view w' t = view w t -> (x = OnCpu me -> t ∈ tasksOf p') ->
  (x = Queued me -> leavingTask p' t = leavingTask p t) -> place_inv w' (<[me := p']> ps) t x.
Proof.
  intros Hp H Hv H1 H2. assert (Hlt : (me < length ps)%nat) by by eapply lookup_lt_Some.
  destruct x as [|i|i| |]; cbn in *.
  - apply (f_equal fst) in Hv. unfold view in Hv. cbn in Hv. rewrite H in Hv. by destruct (cbs w' !! t).
  - destruct H as (q & Hq & H). destruct (decide (i = me)) as [->|Hne].
    + exists p'. rewrite list_lookup_insert_eq by done. split; [done|]. assert (q = p) as -> by congruence. rewrite H2 by done. by apply (taskIs_view w).
    + exists q. rewrite list_lookup_insert_ne by done. split; [done|]. by apply (taskIs_view w).
  - destruct H as (q & Hq & H). destruct (decide (i = me)) as [->|Hne].
    + exists p'. rewrite list_lookup_insert_eq by done. auto.
    + exists q. by rewrite list_lookup_insert_ne.
  - destruct H as [H0 H]. split; [done|]. by apply (taskIs_view w).
  - destruct H as [H0 H]. split; [done|]. by apply (taskIs_view w).
Qed.

Lemma leavingTask_in p t : leavingTask p t = true -> t ∈ tasksOf p.
Proof. destruct p; cbn; try done; intros H; apply bool_decide_eq_true_1 in H as ->; by left. Qed.

Lemma leavingTask_notin p t : t ∉ tasksOf p -> leavingTask p t = false.
Proof. intros H. destruct (leavingTask p t) eqn:E; [|done]. by apply leavingTask_in in E. Qed.

(** A task of the processor is where [places] says when the processor has what
    it relies on. *)
Lemma place_own w ps pl me p t :
  ps !! me = Some p -> pc_inv w pl me p -> t ∈ tasksOf p -> t <> 0 -> place_inv w ps t (pl t).
Proof.
  intros Hp H Ht H0. destruct (pc_inv_owner _ _ _ _ _ H Ht H0) as [->|(-> & Hl & Hs)]; exists p; [done|].
  by rewrite Hl.
Qed.

(** A step of processor [me] inside [yield]. *)
Lemma yield_update w ps pl me p p' w' pl' :
  machine_inv allocateStack (mkMachine w ps pl) -> ps !! me = Some p ->
  (forall j, j <> me -> schedulers w' !! j = schedulers w !! j /\ processors w' !! j = processors w !! j) ->
  (forall t, t ∉ tasksOf p ++ tasksOf p' -> view w' t = view w t /\ pl' t = pl t) ->
  (forall t, t ∈ tasksOf p' -> t <> 0 -> t ∈ tasksOf p \/ pl t = Queued me) ->
  (forall t, pl t <> Queued me -> next <$> cbs w' !! t = next <$> cbs w !! t) ->
  (forall t, t ∈ tasksOf p -> t ∉ tasksOf p' -> t <> 0 ->
     (pl' t = Queued me \/ pl' t = Parked) /\ place_inv w' (<[me := p']> ps) t (pl' t)) ->
  pl' 0 = Absent -> pc_inv w' pl' me p' -> scheduler_inv allocateStack w' pl' me (currentOf p') ->
  processor_inv w' me -> saved_inv w' ->
  machine_inv allocateStack (mkMachine w' (<[me := p']> ps) pl').
Proof.
  intros Hinv Hp HA HB HC HD HE H0 Hpc Hsch Hpr Hsv. pose proof Hinv as [I1 I2 I3 I4 I5 I6]. cbn in *.
  assert (Hlt : (me < length ps)%nat) by by eapply lookup_lt_Some.
  assert (Hm : forall t, t ∈ tasksOf p ++ tasksOf p' -> t <> 0 -> pl t = OnCpu me \/ pl t = Queued me).
  { intros t Ht Ht0. apply elem_of_app in Ht as [Ht|Ht]; [by apply (pc_inv_mine w pl me p); auto|].
    destruct (HC t Ht Ht0) as [Ht'|]; [|by right]. by apply (pc_inv_mine w pl me p); auto. }
  assert (Hm' : forall t, t ∈ tasksOf p ++ tasksOf p' -> t <> 0 -> pl' t = OnCpu me \/ pl' t = Queued me \/ pl' t = Parked).
  { intros t Ht Ht0. destruct (decide (t ∈ tasksOf p')) as [Hin|Hin].
    - destruct (pc_inv_mine w' pl' me p' t Hpc Hin Ht0); auto.
    - apply elem_of_app in Ht as [Ht|Ht]; [|done]. destruct (HE t Ht Hin Ht0) as [[?|?] _]; auto. }
  assert (Hoth : forall t j, j <> me -> pl t = OnCpu j \/ pl t = Queued j -> view w' t = view w t /\ pl' t = pl t).
  { intros t j Hj Ht. apply HB. intros Hin. assert (Ht0 : t <> 0) by (intros ->; rewrite I6 in Ht; destruct Ht; done).
    destruct (Hm t Hin Ht0), Ht; congruence. }
  assert (Hq : forall t j, j <> me -> pl' t = Queued j <-> pl t = Queued j).
  { intros t j Hj. split; intros Ht; [|destruct (Hoth t j Hj) as [_ ->]; auto].
    destruct (decide (t ∈ tasksOf p ++ tasksOf p')) as [Hin|Hin]; [|by destruct (HB t Hin) as [_ <-]].
    assert (Ht0 : t <> 0) by (intros ->; by rewrite H0 in Ht). destruct (Hm' t Hin Ht0) as [?|[?|?]]; congruence. }
  assert (Hold : forall j q, j <> me -> <[me := p']> ps !! j = Some q -> ps !! j = Some q).
  { intros j q Hj. by rewrite list_lookup_insert_ne. }
  assert (Hcase : forall (P : nat -> YieldPc -> Prop), P me p' -> (forall j q, j <> me -> ps !! j = Some q -> P j q) ->
    forall j q, <[me := p']> ps !! j = Some q -> P j q).
  { intros P H1 H2 j q Hj. destruct (decide (j = me)) as [->|Hne]; [|by apply H2; auto].
    rewrite list_lookup_insert_eq in Hj by done. by simplify_eq. }
  constructor; cbn; [apply Hcase; [done|]|apply Hcase; [done|]|apply (Hcase (fun j _ => processor_inv w' j)); [done|]| |done|done].
  - intros j q Hj Hq'. apply (pc_inv_frame w w' pl pl'); [| |by apply I1].
    + intros t Ht Ht0. apply (Hoth t j Hj). apply (pc_inv_mine w pl j q); auto.
    + unfold irqsOff. by destruct (HA j Hj) as [_ ->].
  - intros j q Hj Hq'. apply (scheduler_keep w w' pl pl'); [by apply I2|by apply HA| |by intros t; apply Hq].
    intros t Ht. apply HD. congruence.
  - intros j q Hj Hq'. unfold processor_inv. destruct (HA j Hj) as [_ ->]. by apply (I3 j q).
  - intros t. destruct (decide (t ∈ tasksOf p')) as [Hin|Hin].
    { destruct (decide (t = 0)) as [->|Ht0]; [|apply (place_own _ _ _ me p'); try done; by rewrite list_lookup_insert_eq].
      rewrite H0. cbn. specialize (I4 0). rewrite I6 in I4. cbn in I4. destruct (decide (next <$> cbs w' !! 0 = None)) as [E|E];
        [by destruct (cbs w' !! 0)|]. rewrite HD, I4 in E; [done|]. by rewrite I6. }
    destruct (decide (t ∈ tasksOf p)) as [Hin'|Hin'].
    { destruct (decide (t = 0)) as [->|Ht0]; [|by apply HE].
      rewrite H0. cbn. specialize (I4 0). rewrite I6 in I4. cbn in I4. destruct (decide (next <$> cbs w' !! 0 = None)) as [E|E];
        [by destruct (cbs w' !! 0)|]. rewrite HD, I4 in E; [done|]. by rewrite I6. }
    destruct (HB t) as [Ev Ep]; [by rewrite elem_of_app; tauto|]. rewrite Ep.
    apply (place_keep w w' ps me p); [done|by apply I4|done| |].
    + intros E. specialize (I4 t). rewrite E in I4. destruct I4 as (q & Hq' & Hin2). by simplify_eq.
    + intros _. by rewrite !leavingTask_notin.
Qed.

(** The next step of the processor in this state neither faults nor waits, it
    keeps the invariant, and it leads on in [yield]. *)
Definition advances w ps pl me p : Prop :=
  exists p' w', yieldStep me allocateStack w p = Ok (p', w') /\
    machine_inv allocateStack (mkMachine w' (<[me := p']> ps) (relocate me w p p' pl)) /\
    (inYield p = true -> (stepsLeft p' < stepsLeft p)%nat).

Lemma saved_keep w w' :
  saved_inv w -> (forall t b', cbs w' !! t = Some b' -> exists b, cbs w !! t = Some b /\ registers b' = registers b) ->
  (forall t, is_Some (frames w' !! t) -> is_Some (frames w !! t)) -> saved_inv w'.
Proof. intros H Hc Hf t b' Hb' Ht. destruct (Hc t b' Hb') as (b & Hb & ->). apply (H t); auto. Qed.

Lemma irqsOff_insert w me pr pr' :
  processors w !! me = Some pr -> localIrqState (p_cpu pr') = false -> irqsOff (set_processor w me pr') me.
Proof. intros H Hi. exists pr'. split; [by eapply insert_me|done]. Qed.

Lemma set_scheduler_other w me s j : j <> me -> schedulers (set_scheduler w me s) !! j = schedulers w !! j.
Proof. intros Hj. cbn. by rewrite list_lookup_insert_ne. Qed.

Lemma set_processor_other w me p j : j <> me -> processors (set_processor w me p) !! j = processors w !! j.
Proof. intros Hj. cbn. by rewrite list_lookup_insert_ne. Qed.

Lemma begin_advances w ps pl me p :
  machine_inv allocateStack (mkMachine w ps pl) -> ps !! me = Some p -> inYield p = false -> advances w ps pl me p.
Proof.
  intros Hinv Hp Hy. pose proof Hinv as [I1 I2 I3 I4 I5 I6]. cbn in *.
  destruct (I2 me p Hp) as (s & l & Hs & Hn & Hc & Ha & Hst & Hh & Hl). destruct (I3 me p Hp) as (pr & Hpr & Hpn).
  assert (Hcur : current w pl me (currentOf p)).
  { specialize (I1 me p Hp). destruct p; try done; cbn in *; by destruct I1. }
  assert (Hstep : yieldStep me allocateStack w p =
    if yieldLocked s then Ok (p, set_scheduler w me (set_yield s true true))
    else Ok (PopTask (currentTask s) (localIrqState (p_cpu pr)), set_processor w me (mkProcessor (disableLocalIrqs (p_cpu pr)) (p_regs pr)))).
  { assert (E : getScheduler w me = Ok s) by (unfold getScheduler; by rewrite Hs).
    destruct p; try done; cbn [yieldStep]; rewrite E; cbn [obind]; destruct (yieldLocked s); cbn [negb]; try done;
      rewrite (getProcessor_eq me w pr Hpr); cbn [obind]; by rewrite (setCpu_eq me w pr). }
  unfold advances. rewrite Hstep. destruct (yieldLocked s).
  - eexists _, _. split; [done|]. split; [|by rewrite Hy].
    assert (relocate me w p p pl = pl) as -> by by destruct p.
    eapply yield_update; [exact Hinv|exact Hp|..]; try done.
    + intros j Hj. by rewrite set_scheduler_other.
    + by left.
    + apply (pc_inv_frame w _ pl pl); auto.
    + exists (set_yield s true true), l. split; [by eapply insert_me|done].
    + by exists pr.
  - eexists _, _. split; [done|]. split; [|by rewrite Hy].
    assert (relocate me w p (PopTask (currentTask s) (localIrqState (p_cpu pr))) pl = pl) as -> by by destruct p.
    rewrite Hc. eapply yield_update; [exact Hinv|exact Hp|..]; try done.
    + intros j Hj. by rewrite set_processor_other.
    + cbn. intros t Ht Ht0. apply list_elem_of_singleton in Ht as ->. left. destruct p; try done; cbn in *; by left.
    + cbn. intros t Ht Hn'. destruct p; try done; by apply elem_of_nil in Ht.
    + split; [|done]. apply (irqsOff_insert w me pr); [done|cbn; auto with kernel].
    + by exists s, l.
    + eexists. split; [by eapply insert_me|]. exact Hpn.
Qed.

Lemma task_of w pl i t : current w pl i t -> t <> 0 -> exists b, cbs w !! t = Some b /\ locked (runLock b) = true /\
  enableIrqs (runLock b) = false /\ state b ∈ active.
Proof. intros H H0. destruct (H H0) as [_ (b & H1 & H2 & H3 & H4)%taskIs_block]. exists b. auto. Qed.

Lemma pop_takes w ps pl me from e :
  machine_inv allocateStack (mkMachine w ps pl) -> ps !! me = Some (PopTask from e) ->
  exists s pr t q l, schedulers w !! me = Some s /\ processors w !! me = Some pr /\
    pop (p_cpu pr) (cbs w) (tasks s) = Ok (t, (p_cpu pr, q)) /\
    let w' := set_scheduler w me (set_tasks s q) in
    (t = 0 -> (forall x, pl x <> Queued me) /\ machine_inv allocateStack (mkMachine w' ps pl)) /\
    (t <> 0 -> pl t = Queued me /\ t <> from /\
       scheduler_inv allocateStack w' (<[t := OnCpu me]> pl) me from /\ taskIs w t false [RUNNABLE]) /\
    holds (cbs w) q l.
Proof.
  intros Hinv Hp. pose proof Hinv as [I1 I2 I3 I4 I5 I6]. cbn in *.
  destruct (I2 me _ Hp) as (s & l & Hs & Hn & Hc & Ha & Hst & Hh & Hl). destruct (I3 me _ Hp) as (pr & Hpr & Hpn).
  destruct (I1 me _ Hp) as [Hoff Hcur]. destruct (pop_spec (p_cpu pr) _ _ _ Hh) as (q & Epop & Hq).
  exists s, pr, (default 0 (list.head l)), q, (list.tail l). do 3 (split; [done|]). cbn zeta. split; [|split; [|done]].
  - intros H0. destruct l as [|t l]; [|cbn in H0; subst; exfalso; apply (qh_null _ _ _ Hh); by left].
    split; [intros x Hx; apply Hl in Hx; by apply elem_of_nil in Hx|].
    constructor; cbn; try done.
    intros j r Hj. destruct (decide (j = me)) as [->|Hne].
    + simplify_eq. exists (set_tasks s q), []. cbn. split; [by eapply insert_me|done].
    + destruct (I2 j r Hj) as (s' & l' & Hs' & H'). exists s', l'. split; [|done]. cbn. by rewrite list_lookup_insert_ne.
  - intros H0. destruct l as [|t l]; [done|]. cbn in *. pose proof (qh_nodup _ _ _ Hh) as Hnd.
    apply NoDup_cons in Hnd as [Htl Hnd]. assert (Hqt : pl t = Queued me) by (apply Hl; by left).
    split; [done|]. split.
    + intros ->. destruct (Hcur H0) as [Hon _]. congruence.
    + split.
      * exists (set_tasks s q), l. cbn. split; [by eapply insert_me|]. do 5 (split; [done|]). intros x.
        destruct (decide (x = t)) as [->|Hx]; [by rewrite fn_lookup_insert|]. rewrite fn_lookup_insert_ne by done.
        rewrite <- Hl, elem_of_cons. naive_solver.
      * specialize (I4 t). rewrite Hqt in I4. destruct I4 as (r & Hr & Ht). by simplify_eq.
Qed.

Lemma finishYield_eq w me pr e : processors w !! me = Some pr ->
  exists c, finishYield me w e = Ok (set_processor w me (mkProcessor c (p_regs pr))) /\ getCpuNumber c = getCpuNumber (p_cpu pr).
Proof.
  intros Hpr. unfold finishYield. destruct e.
  - rewrite (getProcessor_eq me w pr Hpr). cbn [obind]. rewrite (setCpu_eq me w pr) by done. by eexists.
  - exists (p_cpu pr). split; [|done]. f_equal. unfold set_processor. rewrite list_insert_id; [by destruct w|]. by destruct pr.
Qed.

Lemma pop_advances w ps pl me from e :
  machine_inv allocateStack (mkMachine w ps pl) -> ps !! me = Some (PopTask from e) -> advances w ps pl me (PopTask from e).
Proof.
  intros Hinv Hp. destruct (pop_takes w ps pl me from e Hinv Hp) as (s & pr & t & q & l & Hs & Hpr & Epop & H0 & H1 & _).
  pose proof Hinv as [I1 I2 I3 I4 I5 I6]. cbn in *. destruct (I1 me _ Hp) as [Hoff Hcur].
  unfold advances. cbn [yieldStep]. unfold getScheduler. rewrite Hs. cbn [of_option obind].
  rewrite (getProcessor_eq me w pr Hpr). cbn [obind]. rewrite Epop. cbn [obind].
  destruct (Z.eqb_spec t 0) as [Ht|Ht]; cbn [negb].
  - destruct (H0 Ht) as [Hnone Hinv']. clear H0 H1. set (w1 := set_scheduler w me (set_tasks s q)) in *.
    destruct (mi_schedulers _ _ Hinv' me _ Hp) as (s1 & l1 & Hs1 & Hn1 & Hc1 & Ha1 & Hst1 & Hh1 & Hl1).
    destruct (mi_processors _ _ Hinv' me _ Hp) as (pr1 & Hpr1 & Hpn1). cbn in Hc1, Hpr1, Hpn1.
    assert (pr1 = pr) as -> by (cbn in *; congruence).
    destruct (Z.eqb_spec from 0) as [->|Hf].
    + rewrite (setCpu_eq me _ pr) by done. cbn [obind]. eexists _, _. split; [done|]. split; [|cbn; lia].
      cbn [relocate]. eapply yield_update; [exact Hinv'|exact Hp|..]; try done.
      * intros j Hj. by rewrite set_processor_other.
      * cbn. intros x Hx. by apply elem_of_nil in Hx.
      * cbn. intros x Hx. by apply list_elem_of_singleton in Hx as ->.
      * by exists s1, l1.
      * eexists. split; [by eapply insert_me|]. exact Hpn1.
    + destruct (task_of _ _ _ _ Hcur Hf) as (b & Hb & _).
      unfold getBlock. change (cbs w1 !! from) with (cbs w !! from). rewrite Hb. cbn [of_option obind]. destruct (Hcur Hf) as [Hon Htask].
      destruct (bool_decide (state b = RUNNING)) eqn:Er; cbn [negb].
      * destruct (finishYield_eq w1 me pr e Hpr1) as (c & -> & Hcn). cbn [obind]. eexists _, _. split; [done|]. split; [|cbn; lia].
        cbn [relocate]. eapply yield_update; [exact Hinv'|exact Hp|..]; try done.
        { intros j Hj. by rewrite set_processor_other. }
        { by left. }
        { by exists s1, l1. }
        { eexists. split; [by eapply insert_me|]. cbn. by rewrite Hcn. }
      * apply bool_decide_eq_false_1 in Er. eexists _, _. split; [done|]. split; [|cbn; lia].
        cbn [relocate]. eapply yield_update; [exact Hinv'|exact Hp|..]; try done.
        { cbn. intros x Hx _. left. tasks; by left. }
        { cbn. intros x Hx Hn'. tasks. exfalso. apply Hn'. by left. }
        { split; [exact Hoff|]. split; [|intros _; by exists e]. split; [done|]. left. split; [done|]. split; [done|].
          apply (taskIs_view w); [done|]. apply (taskIs_active _ _ _ b) in Htask; [|done].
          by rewrite bool_decide_eq_false_2 in Htask. }
        { by exists s1, l1. }
        { by exists pr. }
  - destruct (H1 Ht) as (Hq & Hne & Hsch & Htask). eexists _, _. split; [done|]. split; [|cbn; lia].
    cbn [relocate]. eapply yield_update; [exact Hinv|exact Hp|..]; try done.
    + intros j Hj. by rewrite set_scheduler_other.
    + cbn. intros x Hx. rewrite !not_elem_of_cons in Hx. split; [done|]. by rewrite fn_lookup_insert_ne by naive_solver.
    + cbn. intros x Hx Hx0. tasks; [left; by left|by right].
    + cbn. intros x Hx Hn'. tasks. exfalso. apply Hn'. by left.
    + by rewrite fn_lookup_insert_ne.
    + split; [exact Hoff|]. split; [|split; [done|split; [done|split; [by rewrite fn_lookup_insert|done]]]].
      intros Hf0. rewrite fn_lookup_insert_ne by done. by apply Hcur.
    + by apply (I3 me _ Hp).
Qed.

(** A change of one task that its queue and its saved registers survive. *)
Lemma saved_update w t b b' : saved_inv w -> cbs w !! t = Some b -> registers b' = registers b ->
  forall t' c, <[t := b']> (cbs w) !! t' = Some c -> is_Some (frames w !! t') -> Z.testbit (TaskQueue.rflags (registers c)) 9 = false.
Proof.
  intros H Hb Hr t' c Hc Hf. destruct (decide (t' = t)) as [->|Hne].
  - rewrite lookup_insert_eq in Hc. injection Hc as <-. rewrite Hr. by apply (H t).
  - rewrite lookup_insert_ne in Hc by done. by apply (H t').
Qed.

Lemma next_update (m : Store) t b b' x : m !! t = Some b -> next b' = next b -> next <$> <[t := b']> m !! x = next <$> m !! x.
Proof.
  intros Hb Hn. destruct (decide (x = t)) as [->|Hne]; [rewrite lookup_insert_eq, Hb; cbn; congruence|by rewrite lookup_insert_ne].
Qed.

Ltac other_view := intros; unfold view; cbn in *; repeat rewrite not_elem_of_cons in *; destruct_and?; by rewrite ?lookup_insert_ne, ?lookup_delete_ne by congruence.

Lemma dispatch_advances w ps pl me from to e :
  machine_inv allocateStack (mkMachine w ps pl) -> ps !! me = Some (Dispatch from to e) -> advances w ps pl me (Dispatch from to e).
Proof.
  intros Hinv Hp. pose proof Hinv as [I1 I2 I3 I4 I5 I6]. cbn in *.
  destruct (I2 me _ Hp) as (s & l & Hs & Hn & Hc & Ha & Hst & Hh & Hl).
  destruct (I1 me _ Hp) as (Hoff & Hcur & Hne & Ht0 & Hon & Htask).
  apply taskIs_block in Htask as (b & Hb & T1 & T2 & T3).
  unfold advances. cbn [yieldStep]. rewrite (updTask_eq w to b) by done. cbn [obind]. unfold getScheduler.
  cbn [schedulers set_cbs]. rewrite Hs. cbn [of_option obind]. eexists _, _. split; [done|].
  split; [|by destruct (from =? 0); cbn; lia]. cbn [relocate].
  set (b' := set_timeSlice (set_state b RUNNING) INITIAL_TIME_SLICE).
  assert (Htask : taskIs (set_cbs w (<[to := b']> (cbs w))) to false [RUNNING]).
  { apply taskIs_block. exists b'. cbn. rewrite lookup_insert_eq. repeat (split; [done|]). by left. }
  assert (Hcur' : current (set_cbs w (<[to := b']> (cbs w))) pl me from).
  { intros Hf. destruct (Hcur Hf) as [H1 H2]. split; [done|]. revert H2. apply taskIs_view. other_view. }
  eapply yield_update; [exact Hinv|exact Hp|..]; try done.
  - intros j Hj. by rewrite set_scheduler_other.
  - intros x Hx. split; [|done]. apply not_elem_of_app in Hx as [Hx _]. other_view.
  - intros x Hx _. left. destruct (from =? 0); cbn in *; tasks; [by right; left|by left|by right; left].
  - intros x _. by apply (next_update _ _ b).
  - cbn. intros x Hx Hn' Hx0. exfalso. destruct (Z.eqb_spec from 0) as [->|Hf]; cbn in *; rewrite !not_elem_of_cons in Hn'; tasks; naive_solver.
  - destruct (Z.eqb_spec from 0) as [->|Hf]; cbn; [|done]. split; [done|]. split; [done|]. split; [done|by left].
  - exists (set_current s to), l. split; [by eapply insert_me|]. split; [done|].
    split; [by destruct (from =? 0)|]. do 2 (split; [done|]). split; [|done]. by apply (holds_update _ _ _ _ b).
  - by apply (I3 me _ Hp).
  - intros x c. by apply (saved_update w to b).
Qed.

(** The effect of [requeue] on the store [m]: the state of [from], and links in
    the queue. *)
Lemma requeue_frame w w' m l from b run :
  cbs w !! from = Some b -> cbs w' = m -> frames w' = frames w ->
  m !! from = Some (if run : bool then set_state b RUNNABLE else b) ->
  (forall x, x ∉ from :: l -> m !! x = cbs w !! x) ->
  (forall x, x ∈ l -> exists y n, cbs w !! x = Some y /\ m !! x = Some (set_next y n)) ->
  (forall x, x <> from -> view w' x = view w x) /\ (forall x, x ∉ l -> next <$> m !! x = next <$> cbs w !! x) /\
  (saved_inv w -> saved_inv w').
Proof.
  intros Hb <- Hf Hmf Hmo Hml.
  assert (Hblk : forall x, cbs w' !! x = cbs w !! x \/ (x = from \/ x ∈ l) /\ exists y c, cbs w !! x = Some y /\ cbs w' !! x = Some c /\
    registers c = registers y /\ runLock c = runLock y /\ (x <> from -> state c = state y) /\ (x ∉ l -> next c = next y)).
  { intros x. destruct (decide (x ∈ l)) as [Hxl|Hxl].
    - right. split; [by right|]. destruct (Hml x Hxl) as (y & n & Hy & Hy'). by exists y, (set_next y n).
    - destruct (decide (x = from)) as [->|Hxf]; [right|left; apply Hmo; by apply not_elem_of_cons].
      split; [by left|]. eexists b, _. do 2 (split; [done|]). by destruct run. }
  split; [|split].
  - intros x Hx. unfold view. rewrite Hf. destruct (Hblk x) as [->|(_ & y & c & H1 & H2 & _ & H3 & H4 & _)]; [done|].
    rewrite H1, H2. cbn. by rewrite H3, H4.
  - intros x Hx. destruct (Hblk x) as [->|(_ & y & c & H1 & H2 & _ & _ & _ & H3)]; [done|]. rewrite H1, H2. cbn. by rewrite H3.
  - intros Hs x c Hc Hx. rewrite Hf in Hx. destruct (Hblk x) as [E|(_ & y & c' & H1 & H2 & H3 & _)].
    + rewrite E in Hc. by apply (Hs x).
    + assert (c = c') as -> by congruence. rewrite H3. by apply (Hs x).
Qed.

Lemma requeue_advances w ps pl me from to e :
  machine_inv allocateStack (mkMachine w ps pl) -> ps !! me = Some (Requeue from to e) -> advances w ps pl me (Requeue from to e).
Proof.
  intros Hinv Hp. pose proof Hinv as [I1 I2 I3 I4 I5 I6]. cbn in *.
  destruct (I2 me _ Hp) as (s & l & Hs & Hn & Hc & Ha & Hst & Hh & Hl). destruct (I3 me _ Hp) as (pr & Hpr & Hpn).
  destruct (I1 me _ Hp) as (Hoff & Hf0 & Hcur & Hne & Ht0 & Hon & Htask). destruct (Hcur Hf0) as [Honf Hftask].
  assert (Hin : forall t, pl t <> Queued me -> t ∉ l) by (intros t Ht Hin; by apply Ht, Hl).
  assert (Hfl : from ∉ l) by (apply Hin; congruence).
  pose proof Hftask as Hfb. apply taskIs_block in Hfb as (b & Hb & T1 & T2 & T3).
  destruct (requeue_spec w me (p_cpu pr) s l from b Hs Hh Hb Hfl Hf0) as (m & q & E & Hq & Hmf & Hmo & Hml).
  unfold advances. cbn [yieldStep]. rewrite (getProcessor_eq me w pr Hpr). cbn [obind]. rewrite E. cbn [obind].
  eexists _, _. split; [done|]. split; [|cbn; lia]. cbn [relocate]. rewrite (isRunning_some w from b Hb Hf0). clear E.
  set (run := bool_decide (state b = RUNNING)) in *. set (w' := mkWorld _ _ _ _ _ _).
  destruct (requeue_frame w w' m l from b run) as (Hview & Hnext & Hsaved); try done.
  assert (Hoth : forall t, t <> from -> (if run then <[from := Queued me]> pl else pl) t = pl t).
  { intros t Ht. destruct run; [by rewrite fn_lookup_insert_ne|done]. }
  eapply yield_update; [exact Hinv|exact Hp|..]; try done.
  - intros j Hj. cbn. by rewrite list_lookup_insert_ne.
  - intros x Hx. apply not_elem_of_app in Hx as [Hx _]. cbn in Hx. rewrite !not_elem_of_cons in Hx. destruct Hx as (? & ? & _).
    split; [by apply Hview|by apply Hoth].
  - intros x Hx _. by left.
  - intros x Hx. by apply Hnext, Hin.
  - by rewrite Hoth by congruence.
  - split; [done|]. split; [|done]. split; [done|]. right. rewrite Hoth by congruence. split; [done|]. split; [done|]. split; [done|]. split.
    + revert Htask. apply taskIs_view, Hview. congruence.
    + pose proof (taskIs_active _ _ _ b Hftask Hb) as Hft. fold run in Hft. rewrite taskIs_block in *. rewrite taskIs_block.
      destruct Hft as (b' & Hb' & F1 & F2 & F3). assert (b' = b) as -> by congruence. cbn. rewrite Hmf. destruct run.
      * right. rewrite fn_lookup_insert. split; [done|]. eexists. split; [done|]. repeat (split; [done|]). by left.
      * left. split; [done|]. by exists b.
  - exists (set_tasks s q), (if run then l ++ [from] else l). split; [by eapply insert_me|]. do 5 (split; [done|]). intros t.
    destruct run; [|by apply Hl]. rewrite elem_of_app, list_elem_of_singleton, Hl.
    destruct (decide (t = from)) as [->|Hx]; [rewrite fn_lookup_insert; naive_solver|]. rewrite fn_lookup_insert_ne by done. naive_solver.
  - by exists pr.
  - by apply Hsaved.
Qed.

Lemma leaving_block w pl i from to : leaving w pl i from to ->
  exists b, cbs w !! from = Some b /\ locked (runLock b) = true /\ enableIrqs (runLock b) = false.
Proof.
  intros (_ & [(_ & _ & H)|(_ & _ & _ & _ & [[_ H]|[_ H]])]); apply taskIs_block in H as (b & Hb & H1 & H2 & _); exists b; auto.
Qed.

Lemma save_advances w ps pl me from to f :
  machine_inv allocateStack (mkMachine w ps pl) -> ps !! me = Some (SaveRegisters from to f) -> advances w ps pl me (SaveRegisters from to f).
Proof.
  intros Hinv Hp. pose proof Hinv as [I1 I2 I3 I4 I5 I6]. cbn in *.
  destruct (I1 me _ Hp) as ((pr & Hpr & Hoff) & Hl & Hf). destruct (leaving_block _ _ _ _ _ Hl) as (b & Hb & _).
  unfold advances. cbn [yieldStep]. unfold saveRegisters. rewrite (getProcessor_eq me w pr Hpr). cbn [obind].
  rewrite (updTask_eq w from b) by done. cbn [obind]. eexists _, _. split; [done|]. split; [|cbn; lia]. cbn [relocate].
  set (b' := set_registers b _). set (w' := set_frames _ _).
  assert (Hfst : forall x, fst (view w' x) = fst (view w x)).
  { intros x. unfold view. cbn. destruct (decide (x = from)) as [->|Hx]; [by rewrite lookup_insert_eq, Hb|by rewrite lookup_insert_ne]. }
  assert (Htask : forall x lck st, taskIs w x lck st <-> taskIs w' x lck st) by (intros; unfold taskIs; by rewrite Hfst).
  eapply yield_update; [exact Hinv|exact Hp|..]; try done.
  - intros x Hx. split; [|done]. apply not_elem_of_app in Hx as [Hx _]. other_view.
  - intros x Hx _. by left.
  - intros x _. by apply (next_update _ _ b).
  - split; [by exists pr|]. unfold leaving in *. rewrite <- !Htask. split; [done|].
    intros <-. destruct (Hf eq_refl) as [e ->]. exists e. cbn. by rewrite lookup_insert_eq.
  - apply (scheduler_keep w _ pl pl); [by apply (I2 me _ Hp)|done| |done]. intros x _. by apply (next_update _ _ b).
  - by apply (I3 me _ Hp).
  - intros x c Hc Hx. unfold w' in Hc, Hx. cbn in Hc, Hx. destruct (decide (x = from)) as [->|Hne].
    + rewrite lookup_insert_eq in Hc. injection Hc as <-. change (Z.testbit (Spinlock.rflags (p_cpu pr)) 9 = false). by rewrite <- localIrqState_testbit.
    + rewrite lookup_insert_ne in Hc by done. rewrite lookup_insert_ne in Hx by done. by apply (I5 x).
Qed.

(** Giving the run lock back with interrupts off. *)
Lemma unlockTask_off w me t pr b :
  processors w !! me = Some pr -> cbs w !! t = Some b -> enableIrqs (runLock b) = false ->
  unlockTask me w t = Ok (mkWorld (<[t := set_runLock b (mkSpinlock 0 false)]> (cbs w)) (schedulers w) (cpuCount w)
    (<[me := mkProcessor (p_cpu pr) (p_regs pr)]> (processors w)) (frames w) (pendingYields w)).
Proof. intros Hp Hb He. apply (unlockTask_eq me w t pr b); try done. unfold release. by rewrite He. Qed.

Lemma taskIs_unlocked w w' t b st : cbs w !! t = Some b -> cbs w' !! t = Some (set_runLock b (mkSpinlock 0 false)) ->
  taskIs w t true st -> taskIs w' t false st.
Proof.
  intros Hb Hb' H. apply taskIs_block in H as (c & Hc & _ & _ & H). apply taskIs_block. assert (c = b) as -> by congruence.
  eexists. split; [exact Hb'|]. done.
Qed.

Lemma unlock_advances w ps pl me from to :
  machine_inv allocateStack (mkMachine w ps pl) -> ps !! me = Some (UnlockTask from to) -> advances w ps pl me (UnlockTask from to).
Proof.
  intros Hinv Hp. pose proof Hinv as [I1 I2 I3 I4 I5 I6]. cbn in *.
  destruct (I1 me _ Hp) as ((pr & Hpr & Hoff) & Hl & Hf). destruct (leaving_block _ _ _ _ _ Hl) as (b & Hb & _ & He).
  destruct (I3 me _ Hp) as (pr' & Hpr' & Hpn). assert (pr' = pr) as -> by congruence.
  unfold advances. cbn [yieldStep]. rewrite (unlockTask_off w me from pr b) by done. cbn [obind].
  eexists _, _. split; [done|]. split; [|cbn; lia]. cbn [relocate]. set (w' := mkWorld _ _ _ _ _ _).
  assert (Hb' : cbs w' !! from = Some (set_runLock b (mkSpinlock 0 false))) by (cbn; by rewrite lookup_insert_eq).
  assert (Hlt : (me < length ps)%nat) by by eapply lookup_lt_Some.
  destruct Hl as (Hf0 & Hl). set (pl' := if decide _ then _ else _).
  assert (Hpl : forall t, t <> from -> pl' t = pl t).
  { intros t Ht. unfold pl'. case_decide; [by rewrite fn_lookup_insert_ne|done]. }
  assert (Hq : forall t, pl' t = Queued me <-> pl t = Queued me).
  { intros t. destruct (decide (t = from)) as [->|Hne]; [|by rewrite Hpl]. unfold pl'. case_decide as Hd; [|done].
    rewrite fn_lookup_insert. destruct Hd as [_ ->]. naive_solver. }
  eapply yield_update; [exact Hinv|exact Hp|..]; try done.
  - intros j Hj. cbn. by rewrite list_lookup_insert_ne.
  - intros x Hx. apply not_elem_of_app in Hx as [Hx _]. split; [other_view|]. apply Hpl. cbn in Hx.
    by apply not_elem_of_cons in Hx as [? _].
  - cbn. intros x Hx _. left. tasks. by right; left.
  - intros x _. by apply (next_update _ _ b).
  - cbn. intros x Hx Hn Hx0. apply not_elem_of_cons in Hn as [Hn _]. assert (x = from) as -> by (by tasks).
    destruct Hl as [(? & _)|(_ & Ht0 & Hon & Htask & Hl)]; [done|]. unfold pl'. destruct Hl as [[Honf Hft]|[Hqf Hft]].
    + rewrite decide_True, fn_lookup_insert by done. split; [by right|]. split; [done|]. by apply (taskIs_unlocked w w' from b).
    + rewrite decide_False by naive_solver congruence. rewrite Hqf. split; [by left|]. exists (LockTask to).
      rewrite list_lookup_insert_eq by done. split; [done|]. by apply (taskIs_unlocked w w' from b).
  - unfold pl'. case_decide; [|done]. by rewrite fn_lookup_insert_ne.
  - split; [eexists; split; [by eapply insert_me|done]|]. destruct Hl as [(<- & Hon & Hft)|(Hne & Ht0 & Hon & Htask & _)].
    + unfold incoming, pl'. rewrite decide_False by naive_solver. split; [done|]. split; [done|]. right.
      split; [by apply (taskIs_unlocked w w' from b)|]. exact (Hf eq_refl).
    + unfold incoming. rewrite Hpl by congruence. split; [done|]. split; [done|]. left. revert Htask. apply taskIs_view. other_view.
  - apply (scheduler_keep w _ pl pl'); [by apply (I2 me _ Hp)|done| |done]. intros x _. by apply (next_update _ _ b).
  - eexists. split; [by eapply insert_me|]. exact Hpn.
  - intros x c. by apply (saved_update w from b).
Qed.

Lemma incoming_block w pl i t lck : incoming w pl i t lck ->
  exists b, cbs w !! t = Some b /\ locked (runLock b) = lck /\ (lck = true -> enableIrqs (runLock b) = false) /\ state b ∈ active.
Proof.
  intros (_ & _ & [H|[H _]]); apply taskIs_block in H as (b & Hb & H1 & H2 & H3); exists b; repeat (split; [done|]);
    unfold active; apply list_elem_of_singleton in H3 as ->; [by left|by right; left].
Qed.

Lemma lock_advances w ps pl me to :
  machine_inv allocateStack (mkMachine w ps pl) -> ps !! me = Some (LockTask to) -> advances w ps pl me (LockTask to).
Proof.
  intros Hinv Hp. pose proof Hinv as [I1 I2 I3 I4 I5 I6]. cbn in *.
  destruct (I1 me _ Hp) as ((pr & Hpr & Hoff) & Hin). destruct (incoming_block _ _ _ _ _ Hin) as (b & Hb & T1 & _).
  destruct (I3 me _ Hp) as (pr' & Hpr' & Hpn). assert (pr' = pr) as -> by congruence.
  unfold advances. cbn [yieldStep]. rewrite (lockTask_eq me w to pr b) by done. rewrite Hoff. cbn [obind].
  eexists _, _. split; [done|]. split; [|cbn; lia]. cbn [relocate]. set (w' := mkWorld _ _ _ _ _ _).
  assert (Htask : forall st, taskIs w to false st -> taskIs w' to true st).
  { intros st H. apply taskIs_block in H as (c & Hc & _ & _ & H). assert (c = b) as -> by congruence. apply taskIs_block.
    eexists. cbn. rewrite lookup_insert_eq. split; [done|]. done. }
  eapply yield_update; [exact Hinv|exact Hp|..]; try done.
  - intros j Hj. cbn. by rewrite list_lookup_insert_ne.
  - intros x Hx. apply not_elem_of_app in Hx as [Hx _]. split; [other_view|done].
  - intros x Hx _. by left.
  - intros x _. by apply (next_update _ _ b).
  - split; [eexists; split; [by eapply insert_me|cbn; auto with kernel]|]. destruct Hin as (H0 & Hon & H).
    split; [done|]. split; [done|]. destruct H as [H|[H H']]; auto.
  - apply (scheduler_keep w _ pl pl); [by apply (I2 me _ Hp)|done| |done]. intros x _. by apply (next_update _ _ b).
  - eexists. split; [by eapply insert_me|]. exact Hpn.
  - intros x c. by apply (saved_update w to b).
Qed.

Lemma load_advances w ps pl me to :
  machine_inv allocateStack (mkMachine w ps pl) -> ps !! me = Some (LoadRegisters to) -> advances w ps pl me (LoadRegisters to).
Proof.
  intros Hinv Hp. pose proof Hinv as [I1 I2 I3 I4 I5 I6]. cbn in *.
  destruct (I1 me _ Hp) as ((pr & Hpr & Hoff) & Hin). destruct (incoming_block _ _ _ _ _ Hin) as (b & Hb & T1 & _).
  destruct (I3 me _ Hp) as (pr' & Hpr' & Hpn). assert (pr' = pr) as -> by congruence.
  unfold advances. cbn [yieldStep]. unfold loadRegisters. rewrite (getProcessor_eq me w pr Hpr). cbn [obind]. unfold getBlock.
  rewrite Hb. cbn [of_option obind]. eexists _, _. split; [done|]. split; [|cbn; lia]. cbn [relocate].
  eapply yield_update; [exact Hinv|exact Hp|..]; try done.
  - intros j Hj. by rewrite set_processor_other.
  - intros x Hx _. by left.
  - split; [|exact Hin]. intros Hf. eapply irqsOff_insert; [done|]. cbn. rewrite localIrqState_testbit. by apply (I5 to).
  - by apply (I2 me _ Hp).
  - eexists. split; [by eapply insert_me|]. exact Hpn.
Qed.

(** The rest of [yield] in a running task. *)
Lemma finish_keeps w ps pl me t irqs :
  machine_inv allocateStack (mkMachine w ps pl) -> ps !! me = Some (Resume t) -> taskIs w t true [RUNNING] ->
  exists w', finishYield me (set_frames w (delete t (frames w))) irqs = Ok w' /\
    machine_inv allocateStack (mkMachine w' (<[me := Executes t]> ps) pl).
Proof.
  intros Hinv Hp Ht. pose proof Hinv as [I1 I2 I3 I4 I5 I6]. cbn in *.
  destruct (I1 me _ Hp) as (Hoff & H0 & Hon & _). destruct (I3 me _ Hp) as (pr & Hpr & Hpn).
  destruct (finishYield_eq (set_frames w (delete t (frames w))) me pr irqs Hpr) as (c & -> & Hc). eexists. split; [done|].
  eapply yield_update; [exact Hinv|exact Hp|..]; try done.
  - intros j Hj. by rewrite set_processor_other.
  - intros x Hx. apply not_elem_of_app in Hx as [Hx _]. split; [other_view|done].
  - intros x Hx _. by left.
  - split; [done|]. intros _. split; [done|]. apply (taskIs_states _ _ _ [RUNNING]); [|done].
    intros st Hst. apply list_elem_of_singleton in Hst as ->. by left.
  - by apply (I2 me _ Hp).
  - eexists. split; [by eapply insert_me|]. cbn. by rewrite Hc.
  - apply (saved_keep w); [done|by eauto|]. cbn. intros x Hx. destruct (decide (x = t)) as [->|Hne].
    + rewrite lookup_delete_eq in Hx. by destruct Hx.
    + by rewrite lookup_delete_ne in Hx.
Qed.

(** A processor with nothing to do takes the blocked task off its scheduler. *)
Lemma idle_keeps w ps pl me t :
  machine_inv allocateStack (mkMachine w ps pl) -> ps !! me = Some (Resume t) -> taskIs w t true [BLOCKING] -> irqsOff w me ->
  exists w', (let! '(c, w) := removeCurrent w me in switchToSchedulerStack allocateStack w me c) = Ok (HaultCode t, w') /\
    machine_inv allocateStack (mkMachine w' (<[me := HaultCode t]> ps) pl).
Proof.
  intros Hinv Hp Ht Hoff. pose proof Hinv as [I1 I2 I3 I4 I5 I6]. cbn in *.
  destruct (I1 me _ Hp) as (_ & H0 & Hon & _). destruct (I2 me _ Hp) as (s & l & Hs & Hn & Hc & Ha & Hst & Hh & Hl).
  unfold switchToSchedulerStack, removeCurrent, getScheduler. rewrite Hs. cbn [of_option obind].
  unfold set_scheduler at 1. cbn [schedulers]. rewrite (insert_me _ _ _ _ Hs). cbn [of_option obind].
  assert (Hw : exists st, hasStack allocateStack st /\
    (if schedulerStack (set_current s 0) =? 0
     then let! q := allocateStack in Ok (set_scheduler (set_scheduler w me (set_current s 0)) me (set_stack (set_current s 0) q))
     else Ok (set_scheduler w me (set_current s 0))) = Ok (set_scheduler w me (set_stack (set_current s 0) st))).
  { destruct (Z.eqb_spec (schedulerStack (set_current s 0)) 0) as [E|E].
    - destruct Hst as [Hst|Hst]; [done|]. destruct allocateStack as [q| | |] eqn:Ea; try done. exists q.
      split; [by right|]. cbn [obind]. unfold set_scheduler. cbn. by rewrite list_insert_insert_eq.
    - exists (schedulerStack s). split; [exact Hst|]. by destruct s. }
  destruct Hw as (st & Hst' & ->). cbn [obind]. rewrite Hc. cbn [currentOf]. eexists. split; [done|].
  eapply yield_update; [exact Hinv|exact Hp|..]; try done.
  - intros j Hj. by rewrite set_scheduler_other.
  - intros x Hx _. by left.
  - exists (set_stack (set_current s 0) st), l. split; [by eapply insert_me|]. done.
  - by apply (I3 me _ Hp).
Qed.

Lemma resume_advances w ps pl me t :
  machine_inv allocateStack (mkMachine w ps pl) -> ps !! me = Some (Resume t) -> advances w ps pl me (Resume t).
Proof.
  intros Hinv Hp. pose proof Hinv as [I1 I2 I3 I4 I5 I6]. cbn in *.
  destruct (I1 me _ Hp) as (Hoff & H0 & Hon & Htask). destruct (I3 me _ Hp) as (pr & Hpr & Hpn).
  unfold advances. cbn [yieldStep].
  assert (Hrun : frames w !! t = None \/ (exists e, frames w !! t = Some (AfterSwap e)) -> taskIs w t true [RUNNING]).
  { intros Hf. destruct Htask as [H|(_ & e & He)]; [done|]. cbn in He. rewrite He in Hf. by destruct Hf as [|[]]. }
  destruct (frames w !! t) as [[irqs|irqs j]|] eqn:Ef.
  - destruct (finish_keeps w ps pl me t irqs Hinv Hp) as (w' & -> & Hinv'); [by eauto|].
    cbn [obind]. eexists _, _. split; [done|]. split; [exact Hinv'|cbn; lia].
  - destruct Htask as [Htask|(Htask & e & He)].
    + pose proof Htask as Hb. apply taskIs_block in Hb as (b & Hb & _ & _ & Hr). apply list_elem_of_singleton in Hr.
      unfold getBlock. rewrite Hb. cbn [of_option obind]. rewrite bool_decide_eq_true_2 by done. cbn [negb].
      destruct (finish_keeps w ps pl me t irqs Hinv Hp Htask) as (w' & -> & Hinv'). cbn [obind]. eexists _, _.
      split; [done|]. split; [exact Hinv'|cbn; lia].
    + cbn in He. rewrite Ef in He. injection He as -> ->.
      pose proof Htask as Hb. apply taskIs_block in Hb as (b & Hb & _ & _ & Hr). apply list_elem_of_singleton in Hr.
      unfold getBlock. rewrite Hb. cbn [of_option obind]. rewrite bool_decide_eq_false_2 by congruence. cbn [negb].
      destruct (idle_keeps w ps pl me t Hinv Hp Htask) as (w' & -> & Hinv'); [by apply Hoff; eauto|].
      eexists _, _. split; [done|]. split; [exact Hinv'|cbn; lia].
  - eexists _, _. split; [done|]. split; [|cbn; lia]. cbn [relocate]. eapply yield_update; [exact Hinv|exact Hp|..]; try done.
    + intros x Hx _. by left.
    + split; [done|]. intros _. split; [done|]. apply (taskIs_states _ _ _ [RUNNING]); [|by auto].
      intros st Hst. apply list_elem_of_singleton in Hst as ->. by left.
    + by apply (I2 me _ Hp).
    + by exists pr.
Qed.

Lemma halt_advances w ps pl me t :
  machine_inv allocateStack (mkMachine w ps pl) -> ps !! me = Some (HaultCode t) -> advances w ps pl me (HaultCode t).
Proof.
  intros Hinv Hp. pose proof Hinv as [I1 I2 I3 I4 I5 I6]. cbn in *.
  destruct (I1 me _ Hp) as (Hoff & H0 & Hon & Htask). destruct (I3 me _ Hp) as (pr & Hpr & Hpn).
  pose proof Htask as Hb. apply taskIs_block in Hb as (b & Hb & T1 & T2 & T3).
  unfold advances. cbn [yieldStep]. unfold haultCode. rewrite (unlockTask_off w me t pr b) by auto. cbn [obind].
  erewrite getProcessor_eq; [|cbn [processors]; by eapply insert_me]. cbn [obind].
  erewrite setCpu_eq; [|cbn [processors]; by eapply insert_me]. cbn [obind].
  eexists _, _. split; [done|]. split; [|cbn; lia]. cbn [relocate]. set (w' := set_processor _ _ _).
  assert (Hq : forall x, <[t := Parked]> pl x = Queued me <-> pl x = Queued me).
  { intros x. destruct (decide (x = t)) as [->|Hne]; [rewrite fn_lookup_insert, Hon; split; congruence|by rewrite fn_lookup_insert_ne]. }
  eapply yield_update; [exact Hinv|exact Hp|..]; try done.
  - intros j Hj. cbn. by rewrite !list_lookup_insert_ne.
  - intros x Hx. apply not_elem_of_app in Hx as [Hx _]. split; [other_view|]. cbn in Hx. apply not_elem_of_cons in Hx as [Hx _].
    by rewrite fn_lookup_insert_ne.
  - cbn. intros x Hx. by apply elem_of_nil in Hx.
  - intros x _. by apply (next_update _ _ b).
  - cbn. intros x Hx _ _. apply list_elem_of_singleton in Hx as ->. rewrite fn_lookup_insert. split; [by right|]. split; [done|].
    apply (taskIs_unlocked w w' t b); [done| |done]. cbn. by rewrite lookup_insert_eq.
  - by rewrite fn_lookup_insert_ne.
  - apply (scheduler_keep w _ pl); [by apply (I2 me _ Hp)|done| |done]. intros x _. by apply (next_update _ _ b).
  - eexists. cbn. rewrite list_insert_insert_eq. split; [by eapply insert_me|]. exact Hpn.
  - intros x c. by apply (saved_update w t b).
Qed.

Lemma yield_advances w ps pl me p :
  machine_inv allocateStack (mkMachine w ps pl) -> ps !! me = Some p -> advances w ps pl me p.
Proof.
  intros Hinv Hp. destruct p; eauto using begin_advances, pop_advances, dispatch_advances, requeue_advances, save_advances,
    unlock_advances, lock_advances, load_advances, resume_advances, halt_advances.
Qed.

(** ** Everything else *)

(** What a running task does to its own block or to its scheduler's flags. *)
Lemma own_update w ps pl me t w' :
  machine_inv allocateStack (mkMachine w ps pl) -> ps !! me = Some (Executes t) ->
  (forall j, j <> me -> schedulers w' !! j = schedulers w !! j) -> processors w' = processors w -> frames w' = frames w ->
  (exists s locked postponed, schedulers w !! me = Some s /\ schedulers w' !! me = Some (set_yield s locked postponed)) ->
  (forall x, x <> t -> cbs w' !! x = cbs w !! x) ->
  (exists b b', cbs w !! t = Some b /\ cbs w' !! t = Some b' /\ runLock b' = runLock b /\ next b' = next b /\
     registers b' = registers b /\ (state b ∈ active -> state b' ∈ active)) ->
  machine_inv allocateStack (mkMachine w' ps pl).
Proof.
  intros Hinv Hp HA HB HF HS Hx (b & b' & Hb & Hb' & Hl & Hn & Hr & Hst). pose proof Hinv as [I1 I2 I3 I4 I5 I6]. cbn in *.
  destruct (I1 me _ Hp) as (H0 & Hcur). destruct (Hcur H0) as [Hon Htask].
  rewrite <- (list_insert_id ps me (Executes t)) by done.
  assert (Hnext : forall x, next <$> cbs w' !! x = next <$> cbs w !! x).
  { intros x. destruct (decide (x = t)) as [->|Hne]; [rewrite Hb, Hb'; cbn; by rewrite Hn|by rewrite Hx]. }
  eapply yield_update; [exact Hinv|exact Hp|..]; try done.
  - intros j Hj. rewrite HB. auto.
  - intros x Hin. split; [|done]. apply not_elem_of_app in Hin as [Hin _]. cbn in Hin. apply not_elem_of_cons in Hin as [Hne _].
    unfold view. by rewrite HF, Hx.
  - intros x Hin _. by left.
  - split; [done|]. intros _. split; [done|]. apply taskIs_block in Htask as (c & Hc & T1 & T2 & T3).
    assert (c = b) as -> by congruence. apply taskIs_block. exists b'. rewrite Hl. auto.
  - destruct (I2 me _ Hp) as (s & l & Hs & H1 & H2 & H3 & H4 & H5 & H6). cbn in *.
    assert (Hh : holds (cbs w') (tasks s) l) by (apply (holds_links (cbs w)); [done|auto]).
    destruct HS as (s' & lk & po & Hs' & HS). assert (s' = s) as -> by congruence.
    exists (set_yield s lk po), l. done.
  - unfold processor_inv. rewrite HB. by apply (I3 me _ Hp).
  - intros x c Hc Hf. rewrite HF in Hf. destruct (decide (x = t)) as [->|Hne].
    + assert (c = b') as -> by congruence. rewrite Hr. by apply (I5 t).
    + rewrite Hx in Hc by done. by apply (I5 x).
Qed.

Lemma task_keep w ps pl me t f w' :
  machine_inv allocateStack (mkMachine w ps pl) -> ps !! me = Some (Executes t) -> updTask w t f = Ok w' ->
  (forall b, runLock (f b) = runLock b /\ next (f b) = next b /\ registers (f b) = registers b /\ (state b ∈ active -> state (f b) ∈ active)) ->
  machine_inv allocateStack (mkMachine w' ps pl).
Proof.
  intros Hinv Hp E Hf. destruct (mi_pcs _ _ Hinv me _ Hp) as (H0 & Hcur). destruct (task_of _ _ _ _ Hcur H0) as (b & Hb & _).
  destruct (mi_schedulers _ _ Hinv me _ Hp) as (s & l & Hs & _). cbn in *. rewrite (updTask_eq w t b) in E by done. injection E as <-.
  apply (own_update w ps pl me t); try done.
  - exists s, (yieldLocked s), (yieldPostponed s). cbn. rewrite Hs. by destruct s.
  - intros x Hx. cbn. by rewrite lookup_insert_ne.
  - exists b, (f b). cbn. rewrite lookup_insert_eq. split; [done|]. by split.
Qed.

Lemma flags_keep w ps pl me t s lk po :
  machine_inv allocateStack (mkMachine w ps pl) -> ps !! me = Some (Executes t) -> schedulers w !! me = Some s ->
  machine_inv allocateStack (mkMachine (set_scheduler w me (set_yield s lk po)) ps pl).
Proof.
  intros Hinv Hp Hs. destruct (mi_pcs _ _ Hinv me _ Hp) as (H0 & Hcur). destruct (task_of _ _ _ _ Hcur H0) as (b & Hb & _).
  apply (own_update w ps pl me t); try done.
  - intros j Hj. by rewrite set_scheduler_other.
  - exists s, lk, po. split; [done|]. by eapply insert_me.
  - by exists b, b.
Qed.

(** What happens to a task that is on no processor and in no queue. *)
Lemma task_update w ps pl t x w' :
  machine_inv allocateStack (mkMachine w ps pl) -> pl t = Absent \/ pl t = Parked -> x = Absent \/ x = Adding -> t <> 0 ->
  schedulers w' = schedulers w -> processors w' = processors w ->
  (forall y, y <> t -> cbs w' !! y = cbs w !! y /\ frames w' !! y = frames w !! y) ->
  (forall b, cbs w' !! t = Some b -> is_Some (frames w' !! t) -> Z.testbit (TaskQueue.rflags (registers b)) 9 = false) ->
  place_inv w' ps t x -> machine_inv allocateStack (mkMachine w' ps (<[t := x]> pl)).
Proof.
  intros Hinv Ht Hx H0 HS HP Hy Hsv Hpl. pose proof Hinv as [I1 I2 I3 I4 I5 I6]. cbn in *.
  assert (Hview : forall y, y <> t -> view w' y = view w y) by (intros y Hne; unfold view; by destruct (Hy y Hne) as [-> ->]).
  assert (Hq : forall i y, <[t := x]> pl y = Queued i <-> pl y = Queued i).
  { intros i y. destruct (decide (y = t)) as [->|Hne]; [|by rewrite fn_lookup_insert_ne].
    rewrite fn_lookup_insert. destruct Ht as [->| ->], Hx as [->| ->]; done. }
  assert (Hown : forall i p y, ps !! i = Some p -> y ∈ tasksOf p -> y <> 0 -> y <> t).
  { intros i p y Hp Hin Hy0 ->. destruct (pc_inv_mine w pl i p t) as [E|E]; auto; rewrite E in Ht; by destruct Ht. }
  constructor; cbn.
  - intros i p Hp. apply (pc_inv_frame w w' pl); [| |by apply I1].
    + intros y Hin Hy0. assert (Hne := Hown i p y Hp Hin Hy0). split; [by apply Hview|by apply fn_lookup_insert_ne].
    + unfold irqsOff. by rewrite HP.
  - intros i p Hp. apply (scheduler_keep w w' pl); [by apply I2|by rewrite HS| |intros y; apply Hq].
    intros y Hyq. assert (y <> t) by (intros ->; rewrite Hyq in Ht; by destruct Ht). by destruct (Hy y) as [-> _].
  - intros i p Hp. unfold processor_inv. rewrite HP. by apply (I3 i p).
  - intros y. destruct (decide (y = t)) as [->|Hne]; [by rewrite fn_lookup_insert|]. rewrite fn_lookup_insert_ne by done.
    specialize (I4 y). assert (Hv := Hview y Hne). destruct (pl y) as [|i|i| |]; cbn in *; try done.
    + by destruct (Hy y Hne) as [-> _].
    + destruct I4 as (p & Hp & I4). exists p. split; [done|]. by apply (taskIs_view w).
    + destruct I4 as [? I4]. split; [done|]. by apply (taskIs_view w).
    + destruct I4 as [? I4]. split; [done|]. by apply (taskIs_view w).
  - intros y b Hb Hf. destruct (decide (y = t)) as [->|Hne]; [by apply Hsv|]. destruct (Hy y Hne) as [E1 E2].
    rewrite E1 in Hb. rewrite E2 in Hf. by apply (I5 y).
  - by rewrite fn_lookup_insert_ne.
Qed.

Lemma currentOf_block w pl i p : pc_inv w pl i p -> currentOf p <> 0 -> is_Some (cbs w !! currentOf p).
Proof.
  intros H H0.
  assert (Hc : forall t, t <> 0 -> current w pl i t -> is_Some (cbs w !! t)).
  { intros t Ht0 Hc. destruct (task_of w pl i t Hc Ht0) as (b & -> & _). by eexists. }
  assert (Ht : forall t l st, taskIs w t l st -> is_Some (cbs w !! t)).
  { intros t l st H1. apply taskIs_block in H1 as (b & -> & _). by eexists. }
  destruct p; cbn in *; unfold incoming, leaving in *; destruct_and?; try done; eauto; destruct_or?; destruct_and?; subst; eauto.
Qed.

(** [addTask] puts the task in the queue of the scheduler and changes nothing
    else but links. *)
Lemma enqueueTask_spec w me i t s l b p :
  schedulers w !! i = Some s -> processors w !! me = Some p -> locked (addTaskLock s) = false -> holds (cbs w) (tasks s) l ->
  t ∉ l -> t <> 0 -> cbs w !! t = Some b -> (currentTask s <> 0 -> is_Some (cbs w !! currentTask s)) ->
  exists pre m q l' e, enqueueTask me w i t = Ok (pre, mkWorld m (<[i := set_addTaskLock (set_tasks s q) (mkSpinlock 0 e)]> (schedulers w))
      (cpuCount w) (processors w) (frames w) (pendingYields w)) /\
    holds m q l' /\ (forall x, x ∈ l' <-> x = t \/ x ∈ l) /\ onlyLinks (cbs w) m (t :: l).
Proof.
  intros Hs Hp Ha Hh Hl H0 Hb Hcur. unfold enqueueTask, getScheduler. rewrite Hs. cbn [of_option obind].
  rewrite (getProcessor_eq me w p Hp). cbn [obind]. rewrite acquire_free by done. cbn [obind].
  match goal with |- context [obind ?x] =>
    match x with context [currentTask] => assert (Hpre : exists pre, x = Ok pre) end end.
  { destruct (Z.eqb_spec (currentTask s) 0) as [E|E]; [by eexists|]. unfold getBlock. destruct (Hcur E) as [c ->].
    cbn [of_option obind]. destruct (negb _); [by eexists|]. rewrite Hb. by eexists. }
  destruct Hpre as [pre ->]. cbn [obind].
  assert (Hpush : exists m q l', (if pre then push_front (disableLocalIrqs (p_cpu p)) (cbs w) (tasks s) t
      else push (disableLocalIrqs (p_cpu p)) (cbs w) (tasks s) t) = Ok (m, (disableLocalIrqs (p_cpu p), q)) /\
    holds m q l' /\ (forall x, x ∈ l' <-> x = t \/ x ∈ l) /\ onlyLinks (cbs w) m (t :: l)).
  { destruct pre.
    - destruct (push_front_spec (disableLocalIrqs (p_cpu p)) _ _ _ t Hh Hl H0) as (m & q & E & H1 & H2); [by eexists|].
      exists m, q, (t :: l). split; [exact E|]. split; [done|]. split; [intros x; by rewrite elem_of_cons|].
      split; [|apply H2]. intros x Hx. apply H2. rewrite list_elem_of_singleton. intros ->. apply Hx. by left.
    - destruct (push_spec (disableLocalIrqs (p_cpu p)) _ _ _ t Hh Hl H0) as (m & q & E & H1 & H2); [by eexists|].
      exists m, q, (l ++ [t]). split; [exact E|]. split; [done|].
      split; [intros x; rewrite elem_of_app, list_elem_of_singleton; tauto|].
      split; [|apply H2]. intros x Hx. apply H2. intros Hin. apply Hx. by right. }
  destruct Hpush as (m & q & l' & -> & Hpush). cbn [obind]. rewrite release_acquire by done.
  rewrite (setCpu_eq me _ p) by done. cbn [obind]. exists pre, m, q, l', (localIrqState (p_cpu p)). split; [|exact Hpush].
  f_equal. f_equal. replace (mkProcessor (p_cpu p) (p_regs p)) with p by by destruct p. by rewrite set_processor_id.
Qed.

Lemma onlyLinks_view w w' l x : onlyLinks (cbs w) (cbs w') l -> frames w' = frames w -> view w' x = view w x.
Proof.
  intros [_ H] Hf. unfold view. rewrite Hf. destruct (H x) as [->|(b & n & -> & ->)]; done.
Qed.

Lemma add_keeps w ps pl me i p t pre w' :
  machine_inv allocateStack (mkMachine w ps pl) -> ps !! me = Some p -> pl t = Adding -> (i < length ps)%nat ->
  enqueueTask me w i t = Ok (pre, w') -> machine_inv allocateStack (mkMachine w' ps (<[t := Queued i]> pl)).
Proof.
  intros Hinv Hp Ht Hi E. pose proof Hinv as [I1 I2 I3 I4 I5 I6]. cbn in *.
  destruct (lookup_lt_is_Some_2 ps i Hi) as [pi Hpi]. destruct (I2 i pi Hpi) as (s & l & Hs & H1 & H2 & H3 & H4 & H5 & H6).
  destruct (I3 me p Hp) as (pr & Hpr & _). pose proof (I4 t) as Hadd. rewrite Ht in Hadd. destruct Hadd as [H0 Htask].
  pose proof Htask as Hb. apply taskIs_block in Hb as (b & Hb & _).
  assert (Hl : t ∉ l) by (intros Hin; apply H6 in Hin; congruence).
  destruct (enqueueTask_spec w me i t s l b pr) as (pre' & m & q & l' & e & E' & Hq & Hin & Ho); try done.
  { rewrite H2. apply (currentOf_block w pl i). by apply I1. }
  assert (w' = mkWorld m (<[i := set_addTaskLock (set_tasks s q) (mkSpinlock 0 e)]> (schedulers w)) (cpuCount w) (processors w) (frames w) (pendingYields w)) as -> by congruence.
  clear E E'. set (w' := mkWorld _ _ _ _ _ _).
  assert (Hview : forall x, view w' x = view w x) by (intros x; by apply (onlyLinks_view w w' (t :: l))).
  assert (Hown : forall j q y, ps !! j = Some q -> y ∈ tasksOf q -> y <> 0 -> y <> t).
  { intros j r y Hr Hy Hy0 ->. destruct (pc_inv_mine w pl j r t) as [Ex|Ex]; auto; congruence. }
  assert (Hother : forall j y, j <> i -> <[t := Queued i]> pl y = Queued j <-> pl y = Queued j).
  { intros j y Hj. destruct (decide (y = t)) as [->|Hne]; [|by rewrite fn_lookup_insert_ne].
    rewrite fn_lookup_insert, Ht. split; congruence. }
  constructor; cbn; try done.
  - intros j r Hr. apply (pc_inv_frame w w' pl); [|done|by apply I1]. intros y Hy Hy0. split; [apply Hview|].
    apply fn_lookup_insert_ne. by apply not_eq_sym, (Hown j r).
  - intros j r Hr. destruct (decide (j = i)) as [->|Hne].
    + exists (set_addTaskLock (set_tasks s q) (mkSpinlock 0 e)), l'. assert (r = pi) as -> by congruence.
      split; [cbn; by eapply insert_me|]. do 5 (split; [done|]). intros y. rewrite Hin.
      destruct (decide (y = t)) as [->|Hyt]; [rewrite fn_lookup_insert; tauto|]. rewrite fn_lookup_insert_ne, H6 by done. naive_solver.
    + apply (scheduler_keep w w' pl); [by apply I2|cbn; by rewrite list_lookup_insert_ne| |intros y; by apply Hother].
      intros y Hy. cbn. destruct Ho as [Ho _]. rewrite Ho; [done|]. rewrite not_elem_of_cons, H6. split; congruence.
  - intros y. destruct (decide (y = t)) as [->|Hyt].
    + rewrite fn_lookup_insert. exists pi. split; [done|]. rewrite leavingTask_notin; [by apply (taskIs_view w)|].
      intros Hin'. by apply (Hown i pi t).
    + rewrite fn_lookup_insert_ne by done. specialize (I4 y). specialize (Hview y).
      destruct (pl y) as [|j|j| |]; cbn in *; try done.
      * apply (f_equal fst) in Hview. unfold view in Hview. cbn in Hview. rewrite I4 in Hview. by destruct (m !! y).
      * destruct I4 as (r & Hr & I4). exists r. split; [done|]. by apply (taskIs_view w).
      * destruct I4 as [? I4]. split; [done|]. by apply (taskIs_view w).
      * destruct I4 as [? I4]. split; [done|]. by apply (taskIs_view w).
  - intros y c Hc Hf. cbn in Hc, Hf. destruct Ho as [_ Ho]. destruct (Ho y) as [Ey|(b' & n & E1 & E2)].
    + rewrite Ey in Hc. by apply (I5 y).
    + rewrite Hc in E2. injection E2 as ->. exact (I5 y b' E1 Hf).
  - by rewrite fn_lookup_insert_ne.
Qed.

(** ** The steps are those of [Scheduler_yield] *)

Lemma yieldSteps_go me n w p p' w' :
  yieldStep me allocateStack w p = Ok (p', w') -> inYield p' = true ->
  yieldSteps me allocateStack (S n) w p = yieldSteps me allocateStack n w' p'.
Proof. intros E H. cbn [yieldSteps]. rewrite E. cbn [obind]. by rewrite H. Qed.

Lemma yieldSteps_end me n w p p' w' :
  yieldStep me allocateStack w p = Ok (p', w') -> inYield p' = false -> yieldSteps me allocateStack (S n) w p = Ok (p', w').
Proof. intros E H. cbn [yieldSteps]. rewrite E. cbn [obind]. by rewrite H. Qed.

Lemma resume_steps me n w t f w' : resume me allocateStack w t = Ok (f, w') ->
  exists p', yieldSteps me allocateStack (S (S n)) w (Resume t) = Ok (p', w') /\ (f = Halts /\ p' = Halted \/ f = Runs t /\ p' = Executes t).
Proof.
  intros H. unfold resume in H.
  assert (Hfin : forall irqs, (let! w := finishYield me (set_frames w (delete t (frames w))) irqs in Ok (Runs t, w)) = Ok (f, w') ->
    f = Runs t /\ finishYield me (set_frames w (delete t (frames w))) irqs = Ok w').
  { intros irqs Hf. apply obind_ok in Hf as (w1 & -> & [= <- <-]). done. }
  destruct (frames w !! t) as [[irqs|irqs i]|] eqn:Ef.
  - destruct (Hfin irqs H) as [-> E]. exists (Executes t). split; [|by right]. apply yieldSteps_end; [|done].
    cbn [yieldStep]. by rewrite Ef, E.
  - apply obind_ok in H as (b & Eb & H). destruct (negb (bool_decide (state b = RUNNING))) eqn:Er.
    + unfold idle in H. apply obind_ok in H as ([t' w1] & E1 & H). apply obind_ok in H as (s & E2 & H).
      apply obind_ok in H as (w2 & E3 & H). apply obind_ok in H as (w3 & E4 & H). apply obind_ok in H as (pr & E5 & H).
      apply obind_ok in H as (w4 & E6 & [= <- <-]). exists Halted. split; [|by left].
      rewrite (yieldSteps_go me _ w _ (HaultCode t') w2); [| |done].
      * apply yieldSteps_end; [|done]. cbn [yieldStep]. unfold haultCode. rewrite E4. cbn [obind]. rewrite E5. cbn [obind]. by rewrite E6.
      * cbn [yieldStep]. rewrite Ef, Eb. cbn [obind]. rewrite Er. unfold switchToSchedulerStack. rewrite E1. cbn [obind].
        rewrite E2. cbn [obind]. by rewrite E3.
    + destruct (Hfin irqs H) as [-> E]. exists (Executes t). split; [|by right]. apply yieldSteps_end; [|done].
      cbn [yieldStep]. rewrite Ef, Eb. cbn [obind]. by rewrite Er, E.
  - injection H as <- <-. exists (Executes t). split; [|by right]. apply yieldSteps_end; [|done]. cbn [yieldStep]. by rewrite Ef.
Qed.

Lemma restore_steps me n w t f w' :
  (let! w := restoreRegisters me w t in resume me allocateStack w t) = Ok (f, w') ->
  exists p', yieldSteps me allocateStack (S (S (S (S n)))) w (LockTask t) = Ok (p', w') /\ (f = Halts /\ p' = Halted \/ f = Runs t /\ p' = Executes t).
Proof.
  intros H. apply obind_ok in H as (w2 & E & H). unfold restoreRegisters in E. apply obind_ok in E as (w1 & E1 & E).
  rewrite (yieldSteps_go me _ w _ (LoadRegisters t) w1); [|cbn [yieldStep]; by rewrite E1|done].
  rewrite (yieldSteps_go me _ w1 _ (Resume t) w2); [by apply resume_steps| |done].
  cbn [yieldStep]. unfold loadRegisters. by rewrite E.
Qed.

Lemma swap_steps me n w from to fr f w' :
  (let! w := swapRegisters me w from to fr in resume me allocateStack w to) = Ok (f, w') ->
  exists p', yieldSteps me allocateStack (S (S (S (S (S (S n)))))) w (SaveRegisters from to fr) = Ok (p', w') /\
    (f = Halts /\ p' = Halted \/ f = Runs to /\ p' = Executes to).
Proof.
  intros H. unfold swapRegisters in H. rewrite !obind_assoc in H. apply obind_ok in H as (w1 & E1 & H). rewrite obind_assoc in H.
  apply obind_ok in H as (w2 & E2 & H).
  rewrite (yieldSteps_go me _ w _ (UnlockTask from to) w1); [|cbn [yieldStep]; by rewrite E1|done].
  rewrite (yieldSteps_go me _ w1 _ (LockTask to) w2); [|cbn [yieldStep]; by rewrite E2|done].
  by apply restore_steps.
Qed.

(** The beginning of the call. *)
Lemma begin_steps me n w p s pr :
  inYield p = false -> schedulers w !! me = Some s -> yieldLocked s = false -> processors w !! me = Some pr ->
  yieldSteps me allocateStack (S n) w p =
  yieldSteps me allocateStack n (set_processor w me (mkProcessor (disableLocalIrqs (p_cpu pr)) (p_regs pr)))
    (PopTask (currentTask s) (localIrqState (p_cpu pr))).
Proof.
  intros Hp Hs Hyl Hpr. apply yieldSteps_go; [|done].
  destruct p; try done; cbn [yieldStep]; unfold getScheduler; rewrite Hs; cbn [of_option obind]; rewrite Hyl; cbn [negb];
    rewrite (getProcessor_eq me w pr Hpr); cbn [obind]; by rewrite (setCpu_eq me w pr).
Qed.

(** From the task taken from the queue on. *)
Lemma dispatch_steps me w s q pr from to e f w' :
  schedulers w !! me = Some s -> processors w !! me = Some pr ->
  (let! w := updTask (set_scheduler w me (set_tasks s q)) to (fun b => set_timeSlice (set_state b RUNNING) INITIAL_TIME_SLICE) in
   let w := set_scheduler w me (set_current (set_tasks s q) to) in
   if negb (from =? 0) then
     let! w := requeue w me (p_cpu pr) from in
     let! w := swapRegisters me w from to (AfterSwap e) in
     resume me allocateStack w to
   else
     let! w := restoreRegisters me w to in
     resume me allocateStack w to) = Ok (f, w') ->
  exists p', yieldSteps me allocateStack 8 (set_scheduler w me (set_tasks s q)) (Dispatch from to e) = Ok (p', w') /\
    (f = Halts /\ p' = Halted \/ f = Runs to /\ p' = Executes to).
Proof.
  intros Hs Hpr H. apply obind_ok in H as (w3 & E3 & H). set (w4 := set_scheduler w3 me (set_current (set_tasks s q) to)) in *.
  assert (Hd : yieldStep me allocateStack (set_scheduler w me (set_tasks s q)) (Dispatch from to e)
    = Ok (if negb (from =? 0) then Requeue from to e else LockTask to, w4)).
  { cbn [yieldStep]. rewrite E3. cbn [obind]. unfold getScheduler. unfold updTask in E3. apply obind_ok in E3 as (m & _ & [= <-]).
    cbn [schedulers set_cbs set_scheduler]. by rewrite (insert_me _ _ _ _ Hs). }
  destruct (negb (from =? 0)).
  - rewrite (yieldSteps_go me _ _ _ (Requeue from to e) w4); [|by rewrite Hd|done].
    apply obind_ok in H as (w5 & E5 & H).
    rewrite (yieldSteps_go me _ w4 _ (SaveRegisters from to (AfterSwap e)) w5); [exact (swap_steps me 0 _ _ _ _ _ _ H)| |done].
    cbn [yieldStep]. assert (Hpr4 : processors w4 !! me = Some pr).
    { unfold updTask in E3. by apply obind_ok in E3 as (m & _ & [= <-]). }
    rewrite (getProcessor_eq me w4 pr Hpr4). cbn [obind]. by rewrite E5.
  - rewrite (yieldSteps_go me _ _ _ (LockTask to) w4); [exact (restore_steps me 3 _ _ _ _ H)|by rewrite Hd|done].
Qed.

(** With the other processors at rest the steps do what [Scheduler_yield] does. *)
Lemma yield_steps me w p s f w' :
  inYield p = false -> schedulers w !! me = Some s -> yieldLocked s = false -> Scheduler_yield me allocateStack w me = Ok (f, w') ->
  exists p', yieldSteps me allocateStack 10 w p = Ok (p', w') /\
    match f with Halts => p' = Halted | Runs t => p' = Executes t | Returns => p' = Executes (currentTask s) end.
Proof.
  intros Hp Hs Hyl H. unfold Scheduler_yield, getScheduler in H. rewrite Hs in H. cbn [of_option obind] in H.
  rewrite Hyl in H. cbn [negb] in H. apply obind_ok in H as (pr & Epr & H).
  assert (Hpr : processors w !! me = Some pr) by (unfold getProcessor in Epr; destruct (processors w !! me); [by injection Epr as ->|done]).
  rewrite (setCpu_eq me w pr) in H by done. cbn [obind] in H. rewrite (begin_steps me 9 w p s pr) by done.
  set (pr1 := mkProcessor (disableLocalIrqs (p_cpu pr)) (p_regs pr)) in *. set (w1 := set_processor w me pr1) in *.
  assert (Hpr1 : processors w1 !! me = Some pr1) by by eapply insert_me.
  change (disableLocalIrqs (p_cpu pr)) with (p_cpu pr1) in H.
  apply obind_ok in H as ([to [c q]] & Epop & H). set (w2 := set_scheduler w1 me (set_tasks s q)) in *.
  set (from := currentTask s) in *. set (e := localIrqState (p_cpu pr)) in *.
  assert (Hpop : yieldStep me allocateStack w1 (PopTask from e) =
    if negb (to =? 0) then Ok (Dispatch from to e, w2)
    else if from =? 0 then let! w := setCpu me w2 (enableLocalIrqs (p_cpu pr1)) in Ok (Halted, w)
    else let! b := getBlock (cbs w2) from in
      if negb (bool_decide (state b = RUNNING)) then Ok (SaveRegisters from from (AfterIdleSave e me), w2)
      else let! w := finishYield me w2 e in Ok (Executes from, w)).
  { cbn [yieldStep]. unfold getScheduler. change (schedulers w1) with (schedulers w). rewrite Hs. cbn [of_option obind].
    rewrite (getProcessor_eq me w1 pr1 Hpr1). cbn [obind]. by rewrite Epop. }
  destruct (negb (to =? 0)); [|destruct (from =? 0)].
  - rewrite (yieldSteps_go me _ w1 _ (Dispatch from to e) w2); [|by rewrite Hpop|done].
    destruct (dispatch_steps me w1 s q pr1 from to e f w' Hs Hpr1 H) as (p' & E & Hf). exists p'. split; [exact E|].
    by destruct Hf as [[-> ->]|[-> ->]].
  - apply obind_ok in H as (w3 & E3 & [= <- <-]). exists Halted. split; [|done]. apply yieldSteps_end; [|done]. by rewrite Hpop, E3.
  - apply obind_ok in H as (b & Eb & H). rewrite Eb in Hpop. cbn [obind] in Hpop.
    destruct (negb (bool_decide (state b = RUNNING))).
    + rewrite (yieldSteps_go me _ w1 _ (SaveRegisters from from (AfterIdleSave e me)) w2); [|by rewrite Hpop|done].
      destruct (swap_steps me 2 _ _ _ _ _ _ H) as (p' & E & Hf). exists p'. split; [exact E|]. by destruct Hf as [[-> ->]|[-> ->]].
    + apply obind_ok in H as (w3 & E3 & [= <- <-]). exists (Executes from). split; [|done]. apply yieldSteps_end; [|done]. by rewrite Hpop, E3.
Qed.

(** ** The start *)

Lemma init_steps w before t ts :
  is_ok allocateStack = true -> starting allocateStack w before (t :: ts) ->
  exists w', init 0 w (Z.of_nat (length before)) t = Ok w' /\ starting allocateStack w' (before ++ [t]) ts.
Proof.
  intros Hall [B1 B2 B3 B4 B5 B6 (pr & Hpr & Hoff) B8 B9]. destruct (B3 t) as [H0 Htask]; [by left|].
  pose proof Htask as Hb. apply taskIs_block in Hb as (b & Hb & T1 & _ & T3).
  rewrite length_app in B9. cbn [length] in B9. specialize (B5 (length before)) as Hs.
  unfold init, Scheduler_initialise. rewrite Nat2Z.id. unfold getScheduler. rewrite Hs by lia. cbn [of_option obind].
  rewrite (lockTask_eq 0 w t pr b) by done. rewrite Hoff. cbn [obind cbs schedulers cpuCount processors frames pendingYields set_scheduler].
  eexists. split; [done|]. assert (Htn : forall x, x ∈ before -> x <> t).
  { intros x Hx ->. apply NoDup_app in B1 as (_ & B1 & _). apply (B1 t Hx). by left. }
  assert (Hst : schedulers w !! length before = Some Scheduler_init) by (apply Hs; lia).
  constructor; cbn [cbs schedulers processors frames].
  - by rewrite <- app_assoc.
  - intros i x Hx. destruct (decide (i = length before)) as [->|Hi].
    + rewrite lookup_app_r, Nat.sub_diag in Hx by lia. injection Hx as <-. split; [done|]. split.
      * apply taskIs_block. eexists. cbn. rewrite lookup_insert_eq. split; [done|]. done.
      * eexists. split; [by eapply insert_me|]. do 3 (split; [done|]). split; [by right|]. apply holds_empty.
    + assert (Hx' : before !! i = Some x).
      { assert (i < length (before ++ [t]))%nat by by eapply lookup_lt_Some. rewrite length_app in *. cbn in *.
        by rewrite lookup_app_l in Hx by lia. }
      destruct (B2 i x Hx') as (Hx0 & H1 & s & H2 & H3 & H4 & H5 & H6 & H7). split; [done|]. split.
      * revert H1. apply taskIs_view. unfold view. cbn. rewrite lookup_insert_ne; [done|].
        apply not_eq_sym, Htn. by eapply list_elem_of_lookup_2.
      * exists s. rewrite list_lookup_insert_ne by done. repeat (split; [done|]).
        apply (holds_links (cbs w)); [done|]. by intros y Hy%elem_of_nil.
  - intros x Hx. destruct (B3 x) as [Hx0 H1]; [by right|]. split; [done|]. revert H1. apply taskIs_view. unfold view. cbn.
    rewrite lookup_insert_ne; [done|]. intros ->. apply NoDup_app in B1 as (_ & _ & B1). by apply NoDup_cons in B1 as [? _].
  - intros x Hx. rewrite <- app_assoc in Hx. cbn in Hx. rewrite lookup_insert_ne; [by apply B4|]. intros ->. apply Hx.
    rewrite elem_of_app. right. by left.
  - intros i Hi. rewrite length_app in Hi. cbn in Hi. rewrite list_lookup_insert_ne by lia. apply B5. lia.
  - intros i Hi. rewrite <- app_assoc in Hi. destruct (B6 i Hi) as (q & Hq & Hn). unfold processor_inv. cbn.
    destruct i as [|i]; [|exists q; by rewrite list_lookup_insert_ne]. assert (q = pr) as -> by congruence. eexists.
    split; [by eapply insert_me|]. exact Hn.
  - eexists. split; [by eapply insert_me|]. cbn. auto with kernel.
  - done.
  - rewrite <- app_assoc, length_app. cbn. lia.
Qed.

Lemma initSchedulers_run ts : forall w before,
  is_ok allocateStack = true -> starting allocateStack w before ts ->
  exists w', initSchedulers w (Z.of_nat (length before)) ts = Ok w' /\ starting allocateStack w' (before ++ ts) [].
Proof.
  induction ts as [|t ts IH]; intros w before Hall Hst.
  - exists w. by rewrite app_nil_r.
  - destruct (init_steps w before t ts Hall Hst) as (w1 & E & H1). destruct (IH w1 (before ++ [t]) Hall H1) as (w' & E' & H').
    exists w'. cbn [initSchedulers]. rewrite E. cbn [obind]. rewrite length_app in E'. cbn [length] in E'.
    rewrite <- app_assoc in H'. split; [|done]. rewrite <- E'. f_equal. lia.
Qed.

Lemma bootPlaces_Some ts i t : NoDup ts -> bootPlaces ts t = OnCpu i <-> ts !! i = Some t.
Proof.
  intros Hnd. unfold bootPlaces. destruct (list_find (fun x => x = t) ts) as [[j x]|] eqn:E.
  - apply list_find_Some in E as (Hj & -> & _). split; [by intros [= ->]|]. intros Hi. f_equal. by eapply (NoDup_lookup ts).
  - split; [done|]. intros Hi. apply list_find_None in E. rewrite Forall_forall in E. exfalso. apply (E t); [|done]. by eapply list_elem_of_lookup_2.
Qed.

Lemma booted_inv w ts : starting allocateStack w ts [] -> machine_inv allocateStack (bootMachine w ts).
Proof.
  intros [B1 B2 B3 B4 B5 B6 B7 B8 B9]. rewrite app_nil_r in *.
  assert (Hpc : forall i p, (Executes <$> ts) !! i = Some p -> exists t, p = Executes t /\ ts !! i = Some t).
  { intros i p Hp. rewrite list_lookup_fmap in Hp. apply fmap_Some in Hp as (t & Ht & ->). eauto. }
  assert (Hq : forall t j, bootPlaces ts t <> Queued j) by (intros t j; unfold bootPlaces; by destruct (list_find _ _) as [[]|]).
  constructor; cbn.
  - intros i p Hp. destruct (Hpc i p Hp) as (t & -> & Ht). destruct (B2 i t Ht) as (H0 & H1 & _). split; [done|]. intros _.
    split; [by apply bootPlaces_Some|]. revert H1. apply taskIs_states. intros st ->%list_elem_of_singleton. by left.
  - intros i p Hp. destruct (Hpc i p Hp) as (t & -> & Ht). destruct (B2 i t Ht) as (H0 & _ & s & H1 & H2 & H3 & H4 & H5 & H6).
    exists s, []. do 6 (split; [done|]). intros x. split; [by intros ?%elem_of_nil|]. intros Hx. by apply Hq in Hx.
  - intros i p Hp. destruct (Hpc i p Hp) as (t & _ & Ht). apply B6. by eapply lookup_lt_Some.
  - intros t. destruct (bootPlaces ts t) as [|j|j| |] eqn:E; cbn.
    + apply B4. intros [i Hi]%list_elem_of_lookup. apply (bootPlaces_Some ts i t B1) in Hi. congruence.
    + by apply Hq in E.
    + apply bootPlaces_Some in E; [|done]. exists (Executes t). rewrite list_lookup_fmap, E. split; [done|]. by left.
    + unfold bootPlaces in E. by destruct (list_find _ _) as [[]|].
    + unfold bootPlaces in E. by destruct (list_find _ _) as [[]|].
  - intros t b _ [f Hf]. by rewrite B8, lookup_empty in Hf.
  - unfold bootPlaces. destruct (list_find _ _) as [[i x]|] eqn:E; [|done]. apply list_find_Some in E as (Hi & -> & _).
    by destruct (B2 i 0 Hi).
Qed.

(** ** Every step keeps the invariant *)

Lemma destructionCode_spec w me t freeStack w' pr b :
  processors w !! me = Some pr -> cbs w !! t = Some b -> locked (runLock b) = false ->
  destructionCode me w t freeStack = Ok w' -> w' = set_cbs w (delete t (cbs w)).
Proof.
  intros Hpr Hb Hl H. unfold destructionCode, getBlock in H. rewrite Hb in H. cbn [of_option obind] in H.
  rewrite (spinAcquire_eq me w _ pr) in H by done. cbn [obind] in H.
  erewrite spinRelease_eq in H by (cbn; by eapply insert_me). cbn [obind] in H.
  rewrite spin_restore in H by done. by destruct (if negb _ then _ else _) in H; simplify_eq/=.
Qed.

Lemma machine_step_inv m m' : machine_inv allocateStack m -> machine_step allocateStack m m' -> machine_inv allocateStack m'.
Proof.
  intros Hinv Hstep. destruct Hstep as [w ps pl me p p' w' Hp E|w ps pl me t t' w' Hp E|w ps pl me t w' Hp E|w ps pl me t w' Hp E
    |w ps pl me t s Hp Hs|w ps pl t b H0 Ht Hb|w ps pl t w' Ht E|w ps pl me i p t pre w' Hp _ Ht Hi E|w ps pl me t t' w' freeStack Hp Ht E];
    pose proof Hinv as [I1 I2 I3 I4 I5 I6]; cbn in *.
  - destruct (yield_advances w ps pl me p Hinv Hp) as (p1 & w1 & E1 & H1 & _). rewrite E in E1. by injection E1 as <- <-.
  - destruct (I2 me _ Hp) as (s & l & Hs & _ & Hc & _). unfold Scheduler_block, getScheduler in E. rewrite Hs in E.
    cbn [of_option obind] in E. rewrite Hc in E. apply obind_ok in E as (w1 & E & [= <- <-]).
    apply (task_keep w ps pl me t (fun b => set_state b BLOCKING)); try done.
    intros b. do 3 (split; [done|]). by right; left.
  - by apply (task_keep w ps pl me t (fun b => set_timeSlice b (u32 (timeSlice b - 1)))).
  - destruct (I2 me _ Hp) as (s & l & Hs & _). unfold Scheduler_lock, getScheduler in E. rewrite Hs in E. injection E as <-.
    by apply (flags_keep w ps pl me t).
  - by apply (flags_keep w ps pl me t).
  - apply (task_update w ps pl t Adding); try done; [by left|by right| | |].
    + intros y Hy. cbn. by rewrite lookup_insert_ne, lookup_delete_ne.
    + cbn. intros c _ Hf. rewrite lookup_delete_eq in Hf. by destruct Hf.
    + split; [done|]. apply taskIs_block. eexists. cbn. rewrite lookup_insert_eq. split; [done|]. do 2 (split; [done|]). by left.
  - pose proof (I4 t) as Htask. rewrite Ht in Htask. destruct Htask as [H0 Htask]. apply taskIs_block in Htask as (b & Hb & T1 & _).
    rewrite (updTask_eq w t b) in E by done. injection E as <-. apply (task_update w ps pl t Adding); try done; [by right|by right| | |].
    + intros y Hy. cbn. by rewrite lookup_insert_ne.
    + cbn. intros c Hc Hf. rewrite lookup_insert_eq in Hc. injection Hc as <-. by apply (I5 t b).
    + split; [done|]. apply taskIs_block. eexists. cbn. rewrite lookup_insert_eq. split; [done|]. split; [done|]. split; [done|]. by left.
  - by apply (add_keeps w ps pl me i p t pre).
  - pose proof (I4 t) as Htask. rewrite Ht in Htask. destruct Htask as [H0 Htask]. apply taskIs_block in Htask as (b & Hb & T1 & _).
    destruct (I3 me _ Hp) as (pr & Hpr & _). apply (destructionCode_spec w me t freeStack w' pr b) in E as ->; [|done|done|done].
    apply (task_update w ps pl t Absent); try done; [by right|by left| | |].
    + intros y Hy. cbn. by rewrite lookup_delete_ne.
    + cbn. intros c Hc. by rewrite lookup_delete_eq in Hc.
    + cbn. by rewrite lookup_delete_eq.
Qed.

Lemma choose_list {A} n (P : nat -> A -> Prop) :
  (forall i, (i < n)%nat -> exists x, P i x) -> exists l, length l = n /\ forall i x, l !! i = Some x -> P i x.
Proof.
  induction n as [|n IH]; intros H; [by exists []|]. destruct IH as (l & Hl & HP); [intros i Hi; apply H; lia|].
  destruct (H n) as [x Hx]; [lia|]. exists (l ++ [x]). rewrite length_app, Hl. split; [cbn; lia|]. intros i y Hi.
  apply lookup_app_Some in Hi as [Hi|[Hi1 Hi2]]; [by apply HP|]. rewrite Hl in *. destruct (i - n)%nat eqn:E; [|done].
  replace i with n by lia. by injection Hi2 as <-.
Qed.

Lemma machine_inv_ok m : machine_inv allocateStack m -> smp_ok allocateStack m.
Proof.
  destruct m as [w ps pl]. intros Hinv. pose proof Hinv as [I1 I2 I3 I4 I5 I6]. cbn in *. constructor; cbn.
  - intros i j t Hi Hj. destruct (I1 i _ Hi) as [H0 Hc]. destruct (I1 j _ Hj) as [_ Hc']. destruct (Hc H0), (Hc' H0). congruence.
  - intros i t Hi. destruct (I1 i _ Hi) as [H0 Hc]. destruct (Hc H0) as [_ Htask]. split; [done|].
    destruct (I2 i _ Hi) as (s & l & Hs & _ & Hcur & _). by exists s.
  - destruct (choose_list (length ps) (fun i l => (exists s, schedulers w !! i = Some s /\ holds (cbs w) (tasks s) l) /\
      forall t, t ∈ l <-> pl t = Queued i)) as (queues & Hlen & Hq).
    { intros i Hi. destruct (lookup_lt_is_Some_2 ps i Hi) as [p Hp].
      destruct (I2 i p Hp) as (s & l & Hs & _ & _ & _ & _ & Hh & Hl). exists l. split; [by exists s|done]. }
    exists queues. split; [done|]. split; [intros i l Hi; by apply Hq|]. split; [|split].
    + intros i j l l' t Hi Hj Ht Ht'. apply (Hq i l Hi) in Ht. apply (Hq j l' Hj) in Ht'. congruence.
    + intros i j l t Hi Ht Hj. apply (Hq i l Hi) in Ht. destruct (I1 j _ Hj) as [H0 Hc]. destruct (Hc H0). congruence.
    + intros t Ht. specialize (I4 t). destruct (pl t) as [|i|i| |] eqn:E; cbn in I4.
      * unfold taskState in Ht. rewrite I4 in Ht. by destruct Ht.
      * left. destruct I4 as (p & Hp & _). destruct (lookup_lt_is_Some_2 queues i) as [l Hl].
        { rewrite Hlen. by eapply lookup_lt_Some. }
        exists i, l. split; [done|]. by apply (Hq i l Hl).
      * right. left. destruct I4 as (p & Hp & Hin). by exists i, p.
      * destruct I4 as [_ H]. apply taskIs_block in H as (b & Hb & _ & _ & Hs). apply list_elem_of_singleton in Hs.
        unfold taskState in Ht. rewrite Hb in Ht. cbn in Ht. rewrite Hs in Ht. by destruct Ht.
      * by right; right.
  - intros me p Hp. destruct (yield_advances w ps pl me p Hinv Hp) as (p' & w' & E & _ & H). by exists p', w'.
  - intros i p Hp Hy. specialize (I1 i p Hp). destruct p; try done; by destruct I1.
Qed.

(** [C20] Tasks on several processors. From the calls of [scheduler::init] on,
    for every interleaving of the steps of [yield] on all processors with
    blocking and creating of tasks, and with waking and destroying of tasks that
    have left their processor (the code does not wait for that: [early_wake]):
    no task runs on two processors, every task that is not blocked is in a
    queue or on a processor, and [yield] never faults, never waits for a run
    lock, keeps interrupts off until the registers are loaded and ends after at
    most ten steps. *)
Theorem smp_safe w0 ts :
  is_ok allocateStack = true -> starting allocateStack w0 [] ts ->
  exists w, initSchedulers w0 0 ts = Ok w /\
    forall m, star (machine_step allocateStack) (bootMachine w ts) m -> smp_ok allocateStack m.
Proof.
  intros Hall Hst. destruct (initSchedulers_run ts w0 [] Hall Hst) as (w & E & H). exists w. split; [exact E|].
  intros m Hm. apply machine_inv_ok.
  apply (star_invariant _ _ machine_step_inv _ _ Hm). by apply booted_inv.
Qed.
End Proofs.

Lemma early_wake :
  (exists w, runsBlocked = Ok (Executes 1, w) /\ taskState w 1 = Some BLOCKING) /\
  idlesTwice = Fault /\ destroyedOnCpu = Fault.
Proof. split; [eexists; split; vm_compute; reflexivity|split; vm_compute; reflexivity]. Qed.

Lemma stack_in_use :
  exists w, sharesStack = Ok (Executes 1, w) /\ (fst <$> observe (task1Leaves 6 third Queue_init) id) = Some (LockTask 3) /\
    stackOf w 0 = Some 1000 /\ stackOf w 1 = Some 1000.
Proof. eexists. split; [vm_compute; reflexivity|]. split; [vm_compute; reflexivity|]. split; vm_compute; reflexivity. Qed.

(** ** A start *)

Definition bootWorld : World :=
  mkWorld (<[1 := aTask false RUNNING 2 0]> (<[2 := aTask false RUNNING 2 0]> ∅)) (replicate MAX_CPUS Scheduler_init) 0
    [mkProcessor (mkCpu 0 0) Registers_zero; mkProcessor (mkCpu 0 1) Registers_zero] ∅ [].

Lemma bootWorld_starting : starting (Ok 4096) bootWorld [] [1; 2].
Proof.
  constructor; cbn [app length].
  - by apply (bool_decide_unpack (NoDup [1; 2])).
  - done.
  - intros t Ht. rewrite !elem_of_cons, elem_of_nil in Ht. destruct Ht as [->|[->|[]]]; (split; [done|]);
      apply taskIs_block; eexists; (split; [reflexivity|]); repeat (split; [done|]); by left.
  - intros t Ht. rewrite !not_elem_of_cons in Ht. destruct Ht as (? & ? & _). cbn. by rewrite !lookup_insert_ne by congruence.
  - intros i Hi. apply lookup_replicate_2. lia.
  - intros [|[|i]] Hi; [by eexists|by eexists|lia].
  - eexists. split; [reflexivity|]. by vm_compute.
  - done.
  - unfold MAX_CPUS. lia.
Qed.

Lemma smp_safe_witness :
  exists w, initSchedulers bootWorld 0 [1; 2] = Ok w /\
    forall m, star (machine_step (Ok 4096)) (bootMachine w [1; 2]) m -> smp_ok (Ok 4096) m.
Proof. apply (smp_safe (Ok 4096) bootWorld [1; 2] eq_refl bootWorld_starting). Defined.
