(* ===== verification/Completions.v ===== *)
(** * Completions on one processor ([completion.cpp])

    [Completion_signalComplete] of [Sync] wakes all waiting tasks while
    yielding is locked. With tasks of equal priority (the case its callers are
    in) it never yields, so it gives its spinlock back; here: any interleaving
    of [await], [signalComplete], yields and timer ticks. *)

From Stdlib Require Import ZArith Lia String.
From stdpp Require Import base tactics numbers gmap list.
From S2P Require Import Prelude Spinlock TaskQueue Scheduler Sync.

Open Scope Z_scope.

Section Completions.
Context (me : nat) (allocateStack : outcome Z).

(** ** Specification

    [W] are the tasks that called [await] before the completion was
    signalled. *)
Inductive completion_step : World * Completion * list Z -> World * Completion * list Z -> Prop :=
| cs_await w c W cur f w' c' :
    getCurrentTask me w = Ok cur -> cur <> 0 -> Completion_await me allocateStack w c = Ok (f, (w', c')) ->
    completion_step (w, c, W) (w', c', if completed c then W else W ++ [cur])
| cs_signal w c W cur fuel f w' c' :
    getCurrentTask me w = Ok cur -> cur <> 0 -> (List.length W <= fuel)%nat -> Completion_signalComplete me allocateStack fuel w c = Ok (f, (w', c')) ->
    completion_step (w, c, W) (w', c', W)
| cs_yield w c W f w' :
    yield me allocateStack w = Ok (f, w') -> completion_step (w, c, W) (w', c, W)
| cs_tick w c W f w' :
    tick me allocateStack w = Ok (f, w') -> completion_step (w, c, W) (w', c, W).

(** All tasks have the same priority. *)
Definition samePriority (w : World) : Prop :=
  forall x y p q, taskPriority w x = Some p -> taskPriority w y = Some q -> p = q.

Lemma samePriority_eq w w' : samePriority w -> (forall x, taskPriority w' x = taskPriority w x) -> samePriority w'.
Proof. intros H E x y p q. rewrite !E. apply H. Qed.

(** [cl] are the tasks there were at first: each is runnable or waits. *)
Record completion_at (w : World) (c : Completion) (W cl : list Z) (cur : Z) (l bl : list Z) : Prop := {
  ci_count : cpuCount w = 1;
  ci_spin : locked (c_lock c) = false;
  ci_ready : ready me allocateStack w 0 cur l;
  ci_live : live w cur l;
  ci_priority : samePriority w;
  ci_waiting : waiting w (waitingTasks c) bl (cur :: l);
  ci_tasks : forall x, x <> 0 -> x ∈ cl <-> x ∈ cur :: l \/ x ∈ bl;
  ci_completed : bl = if completed c then [] else W
}.

Definition completion_inv (w : World) (c : Completion) (W cl : list Z) : Prop := exists cur l bl, completion_at w c W cl cur l bl.

(** ** Waking tasks while yielding is locked *)

(** The world without the lock on yielding. *)
Definition unlocked (w : World) (s : Scheduler) : World := set_scheduler w 0 (set_yield s false false).

Lemma preempts_equal w cur t : samePriority w -> isRunning w cur = true -> preempts w cur t = false.
Proof.
  intros Hp Hrun. unfold preempts. rewrite Hrun. cbn [negb orb].
  destruct (taskPriority w cur) as [p|] eqn:E1; [|done]. destruct (taskPriority w t) as [q|] eqn:E2; [|done].
  rewrite (Hp cur t p q E1 E2). apply Z.ltb_irrefl.
Qed.

(** A processor that runs [cur] while yielding is locked and was not asked
    for. *)
Record locked_at (w : World) (s : Scheduler) (p : Processor) (cur : Z) (l : list Z) : Prop := {
  la_sched : schedulers w !! 0%nat = Some s;
  la_yield : yieldPostponed s = false;
  la_proc : processors w !! me = Some p;
  la_count : cpuCount w = 1;
  la_ready : ready me allocateStack (unlocked w s) 0 cur l;
  la_running : isRunning w cur = true;
  la_priority : samePriority w
}.

Lemma addTask_locked w s p cur l t bt :
  locked_at w s p cur l -> t <> 0 -> t ∉ cur :: l -> cbs w !! t = Some bt -> locked (runLock bt) = false ->
  exists w' s' l', addTask me allocateStack w t = Ok (Returns, w') /\ locked_at w' s' p cur l' /\ processors w' = processors w /\
    resumes me allocateStack (unlocked w s) (unlocked w' s') cur l cur l' [t].
Proof.
  intros [Hs Hy Hp Hc Hr Hrun Hpr] Ht0 Hnin Hbt Hlt.
  assert (Hlen : (0 < List.length (schedulers w))%nat) by by eapply lookup_lt_Some.
  assert (Hs0 : schedulers (unlocked w s) !! 0%nat = Some (set_yield s false false)) by (cbn; by apply list_lookup_insert_eq).
  pose proof Hr as [(s0 & Es & Hct & _ & Hal & _ & _ & Hh) (p0 & Hp0 & Hn) Hcur _]. rewrite Hs0 in Es. injection Es as <-.
  cbn [currentTask addTaskLock tasks set_yield] in Hct, Hal, Hh. change (processors (unlocked w s)) with (processors w) in Hp0.
  assert (p0 = p) as -> by congruence.
  pose proof Hnin as Hnin'. apply not_elem_of_cons in Hnin' as [Htc Htl].
  destruct (push_spec (disableLocalIrqs (p_cpu p)) (<[t := set_state bt RUNNABLE]> (cbs w)) (tasks s) l t) as (m & q & E & _);
    [by apply (holds_update _ _ _ _ bt)|done|done|rewrite lookup_insert_eq; eauto|].
  pose proof (preempts_equal w cur t Hpr Hrun) as Hpre.
  assert (E1 := addTask_quiet me allocateStack w 0 s p t bt m q Hs Hp Hal Hbt ltac:(congruence) ltac:(by rewrite Hct) E).
  assert (E2 := addTask_quiet me allocateStack (unlocked w s) 0 (set_yield s false false) p t bt m q Hs0 Hp Hal Hbt
    ltac:(cbn; congruence) ltac:(cbn [currentTask set_yield]; by rewrite Hct) E).
  destruct (addTask_resumes me allocateStack (unlocked w s) cur l t bt Hr Hc Ht0 Hnin Hbt Hlt) as (f & w2 & cur' & l' & E3 & Hre & _).
  rewrite (addTask_own me allocateStack _ cur l t Hr Hc), E2 in E3. injection E3 as <- <-.
  assert (cur' = cur) as ->.
  { pose proof (re_ready _ _ _ _ _ _ _ _ _ Hre) as [(s' & Es' & Hct' & _) _ _ _]. cbn [schedulers] in Es'.
    rewrite list_lookup_insert_eq in Es' by (cbn; by rewrite length_insert). injection Es' as <-. by rewrite <- Hct', <- Hct. }
  assert (Hproc : <[me := mkProcessor (p_cpu p) (p_regs p)]> (processors w) = processors w)
    by (apply list_insert_id; rewrite Hp; by destruct p).
  set (w' := mkWorld m _ _ _ _ _) in E1. set (s' := set_addTaskLock (set_tasks s q) (mkSpinlock 0 (localIrqState (p_cpu p)))) in *.
  assert (Hs' : schedulers w' !! 0%nat = Some s') by (cbn; by apply list_lookup_insert_eq).
  assert (Hre' : resumes me allocateStack (unlocked w s) (unlocked w' s') cur l cur l' [t]).
  { unfold unlocked, set_scheduler, w' in *. cbn [schedulers cbs cpuCount processors frames pendingYields] in *.
    rewrite list_insert_insert_eq in *. exact Hre. }
  exists w', s', l'. split; [|split; [|split; [exact Hproc|exact Hre']]].
  - rewrite (addTask_one me allocateStack w s p t Hs Hp Hn); [exact E1| |exact Hc].
    rewrite Hct. intros H0. destruct (Hcur H0) as (_ & b & Hb & _). exists b. exact Hb.
  - constructor; [exact Hs'|exact Hy|cbn; by rewrite Hproc|exact Hc|apply Hre'| |].
    + change (isRunning (unlocked w' s') cur = true). eapply resumes_running; [exact Hre'|by eapply isRunning_nonzero|].
      right. left. by split.
    + eapply (samePriority_eq w); [done|]. apply (re_priority _ _ _ _ _ _ _ _ _ Hre').
Qed.

(** The loop wakes the tasks that wait, all of them. *)
Lemma wakeAll_spec bl : forall fuel w s p cur l q0 q,
  (List.length bl <= fuel)%nat -> locked_at w s p cur l -> waiting w q0 bl (cur :: l) -> holds (cbs w) q (list.tail bl) ->
  exists w' q' s' l', wakeAll me allocateStack fuel w q (default 0 (list.head bl)) = Ok (w', q') /\
    locked_at w' s' p cur l' /\ holds (cbs w') q' [] /\
    (forall x, x <> 0 -> x ∈ cur :: l' <-> x ∈ cur :: l \/ x ∈ bl).
Proof.
  induction bl as [|t bl IH]; intros fuel w s p cur l q0 q Hf Hla Hw Hq.
  - exists w, q, s, l. split; [by destruct fuel|]. split; [done|]. split; [done|]. intros x _. rewrite elem_of_nil. tauto.
  - destruct fuel as [|fuel]; [cbn in Hf; lia|]. cbn [list.head list.tail default] in *. cbn [wakeAll].
    destruct (waiting_first w q0 q t bl _ Hw Hq) as (Ht0 & Hnin & Hw1 & bt & Hbt & Hlt).
    cbn [from_option id]. rewrite (proj2 (Z.eqb_neq t 0)) by done.
    destruct (addTask_locked w s p cur l t bt Hla Ht0 Hnin Hbt Hlt) as (w1 & s1 & l1 & -> & Hla1 & Hproc & Hre). cbn [obind].
    assert (Hw2 : waiting w1 q bl (cur :: l1)) by exact (resumes_waiting _ _ _ _ _ _ _ _ _ _ _ Hre Hw1).
    destruct (queuePop_ok me w1 q bl p (la_proc _ _ _ _ _ Hla1) (proj1 Hw2)) as (q1 & Ep & Hq1). rewrite Ep. cbn [obind].
    destruct (IH fuel w1 s1 p cur l1 q q1 ltac:(cbn in Hf; lia) Hla1 Hw2 Hq1) as (w' & q' & s' & l' & E & Hla' & Hq' & Hin).
    exists w', q', s', l'. split; [exact E|]. split; [done|]. split; [done|]. intros x Hx. rewrite Hin by done.
    rewrite (re_tasks _ _ _ _ _ _ _ _ _ Hre), list_elem_of_singleton, !elem_of_cons by done.
    change (isRunning (unlocked w s) cur) with (isRunning w cur). rewrite (la_running _ _ _ _ _ Hla). tauto.
Qed.

(** ** The operations *)

Lemma ready_unlocked w s cur l : schedulers w !! 0%nat = Some s -> ready me allocateStack w 0 cur l -> ready me allocateStack (unlocked w s) 0 cur l.
Proof.
  intros Hs [(s0 & Es & H1 & H2 & H3) H4 H5 H6]. assert (s0 = s) as -> by congruence. constructor; [|done|done|done].
  exists (set_yield s false false). split; [cbn; apply list_lookup_insert_eq; by eapply lookup_lt_Some|]. by repeat split; try apply H3.
Qed.

Lemma live_current w cur l : live w cur l -> cur <> 0 -> isRunning w cur = true.
Proof. intros [[-> _]|H] H0; done. Qed.

(** What can go on with the same completion. *)
Lemma completion_resumes w w' c W cl cur l bl cur' l' :
  completion_at w c W cl cur l bl -> resumes me allocateStack w w' cur l cur' l' [] -> completion_inv w' c W cl.
Proof.
  intros [H1 H2 H3 H4 H5 H6 H7 H8] Hre. exists cur', l', bl. constructor; try done; [by eapply re_count|by eapply re_ready|by eapply re_live| | |].
  - eapply samePriority_eq; [done|]. by apply (re_priority _ _ _ _ _ _ _ _ _ Hre).
  - by eapply resumes_waiting.
  - intros x Hx. rewrite H7, (re_tasks _ _ _ _ _ _ _ _ _ Hre), elem_of_nil, elem_of_cons by done.
    destruct H4 as [[-> ->]|Hrun]; [rewrite elem_of_nil; naive_solver|]. rewrite Hrun. tauto.
Qed.

Lemma completion_yield w c W cl : completion_inv w c W cl ->
  exists f w', yield me allocateStack w = Ok (f, w') /\ completion_inv w' c W cl.
Proof.
  intros (cur & l & bl & H). destruct (yield_resumes me allocateStack w cur l (ci_ready _ _ _ _ _ _ _ H) (ci_count _ _ _ _ _ _ _ H))
    as (f & w' & cur' & l' & E & Hre & _). exists f, w'. split; [exact E|]. by eapply completion_resumes.
Qed.

Lemma completion_tick w c W cl : completion_inv w c W cl ->
  exists f w', tick me allocateStack w = Ok (f, w') /\ completion_inv w' c W cl.
Proof.
  intros (cur & l & bl & H). destruct (tick_resumes me allocateStack w cur l (ci_ready _ _ _ _ _ _ _ H) (ci_count _ _ _ _ _ _ _ H)
    (ci_live _ _ _ _ _ _ _ H)) as (f & w' & cur' & l' & E & Hre). exists f, w'. split; [exact E|]. by eapply completion_resumes.
Qed.

Lemma completion_await w c W cl cur :
  completion_inv w c W cl -> getCurrentTask me w = Ok cur -> cur <> 0 ->
  exists f w' c', Completion_await me allocateStack w c = Ok (f, (w', c')) /\ completed c' = completed c /\
    completion_inv w' c' (if completed c then W else W ++ [cur]) cl.
Proof.
  intros (cur' & l & bl & [Hcnt Hspin Hr Hl Hpr Hw Hin Hb]) Hcur H0.
  destruct (own_index me allocateStack w 0 cur' l Hr) as [_ Hc]. assert (cur' = cur) as -> by congruence.
  pose proof (rd_cpu _ _ _ _ _ _ Hr) as (p & Hp & _). unfold Completion_await. rewrite (spinAcquire_eq me w _ p) by done. cbn [obind].
  destruct (completed c) eqn:Ec.
  - rewrite (spinRelease_eq me _ (p_cpu p) (p_regs p)) by (cbn; by eapply insert_me). cbn [obind]. rewrite spin_restore by done.
    do 3 eexists. split; [done|]. split; [done|]. exists cur, l, bl. by constructor.
  - destruct (block_in_queue me allocateStack w (waitingTasks c) bl p cur l) as (w2 & m2 & q' & Eb & Ep & f & w' & cur' & l' & Ey & _ & Hbk); try done.
    rewrite Eb. cbn [obind]. rewrite Ep. cbn [obind].
    rewrite (spinRelease_eq me _ (p_cpu p) (p_regs p)) by (cbn; by eapply insert_me). cbn [obind].
    rewrite spin_restore_cbs, Ey by done. cbn [obind]. do 3 eexists. split; [done|]. split; [done|].
    destruct Hbk as [B1 B2 B3 B4 B5 B6 B7]. exists cur', l', (bl ++ [cur]). constructor; try done.
    + by eapply samePriority_eq.
    + intros x Hx. rewrite Hin, B5, elem_of_app, list_elem_of_singleton, elem_of_cons by done. tauto.
    + cbn [completed]. by rewrite Hb.
Qed.

Lemma completion_signal fuel w c W cl cur :
  completion_inv w c W cl -> getCurrentTask me w = Ok cur -> cur <> 0 -> (List.length W <= fuel)%nat ->
  exists w' c', Completion_signalComplete me allocateStack fuel w c = Ok (Returns, (w', c')) /\ completed c' = true /\
    completion_inv w' c' W cl.
Proof.
  intros (cur' & l & bl & [Hcnt Hspin Hr Hl Hpr Hw Hin Hb]) Hcur H0 Hf.
  destruct (own_index me allocateStack w 0 cur' l Hr) as [_ Hc]. assert (cur' = cur) as -> by congruence.
  pose proof (live_current w cur l Hl H0) as Hrun.
  pose proof (rd_cpu _ _ _ _ _ _ Hr) as (p & Hp & Hn). pose proof (rd_sched _ _ _ _ _ _ Hr) as (s & Hs & _).
  unfold Completion_signalComplete. rewrite (spinAcquire_eq me w _ p) by done. cbn [obind].
  set (pd := mkProcessor (disableLocalIrqs (p_cpu p)) (p_regs p)). set (w1 := set_processor w me pd).
  assert (Hpd : processors w1 !! me = Some pd) by (cbn; by eapply insert_me).
  assert (Hr1 : ready me allocateStack w1 0 cur l) by (apply ready_processor; [done|eauto|done]).
  destruct (queuePop_ok me w1 (waitingTasks c) bl pd Hpd (proj1 Hw)) as (q1 & -> & Hq1). cbn [obind].
  unfold lock. destruct (own_index me allocateStack w1 0 cur l Hr1) as [-> _]. cbn [obind]. unfold Scheduler_lock, getScheduler.
  change (schedulers w1) with (schedulers w). rewrite Hs. cbn [of_option obind]. set (w2 := set_scheduler w1 0 (set_yield s true false)).
  assert (Hlen : (0 < List.length (schedulers w))%nat) by by eapply lookup_lt_Some.
  assert (Eu : unlocked w2 (set_yield s true false) = unlocked w1 s) by (unfold unlocked, w2, set_scheduler; cbn; by rewrite list_insert_insert_eq).
  assert (Hla : locked_at w2 (set_yield s true false) pd cur l).
  { constructor; [cbn; by apply list_lookup_insert_eq|done|exact Hpd|exact Hcnt| |exact Hrun|exact Hpr].
    rewrite Eu. by apply ready_unlocked. }
  destruct (wakeAll_spec bl fuel w2 (set_yield s true false) pd cur l (waitingTasks c) q1) as (w3 & q3 & s3 & l3 & -> & Hla3 & Hq3 & Hin3);
    [rewrite Hb; destruct (completed c); [cbn; lia|done]|exact Hla|exact Hw|exact Hq1|]. cbn [obind].
  destruct Hla3 as [Hs3 Hy3 Hp3 Hc3 Hr3 Hrun3 Hpr3]. unfold unlock.
  assert (Hown : ownIndex me w3 = Ok 0%nat) by exact (proj1 (own_index me allocateStack _ 0 cur l3 Hr3)).
  rewrite Hown. cbn [obind]. unfold Scheduler_unlock, getScheduler. rewrite Hs3. cbn [of_option obind]. fold (unlocked w3 s3).
  rewrite Hy3. cbn [obind]. rewrite (spinRelease_eq me (unlocked w3 s3) (p_cpu p) (p_regs p)) by exact Hp3. cbn [obind].
  do 2 eexists. split; [done|]. split; [done|]. exists cur, l3, []. constructor; try done.
  - by apply (ready_processor me allocateStack (unlocked w3 s3)); [|exists pd|].
  - by right.
  - split; [exact Hq3|]. intros x Hx. by apply elem_of_nil in Hx.
  - intros x Hx. rewrite Hin, Hin3, elem_of_nil by done. tauto.
Qed.

Lemma completion_inv_step cl x y : completion_step x y ->
  completion_inv (fst (fst x)) (snd (fst x)) (snd x) cl -> completion_inv (fst (fst y)) (snd (fst y)) (snd y) cl.
Proof.
  intros Hs Hi. destruct Hs as [w c W cur f w' c' Hc H0 E|w c W cur fuel f w' c' Hc H0 Hf E|w c W f w' E|w c W f w' E]; cbn in *.
  - destruct (completion_await w c W cl cur Hi Hc H0) as (f2 & w2 & c2 & E2 & _ & H). rewrite E in E2. by simplify_eq.
  - destruct (completion_signal fuel w c W cl cur Hi Hc H0 Hf) as (w2 & c2 & E2 & _ & H). rewrite E in E2. by simplify_eq.
  - destruct (completion_yield w c W cl Hi) as (f2 & w2 & E2 & H). rewrite E in E2. by simplify_eq.
  - destruct (completion_tick w c W cl Hi) as (f2 & w2 & E2 & H). rewrite E in E2. by simplify_eq.
Qed.

Lemma completion_inv_init w cur l :
  ready me allocateStack w 0 cur l -> cpuCount w = 1 -> live w cur l -> samePriority w ->
  completion_inv w Completion_init [] (cur :: l).
Proof.
  intros Hr Hc Hl Hp. exists cur, l, []. constructor; try done.
  - split; [apply holds_empty|]. intros x Hx. by apply elem_of_nil in Hx.
  - intros x _. rewrite elem_of_nil. tauto.
Qed.

(** ** Properties *)

(** [C21] A completion on one processor, between tasks of equal priority, after
    any interleaving of [await], [signalComplete], yields and timer ticks from
    a new completion: until it is signalled exactly the tasks that called
    [await] are blocked, and all others can run; once it is signalled every
    task can run again, so no wake-up is lost, and [await] returns at once. The
    spinlock is free between the calls, [signalComplete] returns to its caller
    with the completion signalled, and no call faults or hangs. *)
Theorem completion_safe w0 cur0 l0 w c W :
  ready me allocateStack w0 0 cur0 l0 -> cpuCount w0 = 1 -> live w0 cur0 l0 -> samePriority w0 ->
  star completion_step (w0, Completion_init, []) (w, c, W) ->
  exists cur l, getCurrentTask me w = Ok cur /\ ready me allocateStack w 0 cur l /\ locked (c_lock c) = false /\
    (forall t, t <> 0 -> t ∈ cur0 :: l0 -> t ∈ cur :: l \/ (completed c = false /\ t ∈ W)) /\
    (completed c = false -> forall t, t ∈ W -> t ∉ cur :: l /\ taskState w t = Some BLOCKING) /\
    (cur <> 0 ->
       (exists f w' c', Completion_await me allocateStack w c = Ok (f, (w', c')) /\ (completed c = true -> f = Returns)) /\
       forall fuel, (List.length W <= fuel)%nat ->
         exists w' c', Completion_signalComplete me allocateStack fuel w c = Ok (Returns, (w', c')) /\ completed c' = true) /\
    is_ok (yield me allocateStack w) = true /\ is_ok (tick me allocateStack w) = true.
Proof.
  intros Hr0 Hc0 Hl0 Hp0 Hstar. assert (Hinv : completion_inv w c W (cur0 :: l0)).
  { apply (star_invariant completion_step (fun x => completion_inv (fst (fst x)) (snd (fst x)) (snd x) (cur0 :: l0))) with (2 := Hstar);
      [intros x y Hx Hs; by eapply completion_inv_step|]. by apply completion_inv_init. }
  pose proof Hinv as (cur & l & bl & H). destruct (own_index me allocateStack w 0 cur l (ci_ready _ _ _ _ _ _ _ H)) as [_ Hcur].
  exists cur, l. split; [done|]. split; [apply H|]. split; [apply H|]. pose proof (ci_completed _ _ _ _ _ _ _ H) as Hb. split; [|split; [|split; [|split]]].
  - intros t Ht Hin. apply (ci_tasks _ _ _ _ _ _ _ H) in Hin as [Hin|Hin]; [by left| |done]. right.
    destruct (completed c); subst bl; [by apply elem_of_nil in Hin|done].
  - intros Hcf t Ht. rewrite Hcf in Hb. subst bl. destruct (proj2 (ci_waiting _ _ _ _ _ _ _ H) t Ht) as (H1 & _ & b & Hbt & Hs & _).
    split; [done|]. unfold taskState. rewrite Hbt. cbn. by rewrite Hs.
  - intros H0. split.
    + destruct (completion_await w c W _ cur Hinv Hcur H0) as (f & w' & c' & E & _). exists f, w', c'. split; [done|]. intros Hct.
      revert E. unfold Completion_await. pose proof (ci_ready _ _ _ _ _ _ _ H) as Hr. destruct (rd_cpu _ _ _ _ _ _ Hr) as (p & Hp & _).
      rewrite (spinAcquire_eq me w _ p Hp) by apply H. cbn [obind]. rewrite Hct.
      rewrite (spinRelease_eq me _ (p_cpu p) (p_regs p)) by (cbn; by eapply insert_me). cbn [obind]. by intros [= <- _ _].
    + intros fuel Hf. destruct (completion_signal fuel w c W _ cur Hinv Hcur H0 Hf) as (w' & c' & E & Hct & _). eauto.
  - by destruct (completion_yield w c W _ Hinv) as (f & w' & -> & _).
  - by destruct (completion_tick w c W _ Hinv) as (f & w' & -> & _).
Qed.
End Completions.

Lemma samePriority_map w p : map_Forall (fun _ b => priority b = p) (cbs w) -> samePriority w.
Proof.
  intros Hm x y px py. unfold taskPriority. intros Hx Hy.
  destruct (cbs w !! x) as [bx|] eqn:Ex; [|done]. destruct (cbs w !! y) as [by_|] eqn:Ey; [|done].
  pose proof (map_Forall_lookup_1 _ _ _ _ Hm Ex). pose proof (map_Forall_lookup_1 _ _ _ _ Hm Ey). cbn in *. congruence.
Qed.

Lemma oneCpu_priority : samePriority oneCpu.
Proof.
  apply (samePriority_map _ 2). intros x b. cbn [cbs oneCpu aWorld]. rewrite !lookup_insert_Some, lookup_empty. naive_solver.
Qed.

(** Tasks 1 and 2 await, task 3 signals. *)
Lemma aCompletionHistory : exists w c, star (completion_step 0 Fault) (oneCpu, Completion_init, []) (w, c, [1; 2]) /\ completed c = true.
Proof.
  do 2 eexists. split; [|shelve].
  eapply star_step; [eapply (cs_await 0 Fault oneCpu Completion_init [] 1); [vm_compute; reflexivity|done|vm_compute; reflexivity]|].
  cbn [completed app]. eapply star_step; [eapply (cs_await 0 Fault _ _ [1] 2); [vm_compute; reflexivity|done|vm_compute; reflexivity]|].
  cbn [completed app].
  eapply star_step; [eapply (cs_signal 0 Fault _ _ [1; 2] 3 2); [vm_compute; reflexivity|done|cbn; lia|vm_compute; reflexivity]|].
  apply star_refl.
  Unshelve. reflexivity.
Qed.

Lemma completion_safe_witness :
  exists w c (l : list Z), star (completion_step 0 Fault) (oneCpu, Completion_init, []) (w, c, [1; 2]) /\ completed c = true /\ 1 ∈ l /\ 2 ∈ l.
Proof.
  destruct aCompletionHistory as (w & c & Hs & Hc). destruct (completion_safe 0 Fault oneCpu 1 [2; 3] w c [1; 2] oneCpu_ready) as (cur & l & _ & _ & _ & H & _).
  - reflexivity.
  - right. vm_compute. reflexivity.
  - exact oneCpu_priority.
  - exact Hs.
  - exists w, c, (cur :: l). split; [exact Hs|]. split; [exact Hc|].
    split; [destruct (H 1) as [Hin|[Hf _]]|destruct (H 2) as [Hin|[Hf _]]];
      first [exact Hin|rewrite Hc in Hf; discriminate|discriminate|by apply (bool_decide_unpack (_ ∈ [1; 2; 3]))].
Defined.
