(* ===== verification/Messages.v ===== *)
(** * The blocking queue, the cleaner and the end of threads ([queue.h],
    [cleaner.cpp], [threadDestroyer.cpp]) on one processor

    The operations are those of [Sync]. Here: what the elements of a
    [util::Queue] are as a list, a step relation for many producers and one
    consumer with every interleaving of yields and timer ticks, and the one
    for threads that end and the cleaner that frees them. *)

From Stdlib Require Import ZArith Lia String.
From stdpp Require Import base tactics numbers gmap list.
From S2P Require Import Prelude Spinlock TaskQueue Scheduler Sync.

Open Scope Z_scope.

Section Messages.
Context (me : nat) (allocateStack : outcome Z).

(** ** The first threads

    [kstart] makes the initial task and the cleaner; [initialTask] and
    [cleanerTask] are where [new] puts their blocks, [entrypoint] is
    [cleanerThread]. *)
Definition bootWorld (c : Cpu) (r : Registers) : World :=
  mkWorld ∅ (replicate MAX_CPUS Scheduler_init) 0 [mkProcessor c r] ∅ [].

Definition initialBlock (originalStack : Z) : ControlBlock :=
  mkControlBlock (registers ControlBlock_new) originalStack (runLock ControlBlock_new) (state ControlBlock_new)
    (timeSlice ControlBlock_new) PRIORITY_NORMAL (next ControlBlock_new).

Definition kstartThreads (w : World) (initialTask cleanerTask stack entrypoint cr3 : Z) : outcome World :=
  let w := set_cbs w (<[initialTask := initialBlock 0]> (cbs w)) in
  let! w := Scheduler.init me w 0 initialTask in
  let! '(_, w) := cleaner_init me allocateStack w stack cleanerTask entrypoint cr3 in
  Ok w.

(** ** Threads that end

    [ended]: the tasks that called [thread::destroy]; [cleaned]: those whose
    destruction code ran; [held] is the object the cleaner has taken from the
    queue and not handled yet. The cleaner is the task [c], the destruction
    code is handler [hdl]. *)
Record Ending := mkEnding {
  e_world : World; e_store : Nodes (T := CleanerObject); e_queue : UQueue;
  e_waits : bool; held : option CleanerObject; ended : list Z; cleaned : list Z
}.

Section Ending.
Context (hdl : Z) (freeStack : Z -> outcome unit).

(** [object.handler(object.object)]. *)
Definition callHandler (o : CleanerObject) (w : World) : outcome World :=
  if handler o =? hdl then destructionCode me w (object o) freeStack else Fault.

Inductive end_step (c : Z) : Ending -> Ending -> Prop :=
| es_destroy s cur f w h u :
    getCurrentTask me (e_world s) = Ok cur -> cur <> 0 -> cur <> c ->
    thread_destroy me allocateStack (e_world s) (e_store s) (e_queue s) hdl = Ok (f, (w, (h, u))) ->
    end_step c s (mkEnding w h u (e_waits s) (held s) (ended s ++ [cur]) (cleaned s))
| es_pop s o w h u :
    getCurrentTask me (e_world s) = Ok c -> e_waits s = false -> held s = None ->
    UQueue_pop me allocateStack (e_world s) (e_store s) (e_queue s) = Ok (Popped o, (w, (h, u))) ->
    end_step c s (mkEnding w h u false (Some o) (ended s) (cleaned s))
| es_wait s f w h u :
    getCurrentTask me (e_world s) = Ok c -> e_waits s = false -> held s = None ->
    UQueue_pop me allocateStack (e_world s) (e_store s) (e_queue s) = Ok (Waits f, (w, (h, u))) ->
    end_step c s (mkEnding w h u true None (ended s) (cleaned s))
| es_resume s o w h u :
    getCurrentTask me (e_world s) = Ok c -> e_waits s = true ->
    UQueue_popResume me (e_world s) (e_store s) (e_queue s) = Ok (o, (w, (h, u))) ->
    end_step c s (mkEnding w h u false (Some o) (ended s) (cleaned s))
| es_handle s o w :
    getCurrentTask me (e_world s) = Ok c -> held s = Some o -> callHandler o (e_world s) = Ok w ->
    end_step c s (mkEnding w (e_store s) (e_queue s) (e_waits s) None (ended s) (cleaned s ++ [object o]))
| es_yield s f w :
    yield me allocateStack (e_world s) = Ok (f, w) ->
    end_step c s (mkEnding w (e_store s) (e_queue s) (e_waits s) (held s) (ended s) (cleaned s))
| es_tick s f w :
    tick me allocateStack (e_world s) = Ok (f, w) ->
    end_step c s (mkEnding w (e_store s) (e_queue s) (e_waits s) (held s) (ended s) (cleaned s)).

(** The same, run: the current thread ends, the cleaner continues, or [yield]. *)
Inductive EndingOp := EnDestroy | EnClean | EnYield.

Definition endingOp (c : Z) (s : Ending) (o : EndingOp) : outcome Ending :=
  let! cur := getCurrentTask me (e_world s) in
  match o with
  | EnDestroy =>
      if (cur =? 0) || (cur =? c) then Fault else
      let! '(_, (w, (h, u))) := thread_destroy me allocateStack (e_world s) (e_store s) (e_queue s) hdl in
      Ok (mkEnding w h u (e_waits s) (held s) (ended s ++ [cur]) (cleaned s))
  | EnClean =>
      if negb (cur =? c) then Fault else
      match held s with
      | Some o =>
          let! w := callHandler o (e_world s) in
          Ok (mkEnding w (e_store s) (e_queue s) (e_waits s) None (ended s) (cleaned s ++ [object o]))
      | None =>
          if e_waits s then
            let! '(o, (w, (h, u))) := UQueue_popResume me (e_world s) (e_store s) (e_queue s) in
            Ok (mkEnding w h u false (Some o) (ended s) (cleaned s))
          else
            let! '(r, (w, (h, u))) := UQueue_pop me allocateStack (e_world s) (e_store s) (e_queue s) in
            match r with
            | Popped o => Ok (mkEnding w h u false (Some o) (ended s) (cleaned s))
            | Waits _ => Ok (mkEnding w h u true None (ended s) (cleaned s))
            end
      end
  | EnYield =>
      let! '(_, w) := yield me allocateStack (e_world s) in
      Ok (mkEnding w (e_store s) (e_queue s) (e_waits s) (held s) (ended s) (cleaned s))
  end.

Fixpoint runEnding (c : Z) (s : Ending) (os : list EndingOp) : outcome Ending :=
  match os with
  | [] => Ok s
  | o :: os => let! s := endingOp c s o in runEnding c s os
  end.
End Ending.

Section UQueueSpec.
Context {T : Type}.

(** ** Specification

    The elements [l] (address and value), in order, from [head] to [tail]; no
    other node exists. *)
Record chain (h : Nodes (T := T)) (hd tl : Z) (l : list (Z * T)) : Prop := {
  ch_head : hd = default 0 (fst <$> list.head l);
  ch_tail : tl = default 0 (fst <$> last l);
  ch_nodes : forall i a v, l !! i = Some (a, v) -> nodes h !! a = Some (v, default 0 (fst <$> l !! S i));
  ch_fresh : forall a v, (a, v) ∈ l -> 0 < a < nextNode h;
  ch_next : 0 < nextNode h;
  ch_nodup : NoDup l.*1;
  ch_noLeak : forall a, is_Some (nodes h !! a) -> a ∈ l.*1
}.

(** No lock is held and nobody waits. *)
Record uholds (h : Nodes (T := T)) (u : UQueue) (l : list (Z * T)) : Prop := {
  uh_lock : locked (u_lock u) = false;
  uh_waiting : forall m, holds m (u_waiting u) [];
  uh_chain : chain h (u_head u) (u_tail u) l
}.

(** A producer and consumer that never pops the empty queue. *)
Inductive UOp := UPush (value : T) | UPop.

Fixpoint runUOps (w : World) (h : Nodes) (u : UQueue) (os : list UOp) : outcome (list T * (World * (Nodes * UQueue))) :=
  match os with
  | [] => Ok ([], (w, (h, u)))
  | UPush v :: os => let! '(_, (w, (h, u))) := UQueue_push me allocateStack w h u v in runUOps w h u os
  | UPop :: os =>
      let! '(r, (w, (h, u))) := UQueue_pop me allocateStack w h u in
      match r with
      | Popped v => let! '(rs, s) := runUOps w h u os in Ok (v :: rs, s)
      | Waits _ => Hang
      end
  end.

Fixpoint specUOps (l : list T) (os : list UOp) : option (list T * list T) :=
  match os with
  | [] => Some ([], l)
  | UPush v :: os => specUOps (l ++ [v]) os
  | UPop :: os =>
      match l with
      | v :: l => match specUOps l os with Some (rs, l) => Some (v :: rs, l) | None => None end
      | [] => None
      end
  end.

(** Many producers and the consumer [c], on one processor: the consumer is
    inside [pop] after its wait when [waits]; [pushed] and [popped] are the
    values so far. Interrupt handlers may push while the processor is idle. *)
Record Channel := mkChannel {
  world : World; store : Nodes (T := T); queue : UQueue;
  waits : bool; pushed : list T; popped : list T
}.

Inductive queue_step (c : Z) : Channel -> Channel -> Prop :=
| qs_push s cur v f w h u :
    getCurrentTask me (world s) = Ok cur -> (cur = c -> waits s = false) ->
    UQueue_push me allocateStack (world s) (store s) (queue s) v = Ok (f, (w, (h, u))) ->
    queue_step c s (mkChannel w h u (waits s) (pushed s ++ [v]) (popped s))
| qs_pop s v w h u :
    getCurrentTask me (world s) = Ok c -> waits s = false ->
    UQueue_pop me allocateStack (world s) (store s) (queue s) = Ok (Popped v, (w, (h, u))) ->
    queue_step c s (mkChannel w h u false (pushed s) (popped s ++ [v]))
| qs_wait s f w h u :
    getCurrentTask me (world s) = Ok c -> waits s = false ->
    UQueue_pop me allocateStack (world s) (store s) (queue s) = Ok (Waits f, (w, (h, u))) ->
    queue_step c s (mkChannel w h u true (pushed s) (popped s))
| qs_resume s v w h u :
    getCurrentTask me (world s) = Ok c -> waits s = true ->
    UQueue_popResume me (world s) (store s) (queue s) = Ok (v, (w, (h, u))) ->
    queue_step c s (mkChannel w h u false (pushed s) (popped s ++ [v]))
| qs_yield s f w :
    yield me allocateStack (world s) = Ok (f, w) ->
    queue_step c s (mkChannel w (store s) (queue s) (waits s) (pushed s) (popped s))
| qs_tick s f w :
    tick me allocateStack (world s) = Ok (f, w) ->
    queue_step c s (mkChannel w (store s) (queue s) (waits s) (pushed s) (popped s)).

(** The same, run: a task pushes, the consumer continues, or [yield]. *)
Inductive ChannelOp := ChPush (value : T) | ChConsume | ChYield.

Definition channelOp (c : Z) (s : Channel) (o : ChannelOp) : outcome Channel :=
  let! cur := getCurrentTask me (world s) in
  match o with
  | ChPush v =>
      if (cur =? c) && waits s then Fault else
      let! '(_, (w, (h, u))) := UQueue_push me allocateStack (world s) (store s) (queue s) v in
      Ok (mkChannel w h u (waits s) (pushed s ++ [v]) (popped s))
  | ChConsume =>
      if negb (cur =? c) then Fault else
      if waits s then
        let! '(v, (w, (h, u))) := UQueue_popResume me (world s) (store s) (queue s) in
        Ok (mkChannel w h u false (pushed s) (popped s ++ [v]))
      else
        let! '(r, (w, (h, u))) := UQueue_pop me allocateStack (world s) (store s) (queue s) in
        match r with
        | Popped v => Ok (mkChannel w h u false (pushed s) (popped s ++ [v]))
        | Waits _ => Ok (mkChannel w h u true (pushed s) (popped s))
        end
  | ChYield =>
      let! '(_, w) := yield me allocateStack (world s) in
      Ok (mkChannel w (store s) (queue s) (waits s) (pushed s) (popped s))
  end.

Fixpoint runChannel (c : Z) (s : Channel) (os : list ChannelOp) : outcome Channel :=
  match os with
  | [] => Ok s
  | o :: os => let! s := channelOp c s o in runChannel c s os
  end.

(** The consumer sleeps: it waits and there is nothing to take. *)
Definition asleep (waits : bool) (els : list (Z * T)) : bool :=
  waits && match els with [] => true | _ :: _ => false end.

(** Between two steps, with [els] in the queue. *)
Record queue_at (c : Z) (w : World) (u : UQueue) (sleeps : bool) (cur : Z) (l : list Z) : Prop := {
  qa_count : cpuCount w = 1;
  qa_lock : locked (u_lock u) = false;
  qa_ready : ready me allocateStack w 0 cur l;
  qa_waiting : waiting w (u_waiting u) (if sleeps then [c] else []) (cur :: l);
  qa_consumer : c <> 0 /\ (sleeps = false -> c ∈ cur :: l)
}.
(** ** The nodes *)

Lemma chain_fresh h hd tl l : chain h hd tl l -> nodes h !! nextNode h = None /\ nextNode h ∉ l.*1.
Proof.
  intros H. assert (Hal : nextNode h ∉ l.*1).
  { intros Hin. apply list_elem_of_fmap in Hin as ([a' v] & Hav & Hin). cbn in Hav. subst a'.
    pose proof (ch_fresh _ _ _ _ H _ v Hin). lia. }
  split; [|done]. destruct (nodes h !! nextNode h) eqn:E; [|done]. exfalso. apply Hal. apply (ch_noLeak _ _ _ _ H). eauto.
Qed.

Lemma chain_tail_null h hd tl l : chain h hd tl l -> (tl =? 0) = match l with [] => true | _ => false end.
Proof.
  intros H. rewrite (ch_tail _ _ _ _ H). destruct (last l) as [[t v]|] eqn:El.
  - apply last_Some_elem_of in El as Hin. pose proof (ch_fresh _ _ _ _ H t v Hin). cbn. rewrite (proj2 (Z.eqb_neq t 0)) by lia.
    destruct l; [by apply elem_of_nil in Hin|done].
  - by apply last_None in El as ->.
Qed.

Lemma chain_head_null h hd tl l : chain h hd tl l -> (hd =? 0) = match l with [] => true | _ => false end.
Proof.
  intros H. rewrite (ch_head _ _ _ _ H). destruct l as [|[a v] l]; [done|]. cbn. apply Z.eqb_neq.
  pose proof (ch_fresh _ _ _ _ H a v). specialize (H0 ltac:(by left)). lia.
Qed.

Lemma chain_append h hd tl l value :
  chain h hd tl l ->
  let a := nextNode h in let h1 := mkNodes (<[a := (value, 0)]> (nodes h)) (a + 1) in
  match l with
  | [] => chain h1 a a [(a, value)]
  | _ :: _ => exists h', setNodeNext h1 tl a = Ok h' /\ chain h' hd a (l ++ [(a, value)])
  end.
Proof.
  intros H a h1. destruct (chain_fresh h hd tl l H) as [Ha Hal]. fold a in Ha, Hal.
  destruct H as [H3 H4 H5 H6 H7 H8 H9].
  assert (Hnd : NoDup (l ++ [(a, value)]).*1).
  { rewrite fmap_app. apply NoDup_app. split; [done|]. split; [|apply NoDup_singleton].
    intros x Hx Hx'. apply list_elem_of_singleton in Hx' as ->. done. }
  assert (Hfr : forall x v, (x, v) ∈ l ++ [(a, value)] -> 0 < x < a + 1).
  { intros x v [Hx|Hx]%elem_of_app; [specialize (H6 x v Hx); unfold a; lia|].
    apply list_elem_of_singleton in Hx as [= -> ->]. unfold a. lia. }
  destruct l as [|x0 l0].
  - constructor; cbn; try done.
    + intros [|i] x v Hx; [|by destruct i]. injection Hx as <- <-. by rewrite lookup_insert_eq.
    + lia.
    + intros x Hx. destruct (decide (x = a)) as [->|Hxa]; [by left|]. rewrite lookup_insert_ne in Hx by done.
      specialize (H9 x Hx). by apply elem_of_nil in H9.
  - set (l := x0 :: l0) in *. assert (Hlen : (0 < length l)%nat) by (cbn; lia).
    destruct (last l) as [[t tv]|] eqn:El; [|by apply last_None in El]. cbn in H4. rewrite last_lookup in El.
    pose proof (H5 _ _ _ El) as Ht. assert (Hta : t <> a) by (intros ->; congruence).
    unfold setNodeNext. cbn [nodes nextNode h1]. rewrite H4, lookup_insert_ne, Ht by done. cbn [of_option obind].
    eexists. split; [done|]. constructor; cbn [nodes nextNode]; try done.
    + by rewrite last_snoc.
    + intros i x v Hx. destruct (decide (i = length l)) as [->|Hi].
      * rewrite lookup_app_r, Nat.sub_diag in Hx by lia. injection Hx as <- <-.
        rewrite lookup_insert_ne, lookup_insert_eq by done. rewrite lookup_ge_None_2 by (rewrite length_app; cbn; lia). done.
      * assert (Hil : (i < length (l ++ [(a, value)]))%nat) by by eapply lookup_lt_Some. rewrite length_app in Hil. cbn in Hil.
        rewrite lookup_app_l in Hx by (cbn in *; lia). destruct (decide (S i = length l)) as [Hil'|Hil'].
        -- replace (pred (length l)) with i in El by lia. rewrite Hx in El. injection El as -> ->.
           rewrite lookup_insert_eq. rewrite lookup_app_r, Hil', Nat.sub_diag by lia. done.
        -- assert (x <> t).
           { intros ->. assert (i = pred (length l)); [|lia]. eapply (NoDup_lookup l.*1); [done| |];
             rewrite list_lookup_fmap; [by rewrite Hx|by rewrite El]. }
           assert (x <> a) by (intros ->; apply Hal; apply list_elem_of_fmap; exists (a, v); split; [done|by eapply list_elem_of_lookup_2]).
           rewrite !lookup_insert_ne by done. rewrite lookup_app_l by (cbn in *; lia). by apply H5.
    + lia.
    + intros x Hx. rewrite fmap_app, elem_of_app. destruct (decide (x = t)) as [->|Hxt].
      * left. apply H9. eauto.
      * rewrite lookup_insert_ne in Hx by done. destruct (decide (x = a)) as [->|Hxa]; [right; by left|].
        rewrite lookup_insert_ne in Hx by done. left. by apply H9.
Qed.

(** Taking the head element with the lock held. *)
Lemma UQueue_take_run w h u a v l p :
  processors w !! me = Some p -> chain h (u_head u) (u_tail u) ((a, v) :: l) ->
  exists h' u', UQueue_take me (set_processor w me (mkProcessor (disableLocalIrqs (p_cpu p)) (p_regs p))) h u
      (mkSpinlock 1 (localIrqState (p_cpu p))) = Ok (v, (w, (h', u'))) /\
    chain h' (u_head u') (u_tail u') l /\ u_waiting u' = u_waiting u /\ locked (u_lock u') = false.
Proof.
  intros Hp [H3 H4 H5 H6 H7 H8 H9]. cbn in H3. set (w1 := set_processor w me _).
  assert (Hp1 : processors w1 !! me = Some (mkProcessor (disableLocalIrqs (p_cpu p)) (p_regs p))) by (cbn; by eapply insert_me).
  pose proof (H5 0%nat a v eq_refl) as Hn.
  assert (Hnd' : NoDup (a :: l.*1)) by exact H8. apply NoDup_cons in Hnd' as [Hal Hnd].
  unfold UQueue_take. rewrite H3.
  assert (Hu : (if a =? u_tail u then Ok (mkUQueue (u_lock u) (u_waiting u) 0 0)
     else let! '(_, n) := of_option (nodes h !! a) in Ok (mkUQueue (u_lock u) (u_waiting u) n (u_tail u)))
     = Ok (mkUQueue (u_lock u) (u_waiting u) (default 0 (fst <$> list.head l)) (default 0 (fst <$> last l)))).
  { destruct l as [|[b bv] l].
    - cbn in H4. by rewrite H4, Z.eqb_refl.
    - rewrite last_cons_cons in H4. destruct (last ((b, bv) :: l)) as [[t tv]|] eqn:El; [|by apply last_None in El].
      cbn in H4. assert (Hat : a <> u_tail u).
      { rewrite H4. intros ->. apply Hal. apply list_elem_of_fmap. exists (t, tv). split; [done|by apply last_Some_elem_of]. }
      rewrite (proj2 (Z.eqb_neq _ _) Hat), Hn. cbn. by rewrite H4. }
  rewrite Hu. cbn [obind]. rewrite (spinRelease_eq me w1 (p_cpu p) (p_regs p)) by done. cbn [obind]. rewrite Hn. cbn [of_option obind].
  unfold w1. rewrite spin_restore by done. eexists _, _. split; [done|].
  split; [|done]. constructor; cbn [u_lock u_waiting u_head u_tail nodes nextNode]; try done.
  - intros i x y Hx. rewrite lookup_delete_ne; [by apply (H5 (S i))|]. intros <-. apply Hal.
    apply list_elem_of_fmap. exists (a, y). split; [done|by eapply list_elem_of_lookup_2].
  - intros x y Hx. apply (H6 x y). by right.
  - intros x Hx. destruct (decide (x = a)) as [->|Hxa]; [rewrite lookup_delete_eq in Hx; by destruct Hx|].
    rewrite lookup_delete_ne in Hx by done. specialize (H9 x Hx). cbn in H9. apply elem_of_cons in H9 as [->|H9]; done.
Qed.

(** ** push and pop between two scheduling points *)

(** [push] wakes the consumer [c] when it sleeps; the current task may have
    blocked already ([thread::destroy]). *)
Lemma UQueue_push_run c w h u els value (sleeps : bool) cur l :
  queue_at c w u sleeps cur l -> chain h (u_head u) (u_tail u) els -> (els <> [] -> sleeps = false) ->
  exists f w' h' u' cur' l', UQueue_push me allocateStack w h u value = Ok (f, (w', (h', u'))) /\
    chain h' (u_head u') (u_tail u') (els ++ [(nextNode h, value)]) /\ queue_at c w' u' false cur' l' /\
    (if sleeps then resumes me allocateStack w w' cur l cur' l' [c] /\ (isRunning w cur = false -> f <> Returns)
     else f = Returns /\ w' = w /\ cur' = cur /\ l' = l).
Proof.
  intros [Q1 Q2 Q3 Q4 Q5] Hch Hsl. pose proof (rd_cpu _ _ _ _ _ _ Q3) as (p & Hp & _).
  unfold UQueue_push. rewrite (spinAcquire_eq me w _ p) by done. cbn [obind].
  rewrite (chain_tail_null _ _ _ _ Hch). pose proof (chain_append _ _ _ _ value Hch) as Happ. cbv zeta in Happ.
  set (w1 := set_processor w me _).
  assert (Hp1 : processors w1 !! me = Some (mkProcessor (disableLocalIrqs (p_cpu p)) (p_regs p))) by (cbn; by eapply insert_me).
  destruct els as [|x els]; cbn [negb].
  - destruct (queuePop_ok me w1 (u_waiting u) _ _ Hp1 (proj1 Q4)) as (q' & Epop & Hq'). rewrite Epop. cbn [obind].
    change (holds (cbs w) q' (list.tail (if sleeps then [c] else []))) in Hq'.
    rewrite (spinRelease_eq me w1 (p_cpu p) (p_regs p)) by done. cbn [obind]. unfold w1. rewrite spin_restore by done.
    destruct sleeps; cbn [list.head list.tail default from_option] in *; unfold id in *.
    + destruct (waiting_first w _ q' c [] _ Q4 Hq') as (Hc0 & Hcn & Hw' & b & Hb & Hlb).
      rewrite (proj2 (Z.eqb_neq c 0)) by done. cbn [negb].
      destruct (addTask_resumes me allocateStack w cur l c b Q3 Q1 Hc0 Hcn Hb Hlb) as (f & w' & cur' & l' & E & Hre & Hf).
      rewrite E. cbn [obind]. eexists _, _, _, _, cur', l'. split; [done|]. split; [exact Happ|]. split; [|done].
      constructor; [by eapply re_count|done|by eapply re_ready|by eapply resumes_waiting|]. split; [done|]. intros _.
      apply (re_tasks _ _ _ _ _ _ _ _ _ Hre); [done|]. left. by left.
    + cbn [Z.eqb negb obind]. eexists _, _, _, _, cur, l. split; [done|]. split; [exact Happ|]. split; [|done].
      constructor; try done. split; [done|apply Q4].
  - assert (sleeps = false) as -> by by apply Hsl. destruct Happ as (h' & Eh & Hch'). rewrite Eh. cbn [obind].
    rewrite (spinRelease_eq me w1 (p_cpu p) (p_regs p)) by done. cbn [obind]. unfold w1. rewrite spin_restore by done.
    eexists _, _, _, _, cur, l. split; [done|]. split; [exact Hch'|]. split; [|done]. by constructor.
Qed.

(** [pop] by the consumer, which runs: it takes the head or goes to sleep. *)
Lemma UQueue_pop_run c w h u els l :
  queue_at c w u false c l -> chain h (u_head u) (u_tail u) els ->
  match els with
  | (a, v) :: els => exists h' u', UQueue_pop me allocateStack w h u = Ok (Popped v, (w, (h', u'))) /\
      chain h' (u_head u') (u_tail u') els /\ queue_at c w u' false c l
  | [] => exists f w' u' cur' l' q', UQueue_pop me allocateStack w h u = Ok (Waits f, (w', (h, u'))) /\ f <> Returns /\
      chain h (u_head u') (u_tail u') [] /\ queue_at c w' u' true cur' l' /\ blocked me allocateStack w w' c l cur' l' [] q'
  end.
Proof.
  intros [Q1 Q2 Q3 Q4 [Q5 Q6]] Hch. pose proof (rd_cpu _ _ _ _ _ _ Q3) as (p & Hp & _).
  unfold UQueue_pop. rewrite (spinAcquire_eq me w _ p) by done. cbn [obind]. rewrite (chain_head_null _ _ _ _ Hch).
  destruct els as [|[a v] els].
  - destruct (block_in_queue me allocateStack w (u_waiting u) [] p c l Q3 Q1 Q5 Hp Q4)
      as (w2 & m & q' & Eb & Ep & f & w' & cur' & l' & Ey & Hf & Hbk).
    rewrite Eb. cbn [obind]. rewrite Ep. cbn [obind].
    rewrite (spinRelease_eq me _ (p_cpu p) (p_regs p)) by (cbn; by eapply insert_me). cbn [obind].
    rewrite spin_restore_cbs, Ey by done. cbn [obind]. exists f, w'. eexists _, cur', l', q'. split; [done|]. split; [done|].
    split; [exact Hch|]. split; [|done]. destruct Hbk as [B1 B2 B3 B4 B5 B6 _]. by constructor.
  - destruct (UQueue_take_run w h u a v els p Hp Hch) as (h' & u' & E & Hch' & Hw & Hl).
    rewrite E. cbn [obind]. eexists _, _. split; [done|]. split; [done|]. constructor; try done. by rewrite Hw.
Qed.

Lemma UQueue_popResume_run c w h u a v els l :
  queue_at c w u false c l -> chain h (u_head u) (u_tail u) ((a, v) :: els) ->
  exists h' u', UQueue_popResume me w h u = Ok (v, (w, (h', u'))) /\
    chain h' (u_head u') (u_tail u') els /\ queue_at c w u' false c l.
Proof.
  intros [Q1 Q2 Q3 Q4 Q5] Hch. pose proof (rd_cpu _ _ _ _ _ _ Q3) as (p & Hp & _).
  unfold UQueue_popResume. rewrite (spinAcquire_eq me w _ p) by done. cbn [obind].
  destruct (UQueue_take_run w h u a v els p Hp Hch) as (h' & u' & E & Hch' & Hw & Hl).
  exists h', u'. split; [done|]. split; [done|]. constructor; try done. by rewrite Hw.
Qed.

(** A call of the scheduler by a task that has not blocked. *)
Lemma queue_at_resumes c w w' u sleeps cur l cur' l' :
  queue_at c w u sleeps cur l -> live w cur l -> resumes me allocateStack w w' cur l cur' l' [] -> queue_at c w' u sleeps cur' l'.
Proof.
  intros [Q1 Q2 Q3 Q4 [Q5 Q6]] Hl Hre.
  constructor; [by eapply re_count|done|by eapply re_ready|by eapply resumes_waiting|]. split; [done|].
  intros Hs. specialize (Q6 Hs). rewrite (re_tasks _ _ _ _ _ _ _ _ _ Hre) by done. apply elem_of_cons in Q6 as [->|Q6]; [|tauto].
  destruct Hl as [[-> _]|Hl]; [done|]. tauto.
Qed.

(** ** The channel *)

(** Between two steps, with [els] in the queue: what was pushed has been
    popped or is in [els]; the consumer only sleeps on the empty queue. *)
Record channel_at (c : Z) (s : Channel) (els : list (Z * T)) (cur : Z) (l : list Z) : Prop := {
  ca_queue : queue_at c (world s) (queue s) (asleep (waits s) els) cur l;
  ca_live : live (world s) cur l;
  ca_chain : chain (store s) (u_head (queue s)) (u_tail (queue s)) els;
  ca_values : pushed s = popped s ++ els.*2
}.

Lemma runChannel_star c os : forall s s', runChannel c s os = Ok s' -> star (queue_step c) s s'.
Proof.
  induction os as [|o os IH]; intros s s' H; cbn [runChannel] in H; [injection H as <-; apply star_refl|].
  destruct (channelOp c s o) as [s1| | |] eqn:E; try done. cbn [obind] in H.
  eapply star_step; [|by apply IH]. unfold channelOp in E.
  destruct (getCurrentTask me (world s)) as [cur| | |] eqn:Ec; try done. cbn [obind] in E. destruct o as [v| |].
  - destruct ((cur =? c) && waits s) eqn:Ew; [done|].
    destruct (UQueue_push _ _ _ _ _ _) as [[f [w [h u]]]| | |] eqn:Ep; try done. injection E as <-.
    apply (qs_push c s cur v f); [done| |done]. intros ->. by rewrite Z.eqb_refl in Ew.
  - destruct (Z.eqb_spec cur c) as [->|]; [|done]. cbn [negb] in E. destruct (waits s) eqn:Ew.
    + destruct (UQueue_popResume _ _ _ _) as [[v [w [h u]]]| | |] eqn:Ep; try done. injection E as <-. by apply qs_resume.
    + destruct (UQueue_pop _ _ _ _ _) as [[[v|f] [w [h u]]]| | |] eqn:Ep; try done; injection E as <-;
        [by apply qs_pop|by apply (qs_wait c s f)].
  - destruct (yield _ _ _) as [[f w]| | |] eqn:Ep; try done. injection E as <-. by apply (qs_yield c s f).
Qed.

Definition channel_inv (c : Z) (s : Channel) : Prop := exists els cur l, channel_at c s els cur l.

Lemma channel_current c s els cur l : channel_at c s els cur l -> getCurrentTask me (world s) = Ok cur.
Proof. intros H. apply (own_index me allocateStack (world s) 0 cur l). apply (ca_queue _ _ _ _ _ H). Qed.

Lemma channel_push c s els cur l v :
  channel_at c s els cur l ->
  exists f w h u, UQueue_push me allocateStack (world s) (store s) (queue s) v = Ok (f, (w, (h, u))) /\
    channel_inv c (mkChannel w h u (waits s) (pushed s ++ [v]) (popped s)).
Proof.
  intros [C1 C2 C3 C4].
  destruct (UQueue_push_run c _ _ _ els v _ cur l C1 C3) as (f & w & h & u & cur' & l' & E & Hch & Hq & Hs).
  { destruct els; [done|]. intros _. unfold asleep. by rewrite andb_false_r. }
  exists f, w, h, u. split; [done|]. exists (els ++ [(nextNode (store s), v)]), cur', l'. constructor; cbn [world store queue waits pushed popped].
  - assert (asleep (waits s) (els ++ [(nextNode (store s), v)]) = false) as ->; [|done].
    unfold asleep. destruct (els ++ _) eqn:E'; [by destruct els|]. apply andb_false_r.
  - destruct (asleep (waits s) els); [eapply re_live; apply Hs|]. by destruct Hs as (_ & -> & -> & ->).
  - done.
  - rewrite C4, fmap_app, <- app_assoc. done.
Qed.

Lemma channel_pop c s els l :
  channel_at c s els c l -> waits s = false ->
  match els with
  | (_, v) :: els => exists w h u, UQueue_pop me allocateStack (world s) (store s) (queue s) = Ok (Popped v, (w, (h, u))) /\
      channel_inv c (mkChannel w h u false (pushed s) (popped s ++ [v]))
  | [] => exists f w h u, UQueue_pop me allocateStack (world s) (store s) (queue s) = Ok (Waits f, (w, (h, u))) /\
      channel_inv c (mkChannel w h u true (pushed s) (popped s))
  end.
Proof.
  intros [C1 C2 C3 C4] Hw. unfold asleep in C1. rewrite Hw in C1. cbn [andb] in C1.
  pose proof (UQueue_pop_run c _ _ _ els l C1 C3) as Hp. destruct els as [|[a v] els].
  - destruct Hp as (f & w & u & cur' & l' & q' & E & _ & Hch & Hq & Hbk). eexists f, w, _, u. split; [exact E|].
    exists [], cur', l'. constructor; try done. by destruct Hbk.
  - destruct Hp as (h & u & E & Hch & Hq). exists (world s), h, u. split; [exact E|].
    exists els, c, l. constructor; try done. cbn. by rewrite C4, <- app_assoc.
Qed.

Lemma channel_resume c s els l :
  channel_at c s els c l -> waits s = true ->
  exists a v els' w h u, els = (a, v) :: els' /\ UQueue_popResume me (world s) (store s) (queue s) = Ok (v, (w, (h, u))) /\
    channel_inv c (mkChannel w h u false (pushed s) (popped s ++ [v])).
Proof.
  intros [C1 C2 C3 C4] Hw. unfold asleep in C1. rewrite Hw in C1. cbn [andb] in C1. destruct els as [|[a v] els].
  - destruct C1 as [_ _ _ [_ Hd] _]. destruct (Hd c) as [Hc _]; [by left|]. exfalso. apply Hc. by left.
  - destruct (UQueue_popResume_run c _ _ _ a v els l C1 C3) as (h & u & E & Hch & Hq).
    exists a, v, els, (world s), h, u. split; [done|]. split; [exact E|]. exists els, c, l. constructor; try done.
    cbn. by rewrite C4, <- app_assoc.
Qed.

Lemma channel_resumes c s els cur l w cur' l' :
  channel_at c s els cur l -> resumes me allocateStack (world s) w cur l cur' l' [] ->
  channel_inv c (mkChannel w (store s) (queue s) (waits s) (pushed s) (popped s)).
Proof.
  intros [C1 C2 C3 C4] Hre. exists els, cur', l'. constructor; [|by eapply re_live|done|done].
  by eapply queue_at_resumes.
Qed.

Lemma channel_inv_step c s s' : channel_inv c s -> queue_step c s s' -> channel_inv c s'.
Proof.
  intros (els & cur & l & H) Hs. pose proof (channel_current _ _ _ _ _ H) as Hcur.
  destruct Hs as [s cur' v f w h u Hc _ E|s v w h u Hc Hw E|s f w h u Hc Hw E|s v w h u Hc Hw E|s f w E|s f w E];
    try (assert (cur = c) as -> by congruence).
  - destruct (channel_push c s els cur l v H) as (f' & w' & h' & u' & E' & Hi). rewrite E in E'. by simplify_eq.
  - pose proof (channel_pop c s els l H Hw) as Hp. destruct els as [|[a v'] els].
    + destruct Hp as (? & ? & ? & ? & E' & _). congruence.
    + destruct Hp as (w' & h' & u' & E' & Hi). rewrite E in E'. by simplify_eq.
  - pose proof (channel_pop c s els l H Hw) as Hp. destruct els as [|[a v'] els].
    + destruct Hp as (? & ? & ? & ? & E' & Hi). rewrite E in E'. by simplify_eq.
    + destruct Hp as (? & ? & ? & E' & _). congruence.
  - destruct (channel_resume c s els l H Hw) as (a & v' & els' & w' & h' & u' & -> & E' & Hi). rewrite E in E'. by simplify_eq.
  - pose proof H as [[Q1 _ Q3 _ _] _ _ _].
    destruct (yield_resumes me allocateStack (world s) cur l Q3 Q1) as (f' & w' & cur' & l' & E' & Hre & _).
    rewrite E in E'. simplify_eq. by eapply channel_resumes.
  - pose proof H as [[Q1 _ Q3 _ _] Hl _ _].
    destruct (tick_resumes me allocateStack (world s) cur l Q3 Q1 Hl) as (f' & w' & cur' & l' & E' & Hre).
    rewrite E in E'. simplify_eq. by eapply channel_resumes.
Qed.
End UQueueSpec.

(** ** The end of a thread *)

(** Changing the block of a task the queue does not hold. *)
Lemma queue_at_update c w u sleeps cur l t b b' :
  queue_at c w u sleeps cur l -> cbs w !! t = Some b -> next b' = next b -> runLock b' = runLock b -> t ∉ l -> t <> c ->
  queue_at c (set_cbs w (<[t := b']> (cbs w))) u sleeps cur l.
Proof.
  intros [Q1 Q2 Q3 [Q4 Q4'] Q5] Hb Hn Hl Ht Hc. constructor; [done|done|by apply (ready_update me allocateStack w 0 cur l t b)| |done].
  split; [by apply (holds_update _ _ _ _ b)|]. intros x Hx. destruct (Q4' x Hx) as (H1 & H2 & bx & H3).
  split; [done|]. split; [done|]. exists bx. cbn. rewrite lookup_insert_ne; [done|].
  destruct sleeps; [apply list_elem_of_singleton in Hx as ->; done|by apply elem_of_nil in Hx].
Qed.

Lemma queue_at_processor c w u sleeps cur l p p' :
  queue_at c w u sleeps cur l -> processors w !! me = Some p -> cpuNumber (p_cpu p') = cpuNumber (p_cpu p) ->
  queue_at c (set_processor w me p') u sleeps cur l.
Proof.
  intros [Q1 Q2 Q3 Q4 Q5] Hp Hn. constructor; try done. apply ready_processor; [done|eauto|].
  destruct (rd_cpu _ _ _ _ _ _ Q3) as (p0 & Hp0 & Hn0). unfold getCpuNumber in *. simplify_eq. by rewrite Hn.
Qed.

(** [thread::destroy] by the current task [cur]: another task runs and [cur],
    detached, is the last object of the cleaner's queue. *)
Lemma thread_destroy_run c w h u els hdl sleeps cur l dl :
  queue_at c w u sleeps cur l -> chain h (u_head u) (u_tail u) els -> (els <> [] -> sleeps = false) ->
  cur <> 0 -> cur <> c -> detached w (cur :: l) dl -> c ∉ dl ->
  exists f w' h' u' cur' l', thread_destroy me allocateStack w h u hdl = Ok (f, (w', (h', u'))) /\
    chain h' (u_head u') (u_tail u') (els ++ [(nextNode h, mkCleanerObject cur hdl)]) /\
    queue_at c w' u' false cur' l' /\ live w' cur' l' /\ detached w' (cur' :: l') (dl ++ [cur]) /\
    forall x, x <> c -> x ∉ cur :: l -> cbs w' !! x = cbs w !! x.
Proof.
  intros Hq Hch Hsl H0 Hc Hd Hcd. pose proof (qa_ready _ _ _ _ _ _ Hq) as Hr.
  destruct (rd_cpu _ _ _ _ _ _ Hr) as (p & Hp & _). destruct (rd_current _ _ _ _ _ _ Hr H0) as (Hcl & _).
  unfold thread_destroy. rewrite (getProcessor_eq me w p Hp). cbn [obind]. rewrite (setCpu_eq me w p) by done. cbn [obind].
  set (p1 := mkProcessor (disableLocalIrqs (p_cpu p)) (p_regs p)).
  pose proof (queue_at_processor c w u sleeps cur l p p1 Hq Hp eq_refl) as Hq1. set (w1 := set_processor w me p1) in *.
  destruct (block_own me allocateStack w1 cur l (qa_ready _ _ _ _ _ _ Hq1) H0) as (b & Hb & Ebl & Hr2 & Hts & Hnr).
  pose proof (queue_at_update c w1 u sleeps cur l cur b (set_state b BLOCKING) Hq1 Hb eq_refl eq_refl Hcl Hc) as Hq2.
  set (w2 := set_cbs w1 _) in *. rewrite Ebl. cbn [obind].
  assert (Hoth : forall x, x ∉ cur :: l -> cbs w2 !! x = cbs w !! x).
  { intros x Hx. unfold w2. cbn. rewrite lookup_insert_ne; [done|]. intros ->. apply Hx. by left. }
  assert (Hd2 : detached w2 ([c] ++ cur :: l) dl).
  { intros t Ht. destruct (Hd t Ht) as (H1 & H2 & bt & H3 & H4). split; [|split; [done|]].
    - cbn. intros [->|Hx]%elem_of_cons; done.
    - exists bt. by rewrite Hoth. }
  unfold addObject. destruct (UQueue_push_run c w2 h u els (mkCleanerObject cur hdl) sleeps cur l Hq2 Hch Hsl)
    as (f & w' & h' & u' & cur' & l' & E & Hch' & Hq' & Hs). rewrite E. cbn [obind].
  assert (Hfin : forall w' cur' l' extra, (forall x, x ∈ extra -> x = c) -> resumes me allocateStack w2 w' cur l cur' l' extra ->
    live w' cur' l' /\ detached w' (cur' :: l') (dl ++ [cur]) /\ forall x, x <> c -> x ∉ cur :: l -> cbs w' !! x = cbs w !! x).
  { intros w0 cur0 l0 extra Hex Hre. split; [by eapply re_live|]. split.
    - intros t Ht. apply elem_of_app in Ht as [Ht|Ht]; [|by apply (re_blocked _ _ _ _ _ _ _ _ _ Hre)].
      eapply resumes_detached; [exact Hre| |exact Ht]. intros y Hy. destruct (Hd2 y Hy) as (H1 & H2). split; [|done].
      rewrite elem_of_app. intros [Hx|Hx]; [apply Hex in Hx as ->; by apply Hcd|]. apply H1. rewrite elem_of_app. by right.
    - intros x Hxc Hx. rewrite (re_untouched _ _ _ _ _ _ _ _ _ Hre), Hoth; [done|done|].
      rewrite elem_of_app. intros [Hx'|Hx']; [by apply Hex in Hx'|done]. }
  destruct sleeps.
  - destruct Hs as [Hre Hf]. specialize (Hf Hnr). destruct f; [done| |]; eexists _, w', h', u', cur', l'; (split; [done|]);
      (split; [done|]); (split; [done|]); apply (Hfin w' cur' l' [c]); try done; intros x Hx; by apply list_elem_of_singleton in Hx.
  - destruct Hs as (-> & -> & -> & ->).
    destruct (yield_resumes me allocateStack w2 cur l Hr2 (qa_count _ _ _ _ _ _ Hq2)) as (f & w' & cur' & l' & Ey & Hre & Hf).
    rewrite Ey. cbn [obind]. specialize (Hf Hnr).
    assert (Hq3 : queue_at c w' u' false cur' l').
    { destruct Hq' as [Q1 Q2 Q3 Q4 [Q5 Q6]]. constructor; [by eapply re_count|done|by eapply re_ready|by eapply resumes_waiting|].
      split; [done|]. intros _. specialize (Q6 eq_refl). rewrite (re_tasks _ _ _ _ _ _ _ _ _ Hre) by done.
      apply elem_of_cons in Q6 as [->|Q6]; [done|tauto]. }
    destruct f; [done| |]; eexists _, w', h', u', cur', l'; (split; [done|]);
      (split; [done|]); (split; [done|]); apply (Hfin w' cur' l' []); try done; intros x Hx; by apply elem_of_nil in Hx.
Qed.

(** The destruction code of a detached task takes the run lock at once, frees
    the stack and the block. *)
Lemma destructionCode_run w cur l t freeStack :
  ready me allocateStack w 0 cur l -> detached w (cur :: l) [t] ->
  exists b, cbs w !! t = Some b /\ destructionCode me w t freeStack =
    let! _ := (if negb (originalStackPointer b =? 0) then freeStack (originalStackPointer b) else Ok tt) in
    Ok (set_cbs w (delete t (cbs w))).
Proof.
  intros Hr Hd. destruct (Hd t) as (_ & _ & b & Hb & _ & Hl); [by left|]. exists b. split; [done|].
  destruct (rd_cpu _ _ _ _ _ _ Hr) as (p & Hp & _). unfold destructionCode, getBlock. rewrite Hb. cbn [of_option obind].
  rewrite (spinAcquire_eq me w _ p) by done. cbn [obind].
  rewrite (spinRelease_eq me _ (p_cpu p) (p_regs p)) by (cbn; by eapply insert_me). cbn [obind].
  rewrite spin_restore by done. done.
Qed.

Lemma queue_at_delete c w u sleeps cur l t :
  queue_at c w u sleeps cur l -> t ∉ cur :: l -> t <> c -> queue_at c (set_cbs w (delete t (cbs w))) u sleeps cur l.
Proof.
  intros [Q1 Q2 Q3 [Q4 Q4'] Q5] Ht Hc.
  assert (Hne : forall x, x <> t -> delete t (cbs w) !! x = cbs w !! x) by (intros x Hx; by rewrite lookup_delete_ne).
  assert (Hin : forall x, x ∈ (if sleeps then [c] else []) -> x <> t).
  { intros x Hx ->. destruct sleeps; [by apply list_elem_of_singleton in Hx|by apply elem_of_nil in Hx]. }
  constructor; [done|done| | |done].
  - apply ready_agree; [done|]. intros x Hx. apply Hne. by intros ->.
  - split.
    + apply (holds_links (cbs w)); [done|]. intros x Hx. cbn. by rewrite Hne by by apply Hin.
    + intros x Hx. destruct (Q4' x Hx) as (H1 & H2 & b & H3). split; [done|]. split; [done|]. exists b. cbn. by rewrite Hne by by apply Hin.
Qed.

(** ** Threads and the cleaner *)

(** The objects not handled yet, oldest first. *)
Definition unhandled (s : Ending) (els : list (Z * CleanerObject)) : list CleanerObject :=
  option_list (held s) ++ els.*2.

Record ending_at (hdl c : Z) (s : Ending) (els : list (Z * CleanerObject)) (cur : Z) (l : list Z) : Prop := {
  ea_queue : queue_at c (e_world s) (e_queue s) (asleep (e_waits s) els) cur l;
  ea_live : live (e_world s) cur l;
  ea_chain : chain (e_store s) (u_head (e_queue s)) (u_tail (e_queue s)) els;
  ea_ended : ended s = cleaned s ++ (object <$> unhandled s els);
  ea_once : NoDup (ended s) /\ c ∉ ended s /\ 0 ∉ ended s;
  ea_handlers : forall o, o ∈ unhandled s els -> handler o = hdl;
  ea_detached : detached (e_world s) (cur :: l) (object <$> unhandled s els);
  ea_cleaned : forall t, t ∈ cleaned s -> cbs (e_world s) !! t = None;
  ea_held : e_waits s = true -> held s = None
}.

Lemma runEnding_star hdl freeStack c os : forall s s',
  runEnding hdl freeStack c s os = Ok s' -> star (end_step hdl freeStack c) s s'.
Proof.
  induction os as [|o os IH]; intros s s' H; cbn [runEnding] in H; [injection H as <-; apply star_refl|].
  destruct (endingOp hdl freeStack c s o) as [s1| | |] eqn:E; try done. cbn [obind] in H.
  eapply star_step; [|by apply IH]. unfold endingOp in E.
  destruct (getCurrentTask me (e_world s)) as [cur| | |] eqn:Ec; try done. cbn [obind] in E. destruct o.
  - destruct ((cur =? 0) || (cur =? c)) eqn:Ew; [done|]. apply orb_false_iff in Ew as [E0 E1]. apply Z.eqb_neq in E0, E1.
    destruct (thread_destroy _ _ _ _ _ _) as [[f [w [h u]]]| | |] eqn:Ep; try done. injection E as <-.
    by apply (es_destroy hdl freeStack c s cur f).
  - destruct (Z.eqb_spec cur c) as [->|]; [|done]. cbn [negb] in E. destruct (held s) as [o|] eqn:Eh.
    + destruct (callHandler _ _ _ _) as [w| | |] eqn:Ep; try done. injection E as <-. by apply es_handle.
    + destruct (e_waits s) eqn:Ew.
      * destruct (UQueue_popResume _ _ _ _) as [[o [w [h u]]]| | |] eqn:Ep; try done. injection E as <-. by apply es_resume.
      * destruct (UQueue_pop _ _ _ _ _) as [[[o|f] [w [h u]]]| | |] eqn:Ep; try done; injection E as <-;
          [by apply es_pop|by apply (es_wait hdl freeStack c s f)].
  - destruct (yield _ _ _) as [[f w]| | |] eqn:Ep; try done. injection E as <-. by apply (es_yield hdl freeStack c s f).
Qed.

Definition ending_inv (hdl c : Z) (s : Ending) : Prop := exists els cur l, ending_at hdl c s els cur l.

Lemma ending_current hdl c s els cur l : ending_at hdl c s els cur l -> getCurrentTask me (e_world s) = Ok cur.
Proof. intros H. apply (own_index me allocateStack (e_world s) 0 cur l). apply (ea_queue _ _ _ _ _ _ H). Qed.

(** The tasks that can run have blocks: none of them was cleaned. *)
Lemma ending_alive hdl c s els cur l t :
  ending_at hdl c s els cur l -> t <> 0 -> t ∈ cur :: l -> t ∉ ended s.
Proof.
  intros [E1 E2 E3 E4 E5 E6 E7 E8 E9] H0 Ht Hin. rewrite E4 in Hin. apply elem_of_app in Hin as [Hin|Hin]; [|by destruct (E7 t Hin)].
  specialize (E8 t Hin). apply elem_of_cons in Ht as [->|Ht].
  - destruct (rd_current _ _ _ _ _ _ (qa_ready _ _ _ _ _ _ E1) H0) as (_ & b & Hb & _). congruence.
  - destruct (rd_queue _ _ _ _ _ _ (qa_ready _ _ _ _ _ _ E1) t Ht) as (b & Hb & _). congruence.
Qed.

Lemma unhandled_snoc s els w h u wt en cl a o :
  unhandled (mkEnding w h u wt (held s) en cl) (els ++ [(a, o)]) = unhandled s els ++ [o].
Proof. unfold unhandled. cbn [held]. rewrite fmap_app, app_assoc. done. Qed.

Lemma ending_destroy hdl c s els cur l :
  ending_at hdl c s els cur l -> cur <> 0 -> cur <> c ->
  exists f w h u, thread_destroy me allocateStack (e_world s) (e_store s) (e_queue s) hdl = Ok (f, (w, (h, u))) /\
    ending_inv hdl c (mkEnding w h u (e_waits s) (held s) (ended s ++ [cur]) (cleaned s)).
Proof.
  intros H H0 Hc. pose proof (ending_alive _ _ _ _ _ _ cur H H0 ltac:(by left)) as Hal.
  destruct H as [E1 E2 E3 E4 (E5 & E5' & E50) E6 E7 E8 E9].
  assert (Hcu : c ∉ object <$> unhandled s els) by (intros Hx; apply E5'; rewrite E4, elem_of_app; by right).
  destruct (thread_destroy_run c (e_world s) (e_store s) (e_queue s) els hdl _ cur l (object <$> unhandled s els) E1 E3) as
    (f & w & h & u & cur' & l' & E & Hch & Hq & Hl & Hd & Hoth); try done.
  { destruct els; [done|]. intros _. unfold asleep. by rewrite andb_false_r. }
  exists f, w, h, u. split; [done|]. exists (els ++ [(nextNode (e_store s), mkCleanerObject cur hdl)]), cur', l'.
  constructor; rewrite ?unhandled_snoc; cbn [e_world e_store e_queue e_waits held ended cleaned]; try done.
  - assert (asleep (e_waits s) (els ++ [(nextNode (e_store s), mkCleanerObject cur hdl)]) = false) as ->; [|done].
    unfold asleep. destruct (els ++ _) eqn:E'; [by destruct els|]. apply andb_false_r.
  - rewrite E4, fmap_app, <- app_assoc. done.
  - split; [|rewrite !elem_of_app, !list_elem_of_singleton; split; intros [?|?]; (done || congruence)].
    apply NoDup_app. split; [done|]. split; [|apply NoDup_singleton]. intros x Hx Hx'. by apply list_elem_of_singleton in Hx' as ->.
  - intros o Ho. apply elem_of_app in Ho as [Ho|Ho]; [by apply E6|]. by apply list_elem_of_singleton in Ho as ->.
  - rewrite fmap_app. exact Hd.
  - intros t Ht. rewrite Hoth; [by apply E8| |].
    + intros ->. apply E5'. rewrite E4, elem_of_app. by left.
    + intros Hx. specialize (E8 t Ht). apply elem_of_cons in Hx as [->|Hx].
      * destruct (rd_current _ _ _ _ _ _ (qa_ready _ _ _ _ _ _ E1) H0) as (_ & b & Hb & _). congruence.
      * destruct (rd_queue _ _ _ _ _ _ (qa_ready _ _ _ _ _ _ E1) t Hx) as (b & Hb & _). congruence.
Qed.

Lemma ending_take hdl c s a o els l h u :
  ending_at hdl c s ((a, o) :: els) c l -> held s = None -> chain h (u_head u) (u_tail u) els ->
  queue_at c (e_world s) u false c l ->
  ending_inv hdl c (mkEnding (e_world s) h u false (Some o) (ended s) (cleaned s)).
Proof.
  intros [E1 E2 E3 E4 E5 E6 E7 E8 E9] Hh Hch Hq. unfold unhandled in *. rewrite Hh in *.
  exists els, c, l. by constructor.
Qed.

Lemma ending_pop hdl c s els l :
  ending_at hdl c s els c l -> e_waits s = false -> held s = None ->
  match els with
  | (_, o) :: _ => exists w h u, UQueue_pop me allocateStack (e_world s) (e_store s) (e_queue s) = Ok (Popped o, (w, (h, u))) /\
      ending_inv hdl c (mkEnding w h u false (Some o) (ended s) (cleaned s))
  | [] => exists f w h u, UQueue_pop me allocateStack (e_world s) (e_store s) (e_queue s) = Ok (Waits f, (w, (h, u))) /\
      ending_inv hdl c (mkEnding w h u true None (ended s) (cleaned s))
  end.
Proof.
  intros H Hw Hh. pose proof H as [E1 E2 E3 E4 E5 E6 E7 E8 E9]. unfold asleep in E1. rewrite Hw in E1. cbn [andb] in E1.
  pose proof (UQueue_pop_run c _ _ _ els l E1 E3) as Hp. destruct els as [|[a o] els].
  - destruct Hp as (f & w & u & cur' & l' & q' & E & _ & Hch & Hq & Hbk). exists f, w, (e_store s), u. split; [exact E|].
    exists [], cur', l'. unfold unhandled in *. rewrite Hh in *. constructor; try done.
    + by destruct Hbk.
    + intros t Ht. cbn in Ht. by apply elem_of_nil in Ht.
    + intros t Ht. rewrite (bk_untouched _ _ _ _ _ _ _ _ _ _ Hbk); [by apply E8|]. cbn. intros Hx. specialize (E8 t Ht).
      apply elem_of_cons in Hx as [->|Hx].
      * apply (proj1 (proj2 E5)). rewrite E4, elem_of_app. by left.
      * destruct (rd_queue _ _ _ _ _ _ (qa_ready _ _ _ _ _ _ E1) t Hx) as (b & Hb & _). congruence.
  - destruct Hp as (h & u & E & Hch & Hq). exists (e_world s), h, u. split; [exact E|]. by eapply ending_take.
Qed.

Lemma ending_resume hdl c s els l :
  ending_at hdl c s els c l -> e_waits s = true ->
  exists o w h u, UQueue_popResume me (e_world s) (e_store s) (e_queue s) = Ok (o, (w, (h, u))) /\
    ending_inv hdl c (mkEnding w h u false (Some o) (ended s) (cleaned s)).
Proof.
  intros H Hw. pose proof H as [E1 E2 E3 E4 E5 E6 E7 E8 E9]. unfold asleep in E1. rewrite Hw in E1. cbn [andb] in E1.
  destruct els as [|[a o] els].
  - destruct E1 as [_ _ _ [_ Hd] _]. destruct (Hd c) as [Hc _]; [by left|]. exfalso. apply Hc. by left.
  - destruct (UQueue_popResume_run c _ _ _ a o els l E1 E3) as (h & u & E & Hch & Hq).
    exists o, (e_world s), h, u. split; [exact E|]. eapply ending_take; [done|by apply E9|done|done].
Qed.

Lemma ending_handle hdl c s els l o freeStack :
  ending_at hdl c s els c l -> held s = Some o ->
  exists b, cbs (e_world s) !! object o = Some b /\
    let w := set_cbs (e_world s) (delete (object o) (cbs (e_world s))) in
    callHandler hdl freeStack o (e_world s) =
      (let! _ := (if negb (originalStackPointer b =? 0) then freeStack (originalStackPointer b) else Ok tt) in Ok w) /\
    ending_inv hdl c (mkEnding w (e_store s) (e_queue s) (e_waits s) None (ended s) (cleaned s ++ [object o])).
Proof.
  intros [E1 E2 E3 E4 E5 E6 E7 E8 E9] Hh. unfold unhandled in *. rewrite Hh in *. cbn [option_list option_rect app fmap list_fmap] in *.
  destruct (destructionCode_run (e_world s) c l (object o) freeStack) as (b & Hb & E); [apply E1| |].
  { intros t Ht. apply E7. apply list_elem_of_singleton in Ht as ->. by left. }
  exists b. split; [done|]. set (w := set_cbs _ _). split.
  { unfold callHandler. rewrite (E6 o) by by left. by rewrite Z.eqb_refl. }
  assert (Hto : object o ∉ c :: l /\ object o <> c).
  { destruct (E7 (object o)) as (H1 & _); [by left|]. split; [done|]. intros Hx. apply H1. rewrite Hx. by left. }
  assert (Hnd : object o ∉ object <$> els.*2).
  { destruct E5 as [E5 _]. rewrite E4 in E5. apply NoDup_app in E5 as (_ & _ & E5). by apply NoDup_cons in E5 as [? _]. }
  exists els, c, l. constructor; cbn [e_world e_store e_queue e_waits held ended cleaned unhandled option_list option_rect app]; try done.
  - apply queue_at_delete; tauto.
  - destruct E2 as [E2|E2]; [by left|right]. unfold isRunning, taskState, w in *. cbn. by rewrite lookup_delete_ne by tauto.
  - rewrite E4, <- app_assoc. done.
  - intros o' Ho'. apply E6. by right.
  - intros t Ht. destruct (E7 t) as (H1 & H2 & bt & H3); [by right|]. split; [done|]. split; [done|]. exists bt.
    unfold w. cbn. rewrite lookup_delete_ne; [done|]. intros <-. by apply Hnd.
  - intros t Ht. unfold w. cbn. destruct (decide (t = object o)) as [->|Hx]; [by rewrite lookup_delete_eq|].
    rewrite lookup_delete_ne by done. apply E8. apply elem_of_app in Ht as [Ht|Ht]; [done|by apply list_elem_of_singleton in Ht].
Qed.

Lemma ending_resumes hdl c s els cur l w cur' l' :
  ending_at hdl c s els cur l -> resumes me allocateStack (e_world s) w cur l cur' l' [] ->
  ending_inv hdl c (mkEnding w (e_store s) (e_queue s) (e_waits s) (held s) (ended s) (cleaned s)).
Proof.
  intros H Hre. pose proof H as [E1 E2 E3 E4 E5 E6 E7 E8 E9]. exists els, cur', l'.
  constructor; try done; [by eapply queue_at_resumes|by eapply re_live|by eapply resumes_detached|].
  intros t Ht. cbn. rewrite (re_untouched _ _ _ _ _ _ _ _ _ Hre); [by apply E8|]. cbn. intros Hx.
  assert (Hte : t ∈ ended s) by (rewrite E4, elem_of_app; by left).
  apply (ending_alive _ _ _ _ _ _ t H); [|done|done]. intros ->. by apply E5.
Qed.

Lemma ending_inv_step hdl freeStack c s s' : ending_inv hdl c s -> end_step hdl freeStack c s s' -> ending_inv hdl c s'.
Proof.
  intros (els & cur & l & H) Hs. pose proof (ending_current _ _ _ _ _ _ H) as Hcur.
  destruct Hs as [s cur' f w h u Hc H0 Hn E|s o w h u Hc Hw Hh E|s f w h u Hc Hw Hh E|s o w h u Hc Hw E|s o w Hc Hh E|s f w E|s f w E];
    try (assert (cur = c) as -> by congruence).
  - assert (cur' = cur) as -> by congruence.
    destruct (ending_destroy hdl c s els cur l H H0 Hn) as (f' & w' & h' & u' & E' & Hi). rewrite E in E'. by simplify_eq.
  - pose proof (ending_pop hdl c s els l H Hw Hh) as Hp. destruct els as [|[a o'] els].
    + destruct Hp as (? & ? & ? & ? & E' & _). congruence.
    + destruct Hp as (w' & h' & u' & E' & Hi). rewrite E in E'. by simplify_eq.
  - pose proof (ending_pop hdl c s els l H Hw Hh) as Hp. destruct els as [|[a o'] els].
    + destruct Hp as (? & ? & ? & ? & E' & Hi). rewrite E in E'. by simplify_eq.
    + destruct Hp as (? & ? & ? & E' & _). congruence.
  - destruct (ending_resume hdl c s els l H Hw) as (o' & w' & h' & u' & E' & Hi). rewrite E in E'. by simplify_eq.
  - destruct (ending_handle hdl c s els l o freeStack H Hh) as (b & _ & E' & Hi). rewrite E in E'.
    destruct (if negb _ then _ else _); cbn in E'; [|done..]. by simplify_eq.
  - pose proof H as [[Q1 _ Q3 _ _] _ _ _ _ _ _ _ _].
    destruct (yield_resumes me allocateStack (e_world s) cur l Q3 Q1) as (f' & w' & cur' & l' & E' & Hre & _).
    rewrite E in E'. simplify_eq. by eapply ending_resumes.
  - pose proof H as [[Q1 _ Q3 _ _] Hl _ _ _ _ _ _ _].
    destruct (tick_resumes me allocateStack (e_world s) cur l Q3 Q1 Hl) as (f' & w' & cur' & l' & E' & Hre).
    rewrite E in E'. simplify_eq. by eapply ending_resumes.
Qed.

(** A consumer that does not sleep is not blocked. *)
Lemma awake c w u cur l : queue_at c w u false cur l -> live w cur l -> taskState w c <> Some BLOCKING.
Proof.
  intros [_ _ Hr _ [H0 Hc]] Hl Hb. specialize (Hc eq_refl). apply elem_of_cons in Hc as [->|Hc].
  - destruct Hl as [[-> _]|Hl]; [done|]. unfold isRunning in Hl. rewrite Hb in Hl. by rewrite bool_decide_eq_false_2, andb_false_r in Hl.
  - destruct (rd_queue _ _ _ _ _ _ Hr c Hc) as (b & Hbb & _ & Hs). unfold taskState in Hb. rewrite Hbb in Hb. cbn in Hb. congruence.
Qed.

Lemma chain_empty {T} (h : Nodes (T := T)) : nodes h = ∅ -> 0 < nextNode h -> chain h 0 0 [].
Proof.
  intros Hh Hn. constructor; cbn; try done.
  - intros a v H. by apply elem_of_nil in H.
  - constructor.
  - intros a [x Hx]. by rewrite Hh, lookup_empty in Hx.
Qed.

Lemma queue_at_init c w cur l :
  ready me allocateStack w 0 cur l -> cpuCount w = 1 -> c <> 0 -> c ∈ cur :: l -> queue_at c w UQueue_init false cur l.
Proof.
  intros Hr Hc H0 Hin. constructor; try done. split; [apply holds_empty|]. intros t Ht. by apply elem_of_nil in Ht.
Qed.

(** What the theorems on one processor start from: after these calls the
    initial task runs and the cleaner waits in the run queue. *)
Lemma kstartThreads_ready c r initialTask cleanerTask stack entrypoint cr3 :
  me = 0%nat -> getCpuNumber c = 0 -> initialTask <> 0 -> cleanerTask <> 0 -> initialTask <> cleanerTask ->
  is_ok allocateStack = true ->
  exists w, kstartThreads (bootWorld c r) initialTask cleanerTask stack entrypoint cr3 = Ok w /\
    ready me allocateStack w 0 initialTask [cleanerTask] /\ live w initialTask [cleanerTask] /\ cpuCount w = 1.
Proof.
  intros Hme Hc H1 H2 Hne Ha. unfold kstartThreads. set (w0 := set_cbs (bootWorld c r) _).
  assert (Hp0 : processors w0 !! me = Some (mkProcessor c r)) by by rewrite Hme.
  assert (Hb0 : cbs w0 !! initialTask = Some (initialBlock 0)) by (unfold w0; cbn; by rewrite lookup_insert_eq).
  unfold Scheduler.init, Scheduler_initialise, getScheduler. change (schedulers w0 !! Z.to_nat 0) with (Some Scheduler_init). cbn [of_option obind].
  rewrite (lockTask_eq me w0 initialTask _ _ Hp0 Hb0) by done. cbn [obind].
  set (b1 := set_runLock (initialBlock 0) _).
  match goal with |- context [cleaner_init me allocateStack ?x] => set (w1 := x) end.
  assert (Hp1 : exists p, processors w1 !! me = Some p /\ getCpuNumber (p_cpu p) = 0).
  { eexists. split; [unfold w1; cbn; by rewrite Hme|]. exact Hc. }
  assert (Hr1 : ready me allocateStack w1 0 initialTask []).
  { constructor.
    - eexists. split; [reflexivity|]. do 4 (split; [reflexivity|]). split; [by right|apply holds_empty].
    - exact Hp1.
    - intros _. split; [apply not_elem_of_nil|]. exists b1. split; [unfold w1; cbn; by rewrite lookup_insert_eq|done].
    - intros t Ht. by apply elem_of_nil in Ht. }
  unfold cleaner_init, thread_create. set (b2 := mkControlBlock _ stack _ _ _ _ _).
  set (w2 := set_cbs w1 _).
  assert (Hr2 : ready me allocateStack w2 0 initialTask []).
  { apply (ready_agree me allocateStack w1); [exact Hr1|]. intros x Hx. apply list_elem_of_singleton in Hx as ->. by rewrite lookup_insert_ne. }
  assert (Hb2 : cbs w2 !! cleanerTask = Some b2) by (unfold w2; cbn; by rewrite lookup_insert_eq).
  assert (Hi2 : cbs w2 !! initialTask = Some b1).
  { unfold w2, w1. cbn. by rewrite lookup_insert_ne, lookup_insert_eq by done. }
  assert (Hrun : isRunning w2 initialTask = true) by by rewrite (isRunning_some _ _ b1 Hi2 H1), bool_decide_eq_true_2.
  rewrite (addTask_own me allocateStack w2 initialTask [] cleanerTask Hr2) by done.
  pose proof (addTask_run me allocateStack w2 0 initialTask [] cleanerTask b2 Hr2 H2) as Hadd.
  assert (Hpre : preempts w2 initialTask cleanerTask = false).
  { unfold preempts, taskPriority. by rewrite Hrun, Hi2, Hb2. }
  rewrite Hpre, Hrun in Hadd. cbn [addSpec] in Hadd. destruct Hadd as (w' & E & Hr' & [_ A2 _ _ [A5 _] _]); [|exact Hb2|done|].
  { by rewrite list_elem_of_singleton. }
  rewrite E. cbn [obind]. exists w'. split; [done|]. split; [exact Hr'|]. split; [|by rewrite A5].
  right. unfold isRunning. rewrite (proj2 (Z.eqb_neq initialTask 0)), A2, decide_False, decide_False by (done || (intros (_ & _ & ?); congruence)).
  unfold isRunning in Hrun. apply andb_true_iff in Hrun as [_ Hrun]. exact Hrun.
Qed.

(** Without the scheduler: nobody waits. *)
Lemma UQueue_push_ok {T} w h u (l : list (Z * T)) value p :
  processors w !! me = Some p -> uholds h u l ->
  exists h' u', UQueue_push me allocateStack w h u value = Ok (Returns, (w, (h', u'))) /\ uholds h' u' (l ++ [(nextNode h, value)]).
Proof.
  intros Hp [H1 H2 H3]. unfold UQueue_push. rewrite (spinAcquire_eq me w _ p) by done. cbn [obind].
  rewrite (chain_tail_null _ _ _ _ H3). pose proof (chain_append _ _ _ _ value H3) as Happ. cbv zeta in Happ.
  set (w1 := set_processor w me _).
  assert (Hp1 : processors w1 !! me = Some (mkProcessor (disableLocalIrqs (p_cpu p)) (p_regs p))) by (cbn; by eapply insert_me).
  destruct l as [|x l]; cbn [negb].
  - destruct (queuePop_ok me w1 (u_waiting u) [] _ Hp1 (H2 _)) as (q' & Epop & Hq'). cbn in Epop. rewrite Epop. cbn [obind].
    rewrite (spinRelease_eq me w1 (p_cpu p) (p_regs p)) by done. cbn [obind Z.eqb negb]. unfold w1. rewrite spin_restore by done.
    eexists _, _. split; [done|]. constructor; [done| |exact Happ]. intros m. apply (holds_links (cbs w)); [exact Hq'|].
    intros x Hx. by apply elem_of_nil in Hx.
  - destruct Happ as (h' & -> & Hch). cbn [obind]. rewrite (spinRelease_eq me w1 (p_cpu p) (p_regs p)) by done. cbn [obind].
    unfold w1. rewrite spin_restore by done. eexists _, _. split; [done|]. by constructor.
Qed.

Lemma UQueue_pop_ok {T} w h u a (v : T) l p :
  processors w !! me = Some p -> uholds h u ((a, v) :: l) ->
  exists h' u', UQueue_pop me allocateStack w h u = Ok (Popped v, (w, (h', u'))) /\ uholds h' u' l.
Proof.
  intros Hp [H1 H2 H3]. unfold UQueue_pop. rewrite (spinAcquire_eq me w _ p) by done. cbn [obind].
  rewrite (chain_head_null _ _ _ _ H3). destruct (UQueue_take_run w h u a v l p Hp H3) as (h' & u' & E & Hch & Hw & Hl).
  rewrite E. cbn [obind]. exists h', u'. split; [done|]. constructor; [done|by rewrite Hw|done].
Qed.

(** ** Properties *)

(** [C24] The blocking [util::Queue] with any producers and one consumer on one
    processor, after any interleaving of pushes, pops, waits, yields and timer
    ticks: the values popped are the first of those pushed, in order, and the
    others are in the queue, whose nodes are exactly the list from head to
    tail; the consumer is only blocked while it waits on the empty queue (no
    wake-up is lost); the next push succeeds, and the consumer's next [pop],
    or the rest of the one it waits in, gives the oldest value without
    following a null pointer. *)
Theorem queue_safe {T} c w0 (h0 : Nodes (T := T)) cur0 l0 s :
  ready me allocateStack w0 0 cur0 l0 -> live w0 cur0 l0 -> cpuCount w0 = 1 -> c <> 0 -> c ∈ cur0 :: l0 ->
  nodes h0 = ∅ -> 0 < nextNode h0 ->
  star (queue_step c) (mkChannel w0 h0 UQueue_init false [] []) s ->
  exists els cur, getCurrentTask me (world s) = Ok cur /\
    pushed s = popped s ++ els.*2 /\ chain (store s) (u_head (queue s)) (u_tail (queue s)) els /\
    (taskState (world s) c = Some BLOCKING -> waits s = true /\ els = []) /\
    (forall v, is_ok (UQueue_push me allocateStack (world s) (store s) (queue s) v) = true) /\
    (cur = c -> waits s = false -> exists r s',
      UQueue_pop me allocateStack (world s) (store s) (queue s) = Ok (r, s') /\
      match els with [] => exists f, r = Waits f | (_, v) :: _ => r = Popped v end) /\
    (cur = c -> waits s = true -> exists v s',
      UQueue_popResume me (world s) (store s) (queue s) = Ok (v, s') /\ list.head els.*2 = Some v).
Proof.
  intros Hr Hl Hc H0 Hin Hh Hn Hstar.
  assert (Hinv : channel_inv c s).
  { refine (star_invariant (queue_step c) (channel_inv c) _ _ _ Hstar _); [apply channel_inv_step|].
    exists [], cur0, l0. constructor; [by apply queue_at_init|done|by apply chain_empty|done]. }
  destruct Hinv as (els & cur & l & H). exists els, cur. split; [by eapply channel_current|]. split; [by apply (ca_values _ _ _ _ _ H)|].
  split; [by apply (ca_chain _ _ _ _ _ H)|]. split; [|split; [|split]].
  - intros Hb. destruct (asleep (waits s) els) eqn:Ea; [by unfold asleep in Ea; destruct (waits s), els|].
    pose proof (ca_queue _ _ _ _ _ H) as Hq. rewrite Ea in Hq. exfalso. by apply (awake _ _ _ _ _ Hq (ca_live _ _ _ _ _ H)).
  - intros v. by destruct (channel_push c s els cur l v H) as (f & w & h & u & -> & _).
  - intros -> Hw. pose proof (channel_pop c s els l H Hw) as Hp. destruct els as [|[a v] els].
    + destruct Hp as (f & w & h & u & E & _). eexists _, _. split; [exact E|eauto].
    + destruct Hp as (w & h & u & E & _). eexists _, _. by split; [exact E|].
  - intros -> Hw. destruct (channel_resume c s els l H Hw) as (a & v & els' & w & h & u & -> & E & _). by exists v, (w, (h, u)).
Qed.

(** [C22] Threads that end and the cleaner on one processor, after any
    interleaving of [thread::destroy], the cleaner's steps, yields and ticks:
    every ended thread is cleaned or still to be cleaned, once, in the order
    they ended; one still to be cleaned is blocked, off every queue of the
    scheduler and off its stack (its run lock is free), so its destruction
    code does not wait and frees a stack nobody uses; the cleaner is awake
    while there is work; [thread::destroy] of the running thread succeeds. *)
Theorem threads_destroyed hdl freeStack c w0 h0 cur0 l0 s :
  ready me allocateStack w0 0 cur0 l0 -> live w0 cur0 l0 -> cpuCount w0 = 1 -> c <> 0 -> c ∈ cur0 :: l0 ->
  nodes h0 = ∅ -> 0 < nextNode h0 ->
  star (end_step hdl freeStack c) (mkEnding w0 h0 UQueue_init false None [] []) s ->
  exists els cur l, ready me allocateStack (e_world s) 0 cur l /\
    ended s = cleaned s ++ (object <$> unhandled s els) /\ NoDup (ended s) /\
    (forall t, t ∈ object <$> unhandled s els -> t ∉ cur :: l /\
       exists b, cbs (e_world s) !! t = Some b /\ state b = BLOCKING /\ locked (runLock b) = false) /\
    (forall t, t ∈ cleaned s -> cbs (e_world s) !! t = None) /\
    (unhandled s els <> [] -> taskState (e_world s) c <> Some BLOCKING) /\
    (cur <> 0 -> cur <> c -> is_ok (thread_destroy me allocateStack (e_world s) (e_store s) (e_queue s) hdl) = true) /\
    (forall o, cur = c -> held s = Some o -> exists b, cbs (e_world s) !! object o = Some b /\
       callHandler hdl freeStack o (e_world s) =
         (let! _ := (if negb (originalStackPointer b =? 0) then freeStack (originalStackPointer b) else Ok tt) in
          Ok (set_cbs (e_world s) (delete (object o) (cbs (e_world s)))))).
Proof.
  intros Hr Hl Hc H0 Hin Hh Hn Hstar.
  assert (Hinv : ending_inv hdl c s).
  { refine (star_invariant (end_step hdl freeStack c) (ending_inv hdl c) _ _ _ Hstar _); [apply ending_inv_step|].
    exists [], cur0, l0. constructor; try done; [by apply queue_at_init|by apply chain_empty| | | |].
    - split; [constructor|]. split; apply not_elem_of_nil.
    - intros o Ho. cbn in Ho. by apply elem_of_nil in Ho.
    - intros t Ht. cbn in Ht. by apply elem_of_nil in Ht.
    - intros t Ht. cbn in Ht. by apply elem_of_nil in Ht. }
  destruct Hinv as (els & cur & l & H). pose proof H as [E1 E2 E3 E4 E5 E6 E7 E8 E9]. exists els, cur, l.
  split; [apply E1|]. split; [done|]. split; [apply E5|]. split; [|split; [done|split; [|split]]].
  - intros t Ht. destruct (E7 t Ht) as (H1 & _ & H2). done.
  - intros Hu. assert (Ha : asleep (e_waits s) els = false).
    { unfold asleep. destruct (e_waits s) eqn:Ew; [|done]. destruct els; [|done]. unfold unhandled in Hu. rewrite E9 in Hu by done. done. }
    rewrite Ha in E1. by eapply awake.
  - intros Hc0 Hcc. by destruct (ending_destroy hdl c s els cur l H Hc0 Hcc) as (f & w & h & u & -> & _).
  - intros o -> Ho. destruct (ending_handle hdl c s els l o freeStack H Ho) as (b & Hb & E & _). by exists b.
Qed.

(** [util::Queue] without waiting consumers is a FIFO: any sequence of
    [push] and [pop] that never pops it empty returns the values in the order
    they went in, does not block, leaves the scheduler's state alone and frees
    every element popped (the nodes that exist are exactly those queued). *)
Theorem uqueue_fifo {T} (os : list (UOp (T := T))) w h u l rs l' :
  is_Some (processors w !! me) -> uholds h u l -> specUOps l.*2 os = Some (rs, l') ->
  exists h' u' l2, runUOps w h u os = Ok (rs, (w, (h', u'))) /\ uholds h' u' l2 /\ l2.*2 = l'.
Proof.
  intros [p Hp]. revert h u l rs. induction os as [|[v|] os IH]; intros h u l rs Hu Hs; cbn [specUOps runUOps] in *.
  - simplify_eq. by exists h, u, l.
  - destruct (UQueue_push_ok w h u l v p Hp Hu) as (h1 & u1 & E & Hu1). rewrite E. cbn [obind].
    apply (IH h1 u1 (l ++ [(nextNode h, v)])); [done|]. by rewrite fmap_app.
  - destruct l as [|[a v] l]; cbn in Hs; [done|]. destruct (specUOps l.*2 os) as [[rs' l1]|] eqn:Es; [|done]. simplify_eq.
    destruct (UQueue_pop_ok w h u a v l p Hp Hu) as (h1 & u1 & E & Hu1). rewrite E. cbn [obind].
    destruct (IH h1 u1 l rs' Hu1 Es) as (h2 & u2 & l2 & E2 & H2). rewrite E2. cbn [obind]. by exists h2, u2, l2.
Qed.
End Messages.

Lemma oneCpu_live : live oneCpu 1 [2; 3].
Proof. right. vm_compute. reflexivity. Qed.

(** Task 1 waits for a value, task 2 pushes one, task 3 another; task 1, woken,
    takes the first. *)
Definition channelTrace : outcome (Channel (T := Z)) :=
  runChannel 0 Fault 1 (mkChannel oneCpu noNodes UQueue_init false [] []) [ChConsume; ChPush 7; ChYield; ChPush 8; ChYield; ChConsume].

Lemma queue_safe_witness : exists s, channelTrace = Ok s /\ pushed s = [7; 8] /\ popped s = [7] /\
  exists els, chain (store s) (u_head (queue s)) (u_tail (queue s)) els /\ els.*2 = [8].
Proof.
  destruct (outcome_observed channelTrace (fun s => (pushed s, popped s)) ([7; 8], [7])) as (s & E & [= Hpu Hpo]);
    [vm_compute; reflexivity|].
  exists s. do 3 (split; [assumption|]).
  destruct (queue_safe 0 Fault 1 oneCpu noNodes 1 [2; 3] s oneCpu_ready oneCpu_live eq_refl ltac:(done) ltac:(by left) eq_refl eq_refl
    (runChannel_star 0 Fault 1 _ _ s E)) as (els & cur & _ & Hv & Hch & _).
  exists els. split; [exact Hch|]. rewrite Hpu, Hpo in Hv. by injection Hv.
Defined.

(** Task 1 is the cleaner and waits; task 2 ends, which wakes it; it cleans
    task 2. *)
Definition endingTrace : outcome Ending :=
  runEnding 0 Fault 9 (fun _ => Ok tt) 1 (mkEnding oneCpu (mkNodes ∅ 4096) UQueue_init false None [] [])
    [EnClean; EnDestroy; EnClean; EnClean; EnYield].

Lemma threads_destroyed_witness : exists s, endingTrace = Ok s /\ ended s = [2] /\ cleaned s = [2] /\ cbs (e_world s) !! 2 = None.
Proof.
  destruct (outcome_observed endingTrace (fun s => (ended s, cleaned s)) ([2], [2])) as (s & E & [= Hen Hcn]);
    [vm_compute; reflexivity|].
  exists s. do 3 (split; [assumption|]).
  destruct (threads_destroyed 0 Fault 9 (fun _ => Ok tt) 1 oneCpu (mkNodes ∅ 4096) 1 [2; 3] s oneCpu_ready oneCpu_live eq_refl
    ltac:(done) ltac:(by left) eq_refl eq_refl (runEnding_star 0 Fault 9 _ 1 _ _ s E)) as (els & cur & l & _ & _ & _ & _ & Hcl & _).
  apply Hcl. rewrite Hcn. by left.
Defined.

Lemma uholds_empty : uholds noNodes UQueue_init [].
Proof. constructor; [done|intros m; apply holds_empty|by apply chain_empty]. Qed.

Lemma uqueue_fifo_witness :
  exists h' u', runUOps 0 Fault oneCpu noNodes UQueue_init [UPush 5; UPush 6; UPop; UPush 7; UPop] = Ok ([5; 6], (oneCpu, (h', u'))).
Proof.
  destruct (uqueue_fifo 0 Fault [UPush 5; UPush 6; UPop; UPush 7; UPop] oneCpu noNodes UQueue_init [] [5; 6] [7])
    as (h' & u' & l2 & E & _).
  - eexists. reflexivity.
  - apply uholds_empty.
  - reflexivity.
  - exists h', u'. exact E.
Defined.

