(* ===== verification/Vfs.v ===== *)
(** * The virtual file system ([fs.h], [fsProvider.h], [vfs.cpp])

    File nodes live in the [children] vectors of their parents, that is in
    arrays of the kernel heap (module [Vector]): a handle on a child is a
    pointer into such an array, and becomes dangling when the vector grows.
    File systems are instances of the class [FsProvider]. *)

From Stdlib Require Import ZArith Lia.
From stdpp Require Import base tactics numbers gmap list.
From S2P Require Import Prelude Strings Vector.

Open Scope Z_scope.

Inductive FileType := NONE | FILE | DIRECTORY.
Inductive FileError := OKAY | CLOSED | NOT_FOUND | READ_ONLY | NOT_FILE | NOT_DIRECTORY | BUSY.

#[export] Instance FileType_eq_dec : EqDecision FileType.
Proof. solve_decision. Defined.
#[export] Instance FileError_eq_dec : EqDecision FileError.
Proof. solve_decision. Defined.

(** [node] is the file system's own pointer. [lock] is the node's mutex as one
    thread sees it: acquiring it again would block for ever. *)
Record FileNode := mkFileNode {
  name : Str;
  type : FileType;
  openCount : Z;
  children : Vector;
  node : Z;
  lock : bool;
  fsProvider : Z;
  populated : bool
}.

Definition FileNode_zero : FileNode := mkFileNode Str_null NONE 0 Vector_init 0 false 0 false.

Definition set_openCount (n : FileNode) (c : Z) : FileNode :=
  mkFileNode (name n) (type n) c (children n) (node n) (lock n) (fsProvider n) (populated n).
Definition set_children (n : FileNode) (c : Vector) : FileNode :=
  mkFileNode (name n) (type n) (openCount n) c (node n) (lock n) (fsProvider n) (populated n).
Definition set_node (n : FileNode) (p : Z) : FileNode :=
  mkFileNode (name n) (type n) (openCount n) (children n) p (lock n) (fsProvider n) (populated n).
Definition set_lock (n : FileNode) (b : bool) : FileNode :=
  mkFileNode (name n) (type n) (openCount n) (children n) (node n) b (fsProvider n) (populated n).
Definition set_provider (n : FileNode) (p : Z) (pop : bool) : FileNode :=
  mkFileNode (name n) (type n) (openCount n) (children n) (node n) (lock n) p pop.

(** [FileNode*]: the static root, or an element of an array. *)
Inductive NodePtr := Root | Child (array index : Z).

Record Vfs := mkVfs { root : FileNode; heap : Heap (T := FileNode); memory : Memory }.

(** [initializeRoot]. *)
Definition Vfs_init (h : Heap (T := FileNode)) (m : Memory) : Vfs :=
  mkVfs (mkFileNode Str_null DIRECTORY 0 Vector_init 0 false 0 false) h m.

Definition loadNode (v : Vfs) (p : NodePtr) : outcome FileNode :=
  match p with
  | Root => Ok (root v)
  | Child a i => loadElement (heap v) a i
  end.

Definition storeNode (v : Vfs) (p : NodePtr) (n : FileNode) : outcome Vfs :=
  match p with
  | Root => Ok (mkVfs n (heap v) (memory v))
  | Child a i => let! h := storeElement (heap v) a i n in Ok (mkVfs (root v) h (memory v))
  end.

(** The virtual methods of a file system, given the [FileNode&]. *)
Class FsProvider := {
  fs_read : Vfs -> NodePtr -> Z -> Z -> Z -> outcome (Z * Vfs);
  fs_write : Vfs -> NodePtr -> Z -> Z -> Z -> outcome (Z * Vfs);
  fs_populateDirectory : Vfs -> NodePtr -> outcome Vfs;
  fs_initRoot : Vfs -> NodePtr -> outcome Vfs;
  fs_freeNode : Vfs -> NodePtr -> outcome Vfs
}.

(** The methods of the base class. *)
Definition FsProvider_read (v : Vfs) (p : NodePtr) (offset length buffer : Z) : outcome (Z * Vfs) := Ok (0, v).
Definition FsProvider_write (v : Vfs) (p : NodePtr) (offset length buffer : Z) : outcome (Z * Vfs) := Ok (0, v).
Definition FsProvider_populateDirectory (v : Vfs) (p : NodePtr) : outcome Vfs := Ok v.

Record FileHandle := mkFileHandle {
  h_node : option NodePtr;
  writable : bool;
  open : bool;
  error : FileError
}.

Definition FileHandle_empty : FileHandle := mkFileHandle None false false CLOSED.

Definition set_error (h : FileHandle) (e : FileError) : FileHandle := mkFileHandle (h_node h) (writable h) (open h) e.

Definition SIZE_MAX : Z := 18446744073709551615.

Section Handles.
(** The file systems by address: a call through a null or stray pointer
    faults. *)
Context (providers : Z -> option FsProvider).

Definition provider (p : Z) : outcome FsProvider := of_option (providers p).

Definition acquireNode (v : Vfs) (p : NodePtr) : outcome Vfs :=
  let! n := loadNode v p in
  if lock n then Hang else storeNode v p (set_lock n true).

Definition releaseNode (v : Vfs) (p : NodePtr) : outcome Vfs :=
  let! n := loadNode v p in storeNode v p (set_lock n false).

(** [node->...] of a handle. *)
Definition handleNode (h : FileHandle) : outcome NodePtr := of_option (h_node h).

(** [FileHandle(FileNode*, bool)]. *)
Definition FileHandle_of (v : Vfs) (p : NodePtr) (w : bool) : outcome (FileHandle * Vfs) :=
  let! v := acquireNode v p in
  let! n := loadNode v p in
  let! v := storeNode v p (set_openCount n (u64 (openCount n + 1))) in
  let! v := releaseNode v p in
  Ok (mkFileHandle (Some p) w true OKAY, v).

Definition getType (h : FileHandle) (v : Vfs) : outcome (FileType * Vfs) :=
  if open h then
    let! p := handleNode h in
    let! v := acquireNode v p in
    let! n := loadNode v p in
    let! v := releaseNode v p in
    Ok (type n, v)
  else Ok (NONE, v).

Definition close (h : FileHandle) (v : Vfs) : outcome (FileHandle * Vfs) :=
  if open h then
    let! p := handleNode h in
    let! v := acquireNode v p in
    let! n := loadNode v p in
    let! v := storeNode v p (set_openCount n (u64 (openCount n - 1))) in
    let! v := releaseNode v p in
    Ok (mkFileHandle None (writable h) (open h) CLOSED, v)
  else Ok (h, v).

(** [if (!node->populated) node->fsProvider->populateDirectory( *node)]. *)
Definition populate (v : Vfs) (p : NodePtr) : outcome Vfs :=
  let! n := loadNode v p in
  if negb (populated n) then
    let! f := provider (fsProvider n) in fs_populateDirectory v p
  else Ok v.

(** [node->children[index]] as a [FileNode*]. *)
Definition childPointer (n : FileNode) (index : Z) : option NodePtr :=
  match Vector_index (children n) index with
  | Some i => Some (Child (data (children n)) i)
  | None => None
  end.

Definition childName (h : FileHandle) (v : Vfs) (index : Z) : outcome (Str * (FileHandle * Vfs)) :=
  if open h then
    let! p := handleNode h in
    let! v := acquireNode v p in
    let! n := loadNode v p in
    if bool_decide (type n = DIRECTORY) then
      let! v := populate v p in
      let! n := loadNode v p in
      if index <? getSize (children n) then
        let! c := of_option (childPointer n index) in
        let! cn := loadNode v c in
        let! v := releaseNode v p in
        Ok (name cn, (h, v))
      else
        let! v := releaseNode v p in Ok (Str_null, (h, v))
    else
      let! v := releaseNode v p in Ok (Str_null, (set_error h NOT_DIRECTORY, v))
  else Ok (Str_null, (h, v)).

Definition openChild (h : FileHandle) (v : Vfs) (index : Z) (w : bool) : outcome (FileHandle * (FileHandle * Vfs)) :=
  if open h then
    let! p := handleNode h in
    let! v := acquireNode v p in
    let! n := loadNode v p in
    if bool_decide (type n = DIRECTORY) then
      let! v := populate v p in
      let! n := loadNode v p in
      if index <? getSize (children n) then
        let! c := of_option (childPointer n index) in
        let! '(result, v) := FileHandle_of v c w in
        let! v := releaseNode v p in
        Ok (result, (h, v))
      else
        let! v := releaseNode v p in Ok (FileHandle_empty, (h, v))
    else
      let! v := releaseNode v p in Ok (FileHandle_empty, (set_error h NOT_DIRECTORY, v))
  else Ok (FileHandle_empty, (h, v)).

(** The loop of [findChild]; the number of children does not change in it. *)
Fixpoint findChild_loop (n : nat) (v : Vfs) (p : NodePtr) (i : Z) (nm : Str) : outcome (option Z) :=
  match n with
  | O => Ok None
  | S n =>
      let! d := loadNode v p in
      let! c := of_option (childPointer d i) in
      let! entry := loadNode v c in
      if Str_eq (memory v) (name entry) nm then Ok (Some i) else findChild_loop n v p (i + 1) nm
  end.

Definition findChild (h : FileHandle) (v : Vfs) (nm : Str) : outcome (Z * (FileHandle * Vfs)) :=
  if open h then
    let! p := handleNode h in
    let! v := acquireNode v p in
    let! n := loadNode v p in
    if bool_decide (type n = DIRECTORY) then
      let! v := populate v p in
      let! n := loadNode v p in
      let! r := findChild_loop (Z.to_nat (getSize (children n))) v p 0 nm in
      let! v := releaseNode v p in
      Ok (match r with Some i => i | None => SIZE_MAX end, (h, v))
    else
      let! v := releaseNode v p in Ok (SIZE_MAX, (set_error h NOT_DIRECTORY, v))
  else Ok (SIZE_MAX, (h, v)).

Definition read (h : FileHandle) (v : Vfs) (offset length buffer : Z) : outcome (Z * (FileHandle * Vfs)) :=
  if open h then
    let! p := handleNode h in
    let! v := acquireNode v p in
    let! n := loadNode v p in
    if bool_decide (type n = FILE) then
      let! f := provider (fsProvider n) in
      let! '(result, v) := fs_read v p offset length buffer in
      let! v := releaseNode v p in Ok (result, (h, v))
    else
      let! v := releaseNode v p in Ok (0, (set_error h NOT_FILE, v))
  else Ok (0, (h, v)).

Definition write (h : FileHandle) (v : Vfs) (offset length buffer : Z) : outcome (Z * (FileHandle * Vfs)) :=
  if open h && writable h then
    let! p := handleNode h in
    let! v := acquireNode v p in
    let! n := loadNode v p in
    if bool_decide (type n = FILE) then
      let! f := provider (fsProvider n) in
      let! '(result, v) := fs_write v p offset length buffer in
      let! v := releaseNode v p in Ok (result, (h, v))
    else
      let! v := releaseNode v p in Ok (0, (set_error h NOT_FILE, v))
  else if negb (writable h) then Ok (0, (set_error h READ_ONLY, v))
  else Ok (0, (h, v)).

Definition mount (h : FileHandle) (v : Vfs) (fs : Z) : outcome (FileHandle * Vfs) :=
  if open h then
    if writable h then
      let! p := handleNode h in
      let! v := acquireNode v p in
      let! n := loadNode v p in
      if bool_decide (type n = DIRECTORY) then
        if (getSize (children n) =? 0) && (openCount n =? 1) then
          let! v :=
            (if negb (fsProvider n =? 0) then let! f := provider (fsProvider n) in fs_freeNode v p else Ok v) in
          let! n := loadNode v p in
          let! v := storeNode v p (set_provider n fs false) in
          let! v := (let! f := provider fs in fs_initRoot v p) in
          let! v := releaseNode v p in Ok (h, v)
        else let! v := releaseNode v p in Ok (set_error h BUSY, v)
      else let! v := releaseNode v p in Ok (set_error h NOT_DIRECTORY, v)
    else Ok (set_error h READ_ONLY, v)
  else Ok (h, v).

(** [while ( *path == '/') path = path.subString(1)]. *)
Fixpoint skipSlashes (fuel : nat) (m : Memory) (path : Str) : outcome Str :=
  if Str_index m path 0 =? 47 then
    match fuel with
    | O => Hang
    | S fuel => skipSlashes fuel m (subStringFrom path 1)
    end
  else Ok path.

(** The outer loop of [FileHandle(String, bool)]: [None] is the early return
    with NOT_FOUND. *)
Fixpoint walk (fuel : nat) (v : Vfs) (current : FileHandle) (path : Str) : outcome (option FileHandle * Vfs) :=
  if 0 <? Strings.length path then
    match fuel with
    | O => Hang
    | S fuel =>
        let! path := skipSlashes (Z.to_nat (Strings.length path)) (memory v) path in
        let currentComponent := findBefore (memory v) path 47 in
        if Strings.length currentComponent =? 0 then Ok (Some current, v)
        else
          let! '(nextIndex, (current, v)) := findChild current v currentComponent in
          if nextIndex =? SIZE_MAX then
            let! '(_, v) := close current v in Ok (None, v)
          else
            let! '(next, (current, v)) := openChild current v nextIndex false in
            let! '(_, v) := close current v in
            walk fuel v next (findNext (memory v) path 47)
    end
  else Ok (Some current, v).

(** [FileHandle(String path, bool writable)]; after a failure [node] is null
    and [open] false. *)
Definition FileHandle_open (v : Vfs) (path : Str) (w : bool) : outcome (FileHandle * Vfs) :=
  let! '(current, v) := FileHandle_of v Root false in
  let! '(r, v) := walk (Z.to_nat (Strings.length path)) v current path in
  match r with
  | None => Ok (mkFileHandle None w false NOT_FOUND, v)
  | Some current =>
      let! p := handleNode current in
      let! '(_, v) := close current v in
      let! v := acquireNode v p in
      let! n := loadNode v p in
      let! v := storeNode v p (set_openCount n (u64 (openCount n + 1))) in
      let! v := releaseNode v p in
      Ok (mkFileHandle (Some p) w true OKAY, v)
  end.

(** ** Loading and storing nodes *)

(** Storing at a valid pointer. *)
Lemma storeNode_spec v p n n' :
  loadNode v p = Ok n ->
  exists v', storeNode v p n' = Ok v' /\ loadNode v' p = Ok n' /\ memory v' = memory v /\
    forall n'', storeNode v' p n'' = storeNode v p n''.
Proof.
  destruct p as [|a i]; cbn; [intros _; eexists; by split|].
  intros (Hi & l & Hl & Hn)%loadElement_inv.
  assert (Hlt : (Z.to_nat i < base.length l)%nat) by by eapply lookup_lt_Some.
  pose proof (storeElement_ok (heap v) a (Z.to_nat i) l n' Hl Hlt) as E. rewrite Z2Nat.id in E by done.
  rewrite E. cbn [obind]. eexists. split; [done|]. cbn [heap memory root].
  split; [|split; [done|]].
  - pose proof (loadElement_ok (mkHeap (<[a := <[Z.to_nat i := n']> l]> (arrays (heap v))) (nextArray (heap v)))
      a (Z.to_nat i) (<[Z.to_nat i := n']> l) n') as E2. rewrite Z2Nat.id in E2 by done.
    apply E2; [apply lookup_insert_eq|by apply list_lookup_insert_eq].
  - intros n''. pose proof (storeElement_ok (heap v) a (Z.to_nat i) l n'' Hl Hlt) as E3.
    pose proof (storeElement_ok (mkHeap (<[a := <[Z.to_nat i := n']> l]> (arrays (heap v))) (nextArray (heap v)))
      a (Z.to_nat i) (<[Z.to_nat i := n']> l) n'' (lookup_insert_eq _ _ _)) as E4.
    rewrite length_insert in E4. specialize (E4 Hlt). rewrite Z2Nat.id in E3, E4 by done. rewrite E3, E4. cbn.
    by rewrite insert_insert_eq, list_insert_insert_eq.
Qed.

Lemma storeNode_id v p n : loadNode v p = Ok n -> storeNode v p n = Ok v.
Proof.
  destruct p as [|a i]; cbn; [intros [= <-]; by destruct v|].
  intros (Hi & l & Hl & Hn)%loadElement_inv.
  pose proof (storeElement_ok (heap v) a (Z.to_nat i) l n Hl ltac:(by eapply lookup_lt_Some)) as E.
  rewrite Z2Nat.id in E by done. rewrite E. cbn. rewrite list_insert_id, insert_id by done. by destruct v as [? [] ?].
Qed.

(** A node's lock taken and given back. *)
Lemma locked_section v p n :
  loadNode v p = Ok n -> lock n = false ->
  exists v1, acquireNode v p = Ok v1 /\ loadNode v1 p = Ok (set_lock n true) /\ releaseNode v1 p = Ok v /\ memory v1 = memory v.
Proof.
  intros Hn Hl. unfold acquireNode. rewrite Hn. cbn [obind]. rewrite Hl.
  destruct (storeNode_spec v p n (set_lock n true) Hn) as (v1 & E & E1 & Em & E2). exists v1.
  split; [done|]. split; [done|]. split; [|done]. unfold releaseNode. rewrite E1. cbn [obind]. rewrite E2.
  assert (set_lock (set_lock n true) false = n) as -> by (destruct n; cbn in *; by subst). by apply storeNode_id.
Qed.

(** Changing the open count under the lock. *)
Lemma counted_section v p n c :
  loadNode v p = Ok n -> lock n = false ->
  exists v', (let! v := acquireNode v p in
     let! m := loadNode v p in
     let! v := storeNode v p (set_openCount m (c (openCount m))) in releaseNode v p) = Ok v' /\
    storeNode v p (set_openCount n (c (openCount n))) = Ok v' /\
    loadNode v' p = Ok (set_openCount n (c (openCount n))) /\ memory v' = memory v.
Proof.
  intros Hn Hl. unfold acquireNode. rewrite Hn. cbn [obind]. rewrite Hl.
  destruct (storeNode_spec v p n (set_lock n true) Hn) as (v1 & -> & E1 & Em1 & E2). cbn [obind]. rewrite E1. cbn [obind].
  destruct (storeNode_spec v1 p _ (set_openCount (set_lock n true) (c (openCount n))) E1) as (v2 & E3 & E4 & Em2 & E5).
  change (openCount (set_lock n true)) with (openCount n). rewrite E3. cbn [obind]. unfold releaseNode. rewrite E4. cbn [obind].
  rewrite E5, E2. assert (set_lock (set_openCount (set_lock n true) (c (openCount n))) false = set_openCount n (c (openCount n))) as ->
    by (destruct n; cbn in *; by subst).
  destruct (storeNode_spec v p n (set_openCount n (c (openCount n))) Hn) as (v3 & -> & E6 & Em3 & _). exists v3.
  split; [done|]. split; [done|]. by split.
Qed.

(** ** Properties *)

(** [C33] The file-handle operations on a node of the wrong kind, without the
    permission, on a handle that was never opened, and after [close]: the
    documented error is set, the documented default returned, and the file
    system is as before (no lock stays taken). After [close], though, the
    operations fault on the null node instead of doing nothing, because [close]
    leaves [open] set; only [write] and [mount] through a handle without write
    permission return, with READ_ONLY. *)
Theorem handle_errors v h p n :
  h_node h = Some p -> loadNode v p = Ok n -> lock n = false -> open h = true ->
  getType h v = Ok (type n, v) /\
  (type n <> FILE -> forall o l b, read h v o l b = Ok (0, (set_error h NOT_FILE, v)) /\
     (writable h = true -> write h v o l b = Ok (0, (set_error h NOT_FILE, v)))) /\
  (type n <> DIRECTORY -> (forall i, childName h v i = Ok (Str_null, (set_error h NOT_DIRECTORY, v))) /\
     (forall i w, openChild h v i w = Ok (FileHandle_empty, (set_error h NOT_DIRECTORY, v))) /\
     (forall s, findChild h v s = Ok (SIZE_MAX, (set_error h NOT_DIRECTORY, v))) /\
     (forall fs, writable h = true -> mount h v fs = Ok (set_error h NOT_DIRECTORY, v))) /\
  (writable h = false -> (forall fs, mount h v fs = Ok (set_error h READ_ONLY, v)) /\
     (forall o l b, write h v o l b = Ok (0, (set_error h READ_ONLY, v)))) /\
  (type n = DIRECTORY -> writable h = true -> (getSize (children n) <> 0 \/ openCount n <> 1) ->
     forall fs, mount h v fs = Ok (set_error h BUSY, v)) /\
  (exists h' v', close h v = Ok (h', v') /\ error h' = CLOSED /\
     storeNode v p (set_openCount n (u64 (openCount n - 1))) = Ok v' /\
     getType h' v' = Fault /\ close h' v' = Fault /\ (forall o l b, read h' v' o l b = Fault) /\
     (forall i, childName h' v' i = Fault) /\ (forall i w, openChild h' v' i w = Fault) /\ (forall s, findChild h' v' s = Fault) /\
     (forall o l b, write h' v' o l b = if writable h then Fault else Ok (0, (set_error h' READ_ONLY, v'))) /\
     (forall fs, mount h' v' fs = if writable h then Fault else Ok (set_error h' READ_ONLY, v'))) /\
  (forall e, let c := mkFileHandle None false false e in
     getType c v = Ok (NONE, v) /\ close c v = Ok (c, v) /\
     (forall o l b, read c v o l b = Ok (0, (c, v)) /\ write c v o l b = Ok (0, (set_error c READ_ONLY, v))) /\
     (forall i w, childName c v i = Ok (Str_null, (c, v)) /\ openChild c v i w = Ok (FileHandle_empty, (c, v))) /\
     (forall s, findChild c v s = Ok (SIZE_MAX, (c, v))) /\ (forall fs, mount c v fs = Ok (c, v))).
Proof.
  intros Hp Hn Hl Ho. destruct (locked_section v p n Hn Hl) as (v1 & E1 & E2 & E3 & _).
  assert (Hh : handleNode h = Ok p) by (unfold handleNode; by rewrite Hp).
  repeat split; intros.
  - unfold getType. rewrite Ho, Hh. cbn [obind]. rewrite E1. cbn [obind]. rewrite E2. cbn [obind]. by rewrite E3.
  - unfold read. rewrite Ho, Hh. cbn [obind]. rewrite E1. cbn [obind]. rewrite E2. cbn [obind].
    rewrite bool_decide_eq_false_2 by done. by rewrite E3.
  - unfold write. rewrite Ho, Hh. rewrite H0. cbn [obind andb]. rewrite E1. cbn [obind].
    rewrite E2. cbn [obind]. rewrite bool_decide_eq_false_2 by done. by rewrite E3.
  - unfold childName. rewrite Ho, Hh. cbn [obind]. rewrite E1. cbn [obind]. rewrite E2. cbn [obind].
    rewrite bool_decide_eq_false_2 by done. by rewrite E3.
  - unfold openChild. rewrite Ho, Hh. cbn [obind]. rewrite E1. cbn [obind]. rewrite E2. cbn [obind].
    rewrite bool_decide_eq_false_2 by done. by rewrite E3.
  - unfold findChild. rewrite Ho, Hh. cbn [obind]. rewrite E1. cbn [obind]. rewrite E2. cbn [obind].
    rewrite bool_decide_eq_false_2 by done. by rewrite E3.
  - unfold mount. rewrite Ho, Hh. rewrite H0. cbn [obind]. rewrite E1. cbn [obind]. rewrite E2. cbn [obind].
    rewrite bool_decide_eq_false_2 by done. by rewrite E3.
  - unfold mount. by rewrite Ho, H.
  - unfold write. by rewrite Ho, H.
  - unfold mount. rewrite Ho, Hh. rewrite H0. cbn [obind]. rewrite E1. cbn [obind]. rewrite E2. cbn [obind].
    rewrite bool_decide_eq_true_2 by done. cbn [children set_lock openCount].
    destruct (Z.eqb_spec (getSize (children n)) 0), (Z.eqb_spec (openCount n) 1); cbn [andb]; try (by rewrite E3). tauto.
  - destruct (counted_section v p n (fun c => u64 (c - 1)) Hn Hl) as (v' & E4 & E5 & _).
    exists (mkFileHandle None (writable h) (open h) CLOSED), v'.
    assert (Ec : close h v = Ok (mkFileHandle None (writable h) (open h) CLOSED, v')).
    { unfold close. rewrite Ho, Hh. cbn [obind]. destruct (acquireNode v p) as [va| | |]; try done. cbn [obind] in *.
      destruct (loadNode va p) as [na| | |]; try done. cbn [obind] in *.
      destruct (storeNode va p _) as [vb| | |]; try done. cbn [obind] in *. by rewrite E4. }
    split; [exact Ec|]. split; [done|]. split; [exact E5|].
    unfold getType, close, read, write, mount, childName, openChild, findChild. cbn [open h_node handleNode writable]. rewrite Ho.
    repeat (split; [done|]). by destruct (writable h).
Qed.
End Handles.

Definition aVfs : Vfs := mkVfs (mkFileNode Str_null DIRECTORY 1 Vector_init 0 false 0 false) (mkHeap ∅ 1) (fun _ => 0).

Lemma handle_errors_witness :
  read (fun _ => None) (mkFileHandle (Some Root) false true OKAY) aVfs 0 5 0
    = Ok (0, (mkFileHandle (Some Root) false true NOT_FILE, aVfs)).
Proof.
  destruct (handle_errors (fun _ => None) aVfs (mkFileHandle (Some Root) false true OKAY) Root (root aVfs)) as (_ & H & _).
  - reflexivity.
  - reflexivity.
  - reflexivity.
  - reflexivity.
  - destruct (H ltac:(discriminate) 0 5 0) as [E _]. exact E.
Defined.
