(* ===== verification/Initramfs.v ===== *)
(** * The initial RAM file system ([initramfs.cpp], [initramfs.h])

    A read-only file system over a tar archive in memory: the constructor
    parses the headers into a vector of entries, [read] copies out of the
    archive and [populateDirectory] turns entries into children of a node. It
    is an instance of [Vfs.FsProvider]. *)

From Stdlib Require Import ZArith Lia.
From stdpp Require Import base tactics numbers gmap list.
From S2P Require Import Prelude Strings Vector Vfs.

Open Scope Z_scope.

(** Comparison with a string literal. *)
Fixpoint memeqLiteral (m : Memory) (a : Z) (l : list Z) : bool :=
  match l with
  | [] => true
  | b :: l => (m a =? b) && memeqLiteral m (a + 1) l
  end.

Fixpoint parseOctal_loop (n : nat) (m : Memory) (str result : Z) : Z :=
  match n with
  | O => result
  | S n => parseOctal_loop n m (str + 1) (u32 (u32 (result * 8) + (toChar (m str) - 48)))
  end.

Definition parseOctal (m : Memory) (str length : Z) : Z := parseOctal_loop (Z.to_nat length) m str 0.

Definition SIGNATURE_OFFSET : Z := 257.
(** ["ustar"]. *)
Definition SIGNATURE : list Z := [117; 115; 116; 97; 114].
Definition TYPE_OFFSET : Z := 156.
Definition TYPE_FILE : Z := 48.
Definition TYPE_DIRECTORY : Z := 53.
Definition SIZE_OFFSET : Z := 124.
Definition SIZE_LENGTH : Z := 11.

Record InitramfsEntry := mkEntry { e_name : Str; e_type : FileType; e_data : Z; e_size : Z }.

Definition Entry_default : InitramfsEntry := mkEntry Str_null NONE 0 0.

(** The provider: its entries and the heap they are in. Nothing is added after
    the constructor, so the address of entry [i] does not change: the model
    numbers it [i + 1], and null is 0. *)
Record InitramfsFsProvider := mkInitramfs { entries : Vector; eheap : Heap (T := InitramfsEntry) }.

Definition entryAddress (i : Z) : Z := i + 1.
Definition entryAt (fs : InitramfsFsProvider) (p : Z) : outcome InitramfsEntry :=
  loadElement (eheap fs) (data (entries fs)) (p - 1).

Section Initramfs.
(** [kmallocFits]: see [Vector]; [chars] bounds the length of a name. *)
Context (kmallocFits : Z -> bool) (chars : nat).

Definition fileTypeOf (c : Z) : FileType :=
  if c =? TYPE_FILE then FILE else if c =? TYPE_DIRECTORY then DIRECTORY else NONE.

(** [if (name[name.len() - 1] == '/') name = name.subString(0, name.len() - 1)]. *)
Definition dropSlash (m : Memory) (name : Str) : Str :=
  if Str_index m name (u64 (length name - 1)) =? 47 then subString name 0 (length name - 1) else name.

(** The constructor's loop; [fuel] bounds the number of headers. *)
Fixpoint parse_loop (fuel : nat) (m : Memory) (initramfsPointer : Z) (fs : InitramfsFsProvider) : outcome InitramfsFsProvider :=
  if memeqLiteral m (initramfsPointer + SIGNATURE_OFFSET) SIGNATURE then
    match fuel with
    | O => Hang
    | S fuel =>
        let fileType := fileTypeOf (m (initramfsPointer + TYPE_OFFSET)) in
        let size := parseOctal m (initramfsPointer + SIZE_OFFSET) SIZE_LENGTH in
        let! fs :=
          (if negb (bool_decide (fileType = NONE)) then
             let! name := Str_of chars m initramfsPointer in
             let name := dropSlash m name in
             let data := initramfsPointer + 512 in
             let! '(v, h) := push_back Entry_default kmallocFits (eheap fs) (entries fs) (mkEntry name fileType data size) in
             Ok (mkInitramfs v h)
           else Ok fs) in
        parse_loop fuel m (initramfsPointer + ((size + 511) / 512 * 512 + 512)) fs
    end
  else Ok fs.

Definition InitramfsFsProvider_new (fuel : nat) (m : Memory) (pointer : Z) : outcome InitramfsFsProvider :=
  parse_loop fuel m pointer (mkInitramfs Vector_init (mkHeap ∅ 1)).

Section Methods.
Context (self : Z) (fs : InitramfsFsProvider).

Definition Initramfs_read (v : Vfs) (p : NodePtr) (offset length buffer : Z) : outcome (Z * Vfs) :=
  let! n := loadNode v p in
  let! entry := entryAt fs (node n) in
  if offset <? e_size entry then
    let length := Z.min (e_size entry - offset) length in
    Ok (length, mkVfs (root v) (heap v) (memcpy (memory v) buffer (e_data entry + offset) length))
  else Ok (0, v).

Definition freeNode (v : Vfs) (p : NodePtr) : outcome Vfs :=
  let! n := loadNode v p in storeNode v p (set_node n 0).

(** [directory.children.push_back(child)]. *)
Definition addChild (v : Vfs) (p : NodePtr) (child : FileNode) : outcome Vfs :=
  let! d := loadNode v p in
  let! '(c, h) := push_back FileNode_zero kmallocFits (heap v) (children d) child in
  storeNode (mkVfs (root v) h (memory v)) p (set_children d c).

(** The base name of an entry below a directory, if it is to be listed. *)
Definition childBase (m : Memory) (dirName name : Str) : option Str :=
  if startsWith m name dirName then
    let baseName := subStringFrom name (length dirName) in
    let baseName := if Str_index m baseName 0 =? 47 then subStringFrom baseName 1 else baseName in
    if (0 <? length baseName) && Str_isNull (findNext m baseName 47) then Some baseName else None
  else None.

Definition newChild (baseName : Str) (entryPointer : Z) (entry : InitramfsEntry) : FileNode :=
  mkFileNode baseName (e_type entry) 0 Vector_init entryPointer false self false.

Fixpoint populate_loop (n : nat) (v : Vfs) (p : NodePtr) (directoryEntry : InitramfsEntry) (i : Z) : outcome Vfs :=
  match n with
  | O => Ok v
  | S n =>
      let entryPointer := entryAddress i in
      let! entry := entryAt fs entryPointer in
      let! v :=
        (match childBase (memory v) (e_name directoryEntry) (e_name entry) with
         | Some baseName => addChild v p (newChild baseName entryPointer entry)
         | None => Ok v
         end) in
      populate_loop n v p directoryEntry (i + 1)
  end.

Definition Initramfs_populateDirectory (v : Vfs) (p : NodePtr) : outcome Vfs :=
  let! d := loadNode v p in
  let! directoryEntry := entryAt fs (node d) in
  populate_loop (Z.to_nat (getSize (entries fs))) v p directoryEntry 0.

(** [root.node = entries[0]]: null when there are no entries. *)
Definition Initramfs_initRoot (v : Vfs) (p : NodePtr) : outcome Vfs :=
  let! n := loadNode v p in
  storeNode v p (set_node n (match Vector_index (entries fs) 0 with Some i => entryAddress i | None => 0 end)).

#[export] Instance Initramfs : FsProvider := {
  fs_read := Initramfs_read;
  fs_write := FsProvider_write;
  fs_populateDirectory := Initramfs_populateDirectory;
  fs_initRoot := Initramfs_initRoot;
  fs_freeNode := freeNode
}.
End Methods.

(** ** Specifications *)

(** The [n] octal digits of a number, as a tar header has them. *)
Fixpoint octalDigits (n : nat) (x : Z) : list Z :=
  match n with
  | O => []
  | S n => octalDigits n (x / 8) ++ [48 + x mod 8]
  end.

(** A member of an archive: its path, type flag and size. *)
Record Member := mkMember { m_name : list Z; m_type : Z; m_size : Z }.

(** The header of a member is at [p]. *)
Record isHeader (m : Memory) (p : Z) (x : Member) : Prop := {
  ih_signature : memeqLiteral m (p + SIGNATURE_OFFSET) SIGNATURE = true;
  ih_name : bytesAt m p (Z.of_nat (List.length (m_name x))) = m_name x;
  ih_end : m (p + Z.of_nat (List.length (m_name x))) = 0;
  ih_chars : Forall (fun c => c <> 0) (m_name x) /\ (List.length (m_name x) < chars)%nat;
  ih_type : m (p + TYPE_OFFSET) = m_type x;
  ih_size : bytesAt m (p + SIZE_OFFSET) SIZE_LENGTH = octalDigits 11 (m_size x) /\ 0 <= m_size x < 2 ^ 32
}.

(** The bytes from one header to the next. *)
Definition memberLength (x : Member) : Z := (m_size x + 511) / 512 * 512 + 512.

Fixpoint isArchive (m : Memory) (p : Z) (l : list Member) : Prop :=
  match l with
  | [] => memeqLiteral m (p + SIGNATURE_OFFSET) SIGNATURE = false
  | x :: l => isHeader m p x /\ isArchive m (p + memberLength x) l
  end.

(** A path without a trailing slash. *)
Definition stripSlash (l : list Z) : list Z := if bool_decide (last l = Some 47) then removelast l else l.

(** The entries of an archive at [p]: path, type, data address and size of the
    files and directories. *)
Fixpoint archiveEntries (p : Z) (l : list Member) : list (list Z * FileType * Z * Z) :=
  match l with
  | [] => []
  | x :: l =>
      (if bool_decide (fileTypeOf (m_type x) = NONE) then []
       else [(stripSlash (m_name x), fileTypeOf (m_type x), p + 512, m_size x)])
      ++ archiveEntries (p + memberLength x) l
  end.

Definition entryView (m : Memory) (e : InitramfsEntry) : list Z * FileType * Z * Z :=
  (contents m (e_name e), e_type e, e_data e, e_size e).

(** The name under which a path is listed in a directory: what is left after
    the directory's path and one slash, if it has no further slash after its
    first character. *)
Fixpoint stripPrefix (dir path : list Z) : option (list Z) :=
  match dir, path with
  | [], _ => Some path
  | d :: dir, c :: path => if d =? c then stripPrefix dir path else None
  | _ :: _, [] => None
  end.

Definition listedName (dir path : list Z) : option (list Z) :=
  match stripPrefix dir path with
  | None => None
  | Some rest =>
      match (match rest with 47 :: r => r | _ => rest end) with
      | [] => None
      | c :: t => if bool_decide (47 ∈ t) then None else Some (c :: t)
      end
  end.

(** ** Parsing *)

Lemma memeqLiteral_spec l : forall m a,
  memeqLiteral m a l = true <-> bytesAt m a (Z.of_nat (List.length l)) = l.
Proof.
  induction l as [|b l IH]; intros m a; cbn [memeqLiteral List.length]; [done|].
  replace (Z.of_nat (S (List.length l))) with (1 + Z.of_nat (List.length l)) by lia.
  rewrite bytesAt_app, bytesAt_1 by lia. cbn [app].
  rewrite andb_true_iff, Z.eqb_eq, IH. split; [by intros [-> ->]|by intros [= -> ->]].
Qed.


Lemma parseOctal_fold n : forall m p r,
  parseOctal_loop n m p r
  = fold_left (fun r c => u32 (u32 (r * 8) + (toChar c - 48))) (bytesAt m p (Z.of_nat n)) r.
Proof.
  induction n as [|n IH]; intros m p r; [done|]. rewrite bytesAt_S. cbn [parseOctal_loop fold_left]. apply IH.
Qed.

Lemma octal_fold n : forall x,
  0 <= x < 8 ^ Z.of_nat n -> x < 2 ^ 32 ->
  fold_left (fun r c => u32 (u32 (r * 8) + (toChar c - 48))) (octalDigits n x) 0 = x.
Proof.
  induction n as [|n IH]; intros x Hx Hb.
  - cbn in *. lia.
  - cbn [octalDigits]. rewrite fold_left_app. change (2 ^ 32) with 4294967296 in *.
    replace (Z.of_nat (S n)) with (Z.of_nat n + 1) in Hx by lia. rewrite Z.pow_add_r in Hx by lia.
    change (8 ^ 1) with 8 in Hx. rewrite IH; [|split; [dlia|apply Z.div_lt_upper_bound; lia]|dlia].
    cbn [fold_left]. unfold toChar.
    assert (0 <= x mod 8 < 8) by dlia. rewrite (proj2 (Z.ltb_lt _ 128)) by lia.
    rewrite (u32_small (x / 8 * 8)) by dlia. rewrite u32_small by dlia. dlia.
Qed.

Lemma parseOctal_spec m p x :
  bytesAt m p SIZE_LENGTH = octalDigits 11 x -> 0 <= x < 2 ^ 32 -> parseOctal m p SIZE_LENGTH = x.
Proof.
  intros H Hx. unfold parseOctal. rewrite parseOctal_fold, Z2Nat.id by done. rewrite H.
  apply octal_fold; [|lia]. change (8 ^ Z.of_nat 11) with 8589934592. change (2 ^ 32) with 4294967296 in Hx. lia.
Qed.

(** The name in a header. *)
Lemma headerName_spec m p x :
  isHeader m p x -> Str_of chars m p = Ok (mkStr p (Z.of_nat (List.length (m_name x)))).
Proof.
  intros [_ Hn He [Hc Hl] _ _]. unfold Str_of, strlen.
  rewrite (strlen_loop_spec (List.length (m_name x))); [done|done|done|].
  intros j Hj Hz. assert (Hx : m_name x !! Z.to_nat j = Some (m (p + j))).
  { rewrite <- Hn, bytesAt_lookup, Z2Nat.id by lia. by rewrite (proj2 (Z.ltb_lt _ _)) by lia. }
  rewrite Forall_lookup in Hc. by apply (Hc _ _ Hx).
Qed.

Lemma removelast_bytes m p n : removelast (bytesAt m p (Z.of_nat (S n))) = bytesAt m p (Z.of_nat n).
Proof.
  replace (Z.of_nat (S n)) with (Z.of_nat n + 1) by lia. rewrite bytesAt_app, bytesAt_1 by lia.
  apply removelast_last.
Qed.

Lemma last_bytes m p n : last (bytesAt m p (Z.of_nat (S n))) = Some (m (p + Z.of_nat n)).
Proof.
  replace (Z.of_nat (S n)) with (Z.of_nat n + 1) by lia. rewrite bytesAt_app, bytesAt_1 by lia.
  apply last_snoc.
Qed.

Lemma dropSlash_spec m p n :
  Z.of_nat n < 2 ^ 60 ->
  contents m (dropSlash m (mkStr p (Z.of_nat n))) = stripSlash (bytesAt m p (Z.of_nat n)).
Proof.
  change (2 ^ 60) with 1152921504606846976. intros Hn. unfold dropSlash, Str_index, stripSlash. cbn [length cString].
  destruct n as [|n]; [done|]. rewrite u64_small by lia. rewrite (proj2 (Z.ltb_lt _ _)) by lia.
  replace (p + (Z.of_nat (S n) - 1)) with (p + Z.of_nat n) by lia.
  rewrite last_bytes. destruct (Z.eqb_spec (m (p + Z.of_nat n)) 47) as [E|E].
  - rewrite bool_decide_eq_true_2 by (by rewrite E). rewrite removelast_bytes. unfold subString. cbn [length cString].
    rewrite (proj2 (Z.ltb_ge (Z.of_nat (S n)) 0)), (proj2 (Z.ltb_ge (Z.of_nat (S n) - 1) 0)) by lia. cbn [orb].
    rewrite (proj2 (Z.ltb_ge (Z.of_nat (S n)) _)) by lia. unfold contents. cbn [length cString].
    rewrite Z.add_0_r. f_equal. lia.
  - by rewrite bool_decide_eq_false_2 by (by intros [= ?]).
Qed.

Lemma memberLength_loop m p x :
  isHeader m p x ->
  p + ((parseOctal m (p + SIZE_OFFSET) SIZE_LENGTH + 511) / 512 * 512 + 512) = p + memberLength x.
Proof. intros [_ _ _ _ _ [Hs Hr]]. by rewrite (parseOctal_spec _ _ _ Hs Hr). Qed.

Lemma archiveEntries_length l : forall p, (List.length (archiveEntries p l) <= List.length l)%nat.
Proof.
  induction l as [|x l IH]; intros p; cbn [archiveEntries List.length]; [done|]. rewrite length_app.
  specialize (IH (p + memberLength x)). case_bool_decide; cbn [List.length]; lia.
Qed.

Lemma parse_loop_spec l : forall fuel m p fs es,
  (forall n, kmallocFits n = true) -> Z.of_nat chars < 2 ^ 60 ->
  isArchive m p l -> (List.length l <= fuel)%nat ->
  represents ∅ (eheap fs) (entries fs) es -> Z.of_nat (List.length es + List.length l) < 2 ^ 60 ->
  exists fs' new, parse_loop fuel m p fs = Ok fs' /\ represents ∅ (eheap fs') (entries fs') (es ++ new) /\
    entryView m <$> new = archiveEntries p l.
Proof.
  induction l as [|x l IH]; intros fuel m p fs es Hk Hchars Ha Hf Hr Hb; cbn [isArchive List.length] in *.
  - exists fs, []. destruct fuel; cbn [parse_loop]; rewrite Ha, app_nil_r; done.
  - destruct Ha as [Hx Ha]. destruct fuel as [|fuel]; [lia|]. cbn [parse_loop].
    pose proof Hx as [-> _ _ [_ Hc] -> [Hs Hrg]]. rewrite (parseOctal_spec _ _ _ Hs Hrg). cbn [archiveEntries].
    change ((m_size x + 511) / 512 * 512 + 512) with (memberLength x).
    destruct (bool_decide (fileTypeOf (m_type x) = NONE)) eqn:Et; cbn [negb].
    + cbn [obind app]. apply IH; done || lia.
    + rewrite (headerName_spec _ _ _ Hx). cbn [obind].
      edestruct (push_back_spec Entry_default kmallocFits ∅ (eheap fs) (entries fs) es) as (v' & h' & E & Hr');
        [done|done|lia|]. rewrite E. cbn [obind].
      destruct (IH fuel m (p + memberLength x) (mkInitramfs v' h') _ Hk Hchars Ha ltac:(lia) Hr') as (fs' & new & E' & Hr2 & Hv).
      { rewrite length_app. cbn. lia. }
      rewrite E'. eexists fs', (_ :: new). split; [done|]. split; [by rewrite <- app_assoc in Hr2|].
      rewrite fmap_cons, Hv. cbn [app]. f_equal. unfold entryView. cbn [e_name e_type e_data e_size].
      rewrite dropSlash_spec by lia. by rewrite (ih_name _ _ _ Hx).
Qed.

(** ** Listing a directory *)

Lemma stripPrefix_spec dir : forall path,
  stripPrefix dir path = (if bool_decide (firstn (List.length dir) path = dir) then Some (skipn (List.length dir) path) else None).
Proof.
  induction dir as [|d dir IH]; intros path; [done|]. destruct path as [|c path]; [done|].
  cbn [stripPrefix List.length firstn skipn]. destruct (Z.eqb_spec d c) as [->|Hne].
  - rewrite IH. do 2 case_bool_decide; congruence.
  - rewrite bool_decide_eq_false_2; [done|congruence].
Qed.

Lemma findNext_null m s : validStr s -> 0 < length s ->
  Str_isNull (findNext m s 47) = bool_decide (47 ∉ tail (contents m s)).
Proof.
  intros [Hp Hl] Hn. unfold findNext, memchr. rewrite (proj2 (Z.eqb_neq _ _)) by lia.
  assert (Ht : tail (contents m s) = bytesAt m (cString s + 1) (length s - 1)).
  { unfold contents. replace (length s) with (1 + (length s - 1)) at 1 by lia. by rewrite bytesAt_app, bytesAt_1 by lia. }
  rewrite Ht. pose proof (memchr_loop_spec (Z.to_nat (length s - 1)) m (cString s + 1) 47) as H.
  destruct (memchr_loop _ _ _ _) as [q|].
  - destruct H as (Hq & Hm & _). unfold Str_isNull. cbn [cString]. rewrite (proj2 (Z.eqb_neq _ _)) by lia.
    symmetry. apply bool_decide_eq_false_2. intros Hni. apply Hni.
    apply (list_elem_of_lookup_2 _ (Z.to_nat (q - (cString s + 1)))). rewrite bytesAt_lookup, Z2Nat.id by lia.
    rewrite (proj2 (Z.ltb_lt _ _)) by lia. f_equal. rewrite <- Hm. f_equal. lia.
  - symmetry. apply bool_decide_eq_true_2. intros (i & Hi)%list_elem_of_lookup. rewrite bytesAt_lookup in Hi.
    destruct (Z.ltb_spec (Z.of_nat i) (length s - 1)); [|done]. injection Hi as Hi. revert Hi. apply H. lia.
Qed.

(** [childBase] computes [listedName] of the contents. *)
Lemma childBase_spec m dir nm : validStr dir -> validStr nm ->
  contents m <$> childBase m dir nm = listedName (contents m dir) (contents m nm).
Proof.
  intros Hd Hn. unfold childBase, listedName. rewrite stripPrefix_spec.
  pose proof (contents_length m dir (proj2 Hd)) as Ld. pose proof (contents_length m nm (proj2 Hn)) as Ln.
  unfold startsWith. destruct (Z.leb_spec (length dir) (length nm)) as [Hle|Hgt].
  2:{ rewrite bool_decide_eq_false_2; [done|]. intros E. apply (f_equal List.length) in E. rewrite length_take in E. lia. }
  replace (List.length (contents m dir)) with (Z.to_nat (length dir)) by lia.
  assert (Ht : firstn (Z.to_nat (length dir)) (contents m nm) = bytesAt m (cString nm) (length dir)).
  { apply bytesAt_take. destruct Hd. lia. }
  rewrite Ht. destruct (memeq m (cString nm) (cString dir) (length dir)) eqn:E.
  - apply memeq_spec in E; [|apply Hd]. rewrite bool_decide_eq_true_2 by exact E.
    destruct (subStringFrom_spec m nm (length dir) Hn ltac:(destruct Hd; lia)) as [Hv Hc]. rewrite <- Hc.
    set (b := subStringFrom nm (length dir)) in *.
    assert (Hb : exists b', (if Str_index m b 0 =? 47 then subStringFrom b 1 else b) = b' /\ validStr b' /\
      contents m b' = match contents m b with 47 :: r => r | _ => contents m b end).
    { unfold Str_index. destruct (Z.ltb_spec 0 (length b)) as [Hpos|Hz].
      - assert (Hcb : contents m b = m (cString b + 0) :: tail (contents m b)).
        { unfold contents. replace (length b) with (1 + (length b - 1)) by lia.
          by rewrite bytesAt_app, bytesAt_1, Z.add_0_r by lia. }
        destruct (Z.eqb_spec (m (cString b + 0)) 47) as [E1|E1].
        + eexists. split; [done|]. destruct (subStringFrom_spec m b 1 Hv ltac:(lia)) as [Hv1 Hc1].
          split; [done|]. rewrite Hc1, Hcb, E1. done.
        + exists b. split; [done|]. split; [done|]. rewrite Hcb.
          clear -E1. generalize dependent (m (cString b + 0)). intros z Hz.
          repeat (case_match; try done).
      - exists b. split; [done|]. split; [done|]. unfold contents.
        destruct Hv as [_ Hv]. replace (length b) with 0 by lia. done. }
    destruct Hb as (b' & -> & Hv' & Hc'). rewrite <- Hc'. clear Hc'.
    destruct (Z.ltb_spec 0 (length b')) as [Hpos|Hz]; cbn [andb].
    + rewrite findNext_null by done.
      destruct (contents m b') as [|c t] eqn:Ec.
      { pose proof (contents_length m b' ltac:(apply Hv')) as L. rewrite Ec in L. cbn in L. lia. }
      cbn [tail]. do 2 case_bool_decide; try done. cbn. by rewrite Ec.
    + destruct (contents m b') as [|c t] eqn:Ec; [done|].
      pose proof (contents_length m b' ltac:(apply Hv')) as L. rewrite Ec in L. cbn in L. lia.
  - rewrite bool_decide_eq_false_2; [done|]. intros E2. apply memeq_spec in E2; [congruence|apply Hd].
Qed.

(** A directory node at [p] with the children [l]. *)
Definition directory (v : Vfs) (p : NodePtr) (d : FileNode) (l : list FileNode) : Prop :=
  loadNode v p = Ok d /\ exists others, represents others (heap v) (children d) l /\
  match p with Root => True | Child a i => 0 <= i /\ exists arr, others !! a = Some arr /\ arr !! Z.to_nat i = Some d end.

Lemma represents_modify {T} others (h : Heap (T := T)) v l a arr arr' :
  represents others h v l -> others !! a = Some arr -> List.length arr' = List.length arr ->
  represents (<[a := arr']> others) (mkHeap (<[a := arr']> (arrays h)) (nextArray h)) v l.
Proof.
  intros [[Hn Hwf] Hs Hf H0 Hd] Ha Hlen. constructor; [|done|done| |].
  - split; [done|]. cbn. intros q Hq. apply Hwf. destruct (decide (q = a)) as [->|Hne]; [|by rewrite lookup_insert_ne in Hq].
    destruct (decide (data v = 0)) as [Hz|Hz]; [destruct (H0 Hz) as [_ ->]; eauto|].
    destruct (Hd Hz) as (b & -> & Hb & _). rewrite lookup_insert_ne by congruence. eauto.
  - intros Hz. destruct (H0 Hz) as [? ->]. done.
  - intros Hz. destruct (Hd Hz) as (b & Hb & Hnone & Hl & Hj). exists b. cbn. rewrite Hb.
    assert (a <> data v) by congruence. rewrite insert_insert_ne by done. split; [done|]. by rewrite lookup_insert_ne.
Qed.

Lemma addChild_spec v p d l c :
  (forall n, kmallocFits n = true) -> directory v p d l -> Z.of_nat (List.length l) < 2 ^ 60 ->
  exists v' cs, addChild v p c = Ok v' /\ directory v' p (set_children d cs) (l ++ [c]) /\ memory v' = memory v.
Proof.
  intros Hk (Hd & others & Hr & Hp) Hlen. unfold addChild. rewrite Hd. cbn [obind].
  destruct (push_back_spec FileNode_zero kmallocFits others (heap v) (children d) l c Hk Hr Hlen) as (cs & h' & E & Hr').
  rewrite E. cbn [obind]. destruct p as [|a i]; cbn [storeNode].
  - eexists _, cs. split; [done|]. split; [|done]. split; [done|]. exists others. done.
  - destruct Hp as (Hi & arr & Ha & Hx).
    assert (Hh : arrays h' !! a = Some arr).
    { destruct Hr' as [_ _ _ H0 Hz]. destruct (decide (data cs = 0)) as [Hzz|Hzz]; [by destruct (H0 Hzz) as [_ ->]|].
      destruct (Hz Hzz) as (b & -> & Hb & _). by rewrite lookup_insert_ne by congruence. }
    assert (Hlt : (Z.to_nat i < base.length arr)%nat) by (by eapply lookup_lt_Some).
    pose proof (storeElement_ok h' a (Z.to_nat i) arr (set_children d cs) Hh Hlt) as Es. rewrite Z2Nat.id in Es by done.
    cbn [heap]. rewrite Es. cbn [obind].
    eexists _, cs. split; [done|]. split; [|done]. split.
    + cbn [loadNode heap]. pose proof (loadElement_ok (mkHeap (<[a:=<[Z.to_nat i:=set_children d cs]> arr]> (arrays h')) (nextArray h'))
        a (Z.to_nat i) _ (set_children d cs) (lookup_insert_eq _ _ _) (list_lookup_insert_eq _ _ _ Hlt)) as El.
      by rewrite Z2Nat.id in El by done.
    + exists (<[a := <[Z.to_nat i := set_children d cs]> arr]> others). split.
      * cbn [heap children set_children]. eapply represents_modify; [exact Hr'|exact Ha|]. apply length_insert.
      * split; [done|]. eexists. rewrite lookup_insert_eq. split; [done|]. by apply list_lookup_insert_eq.
Qed.

(** The children [populateDirectory] adds for the entries [es], the first of
    which has number [i]. *)
Fixpoint newChildren (self : Z) (m : Memory) (dir : Str) (i : Z) (es : list InitramfsEntry) : list FileNode :=
  match es with
  | [] => []
  | e :: es =>
      (match childBase m dir (e_name e) with
       | Some b => [newChild self b (entryAddress i) e]
       | None => []
       end) ++ newChildren self m dir (i + 1) es
  end.

Lemma newChildren_length self m dir es : forall i, (List.length (newChildren self m dir i es) <= List.length es)%nat.
Proof.
  induction es as [|e es IH]; intros i; cbn [newChildren List.length]; [lia|]. rewrite length_app. specialize (IH (i + 1)).
  destruct (childBase _ _ _); cbn [List.length]; lia.
Qed.

Lemma entryAt_spec fs es i e :
  represents ∅ (eheap fs) (entries fs) es -> es !! i = Some e -> entryAt fs (entryAddress (Z.of_nat i)) = Ok e.
Proof.
  intros [_ Hs Hf H0 Hd] He. unfold entryAt, entryAddress. replace (Z.of_nat i + 1 - 1) with (Z.of_nat i) by lia.
  assert (Hlt : (i < base.length es)%nat) by (by eapply lookup_lt_Some).
  destruct (Hd ltac:(intros Hz; destruct (H0 Hz); lia)) as (a & Ha & _ & _ & Hj).
  apply (loadElement_ok _ _ _ a); [by rewrite Ha, lookup_insert_eq|]. by rewrite Hj.
Qed.

Lemma populate_loop_spec self fs es p de : 
  (forall n, kmallocFits n = true) -> represents ∅ (eheap fs) (entries fs) es ->
  forall rest i v d l, es = firstn i es ++ rest -> (i <= base.length es)%nat ->
  directory v p d l -> Z.of_nat (List.length l + List.length rest) < 2 ^ 60 ->
  exists v' cs, populate_loop self fs (List.length rest) v p de (Z.of_nat i) = Ok v' /\
    directory v' p (set_children d cs) (l ++ newChildren self (memory v) (e_name de) (Z.of_nat i) rest) /\ memory v' = memory v.
Proof.
  intros Hk Hes. induction rest as [|e rest IH]; intros i v d l Hsplit Hi Hdir Hb; cbn [populate_loop newChildren List.length].
  - exists v, (children d). rewrite app_nil_r. split; [done|]. split; [|done].
    by replace (set_children d (children d)) with d by (by destruct d).
  - assert (He : es !! i = Some e).
    { rewrite Hsplit, lookup_app_r; rewrite length_take; [|lia]. by replace (i - _)%nat with 0%nat by lia. }
    rewrite (entryAt_spec fs es i e Hes He). cbn [obind].
    assert (Hnext : es = firstn (S i) es ++ rest).
    { rewrite (take_S_r _ _ _ He), <- app_assoc. exact Hsplit. }
    assert (Hlt : (i < base.length es)%nat) by (by eapply lookup_lt_Some).
    replace (Z.of_nat i + 1) with (Z.of_nat (S i)) by lia.
    destruct (childBase (memory v) (e_name de) (e_name e)) as [b|]; cbn [obind app].
    + destruct (addChild_spec v p d l (newChild self b (entryAddress (Z.of_nat i)) e) Hk Hdir) as (v1 & cs1 & -> & Hd1 & Hm1).
      { cbn [List.length] in Hb. lia. }
      cbn [obind]. destruct (IH (S i) v1 _ _ Hnext ltac:(lia) Hd1) as (v2 & cs & E & Hd2 & Hm2).
      { rewrite length_app. cbn [List.length] in *. lia. }
      exists v2, cs. rewrite E, Hm1, <- app_assoc in *. cbn [app] in Hd2. split; [done|]. split; [exact Hd2|done].
    + apply IH; [done|lia|done|cbn [List.length] in Hb; lia].
Qed.

(** One call of [populateDirectory] on a directory whose entry has number [k]. *)
Lemma populateDirectory_run self fs es v p d l k de :
  (forall n, kmallocFits n = true) -> represents ∅ (eheap fs) (entries fs) es ->
  directory v p d l -> node d = entryAddress (Z.of_nat k) -> es !! k = Some de ->
  Z.of_nat (List.length l + List.length es) < 2 ^ 60 ->
  exists v' cs, Initramfs_populateDirectory self fs v p = Ok v' /\
    directory v' p (set_children d cs) (l ++ newChildren self (memory v) (e_name de) 0 es) /\ memory v' = memory v.
Proof.
  intros Hk Hes Hdir Hn Hde Hb. unfold Initramfs_populateDirectory. destruct Hdir as [Hl Ho] eqn:Edir. rewrite Hl. cbn [obind].
  rewrite Hn, (entryAt_spec _ _ _ _ Hes Hde). cbn [obind]. unfold getSize.
  rewrite (vr_size _ _ _ _ Hes), Nat2Z.id.
  exact (populate_loop_spec self fs es p de Hk Hes es 0 v d l eq_refl ltac:(lia) Hdir Hb).
Qed.

(** What a listing shows of a child: name, kind and entry number. *)
Definition childView (m : Memory) (c : FileNode) : list Z * FileType * Z := (contents m (name c), type c, node c).

Lemma newChildren_spec self m dir es : forall i,
  validStr dir -> Forall (fun e => validStr (e_name e)) es ->
  childView m <$> newChildren self m dir i es
  = omap (fun x => match listedName (contents m dir) (contents m (e_name (snd x))) with
                   | Some b => Some (b, e_type (snd x), entryAddress (fst x))
                   | None => None
                   end) (zip (seqZ i (Z.of_nat (List.length es))) es).
Proof.
  induction es as [|e es IH]; intros i Hd He; cbn [newChildren List.length]; [by rewrite seqZ_nil by lia|].
  rewrite Forall_cons in He. destruct He as [H1 H2].
  rewrite seqZ_cons by lia. replace (Z.pred (Z.of_nat (S (base.length es)))) with (Z.of_nat (base.length es)) by lia.
  cbn [zip zip_with omap list_omap fst snd]. rewrite <- (childBase_spec m dir (e_name e) Hd H1).
  rewrite fmap_app, IH by done. replace (Z.succ i) with (i + 1) by lia.
  by destruct (childBase m dir (e_name e)).
Qed.

(** ** Properties *)

(** [C29] Parsing is the inverse of the tar layout: for an archive of any
    members, headers read as ustar with eleven octal size digits, the
    constructor returns after at most one step per member and holds exactly
    the files and directories, in archive order, with their paths (without a
    trailing slash), data addresses and sizes; other members are skipped. *)
Theorem archive_parsed m p l fuel :
  (forall n, kmallocFits n = true) -> Z.of_nat chars < 2 ^ 60 ->
  isArchive m p l -> (List.length l <= fuel)%nat -> Z.of_nat (List.length l) < 2 ^ 60 ->
  exists fs es, InitramfsFsProvider_new fuel m p = Ok fs /\ represents ∅ (eheap fs) (entries fs) es /\
    entryView m <$> es = archiveEntries p l.
Proof.
  intros Hk Hc Ha Hf Hb. unfold InitramfsFsProvider_new.
  destruct (parse_loop_spec l fuel m p (mkInitramfs Vector_init (mkHeap ∅ 1)) [] Hk Hc Ha Hf represents_init Hb) as (fs & es & E & Hr & Hv).
  by exists fs, es.
Qed.

(** [populateDirectory] appends to the directory's children one node for
    each entry whose path is the directory's path followed by an optional
    slash and a name without further slashes, in archive order, and changes
    nothing else of the directory. Since the directory is still not marked
    populated, the next operation on it appends all of them again. *)
Theorem populateDirectory_lists self fs es v p d l k de :
  (forall n, kmallocFits n = true) -> represents ∅ (eheap fs) (entries fs) es ->
  directory v p d l -> node d = entryAddress (Z.of_nat k) -> es !! k = Some de ->
  validStr (e_name de) -> Forall (fun e => validStr (e_name e)) es ->
  Z.of_nat (List.length l + List.length es + List.length es) < 2 ^ 60 ->
  let m := memory v in
  exists new v1 v2 c1 c2,
    childView m <$> new = omap (fun x =>
        match listedName (contents m (e_name de)) (contents m (e_name (snd x))) with
        | Some b => Some (b, e_type (snd x), entryAddress (fst x))
        | None => None
        end) (zip (seqZ 0 (Z.of_nat (List.length es))) es) /\
    Forall (fun c => fsProvider c = self /\ populated c = false /\ openCount c = 0 /\ lock c = false) new /\
    Initramfs_populateDirectory self fs v p = Ok v1 /\ directory v1 p (set_children d c1) (l ++ new) /\ memory v1 = m /\
    Initramfs_populateDirectory self fs v1 p = Ok v2 /\ directory v2 p (set_children d c2) (l ++ new ++ new) /\ memory v2 = m.
Proof.
  intros Hk Hes Hdir Hn Hde Hvd Hve Hb m.
  destruct (populateDirectory_run self fs es v p d l k de Hk Hes Hdir Hn Hde ltac:(lia)) as (v1 & c1 & E1 & Hd1 & Hm1).
  pose proof (newChildren_length self (memory v) (e_name de) es 0) as Hlen.
  destruct (populateDirectory_run self fs es v1 p (set_children d c1) _ k de Hk Hes Hd1 Hn Hde) as (v2 & c2 & E2 & Hd2 & Hm2).
  { rewrite length_app. lia. }
  exists (newChildren self m (e_name de) 0 es), v1, v2, c1, c2. rewrite Hm1, <- app_assoc in Hd2.
  split; [by apply newChildren_spec|]. split; [|by rewrite Hm2, Hm1].
  clear. generalize 0 at 2. induction es as [|e es IH]; intros i; cbn [newChildren]; [constructor|].
  rewrite Forall_app. split; [|apply IH]. destruct (childBase m _ _); [|constructor]. by repeat constructor.
Qed.

Lemma storeNode_memory v m p n :
  storeNode (mkVfs (root v) (heap v) m) p n
  = (let! v := storeNode v p n in Ok (mkVfs (root v) (heap v) m)).
Proof. destruct p; cbn; [done|]. by destruct (storeElement _ _ _ _). Qed.

Lemma loadNode_memory v m p : loadNode (mkVfs (root v) (heap v) m) p = loadNode v p.
Proof. by destruct p. Qed.

Lemma releaseNode_memory v m p :
  releaseNode (mkVfs (root v) (heap v) m) p
  = (let! v := releaseNode v p in Ok (mkVfs (root v) (heap v) m)).
Proof.
  unfold releaseNode. rewrite loadNode_memory. destruct (loadNode v p); [|done..]. cbn [obind]. apply storeNode_memory.
Qed.

(** [C30] Reading a file of the RAM file system through a handle copies the
    bytes of the archive from the offset on, as many as were asked for and the
    file still has, and returns their number; at or after the end of the file
    it copies nothing. No other byte of memory and no node changes, and the
    node's lock is free again. *)
Theorem initramfs_read providers h v p n self fs e offset len buffer :
  open h = true -> h_node h = Some p -> loadNode v p = Ok n -> lock n = false -> type n = FILE ->
  providers (fsProvider n) = Some (Initramfs self fs) -> entryAt fs (node n) = Ok e ->
  isBytes (memory v) -> 0 <= offset -> 0 <= len ->
  buffer <= e_data e + offset \/ e_data e + e_size e <= buffer ->
  let k := if offset <? e_size e then Z.min (e_size e - offset) len else 0 in
  exists m', read providers h v offset len buffer = Ok (k, (h, mkVfs (root v) (heap v) m')) /\
    bytesAt m' buffer k = bytesAt (memory v) (e_data e + offset) k /\
    forall a, a < buffer \/ buffer + k <= a -> m' a = memory v a.
Proof.
  intros Ho Hp Hn Hl Ht Hf He Hm Hoff Hlen Hov k.
  destruct (locked_section v p n Hn Hl) as (v1 & E1 & E2 & E3 & Em).
  unfold read. rewrite Ho. unfold handleNode. rewrite Hp. cbn [of_option obind]. rewrite E1. cbn [obind]. rewrite E2. cbn [obind].
  change (type (set_lock n true)) with (type n). change (fsProvider (set_lock n true)) with (fsProvider n).
  rewrite bool_decide_eq_true_2 by done. unfold provider. rewrite Hf. cbn [of_option obind fs_read Initramfs].
  unfold Initramfs_read. rewrite E2. cbn [obind]. change (node (set_lock n true)) with (node n). rewrite He. cbn [obind].
  subst k. destruct (Z.ltb_spec offset (e_size e)) as [Hlt|Hge]; cbn [obind].
  - rewrite releaseNode_memory, E3. cbn [obind]. eexists. split; [done|]. rewrite Em.
    split; [apply bytesAt_pointwise|]; intros; rewrite memcpy_spec by (done || lia).
    + rewrite (proj2 (Z.leb_le _ _)), (proj2 (Z.ltb_lt _ _)) by lia. cbn [andb]. f_equal. lia.
    + zcase; cbn [andb]; done || lia.
  - rewrite E3. cbn [obind]. exists (memory v). destruct v. by split.
Qed.
End Initramfs.

(** ** An archive

    The directories [./] and [./foo/], and the file [./foobar] of three bytes. *)

Definition putHeader (m : Memory) (p : Z) (x : Member) : Memory :=
  putBytes (putBytes (putBytes (putBytes m p (m_name x)) (p + TYPE_OFFSET) [m_type x])
    (p + SIZE_OFFSET) (octalDigits 11 (m_size x))) (p + SIGNATURE_OFFSET) SIGNATURE.

Definition anArchive : list Member :=
  [mkMember [46; 47] 53 0; mkMember [46; 47; 102; 111; 111; 47] 53 0;
   mkMember [46; 47; 102; 111; 111; 98; 97; 114] 48 3].

Definition archiveMemory : Memory :=
  putBytes (putHeader (putHeader (putHeader (fun _ => 0) 4096 (mkMember [46; 47] 53 0))
    4608 (mkMember [46; 47; 102; 111; 111; 47] 53 0))
    5120 (mkMember [46; 47; 102; 111; 111; 98; 97; 114] 48 3)) 5632 [120; 121; 122].

Lemma octalDigits_bytes n : forall x, Forall (fun b => 0 <= b < 256) (octalDigits n x).
Proof.
  induction n as [|n IH]; intros x; cbn [octalDigits]; [constructor|]. rewrite Forall_app. split; [apply IH|].
  constructor; [dlia|constructor].
Qed.

Lemma archiveMemory_bytes : isBytes archiveMemory.
Proof.
  unfold archiveMemory, putHeader.
  repeat (apply putBytes_bytes); [intros a; lia|..]; first [apply octalDigits_bytes|repeat constructor; cbn; lia].
Qed.

Lemma anArchive_is : isArchive 200 archiveMemory 4096 anArchive.
Proof.
  cbn [isArchive anArchive].
  repeat match goal with
  | |- isHeader _ _ _ _ /\ _ => split; [constructor|]
  | |- _ /\ _ => split
  | |- Forall _ _ => repeat constructor; discriminate
  | |- (_ < _)%nat => cbn; lia
  | |- _ <= _ => cbn; lia
  | |- _ < _ => vm_compute; reflexivity
  | |- _ = _ => vm_compute; reflexivity
  end.
Qed.

Lemma archive_parsed_witness :
  exists fs es, InitramfsFsProvider_new (fun _ => true) 200 3 archiveMemory 4096 = Ok fs /\
    represents ∅ (eheap fs) (entries fs) es /\
    entryView archiveMemory <$> es
    = [([46], DIRECTORY, 4608, 0); ([46; 47; 102; 111; 111], DIRECTORY, 5120, 0);
       ([46; 47; 102; 111; 111; 98; 97; 114], FILE, 5632, 3)].
Proof.
  destruct (archive_parsed (fun _ => true) 200 archiveMemory 4096 anArchive 3) as (fs & es & E & Hr & Hv).
  - reflexivity.
  - vm_compute. reflexivity.
  - exact anArchive_is.
  - cbn. lia.
  - vm_compute. reflexivity.
  - exists fs, es. split; [exact E|]. split; [exact Hr|]. rewrite Hv. vm_compute. reflexivity.
Defined.

Definition archiveEntry (p len : Z) (t : FileType) (data size : Z) : InitramfsEntry := mkEntry (mkStr p len) t data size.

Definition someEntries : list InitramfsEntry :=
  [archiveEntry 4096 1 DIRECTORY 4608 0; archiveEntry 4608 5 DIRECTORY 5120 0; archiveEntry 5120 8 FILE 5632 3].

Definition someFs : InitramfsFsProvider :=
  mkInitramfs (mkVector 16 3 1) (mkHeap {[1 := someEntries ++ replicate 13 Entry_default]} 2).

Definition mountedVfs (k : Z) : Vfs := mkVfs (mkFileNode Str_null DIRECTORY 1 Vector_init (entryAddress k) false 7 false) (mkHeap ∅ 1) archiveMemory.

Lemma someFs_represents : represents ∅ (eheap someFs) (entries someFs) someEntries.
Proof.
  constructor; [|reflexivity|split; [discriminate|reflexivity]|discriminate|].
  - split; [reflexivity|]. intros p Hp. cbn in Hp. destruct (decide (p = 1)) as [->|Hne]; [cbn; lia|].
    rewrite lookup_singleton_ne in Hp by congruence. by destruct Hp.
  - intros _. exists (someEntries ++ replicate 13 Entry_default). repeat split.
    intros j Hj. by rewrite lookup_app_l by exact Hj.
Qed.

(** The file [./foobar] is listed as [bar] in the directory [./foo], twice
    after two operations. *)
Lemma populateDirectory_lists_witness :
  exists v1 v2 c1 c2 a b,
    Initramfs_populateDirectory (fun _ => true) 7 someFs (mountedVfs 1) Root = Ok v1 /\
    Initramfs_populateDirectory (fun _ => true) 7 someFs v1 Root = Ok v2 /\
    directory v1 Root c1 [a] /\ directory v2 Root c2 [a; b] /\
    contents archiveMemory (name a) = [98; 97; 114].
Proof.
  destruct (populateDirectory_lists (fun _ => true) 7 someFs someEntries (mountedVfs 1) Root (root (mountedVfs 1)) []
    1 (archiveEntry 4608 5 DIRECTORY 5120 0)) as (new & v1 & v2 & c1 & c2 & Hn & _ & E1 & D1 & _ & E2 & D2 & _).
  - reflexivity.
  - exact someFs_represents.
  - split; [reflexivity|]. exists ∅. split; [|done]. exact represents_init.
  - reflexivity.
  - reflexivity.
  - split; cbn; lia.
  - repeat constructor; cbn; lia.
  - vm_compute. reflexivity.
  - assert (Hv : childView archiveMemory <$> new = [([98; 97; 114], FILE, 3)]).
    { transitivity (omap (fun x : Z * InitramfsEntry =>
        match listedName (contents archiveMemory (mkStr 4608 5)) (contents archiveMemory (e_name (snd x))) with
        | Some b => Some (b, e_type (snd x), entryAddress (fst x)) | None => None end)
        (zip (seqZ 0 (Z.of_nat (List.length someEntries))) someEntries)).
      - exact Hn.
      - vm_compute. reflexivity. }
    destruct new as [|a [|b new]]; [discriminate Hv| |discriminate Hv].
    exists v1, v2, (set_children (root (mountedVfs 1)) c1), (set_children (root (mountedVfs 1)) c2), a, a.
    split; [exact E1|]. split; [exact E2|]. split; [exact D1|]. split; [exact D2|].
    injection Hv. intros _ _ H. exact H.
Defined.

Definition openFile : FileHandle := mkFileHandle (Some Root) false true OKAY.

Definition fileVfs : Vfs := mkVfs (mkFileNode Str_null FILE 1 Vector_init (entryAddress 2) false 7 false) (mkHeap ∅ 1) archiveMemory.

Lemma initramfs_read_witness :
  exists m', read (fun p => if p =? 7 then Some (Initramfs (fun _ => true) 7 someFs) else None) openFile fileVfs 1 10 9000
    = Ok (2, (openFile, mkVfs (root fileVfs) (heap fileVfs) m')) /\ bytesAt m' 9000 2 = [121; 122].
Proof.
  destruct (initramfs_read (fun _ => true) (fun p => if p =? 7 then Some (Initramfs (fun _ => true) 7 someFs) else None)
    openFile fileVfs Root (root fileVfs) 7 someFs (archiveEntry 5120 8 FILE 5632 3) 1 10 9000) as (m' & E & Hb & _).
  - reflexivity.
  - reflexivity.
  - reflexivity.
  - reflexivity.
  - reflexivity.
  - reflexivity.
  - reflexivity.
  - exact archiveMemory_bytes.
  - lia.
  - lia.
  - cbn. lia.
  - exists m'. split; [exact E|]. transitivity (bytesAt archiveMemory 5633 2); [exact Hb|vm_compute; reflexivity].
Defined.

(** Mounting the parsed archive on the root and opening and reading [/foobar]:
    the whole path through [Vfs] and this file. The path is at 8192. *)
Definition pathMemory : Memory := putBytes archiveMemory 8192 [47; 102; 111; 111; 98; 97; 114].

Definition mountOpenRead : outcome (FileError * Z * list Z) :=
  let! fs := InitramfsFsProvider_new (fun _ => true) 200 3 pathMemory 4096 in
  let providers := fun p => if p =? 7 then Some (Initramfs (fun _ => true) 7 fs) else None in
  let! '(r, v) := FileHandle_open providers (Vfs_init (mkHeap ∅ 1) pathMemory) Str_null true in
  let! '(r, v) := mount providers r v 7 in
  let! '(f, v) := FileHandle_open providers v (mkStr 8192 7) false in
  let! '(n, (f, v)) := read providers f v 0 100 9000 in
  Ok (error f, n, bytesAt (memory v) 9000 n).

Example mountOpenRead_result : mountOpenRead = Ok (OKAY, 3, [120; 121; 122]).
Proof. vm_compute. reflexivity. Qed.
