(* ===== verification/Handles.v ===== *)
(** * Open counts of the virtual file system ([fs.h], [vfs.cpp])

    What a history of file handles does to the nodes: the operations of [Vfs]
    by any number of handles, in any order, from the unmounted root on, with
    directories that grow and move their children. File systems are used
    through the interface [FsEdits], which [Initramfs] implements. *)

From Stdlib Require Import ZArith Lia.
From stdpp Require Import base tactics numbers gmap list.
From S2P Require Import Prelude Strings Vector Vfs Initramfs.

Open Scope Z_scope.

#[export] Instance NodePtr_eq_dec : EqDecision NodePtr.
Proof. solve_decision. Defined.

(** ** What a file system may do to the nodes

    It changes memory, what it keeps in a node itself, and appends fresh nodes
    to the children of a directory. *)
Inductive fsEdit (kmallocFits : Z -> bool) : Vfs -> Vfs -> Prop :=
| fe_memory v m : fsEdit kmallocFits v (mkVfs (root v) (heap v) m)
| fe_node v p n n' v' :
    loadNode v p = Ok n -> lock n' = lock n -> openCount n' = openCount n -> children n' = children n ->
    storeNode v p n' = Ok v' -> fsEdit kmallocFits v v'
| fe_child v p c v' :
    openCount c = 0 -> lock c = false -> children c = Vector_init ->
    addChild kmallocFits v p c = Ok v' -> fsEdit kmallocFits v v'.

Class FsEdits (kmallocFits : Z -> bool) (f : FsProvider) : Prop := {
  edits_read v p o l b r v' : fs_read v p o l b = Ok (r, v') -> star (fsEdit kmallocFits) v v';
  edits_write v p o l b r v' : fs_write v p o l b = Ok (r, v') -> star (fsEdit kmallocFits) v v';
  edits_populate v p v' : fs_populateDirectory v p = Ok v' -> star (fsEdit kmallocFits) v v';
  edits_initRoot v p v' : fs_initRoot v p = Ok v' -> star (fsEdit kmallocFits) v v';
  edits_freeNode v p v' : fs_freeNode v p = Ok v' -> star (fsEdit kmallocFits) v v'
}.

Lemma set_node_edit kmallocFits v p n k v' :
  loadNode v p = Ok n -> storeNode v p (set_node n k) = Ok v' -> star (fsEdit kmallocFits) v v'.
Proof. intros Hn Hs. apply star_one. by apply (fe_node _ v p n (set_node n k) v'). Qed.

Lemma populate_loop_edits kmallocFits self fs n : forall v p de i v',
  populate_loop kmallocFits self fs n v p de i = Ok v' -> star (fsEdit kmallocFits) v v'.
Proof.
  induction n as [|n IH]; intros v p de i v' E; cbn [populate_loop] in E; [inv_ok; apply star_refl|].
  apply obind_ok in E as (e & _ & E). apply obind_ok in E as (v1 & E1 & E). apply IH in E.
  destruct (childBase _ _ _); [|by inv_ok]. eapply star_step; [eapply fe_child; [..|exact E1]; done|exact E].
Qed.

#[export] Instance Initramfs_edits kmallocFits fs self : FsEdits kmallocFits (Initramfs kmallocFits self fs).
Proof.
  split; cbn.
  - intros v p o l b r v' E. unfold Initramfs_read in E. apply obind_ok in E as (n & _ & E). apply obind_ok in E as (e & _ & E).
    destruct (o <? e_size e); inv_ok; [apply star_one, fe_memory|apply star_refl].
  - intros v p o l b r v' E. unfold FsProvider_write in E. inv_ok. apply star_refl.
  - intros v p v' E. apply obind_ok in E as (n & _ & E). apply obind_ok in E as (e & _ & E). by eapply populate_loop_edits.
  - intros v p v' E. apply obind_ok in E as (n & Hn & E). by eapply set_node_edit.
  - intros v p v' E. apply obind_ok in E as (n & Hn & E). by eapply set_node_edit.
Qed.

Section Handles.
Context (kmallocFits : Z -> bool) (providers : Z -> option FsProvider).

(** A thread's handles, newest first, and what it does with them. *)
Inductive handle_step : Vfs * list FileHandle -> Vfs * list FileHandle -> Prop :=
| hs_open v hs path w h v' :
    FileHandle_open providers v path w = Ok (h, v') ->
    handle_step (v, hs) (v', if open h then h :: hs else hs)
| hs_child v hs i h index w r h' v' :
    hs !! i = Some h -> openChild providers h v index w = Ok (r, (h', v')) ->
    handle_step (v, hs) (v', if open r then r :: <[i := h']> hs else <[i := h']> hs)
| hs_close v hs i h h' v' :
    hs !! i = Some h -> close h v = Ok (h', v') -> handle_step (v, hs) (v', delete i hs)
| hs_find v hs i h nm r h' v' :
    hs !! i = Some h -> findChild providers h v nm = Ok (r, (h', v')) -> handle_step (v, hs) (v', <[i := h']> hs)
| hs_name v hs i h index r h' v' :
    hs !! i = Some h -> childName providers h v index = Ok (r, (h', v')) -> handle_step (v, hs) (v', <[i := h']> hs)
| hs_type v hs i h r v' :
    hs !! i = Some h -> getType h v = Ok (r, v') -> handle_step (v, hs) (v', hs)
| hs_read v hs i h o l b r h' v' :
    hs !! i = Some h -> read providers h v o l b = Ok (r, (h', v')) -> handle_step (v, hs) (v', <[i := h']> hs)
| hs_write v hs i h o l b r h' v' :
    hs !! i = Some h -> write providers h v o l b = Ok (r, (h', v')) -> handle_step (v, hs) (v', <[i := h']> hs)
| hs_mount v hs i h fs h' v' :
    hs !! i = Some h -> mount providers h v fs = Ok (h', v') -> handle_step (v, hs) (v', <[i := h']> hs).

(** ** Specification

    Each handle has a location, where the node it was opened on is now: when
    the children of a directory move to another array, so do the locations of
    the handles on them, while the handles keep their pointers and dangle. *)

(** The number of locations at [p]. *)
Fixpoint countOn (locs : list NodePtr) (p : NodePtr) : Z :=
  match locs with
  | [] => 0
  | q :: locs => (if bool_decide (q = p) then 1 else 0) + countOn locs p
  end.

(** The array of [p] was deleted. *)
Definition gone (v : Vfs) (p : NodePtr) : Prop :=
  match p with
  | Root => False
  | Child a _ => a < nextArray (heap v) /\ arrays (heap v) !! a = None
  end.

(** A pointer to what is now at [p]. *)
Definition pointsTo (v : Vfs) (q p : NodePtr) : Prop := p = q \/ gone v q.

Definition holds (v : Vfs) (h : FileHandle) (p : NodePtr) : Prop :=
  open h = true /\ exists q, h_node h = Some q /\ pointsTo v q p.

(** The nodes with the handles at [locs] and, while an operation runs, the one
    lock it holds. *)
Record nodes_inv (v : Vfs) (locs : list NodePtr) (held : option NodePtr) : Prop := {
  ni_heap : heap_wf (heap v);
  ni_node p n : loadNode v p = Ok n -> lock n = bool_decide (held = Some p) /\ openCount n = u64 (countOn locs p);
  ni_vector p n : loadNode v p = Ok n -> vector_ok (heap v) (children n);
  ni_owner p q n m : loadNode v p = Ok n -> loadNode v q = Ok m ->
    data (children n) = data (children m) -> data (children n) <> 0 -> p = q;
  ni_live p : p ∈ locs -> exists n, loadNode v p = Ok n;
  ni_slot p n i : loadNode v p = Ok n -> data (children n) <> 0 -> size (children n) <= i -> Child (data (children n)) i ∉ locs;
  ni_held p : held = Some p -> p ∈ locs
}.

(** Arrays are not used again once they are deleted. *)
Definition later (v v' : Vfs) : Prop :=
  nextArray (heap v) <= nextArray (heap v') /\
  forall a, a < nextArray (heap v) -> is_Some (arrays (heap v') !! a) -> is_Some (arrays (heap v) !! a).

(** The locations moved along. *)
Definition moved (v' : Vfs) (locs locs' : list NodePtr) : Prop := Forall2 (pointsTo v') locs locs'.

(** ** Locations *)

Lemma countOn_range locs p : 0 <= countOn locs p <= Z.of_nat (List.length locs).
Proof. induction locs; cbn [countOn List.length]; [lia|]. case_bool_decide; lia. Qed.

Lemma countOn_notin locs p : p ∉ locs -> countOn locs p = 0.
Proof.
  induction locs as [|q locs IH]; [done|]. rewrite not_elem_of_cons. intros [Hne Hp]. cbn [countOn].
  by rewrite bool_decide_eq_false_2, IH by congruence.
Qed.

Lemma countOn_delete locs i p q :
  locs !! i = Some p -> countOn locs q = (if bool_decide (p = q) then 1 else 0) + countOn (delete i locs) q.
Proof.
  revert i. induction locs as [|x locs IH]; intros [|i]; cbn; try done; [by intros [= ->]|]. intros Hi. rewrite (IH i Hi). apply Z.add_shuffle3.
Qed.

Lemma countOn_map f locs p q : (forall x, x ∈ locs -> f x = q <-> x = p) -> countOn (f <$> locs) q = countOn locs p.
Proof.
  induction locs as [|x locs IH]; [done|]. intros H. cbn [countOn fmap list_fmap].
  rewrite IH by (intros y Hy; apply H; by constructor). f_equal.
  by rewrite (bool_decide_ext (f x = q) (x = p) (H x ltac:(constructor))).
Qed.

Lemma later_refl v : later v v.
Proof. by split. Qed.

Lemma later_trans v1 v2 v3 : later v1 v2 -> later v2 v3 -> later v1 v3.
Proof. intros [H1 H2] [H3 H4]. split; [lia|]. intros a Ha Hs. apply H2, H4; [done|lia|done]. Qed.

Lemma gone_later v v' p : later v v' -> gone v p -> gone v' p.
Proof.
  intros [H1 H2]. destruct p as [|a i]; [done|]. intros [Ha Hn]. split; [lia|].
  destruct (arrays (heap v') !! a) eqn:E; [|done]. destruct (H2 a Ha ltac:(by eexists)). congruence.
Qed.

Lemma gone_load v p : gone v p -> loadNode v p = Fault.
Proof. destruct p as [|a i]; [done|]. intros [_ H]. cbn [loadNode]. unfold loadElement. rewrite H. by destruct (i <? 0). Qed.

(** A pointer that can be read is where its node is. *)
Lemma pointsTo_live v q p n : pointsTo v q p -> loadNode v q = Ok n -> p = q.
Proof. intros [H|H] Hl; [done|]. by rewrite (gone_load _ _ H) in Hl. Qed.

Lemma pointsTo_trans v v' q p p' : later v v' -> pointsTo v q p -> pointsTo v' p p' -> pointsTo v' q p'.
Proof. intros Hl [->|H] H2; [done|]. right. by eapply gone_later. Qed.

Lemma holds_later v v' h p p' : later v v' -> holds v h p -> pointsTo v' p p' -> holds v' h p'.
Proof. intros Hl (Ho & q & Hq & Hp) H. split; [done|]. exists q. split; [done|]. by eapply pointsTo_trans. Qed.

Lemma moved_refl v locs : moved v locs locs.
Proof. apply Forall2_same_length_lookup. split; [done|]. intros i p q Hp Hq. simplify_eq. by left. Qed.

Lemma moved_trans v v' l1 l2 l3 : later v v' -> moved v l1 l2 -> moved v' l2 l3 -> moved v' l1 l3.
Proof.
  intros Hl H1 H2. unfold moved in *. eapply Forall2_trans; [|exact H1|exact H2].
  intros x y z Hx Hy. by eapply pointsTo_trans.
Qed.

Lemma holds_moved v v' hs l l' :
  later v v' -> Forall2 (holds v) hs l -> moved v' l l' -> Forall2 (holds v') hs l'.
Proof. intros Hl H1 H2. eapply Forall2_trans; [|exact H1|exact H2]. intros h p p' H H'. by eapply holds_later. Qed.

(** ** Stores *)

Lemma storeNode_inv v p n v' :
  storeNode v p n = Ok v' ->
  (exists m, loadNode v p = Ok m) /\ nextArray (heap v') = nextArray (heap v) /\ memory v' = memory v /\
  (forall a, List.length <$> arrays (heap v') !! a = List.length <$> arrays (heap v) !! a) /\
  forall q, loadNode v' q = if decide (q = p) then Ok n else loadNode v q.
Proof.
  destruct p as [|a i]; cbn [storeNode].
  - intros [= <-]. split; [by eexists|]. repeat (split; [done|]). intros [|a i]; [done|]. by rewrite decide_False.
  - intros E. apply obind_ok in E as (h & E & E2). inv_ok. apply storeElement_inv in E as (Hi & l & Hl & Hlt & ->).
    split; [|split; [done|split; [done|split]]].
    + destruct (lookup_lt_is_Some_2 l _ Hlt) as [m Hm]. exists m. cbn [loadNode].
      pose proof (loadElement_ok (heap v) a (Z.to_nat i) l m Hl Hm) as E. by rewrite Z2Nat.id in E.
    + intros b. cbn [heap arrays]. destruct (decide (b = a)) as [->|Hne]; [|by rewrite lookup_insert_ne].
      rewrite lookup_insert_eq, Hl. cbn. f_equal. apply length_insert.
    + intros [|b j]; [by rewrite decide_False|]. cbn [loadNode heap]. unfold loadElement. cbn [arrays].
      destruct (Z.ltb_spec j 0) as [Hj|Hj]; [rewrite decide_False by (intros [= -> ->]; lia); done|].
      destruct (decide (b = a)) as [->|Hne]; [|rewrite lookup_insert_ne, decide_False by congruence; done].
      rewrite lookup_insert_eq, Hl. destruct (decide (j = i)) as [->|Hji].
      * by rewrite decide_True, list_lookup_insert_eq.
      * rewrite decide_False, list_lookup_insert_ne by (congruence || lia). done.
Qed.

Lemma store_later v p n v' : storeNode v p n = Ok v' -> later v v' /\ later v' v.
Proof.
  intros (_ & Hn & _ & Ha & _)%storeNode_inv. split; (split; [lia|]); intros a _; specialize (Ha a);
    destruct (arrays (heap v') !! a), (arrays (heap v) !! a); cbn in Ha; try done; intros Hs; eauto using is_Some_None.
Qed.

Lemma vector_ok_same v v' c :
  (forall a, List.length <$> arrays (heap v') !! a = List.length <$> arrays (heap v) !! a) ->
  vector_ok (heap v) c -> vector_ok (heap v') c.
Proof.
  intros Ha (Hs & Hc & H0 & Hd). repeat (split; [done|]). intros Hz. destruct (Hd Hz) as (a & E & Hl).
  specialize (Ha (data c)). rewrite E in Ha. destruct (arrays (heap v') !! data c) as [b|]; [|done].
  injection Ha as Ha. exists b. split; [done|]. by rewrite Ha.
Qed.

(** A store to the node [p] that keeps its children. *)
Lemma store_inv v locs held locs' held' p n n' v' :
  nodes_inv v locs held -> loadNode v p = Ok n -> storeNode v p n' = Ok v' -> children n' = children n ->
  lock n' = bool_decide (held' = Some p) -> openCount n' = u64 (countOn locs' p) ->
  (forall q, q <> p -> (held' = Some q <-> held = Some q) /\ countOn locs' q = countOn locs q) ->
  (forall q, q ∈ locs' -> (exists m, loadNode v q = Ok m) /\
     forall r m i, q = Child (data (children m)) i -> loadNode v r = Ok m -> i < size (children m)) ->
  (forall q, held' = Some q -> q ∈ locs') ->
  nodes_inv v' locs' held'.
Proof.
  intros Hinv Hn Hs Hc Hl Ho Hq Hlocs Hheld. apply storeNode_inv in Hs as (_ & Hnext & _ & Ha & Hload).
  assert (Hch : forall q m, loadNode v' q = Ok m -> exists m', loadNode v q = Ok m' /\ children m = children m').
  { intros q m. rewrite Hload. destruct (decide (q = p)) as [->|]; [intros [= <-]; by exists n|by exists m]. }
  constructor.
  - destruct (ni_heap _ _ _ Hinv) as [H1 H2]. split; [lia|]. intros a Hs. rewrite Hnext. apply H2. specialize (Ha a).
    destruct Hs as [x Hx]. rewrite Hx in Ha. destruct (arrays (heap v) !! a); [by eexists|done].
  - intros q m. rewrite Hload. destruct (decide (q = p)) as [->|Hne]; [by intros [= <-]|]. intros Hm.
    destruct (Hq q Hne) as [Hiff ->]. destruct (ni_node _ _ _ Hinv q m Hm) as [-> ->]. split; [|done].
    by apply bool_decide_ext.
  - intros q m (m' & Hm' & ->)%Hch. eapply vector_ok_same; [exact Ha|]. by apply (ni_vector _ _ _ Hinv q).
  - intros q r m k (m' & Hm' & ->)%Hch (k' & Hk' & ->)%Hch. by apply (ni_owner _ _ _ Hinv).
  - intros q Hin. rewrite Hload. destruct (decide (q = p)) as [->|]; [by eexists|]. by apply Hlocs.
  - intros q m i (m' & Hm' & ->)%Hch _ Hi Hin. destruct (Hlocs _ Hin) as [_ H]. specialize (H q m' i eq_refl Hm'). lia.
  - exact Hheld.
Qed.

(** ** A directory gets a child *)

(** The children of [from] are at [to] now. *)
Definition shift (from to : Z) (p : NodePtr) : NodePtr :=
  match p with Child a i => if decide (a = from) then Child to i else p | Root => Root end.

Section Growth.
Context (Hfits : forall n, kmallocFits n = true -> n < 2 ^ 60).
Context (v v' : Vfs) (locs : list NodePtr) (held : option NodePtr) (p : NodePtr) (c d : FileNode).
Context (cs : Vector) (h' : Heap (T := FileNode)).
Context (Hinv : nodes_inv v locs held) (Hd : loadNode v p = Ok d).
Context (Hc : openCount c = 0 /\ lock c = false /\ children c = Vector_init).
Context (Hg : grew FileNode_zero (heap v) h' (children d) cs c).
Context (Hs : storeNode (mkVfs (root v) h' (memory v)) p (set_children d cs) = Ok v').

Notation from := (data (children d)).
Notation to := (data cs).
Notation f := (shift from to).

Lemma loaded_range a i n : loadNode v (Child a i) = Ok n -> 0 < a < nextArray (heap v).
Proof.
  intros (_ & l & Hl & _)%loadElement_inv. destruct (ni_heap _ _ _ Hinv) as [_ H]. apply H. by eexists.
Qed.

Lemma to_fresh i n : to <> from -> loadNode v (Child to i) = Ok n -> False.
Proof. intros Hne Hl%loaded_range. destruct (gr_array _ _ _ _ _ _ Hg) as [H|[H _]]; [done|]. lia. Qed.

Lemma from_array : from <> 0 -> exists a, arrays (heap v) !! from = Some a.
Proof. intros Hz. destruct (ni_vector _ _ _ Hinv p d Hd) as (_ & _ & _ & H). destruct (H Hz) as (a & Ha & _). by exists a. Qed.

Lemma to_nonzero : to <> 0.
Proof.
  destruct (gr_vector _ _ _ _ _ _ Hg) as ([Hle Hcap] & _ & H0 & _). pose proof (gr_size _ _ _ _ _ _ Hg).
  destruct (ni_vector _ _ _ Hinv p d Hd) as ([Hle' _] & _). intros Hz. specialize (H0 Hz). lia.
Qed.

(** The children of another node are in neither array. *)
Lemma other_data q n : loadNode v q = Ok n -> q <> p -> data (children n) <> 0 ->
  data (children n) <> from /\ data (children n) <> to.
Proof.
  intros Hq Hne Hz. assert (Hf : data (children n) <> from) by (intros E; apply Hne; by eapply (ni_owner _ _ _ Hinv)).
  split; [done|]. intros E. destruct (gr_array _ _ _ _ _ _ Hg) as [Hto|[Hto _]]; [congruence|].
  destruct (ni_vector _ _ _ Hinv q n Hq) as (_ & _ & _ & H). destruct (H Hz) as (a & Ha & _).
  destruct (ni_heap _ _ _ Hinv) as [_ Hr]. specialize (Hr _ (mk_is_Some _ _ Ha)). lia.
Qed.

(** A location on a child is below the number of children. *)
Lemma loc_below i : Child from i ∈ locs -> i < size (children d).
Proof.
  intros Hin. destruct (ni_live _ _ _ Hinv _ Hin) as [n Hn]. pose proof (loaded_range _ _ _ Hn).
  destruct (Z.lt_ge_cases i (size (children d))) as [|Hge]; [done|]. exfalso. by apply (ni_slot _ _ _ Hinv p d i Hd); [lia|..].
Qed.

Lemma shift_inj q r n m : loadNode v q = Ok n -> loadNode v r = Ok m -> f q = f r -> q = r.
Proof.
  intros Hq Hr. destruct q as [|a i], r as [|b j]; cbn [shift]; try done; repeat case_decide; try done; intros E; injection E; intros; subst; try done.
  all: exfalso; eapply to_fresh; eassumption.
Qed.

Lemma store_loads : (forall q, loadNode v' q = if decide (q = p) then Ok (set_children d cs) else loadNode (mkVfs (root v) h' (memory v)) q) /\
  f p = p.
Proof.
  apply storeNode_inv in Hs as ([m Hm] & _ & _ & _ & H). split; [done|]. destruct p as [|a i]; [done|]. cbn [shift].
  case_decide as E; [|done]. destruct (gr_array _ _ _ _ _ _ Hg) as [Hto|[_ Hn]]; [congruence|].
  apply loadElement_inv in Hm as (_ & l & Hl & _). cbn [heap] in Hl. congruence.
Qed.

(** Where the nodes of the new state come from. *)
Lemma load_cases q n : loadNode v' q = Ok n ->
  (q = p /\ n = set_children d cs) \/
  (q ∉ f <$> locs /\ openCount n = 0 /\ lock n = false /\ children n = Vector_init) \/
  (exists q0, q0 <> p /\ loadNode v q0 = Ok n /\ f q0 = q).
Proof.
  destruct store_loads as [Hl Hp]. rewrite Hl. clear Hl. destruct (decide (q = p)) as [->|Hne]; [intros [= <-]; by left|].
  intros Hl. right. destruct q as [|b j]; [right; by exists Root|]. cbn [loadNode heap] in Hl.
  destruct (decide (b = to)) as [->|Hto].
  - assert (Hnot : size (children d) <= j -> Child to j ∉ f <$> locs).
    { intros Hj (x & Hx & Hin)%list_elem_of_fmap. destruct (ni_live _ _ _ Hinv x Hin) as [m Hm].
      destruct x as [|b k]; [done|]. cbn [shift] in Hx. case_decide as E; injection Hx; intros; subst.
      - pose proof (loc_below _ Hin). lia.
      - by destruct (to_fresh k m ltac:(congruence) Hm). }
    apply (gr_load _ _ _ _ _ _ Hg) in Hl as [[-> ->]|[(Hj & E & Hl)|[(Hj & Hl)|(Hj & E & ->)]]].
    + left. split; [by apply Hnot|]. by destruct Hc as (? & ? & ?).
    + right. exists (Child from j). rewrite E in *. split; [done|]. split; [done|]. cbn [shift]. by rewrite decide_True.
    + right. exists (Child from j). assert (Ef : f (Child from j) = Child to j) by (cbn [shift]; by rewrite decide_True).
      split; [|by split]. intros E. congruence.
    + left. by split; [apply Hnot; lia|].
  - destruct (decide (b = from)) as [->|Hfrom].
    + apply loadElement_inv in Hl as (_ & l & Hl & _). destruct (gr_array _ _ _ _ _ _ Hg) as [?|[_ Hn]]; [congruence|]. congruence.
    + right. exists (Child b j). split; [done|]. unfold loadElement in Hl. rewrite (gr_other _ _ _ _ _ _ Hg) in Hl by done.
      split; [exact Hl|]. cbn [shift]. by rewrite decide_False.
Qed.

(** A location is found at its new place. *)
Lemma loc_kept q : q ∈ locs -> exists n, loadNode v' (f q) = Ok n.
Proof.
  intros Hin. destruct (ni_live _ _ _ Hinv q Hin) as [n Hn]. destruct store_loads as [Hl _]. rewrite Hl. clear Hl.
  case_decide; [by eexists|]. destruct q as [|a i]; [by exists n|]. cbn [shift] in *. cbn [loadNode] in Hn. case_decide as E.
  - subst a. exists n. cbn [loadNode heap]. apply (gr_kept _ _ _ _ _ _ Hg); [|done]. by apply loc_below.
  - exists n. cbn [loadNode heap]. unfold loadElement. rewrite (gr_other _ _ _ _ _ _ Hg); [done|done|]. intros ->.
    by destruct (to_fresh i n ltac:(congruence) Hn).
Qed.

Lemma loc_shift q n x : loadNode v q = Ok n -> x ∈ locs -> f x = f q <-> x = q.
Proof.
  intros Hq Hx. split; [|by intros ->]. destruct (ni_live _ _ _ Hinv x Hx) as [m Hm]. by eapply shift_inj.
Qed.

Lemma held_shift q n : loadNode v q = Ok n -> bool_decide (f <$> held = Some (f q)) = bool_decide (held = Some q).
Proof.
  intros Hq. apply bool_decide_ext. rewrite fmap_Some. split; [|intros ->; by exists q].
  intros (x & Hx & Hf). rewrite Hx. f_equal. apply (loc_shift q n x Hq); [|done]. by apply (ni_held _ _ _ Hinv).
Qed.

Lemma grow_slot q n i : loadNode v q = Ok n -> q <> p -> data (children n) <> 0 -> size (children n) <= i ->
  Child (data (children n)) i ∉ f <$> locs.
Proof.
  intros Hq Hne Hz Hi (x & Hx & Hin)%list_elem_of_fmap. destruct (other_data q n Hq Hne Hz) as [Hf Ht].
  destruct x as [|a j]; [done|]. cbn [shift] in Hx. case_decide; injection Hx; intros; subst; [done|].
  by apply (ni_slot _ _ _ Hinv q n j Hq).
Qed.

Lemma grow_node q n : loadNode v' q = Ok n ->
  lock n = bool_decide (f <$> held = Some q) /\ openCount n = u64 (countOn (f <$> locs) q).
Proof.
  assert (Hold : forall q0 n0, loadNode v q0 = Ok n0 ->
    lock n0 = bool_decide (f <$> held = Some (f q0)) /\ openCount n0 = u64 (countOn (f <$> locs) (f q0))).
  { intros q0 n0 H0. rewrite (held_shift q0 n0 H0), (countOn_map f locs q0) by (intros x Hx; by eapply loc_shift).
    by apply (ni_node _ _ _ Hinv). }
  intros [[-> ->]|[(Hq & Ho & Hl & _)|(q0 & _ & Hq & <-)]]%load_cases; [|rewrite Ho, Hl|by apply Hold].
  - destruct store_loads as [_ Hp]. pose proof (Hold p d Hd) as H. by rewrite Hp in H.
  - rewrite countOn_notin, bool_decide_eq_false_2; [done| |done]. intros (x & Hx & ->)%fmap_Some.
    apply Hq, list_elem_of_fmap. exists x. split; [done|]. by apply (ni_held _ _ _ Hinv).
Qed.

Lemma grow_vector q n : loadNode v' q = Ok n -> vector_ok (heap v') (children n).
Proof.
  intros Hn. pose proof (storeNode_inv _ _ _ _ Hs) as (_ & _ & _ & Ha & _).
  eapply (vector_ok_same (mkVfs (root v) h' (memory v))); [exact Ha|]. cbn [heap].
  destruct (load_cases q n Hn) as [[-> ->]|[(_ & _ & _ & ->)|(q0 & Hne & Hq & _)]].
  - apply (gr_vector _ _ _ _ _ _ Hg).
  - split; [cbn; lia|]. by split.
  - destruct (ni_vector _ _ _ Hinv q0 n Hq) as (H1 & H2 & H3 & H4). repeat (split; [done|]). intros Hz.
    destruct (other_data q0 n Hq Hne Hz). rewrite (gr_other _ _ _ _ _ _ Hg) by done. by apply H4.
Qed.

Lemma grow_owner q r n m : loadNode v' q = Ok n -> loadNode v' r = Ok m ->
  data (children n) = data (children m) -> data (children n) <> 0 -> q = r.
Proof.
  intros [[-> ->]|[(_ & _ & _ & ->)|(q0 & Hq0 & Hq & <-)]]%load_cases [[-> ->]|[(_ & _ & _ & ->)|(r0 & Hr0 & Hr & <-)]]%load_cases;
    cbn [set_children children data Vector_init]; intros E Hz; try done.
  - by destruct (other_data r0 m Hr Hr0 ltac:(congruence)).
  - by destruct (other_data q0 n Hq Hq0 Hz).
  - f_equal. by eapply (ni_owner _ _ _ Hinv).
Qed.

Lemma grow_inv : nodes_inv v' (f <$> locs) (f <$> held).
Proof.
  constructor.
  - pose proof (storeNode_inv _ _ _ _ Hs) as (_ & Hn & _ & Ha & _). cbn [heap] in *.
    destruct (gr_wf _ _ _ _ _ _ Hg) as [H1 H2]. split; [lia|]. intros a [x Hx]. rewrite Hn. apply H2. specialize (Ha a).
    rewrite Hx in Ha. destruct (arrays h' !! a); [by eexists|done].
  - apply grow_node.
  - apply grow_vector.
  - apply grow_owner.
  - intros q (x & -> & Hin)%list_elem_of_fmap. by apply loc_kept.
  - intros q n i [[-> ->]|[(_ & _ & _ & ->)|(q0 & Hq0 & Hq & _)]]%load_cases Hz Hi; [|done|by eapply grow_slot].
    cbn [set_children children] in *. rewrite (gr_size _ _ _ _ _ _ Hg) in Hi. intros (x & Hx & Hin)%list_elem_of_fmap.
    destruct x as [|a j]; [done|]. cbn [shift] in Hx. destruct (ni_live _ _ _ Hinv _ Hin) as [m Hm].
    case_decide; injection Hx; intros; subst; [pose proof (loc_below _ Hin); lia|]. by eapply to_fresh.
  - intros q (x & Hx & ->)%fmap_Some. apply list_elem_of_fmap. exists x. split; [done|]. by apply (ni_held _ _ _ Hinv).
Qed.

Lemma grow_arrays a : is_Some (arrays (heap v') !! a) <-> is_Some (arrays h' !! a).
Proof.
  pose proof (storeNode_inv _ _ _ _ Hs) as (_ & _ & _ & Ha & _). specialize (Ha a). cbn [heap] in Ha.
  destruct (arrays (heap v') !! a), (arrays h' !! a); cbn in Ha; split; intros Hx; done || eauto using is_Some_None.
Qed.

Lemma grow_later : later v v'.
Proof.
  pose proof (storeNode_inv _ _ _ _ Hs) as (_ & Hn & _). cbn [heap] in Hn. split.
  - rewrite Hn. apply (gr_next _ _ _ _ _ _ Hg).
  - intros a Ha. rewrite grow_arrays. intros Hx. destruct (decide (a = from)) as [->|Hf].
    + destruct (from_array) as [b Hb]; [|by eexists]. intros Hz. destruct (gr_wf _ _ _ _ _ _ Hg) as [_ H].
      specialize (H _ Hx). lia.
    + destruct (decide (a = to)) as [->|Ht]; [|by rewrite (gr_other _ _ _ _ _ _ Hg) in Hx].
      destruct (gr_array _ _ _ _ _ _ Hg) as [?|[? _]]; [congruence|lia].
Qed.

Lemma grow_pointsTo q : q ∈ locs -> pointsTo v' q (f q).
Proof.
  intros Hin. destruct q as [|a i]; [by left|]. cbn [shift]. case_decide as E; [|by left]. subst a.
  destruct (gr_array _ _ _ _ _ _ Hg) as [Ht|[_ Hn]]; [left; congruence|]. right.
  destruct (ni_live _ _ _ Hinv _ Hin) as [m Hm%loaded_range]. pose proof grow_later as [Hnext _]. split; [lia|].
  apply eq_None_not_Some. rewrite grow_arrays, Hn. by intros [].
Qed.
End Growth.

(** Nodes, locations and the lock after edits of a file system. *)
Definition evolves (v : Vfs) (locs : list NodePtr) (held : option NodePtr)
    (v' : Vfs) (locs' : list NodePtr) (held' : option NodePtr) : Prop :=
  nodes_inv v' locs' held' /\ later v v' /\ moved v' locs locs' /\ option_Forall2 (pointsTo v') held held'.

Lemma addChild_inv v p c v' locs held :
  (forall n, kmallocFits n = true -> n < 2 ^ 60) ->
  nodes_inv v locs held -> openCount c = 0 -> lock c = false -> children c = Vector_init ->
  addChild kmallocFits v p c = Ok v' -> exists locs' held', evolves v locs held v' locs' held'.
Proof.
  intros Hfits Hinv H1 H2 H3 E. apply obind_ok in E as (d & Hd & E). apply obind_ok in E as ([cs h'] & Ep & Hs).
  apply (push_back_grew FileNode_zero kmallocFits) in Ep as Hg; [|done|apply (ni_heap _ _ _ Hinv)|by apply (ni_vector _ _ _ Hinv p)].
  pose proof (conj H1 (conj H2 H3)) as Hc. exists (shift (data (children d)) (data cs) <$> locs), (shift (data (children d)) (data cs) <$> held).
  split; [by eapply grow_inv|]. split; [by eapply grow_later|]. split.
  - unfold moved. rewrite Forall2_fmap_r. apply Forall_Forall2_diag, Forall_forall. intros q Hq. by eapply grow_pointsTo.
  - destruct held as [q|]; constructor. eapply grow_pointsTo; eauto using ni_held.
Qed.

Lemma edit_inv v v' locs held :
  (forall n, kmallocFits n = true -> n < 2 ^ 60) ->
  fsEdit kmallocFits v v' -> nodes_inv v locs held -> exists locs' held', evolves v locs held v' locs' held'.
Proof.
  intros Hfits Hs Hinv.
  assert (Hsame : nodes_inv v' locs held -> later v v' -> evolves v locs held v' locs held).
  { intros H1 H2. split; [done|]. split; [done|]. split; [apply moved_refl|]. destruct held; constructor. by left. }
  destruct Hs as [v m|v p n n' v' Hn Hl Ho Hc E|v p c v' H1 H2 H3 E].
  - exists locs, held. apply Hsame; [|done]. destruct Hinv. constructor; assumption.
  - exists locs, held. apply Hsame; [|by destruct (store_later _ _ _ _ E)]. destruct (ni_node _ _ _ Hinv p n Hn) as [Hl' Ho'].
    eapply (store_inv v locs held locs held p n n'); [done|done|done|done|congruence|congruence|done| |by apply (ni_held _ _ _ Hinv)].
    intros q Hq. split; [by apply (ni_live _ _ _ Hinv)|]. intros r m i -> Hr.
    destruct (Z.lt_ge_cases i (size (children m))) as [|Hge]; [done|]. exfalso.
    destruct (ni_live _ _ _ Hinv _ Hq) as [k Hk%(loaded_range v locs held Hinv)]. apply (ni_slot _ _ _ Hinv r m i Hr); [lia|done|done].
  - by eapply addChild_inv.
Qed.

Lemma edits_inv v v' locs held :
  (forall n, kmallocFits n = true -> n < 2 ^ 60) ->
  star (fsEdit kmallocFits) v v' -> nodes_inv v locs held -> exists locs' held', evolves v locs held v' locs' held'.
Proof.
  intros Hfits Hs. revert locs held. induction Hs as [v|v1 v2 v3 Hs _ IH]; intros locs held Hinv.
  - exists locs, held. split; [done|]. split; [done|]. split; [apply moved_refl|]. destruct held; constructor. by left.
  - destruct (edit_inv v1 v2 locs held Hfits Hs Hinv) as (l2 & k2 & I2 & L2 & M2 & H2).
    destruct (IH l2 k2 I2) as (l3 & k3 & I3 & L3 & M3 & H3). exists l3, k3. split; [done|]. split; [by eapply later_trans|].
    split; [by eapply moved_trans|]. destruct H2; inversion H3; subst; constructor. by eapply pointsTo_trans.
Qed.

(** ** Operations

    All file systems keep to the interface. *)
Context (Hfits : forall n, kmallocFits n = true -> n < 2 ^ 60).
Context (Hedits : forall pr f, providers pr = Some f -> FsEdits kmallocFits f).

(** A pointer a handle may be opened on. *)
Definition slotOk (v : Vfs) (q : NodePtr) : Prop :=
  forall r m i, q = Child (data (children m)) i -> loadNode v r = Ok m -> i < size (children m).

Lemma loc_slotOk v locs held q : nodes_inv v locs held -> q ∈ locs -> slotOk v q.
Proof.
  intros Hinv Hq r m i -> Hr. destruct (ni_live _ _ _ Hinv _ Hq) as [k Hk%(loaded_range v locs held Hinv)].
  destruct (Z.lt_ge_cases i (size (children m))) as [|Hge]; [done|]. exfalso. apply (ni_slot _ _ _ Hinv r m i Hr); [lia|done|done].
Qed.

Lemma slotOk_store v p n n' v' q :
  loadNode v p = Ok n -> storeNode v p n' = Ok v' -> children n' = children n -> slotOk v q -> slotOk v' q.
Proof.
  intros Hn Hs Hc Hq r m i E Hr. apply storeNode_inv in Hs as (_ & _ & _ & _ & Hl). rewrite Hl in Hr.
  destruct (decide (r = p)) as [->|]; [|by apply (Hq r)]. injection Hr as <-. rewrite Hc in *. by apply (Hq p).
Qed.

Lemma acquire_inv v locs p v' :
  nodes_inv v locs None -> p ∈ locs -> acquireNode v p = Ok v' -> nodes_inv v' locs (Some p) /\ later v v'.
Proof.
  intros Hinv Hp E. apply obind_ok in E as (n & Hn & E). destruct (lock n) eqn:Hl; [done|].
  split; [|by destruct (store_later _ _ _ _ E)]. destruct (ni_node _ _ _ Hinv p n Hn) as [_ Ho].
  eapply (store_inv v locs None locs (Some p) p n); [done|done|done|done|by rewrite bool_decide_eq_true_2|done|..].
  - intros q Hne. split; [|done]. split; [congruence|done].
  - intros q Hq. split; [by apply (ni_live _ _ _ Hinv)|by eapply loc_slotOk].
  - by intros q [= <-].
Qed.

Lemma release_inv v locs p v' :
  nodes_inv v locs (Some p) -> releaseNode v p = Ok v' -> nodes_inv v' locs None /\ later v v'.
Proof.
  intros Hinv E. apply obind_ok in E as (n & Hn & E). split; [|by destruct (store_later _ _ _ _ E)].
  destruct (ni_node _ _ _ Hinv p n Hn) as [_ Ho].
  eapply (store_inv v locs (Some p) locs None p n); [done|done|done|done|by rewrite bool_decide_eq_false_2|done|..|done].
  - intros q Hne. split; [|done]. split; [done|congruence].
  - intros q Hq. split; [by apply (ni_live _ _ _ Hinv)|by eapply loc_slotOk].
Qed.

(** The count of a node changed under its lock. *)
Lemma counted_inv v p c A (K : Vfs -> outcome A) r :
  (let! v := acquireNode v p in
   let! n := loadNode v p in
   let! v := storeNode v p (set_openCount n (c (openCount n))) in
   let! v := releaseNode v p in K v) = Ok r ->
  exists n v', loadNode v p = Ok n /\ storeNode v p (set_openCount n (c (openCount n))) = Ok v' /\ K v' = Ok r.
Proof.
  intros E. destruct (loadNode v p) as [n| | |] eqn:Hn; try (by unfold acquireNode in E; rewrite Hn in E).
  destruct (lock n) eqn:Hl; [by unfold acquireNode in E; rewrite Hn in E; cbn [obind] in E; rewrite Hl in E|].
  destruct (counted_section v p n c Hn Hl) as (v1 & E1 & E2 & _).
  apply obind_ok in E as (va & Ea & E). rewrite Ea in E1. cbn [obind] in E1.
  apply obind_ok in E as (na & Ena & E). rewrite Ena in E1. cbn [obind] in E1.
  apply obind_ok in E as (vb & Eb & E). rewrite Eb in E1. cbn [obind] in E1. rewrite E1 in E. cbn [obind] in E.
  by exists n, v1.
Qed.

Lemma opened_inv v locs held p n v' :
  nodes_inv v locs held -> loadNode v p = Ok n -> slotOk v p ->
  storeNode v p (set_openCount n (u64 (openCount n + 1))) = Ok v' -> nodes_inv v' (p :: locs) held /\ later v v'.
Proof.
  intros Hinv Hn Hp E. split; [|by destruct (store_later _ _ _ _ E)]. destruct (ni_node _ _ _ Hinv p n Hn) as [Hl Ho].
  eapply (store_inv v locs held (p :: locs) held p n); [done|done|done|done|done|..].
  - cbn [set_openCount openCount countOn]. rewrite bool_decide_eq_true_2, Ho, wrap_add_l by done. f_equal. lia.
  - intros q Hne. split; [done|]. cbn [countOn]. by rewrite bool_decide_eq_false_2 by done.
  - intros q [->|Hq]%elem_of_cons; [by split; [eexists|]|]. split; [by apply (ni_live _ _ _ Hinv)|by eapply loc_slotOk].
  - intros q Hq. constructor. by apply (ni_held _ _ _ Hinv).
Qed.

Lemma closed_inv v locs i p n v' :
  nodes_inv v locs None -> locs !! i = Some p -> loadNode v p = Ok n ->
  storeNode v p (set_openCount n (u64 (openCount n - 1))) = Ok v' -> nodes_inv v' (delete i locs) None /\ later v v'.
Proof.
  intros Hinv Hi Hn E. split; [|by destruct (store_later _ _ _ _ E)]. destruct (ni_node _ _ _ Hinv p n Hn) as [Hl Ho].
  eapply (store_inv v locs None (delete i locs) None p n); [done|done|done|done|done|..|done].
  - cbn [set_openCount openCount]. rewrite Ho, (countOn_delete locs i p p Hi), bool_decide_eq_true_2 by done.
    unfold Z.sub. rewrite wrap_add_l. f_equal. lia.
  - intros q Hne. split; [done|]. rewrite (countOn_delete locs i p q Hi). by rewrite bool_decide_eq_false_2 by done.
  - intros q Hq%list_elem_of_delete_inv. split; [by apply (ni_live _ _ _ Hinv)|by eapply loc_slotOk].
Qed.

Lemma FileHandle_of_inv v p w h v' :
  FileHandle_of v p w = Ok (h, v') ->
  h = mkFileHandle (Some p) w true OKAY /\
  exists n, loadNode v p = Ok n /\ storeNode v p (set_openCount n (u64 (openCount n + 1))) = Ok v'.
Proof.
  intros E. apply (counted_inv v p (fun c => u64 (c + 1))) in E as (n & v1 & Hn & Hs & [= <- <-]). split; [done|]. by exists n.
Qed.

(** The end of an operation: the locations moved along, every lock free. *)
Definition after (v : Vfs) (locs : list NodePtr) (v' : Vfs) : Prop :=
  exists locs', nodes_inv v' locs' None /\ later v v' /\ moved v' locs locs'.

(** A handle that changed nothing but its error. *)
Definition same (h h' : FileHandle) : Prop := h_node h' = h_node h /\ open h' = open h.

(** What [result] of an operation that opens a node holds. *)
Definition carries (v : Vfs) (locs : list NodePtr) (h : FileHandle) : Prop :=
  if open h then exists q, holds v h q /\ nodes_inv v (q :: locs) None else h_node h = None /\ nodes_inv v locs None.

(** The handle's pointer is good where the operation takes the lock. *)
Lemma enter v h p A (K : NodePtr -> Vfs -> outcome A) r :
  holds v h p ->
  (let! q := handleNode h in let! v1 := acquireNode v q in K q v1) = Ok r ->
  h_node h = Some p /\ exists v1, acquireNode v p = Ok v1 /\ K p v1 = Ok r.
Proof.
  intros (_ & q & Hq & Hp) E. unfold handleNode in E. rewrite Hq in E. cbn [of_option obind] in E.
  apply obind_ok in E as (v1 & E1 & E). apply obind_ok in E1 as Hn. destruct Hn as (n & Hn & _).
  pose proof (pointsTo_live _ _ _ _ Hp Hn) as ->. split; [done|]. by exists v1.
Qed.

(** Under the lock of [p], which the end shows was not moved. *)
Lemma locked_edits v locs p v' n :
  nodes_inv v locs (Some p) -> star (fsEdit kmallocFits) v v' -> loadNode v' p = Ok n ->
  exists locs', nodes_inv v' locs' (Some p) /\ later v v' /\ moved v' locs locs'.
Proof.
  intros Hinv Hs Hn. destruct (edits_inv v v' locs (Some p) Hfits Hs Hinv) as (locs' & held' & I & L & M & H).
  inversion H as [x q Hq|]; subst. apply pointsTo_live with (n := n) in Hq as ->; [|done]. by exists locs'.
Qed.

Lemma locked_inv v locs p v1 v2 v3 :
  nodes_inv v locs None -> p ∈ locs -> acquireNode v p = Ok v1 -> star (fsEdit kmallocFits) v1 v2 ->
  releaseNode v2 p = Ok v3 -> after v locs v3.
Proof.
  intros Hinv Hp E1 Hs E3. destruct (acquire_inv v locs p v1 Hinv Hp E1) as [I1 L1].
  assert (Hn : exists n, loadNode v2 p = Ok n) by (apply obind_ok in E3 as (n & Hn & _); by exists n).
  destruct Hn as [n Hn]. destruct (locked_edits v1 locs p v2 n I1 Hs Hn) as (locs' & I2 & L2 & M2).
  destruct (release_inv v2 locs' p v3 I2 E3) as [I3 L3]. exists locs'. split; [done|].
  split; [by eapply later_trans, later_trans|]. eapply moved_trans; [exact L3|exact M2|apply moved_refl].
Qed.

Lemma populate_edits v p v' : populate providers v p = Ok v' -> star (fsEdit kmallocFits) v v'.
Proof.
  intros E. apply obind_ok in E as (n & _ & E). destruct (negb (populated n)); [|inv_ok; apply star_refl].
  apply obind_ok in E as (f & Hf & E). unfold provider in Hf. destruct (providers (fsProvider n)) as [g|] eqn:Eg; [|done].
  injection Hf as ->. destruct (Hedits _ _ Eg). eauto.
Qed.

Section Operations.
Context (v : Vfs) (locs : list NodePtr) (h : FileHandle) (p : NodePtr) (v' : Vfs).
Context (Hinv : nodes_inv v locs None) (Hp : p ∈ locs) (Hh : holds v h p).

Lemma getType_run r : getType h v = Ok (r, v') -> after v locs v'.
Proof.
  unfold getType. rewrite (proj1 Hh). intros (_ & v1 & E1 & E)%(enter v h p); [|done].
  apply obind_ok in E as (n & _ & E). apply obind_ok in E as (v2 & E2 & [= <- <-]). eapply locked_inv; eauto using star_refl.
Qed.

Lemma findChild_run nm r h' : findChild providers h v nm = Ok (r, (h', v')) -> same h h' /\ after v locs v'.
Proof.
  unfold findChild. rewrite (proj1 Hh). intros (_ & v1 & E1 & E)%(enter v h p); [|done].
  apply obind_ok in E as (n & _ & E). case_bool_decide.
  - apply obind_ok in E as (v2 & E2%populate_edits & E). apply obind_ok in E as (m & _ & E). apply obind_ok in E as (k & _ & E).
    apply obind_ok in E as (v3 & E3 & [= <- <- <-]). split; [done|]. by eapply locked_inv.
  - apply obind_ok in E as (v2 & E2 & [= <- <- <-]). split; [done|]. eapply locked_inv; eauto using star_refl.
Qed.

Lemma childName_run index r h' : childName providers h v index = Ok (r, (h', v')) -> same h h' /\ after v locs v'.
Proof.
  unfold childName. rewrite (proj1 Hh). intros (_ & v1 & E1 & E)%(enter v h p); [|done].
  apply obind_ok in E as (n & _ & E). case_bool_decide.
  - apply obind_ok in E as (v2 & E2%populate_edits & E). apply obind_ok in E as (m & _ & E). destruct (index <? _).
    + apply obind_ok in E as (c & _ & E). apply obind_ok in E as (cn & _ & E).
      apply obind_ok in E as (v3 & E3 & [= <- <- <-]). split; [done|]. by eapply locked_inv.
    + apply obind_ok in E as (v3 & E3 & [= <- <- <-]). split; [done|]. by eapply locked_inv.
  - apply obind_ok in E as (v2 & E2 & [= <- <- <-]). split; [done|]. eapply locked_inv; eauto using star_refl.
Qed.

Lemma provider_edits pr f : provider providers pr = Ok f -> FsEdits kmallocFits f.
Proof. unfold provider. destruct (providers pr) as [g|] eqn:Eg; [|done]. intros [= ->]. by eapply Hedits. Qed.

Lemma read_run o l b r h' : read providers h v o l b = Ok (r, (h', v')) -> same h h' /\ after v locs v'.
Proof.
  unfold read. rewrite (proj1 Hh). intros (_ & v1 & E1 & E)%(enter v h p); [|done].
  apply obind_ok in E as (n & _ & E). case_bool_decide.
  - apply obind_ok in E as (f & [Hr _ _ _ _]%provider_edits & E). apply obind_ok in E as ([k v2] & E2 & E).
    apply obind_ok in E as (v3 & E3 & [= <- <- <-]). split; [done|]. eapply locked_inv; eauto.
  - apply obind_ok in E as (v2 & E2 & [= <- <- <-]). split; [done|]. eapply locked_inv; eauto using star_refl.
Qed.

Lemma after_refl : after v locs v.
Proof. exists locs. split; [done|]. split; [apply later_refl|apply moved_refl]. Qed.

Lemma write_run o l b r h' : write providers h v o l b = Ok (r, (h', v')) -> same h h' /\ after v locs v'.
Proof.
  unfold write. rewrite (proj1 Hh). destruct (writable h); cbn [andb negb]; [|intros [= <- <- <-]; by split; [|apply after_refl]].
  intros (_ & v1 & E1 & E)%(enter v h p); [|done].
  apply obind_ok in E as (n & _ & E). case_bool_decide.
  - apply obind_ok in E as (f & [_ Hw _ _ _]%provider_edits & E). apply obind_ok in E as ([k v2] & E2 & E).
    apply obind_ok in E as (v3 & E3 & [= <- <- <-]). split; [done|]. eapply locked_inv; eauto.
  - apply obind_ok in E as (v2 & E2 & [= <- <- <-]). split; [done|]. eapply locked_inv; eauto using star_refl.
Qed.

Lemma mount_run fs h' : mount providers h v fs = Ok (h', v') -> same h h' /\ after v locs v'.
Proof.
  unfold mount. rewrite (proj1 Hh). destruct (writable h); [|intros [= <- <-]; by split; [|apply after_refl]].
  intros (_ & v1 & E1 & E)%(enter v h p); [|done].
  apply obind_ok in E as (n & _ & E). case_bool_decide; [destruct (_ && _)|];
    try (apply obind_ok in E as (v2 & E2 & [= <- <-]); split; [done|]; eapply locked_inv; eauto using star_refl).
  apply obind_ok in E as (v2 & E2 & E). apply obind_ok in E as (m & Hm & E). apply obind_ok in E as (v3 & E3 & E).
  apply obind_ok in E as (v4 & E4 & E). apply obind_ok in E as (v5 & E5 & [= <- <-]). split; [done|].
  eapply locked_inv; [done|done|exact E1| |exact E5]. eapply star_trans; [|eapply star_step].
  - destruct (negb _); [|inv_ok; apply star_refl].
    apply obind_ok in E2 as (f & [_ _ _ _ Hf]%provider_edits & E2). by eapply Hf.
  - by eapply (fe_node _ v2 p m (set_provider m fs false)).
  - apply obind_ok in E4 as (f & [_ _ _ Hi _]%provider_edits & E4). by eapply Hi.
Qed.

Lemma close_run i h' : locs !! i = Some p -> close h v = Ok (h', v') -> nodes_inv v' (delete i locs) None /\ later v v' /\
  (slotOk v p -> slotOk v' p).
Proof.
  intros Hi. clear Hp. unfold close. destruct Hh as (Ho & q & Hq & Hpq). rewrite Ho. unfold handleNode. rewrite Hq. cbn [of_option obind].
  intros (n & v1 & Hn & Hs & [= <- <-])%(counted_inv v q (fun c => u64 (c - 1))).
  pose proof (pointsTo_live _ _ _ _ Hpq Hn) as ->. destruct (closed_inv v locs i q n v1 Hinv Hi Hn Hs) as [I L].
  split; [done|]. split; [done|]. by eapply slotOk_store.
Qed.

Lemma openChild_run index w r h' :
  openChild providers h v index w = Ok (r, (h', v')) ->
  same h h' /\ exists locs', later v v' /\ moved v' locs locs' /\ carries v' locs' r.
Proof.
  assert (Hempty : after v locs v' -> exists locs', later v v' /\ moved v' locs locs' /\ carries v' locs' FileHandle_empty)
    by (intros (l & ? & ? & ?); by exists l).
  unfold openChild. rewrite (proj1 Hh). intros (_ & v1 & E1 & E)%(enter v h p); [|done].
  apply obind_ok in E as (n & _ & E). case_bool_decide;
    [|apply obind_ok in E as (v2 & E2 & [= <- <- <-]); split; [done|]; apply Hempty; eapply locked_inv; eauto using star_refl].
  apply obind_ok in E as (v2 & E2%populate_edits & E). apply obind_ok in E as (m & Hm & E). destruct (index <? _) eqn:Ei;
    [|apply obind_ok in E as (v3 & E3 & [= <- <- <-]); split; [done|]; apply Hempty; by eapply locked_inv].
  apply obind_ok in E as (c & Hc & E). apply obind_ok in E as ([x v3] & E3 & E). apply obind_ok in E as (v4 & E4 & [= <- <- <-]).
  split; [done|]. destruct (acquire_inv v locs p v1 Hinv Hp E1) as [I1 L1].
  destruct (locked_edits v1 locs p v2 m I1 E2 Hm) as (locs' & I2 & L2 & M2). exists locs'.
  apply FileHandle_of_inv in E3 as (-> & k & Hk & Hs).
  assert (Hslot : slotOk v2 c).
  { unfold getSize in Ei. unfold childPointer, Vector_index in Hc. rewrite Ei in Hc. cbn [andb] in Hc. destruct (0 <=? index); [|done].
    injection Hc as <-. intros r b i [= E Eq] Hr. subst i. pose proof (loaded_range v2 locs' _ I2 _ _ _ Hk).
    assert (p = r) as -> by (eapply (ni_owner _ _ _ I2); [exact Hm|exact Hr|done|lia]).
    apply Z.ltb_lt in Ei. rewrite Hm in Hr. by injection Hr as <-. }
  destruct (opened_inv v2 locs' _ c k v3 I2 Hk Hslot Hs) as [I3 L3]. destruct (release_inv v3 _ p v4 I3 E4) as [I4 L4].
  split; [by repeat (eapply later_trans; [eassumption|])|]. split.
  - eapply (moved_trans v2 v4); [by eapply later_trans|exact M2|apply moved_refl].
  - cbn [carries open]. exists c. split; [|done]. split; [done|]. exists c. split; [done|by left].
Qed.
End Operations.

Lemma same_holds v h h' p : same h h' -> holds v h p -> holds v h' p.
Proof. intros [Hn Ho] [H1 H2]. split; [by rewrite Ho|by rewrite Hn]. Qed.

(** The walk holds at most one handle, and hands it over, or closes it when it
    fails. *)
Lemma walk_run fuel : forall v locs current path r v',
  carries v locs current -> walk providers fuel v current path = Ok (r, v') ->
  exists locs', later v v' /\ moved v' locs locs' /\
    match r with Some h => carries v' locs' h | None => nodes_inv v' locs' None end.
Proof.
  assert (Hstay : forall v locs h, carries v locs h -> exists locs', later v v /\ moved v locs locs' /\ carries v locs' h)
    by (intros v locs h H; exists locs; split; [apply later_refl|]; split; [apply moved_refl|done]).
  induction fuel as [|fuel IH]; intros v locs current path r v' Hc E; cbn [walk] in E;
    (destruct (0 <? _); [|injection E as <- <-; by apply Hstay]); [done|].
  apply obind_ok in E as (path' & _ & E). destruct (_ =? 0); [injection E as <- <-; by apply Hstay|].
  apply obind_ok in E as ([i [h1 v1]] & E1 & E). unfold carries in Hc. destruct (open current) eqn:Eo; cycle 1.
  { unfold findChild in E1. rewrite Eo in E1. injection E1 as <- <- <-. cbn [Z.eqb] in E. rewrite Z.eqb_refl in E.
    unfold close in E. rewrite Eo in E. injection E as <- <-. exists locs. split; [apply later_refl|]. split; [apply moved_refl|].
    apply Hc. }
  destruct Hc as (p & Hh & Hinv). destruct (findChild_run v (p :: locs) current p v1 Hinv ltac:(constructor) Hh _ _ _ E1)
    as [Hsame (l1 & I1 & L1 & M1)]. inversion M1 as [|x p1 y l1' Hp1 M1']; subst. clear M1.
  assert (Hh1 : holds v1 h1 p1) by (eapply same_holds; [done|]; by eapply holds_later).
  destruct (i =? SIZE_MAX).
  - apply obind_ok in E as ([h2 v2] & E2 & E). injection E as <- <-.
    destruct (close_run v1 (p1 :: l1') h1 p1 v2 I1 Hh1 0%nat h2 eq_refl E2) as (I2 & L2 & _). exists l1'.
    split; [by eapply later_trans|]. split; [|done]. eapply moved_trans; [exact L2|exact M1'|apply moved_refl].
  - apply obind_ok in E as ([h2 [h3 v2]] & E2 & E). apply obind_ok in E as ([h4 v3] & E3 & E).
    destruct (openChild_run v1 (p1 :: l1') h1 p1 v2 I1 ltac:(constructor) Hh1 _ _ _ _ E2) as (Hsame2 & l2 & L2 & M2 & C2).
    inversion M2 as [|x p2 y l2' Hp2 M2']; subst. clear M2.
    assert (Hh3 : holds v2 h3 p2) by (eapply same_holds; [done|]; by eapply holds_later).
    assert (C3 : carries v3 l2' h2 /\ later v2 v3).
    { unfold carries in *. destruct (open h2).
      - destruct C2 as (q & Hq & I2). destruct (close_run v2 (q :: p2 :: l2') h3 p2 v3 I2 Hh3 1%nat h4 eq_refl E3) as (I3 & L3 & _).
        split; [|done]. exists q. split; [|done]. eapply holds_later; [exact L3|exact Hq|by left].
      - destruct C2 as (Hn & I2). destruct (close_run v2 (p2 :: l2') h3 p2 v3 I2 Hh3 0%nat h4 eq_refl E3) as (I3 & L3 & _). by split. }
    destruct C3 as [C3 L3]. destruct (IH v3 l2' h2 _ r v' C3 E) as (l4 & L4 & M4 & H4). exists l4.
    split; [by repeat (eapply later_trans; [eassumption|])|]. split; [|done].
    eapply (moved_trans v3 v'); [done| |exact M4]. eapply (moved_trans v2 v3); [done| |apply moved_refl].
    by eapply (moved_trans v1 v2).
Qed.

Lemma carries_open v p w h locs v' :
  nodes_inv v locs None -> slotOk v p -> FileHandle_of v p w = Ok (h, v') -> carries v' locs h /\ later v v'.
Proof.
  intros Hinv Hp (-> & n & Hn & Hs)%FileHandle_of_inv. destruct (opened_inv v locs None p n v' Hinv Hn Hp Hs) as [I L].
  split; [|done]. cbn [carries open]. exists p. split; [|done]. split; [done|]. exists p. split; [done|by left].
Qed.

Lemma FileHandle_open_run v locs path w h v' :
  nodes_inv v locs None -> FileHandle_open providers v path w = Ok (h, v') ->
  exists locs', later v v' /\ moved v' locs locs' /\ carries v' locs' h.
Proof.
  intros Hinv E. apply obind_ok in E as ([h1 v1] & E1 & E). apply obind_ok in E as ([r v2] & E2 & E).
  destruct (carries_open v Root false h1 locs v1 Hinv ltac:(by intros ? ? ?) E1) as [C1 L1].
  destruct (walk_run _ v1 locs h1 path r v2 C1 E2) as (l2 & L2 & M2 & H2). destruct r as [cur|].
  - apply obind_ok in E as (p & Hp & E). apply obind_ok in E as ([h3 v3] & E3 & E). unfold handleNode in Hp.
    destruct (h_node cur) as [p'|] eqn:Hn; [|done]. injection Hp as <-.
    unfold carries in H2. destruct (open cur) eqn:Eo; [|destruct H2; congruence]. destruct H2 as (q & Hq & I2).
    pose proof Hq as (_ & p0 & Hp0 & Hq0).
    destruct (close_run v2 (q :: l2) cur q v3 I2 Hq 0%nat h3 eq_refl E3) as (I3 & L3 & Hs3).
    assert (Hqp : q = p') by (destruct Hq0 as [->|Hg]; [congruence|]; unfold close, handleNode in E3; rewrite Eo, Hn in E3;
      cbn [of_option obind] in E3; unfold acquireNode in E3; rewrite gone_load in E3 by congruence; done). subst p'.
    destruct (carries_open v3 q w h l2 v' I3 (Hs3 (loc_slotOk _ _ _ _ I2 ltac:(constructor)))) as [C4 L4]; [exact E|].
    exists l2. split; [by repeat (eapply later_trans; [eassumption|])|]. split; [|done].
    eapply (moved_trans v2 v'); [by eapply later_trans|exact M2|apply moved_refl].
  - injection E as <- <-. exists l2. split; [by eapply later_trans|]. by split.
Qed.

(** ** Histories of handles *)

Definition handles_inv (s : Vfs * list FileHandle) (locs : list NodePtr) : Prop :=
  nodes_inv s.1 locs None /\ Forall2 (holds s.1) s.2 locs.

Lemma handles_after v locs v' hs i h h' :
  Forall2 (holds v) hs locs -> hs !! i = Some h -> same h h' -> after v locs v' ->
  exists locs', handles_inv (v', <[i := h']> hs) locs'.
Proof.
  intros Hf Hi Hs (l & I & L & M). exists l. split; [done|]. cbn [fst snd]. pose proof (holds_moved _ _ _ _ _ L Hf M) as H.
  destruct (Forall2_lookup_l _ _ _ _ _ H Hi) as (p & Hp & Hh). rewrite <- (list_insert_id l i p Hp).
  apply Forall2_insert; [done|]. by eapply same_holds.
Qed.

Lemma handles_opened v locs v' hs r :
  Forall2 (holds v) hs locs -> (exists locs', later v v' /\ moved v' locs locs' /\ carries v' locs' r) ->
  exists locs', handles_inv (v', if open r then r :: hs else hs) locs'.
Proof.
  intros Hf (l & L & M & C). pose proof (holds_moved _ _ _ _ _ L Hf M) as H. unfold carries in C. destruct (open r).
  - destruct C as (q & Hq & I). exists (q :: l). split; [done|]. by constructor.
  - destruct C as [_ I]. by exists l.
Qed.

Lemma Forall2_same v hs locs i h h' :
  Forall2 (holds v) hs locs -> hs !! i = Some h -> same h h' -> Forall2 (holds v) (<[i := h']> hs) locs.
Proof.
  intros H Hi Hs. destruct (Forall2_lookup_l _ _ _ _ _ H Hi) as (p & Hp & Hh). rewrite <- (list_insert_id locs i p Hp).
  apply Forall2_insert; [done|]. by eapply same_holds.
Qed.

Lemma handle_step_inv s s' : handle_step s s' -> (exists locs, handles_inv s locs) -> exists locs, handles_inv s' locs.
Proof.
  intros Hs [locs [Hinv Hf]].
  destruct Hs as [v hs path w h v' E|v hs i h index w r h' v' Hi E|v hs i h h' v' Hi E|v hs i h nm r h' v' Hi E
    |v hs i h index r h' v' Hi E|v hs i h r v' Hi E|v hs i h o l b r h' v' Hi E|v hs i h o l b r h' v' Hi E|v hs i h fs h' v' Hi E];
    cbn [fst snd] in Hinv, Hf;
    [eapply handles_opened; [exact Hf|by eapply FileHandle_open_run]|..];
    destruct (Forall2_lookup_l _ _ _ _ _ Hf Hi) as (p & Hp & Hh); pose proof (list_elem_of_lookup_2 _ _ _ Hp) as Hin.
  - destruct (openChild_run v locs h p v' Hinv Hin Hh _ _ _ _ E) as [Hs Ho].
    eapply handles_opened; [|exact Ho]. by eapply Forall2_same.
  - destruct (close_run v locs h p v' Hinv Hh i h' Hp E) as (I & L & _). exists (delete i locs). split; [done|]. cbn [fst snd].
    eapply Forall2_delete. eapply holds_moved; [exact L|exact Hf|apply moved_refl].
  - destruct (findChild_run v locs h p v' Hinv Hin Hh _ _ _ E). by eapply handles_after.
  - destruct (childName_run v locs h p v' Hinv Hin Hh _ _ _ E). by eapply handles_after.
  - pose proof (getType_run v locs h p v' Hinv Hin Hh _ E) as Ha. rewrite <- (list_insert_id hs i h Hi). by eapply handles_after.
  - destruct (read_run v locs h p v' Hinv Hin Hh _ _ _ _ _ E). by eapply handles_after.
  - destruct (write_run v locs h p v' Hinv Hin Hh _ _ _ _ _ E). by eapply handles_after.
  - destruct (mount_run v locs h p v' Hinv Hin Hh _ _ E). by eapply handles_after.
Qed.

Lemma init_inv n m : 0 < n -> handles_inv (Vfs_init (mkHeap ∅ n) m, []) [].
Proof.
  intros Hn. split; [|constructor]. cbn [fst].
  assert (Hroot : forall p x, loadNode (Vfs_init (mkHeap ∅ n) m) p = Ok x -> p = Root /\ x = root (Vfs_init (mkHeap ∅ n) m)).
  { intros [|a i] x; [by intros [= <-]|]. intros (_ & l & Hl & _)%loadElement_inv. cbn in Hl. by rewrite lookup_empty in Hl. }
  constructor.
  - split; [done|]. cbn. intros a [x Hx]. by rewrite lookup_empty in Hx.
  - by intros p x [-> ->]%Hroot.
  - intros p x [-> ->]%Hroot. split; [cbn; lia|]. by split.
  - by intros p q x y [-> ->]%Hroot [-> ->]%Hroot.
  - by intros p Hp%not_elem_of_nil.
  - by intros p x i [-> ->]%Hroot.
  - done.
Qed.
End Handles.

(** ** A history on the RAM file system

    The root is opened and the RAM file system mounted on it; then its file
    [foobar] is opened by its path and as the second child of the root. *)
Definition aFits (n : Z) : bool := n <? 2 ^ 60.
Definition aProviders : Z -> option FsProvider := fun p => if p =? 7 then Some (Initramfs aFits 7 someFs) else None.
Definition unmounted : Vfs := Vfs_init (mkHeap ∅ 1) pathMemory.

Definition history (providers : Z -> option FsProvider) (v0 : Vfs) (fs : Z) (path : Str) (index : Z) : outcome (Vfs * list FileHandle) :=
  let! '(r, v) := FileHandle_open providers v0 Str_null true in
  let! '(r', v) := mount providers r v fs in
  let! '(f, v) := FileHandle_open providers v path false in
  let! '(c, (r'', v)) := openChild providers r' v index false in
  if open r && open f && open c then Ok (v, [c; f; r'']) else Fault.

Lemma aHistory_nodes :
  observe (history aProviders unmounted 7 (mkStr 8192 7) 1) (fun s => (h_node <$> s.2, observe (loadNode s.1 Root) openCount, observe (loadNode s.1 (Child 1 1)) openCount))
  = Some ([Some (Child 1 1); Some (Child 1 1); Some Root], Some 1, Some 2).
Proof. vm_compute. reflexivity. Qed.

(** Asking the root for the name of its first child lists it again each time;
    the sixth time its children move, and the handle on the file dangles. *)
Fixpoint nameAgain (n : nat) (h : FileHandle) (v : Vfs) : outcome Vfs :=
  match n with
  | O => Ok v
  | S n => let! '(_, (h, v)) := childName aProviders h v 0 in nameAgain n h v
  end.

Definition typeAfter (n : nat) : option (outcome FileType) :=
  observe (let! '(v, hs) := history aProviders unmounted 7 (mkStr 8192 7) 1 in
           match hs with
           | [_; f; r] => let! v := nameAgain n r v in Ok (let! '(t, _) := getType f v in Ok t)
           | _ => Fault
           end) (fun t => t).

Lemma handle_dangles : typeAfter 5 = Some (Ok FILE) /\ typeAfter 6 = Some Fault.
Proof. vm_compute. split; reflexivity. Qed.

Lemma aProviders_edits pr f : aProviders pr = Some f -> FsEdits aFits f.
Proof. unfold aProviders. destruct (pr =? 7); [|done]. intros [= <-]. apply _. Qed.

Lemma history_steps providers v0 fs path index s :
  history providers v0 fs path index = Ok s -> star (handle_step providers) (v0, []) s.
Proof.
  intros E. apply obind_ok in E as ([r v1] & E1 & E). apply obind_ok in E as ([r' v2] & E2 & E).
  apply obind_ok in E as ([f v3] & E3 & E). apply obind_ok in E as ([c [r'' v4]] & E4 & E).
  destruct (open r) eqn:Hr; [|done]. destruct (open f) eqn:Hf; [|done]. destruct (open c) eqn:Hc; [|done].
  injection E as <-.
  pose proof (hs_open providers v0 [] _ _ _ _ E1) as S1. rewrite Hr in S1.
  pose proof (hs_mount providers v1 [r] 0 r fs r' v2 eq_refl E2) as S2. cbn in S2.
  pose proof (hs_open providers v2 [r'] _ _ _ _ E3) as S3. rewrite Hf in S3.
  pose proof (hs_child providers v3 [f; r'] 1 r' _ _ _ _ _ eq_refl E4) as S4. rewrite Hc in S4. cbn in S4.
  eapply star_step; [exact S1|]. eapply star_step; [exact S2|]. eapply star_step; [exact S3|]. by apply star_one.
Qed.

(** The number of handles with a pointer to [p]. *)
Fixpoint handlesOn (hs : list FileHandle) (p : NodePtr) : Z :=
  match hs with
  | [] => 0
  | h :: hs => (if bool_decide (h_node h = Some p) then 1 else 0) + handlesOn hs p
  end.

Lemma handlesOn_locs v hs locs p :
  Forall2 (holds v) hs locs -> (forall h, h ∈ hs -> exists q x, h_node h = Some q /\ loadNode v q = Ok x) ->
  countOn locs p = handlesOn hs p.
Proof.
  induction 1 as [|h q hs locs Hh _ IH]; [done|]. intros Hl. cbn [countOn handlesOn].
  rewrite IH by (intros h' Hh'; apply Hl; by constructor). f_equal.
  destruct Hh as (_ & q' & Hq & Hp). destruct (Hl h ltac:(constructor)) as (r & x & Hr & Hx). assert (r = q') as -> by congruence.
  apply pointsTo_live with (n := x) in Hp as ->; [|done]. rewrite Hq. by rewrite (bool_decide_ext (q' = p) (Some q' = Some p)) by naive_solver.
Qed.

(** A handle whose pointer can be read. *)
Lemma live_handle providers v h p n :
  open h = true -> h_node h = Some p -> loadNode v p = Ok n -> lock n = false ->
  getType h v = Ok (type n, v) /\
  (exists h' v', close h v = Ok (h', v') /\ storeNode v p (set_openCount n (u64 (openCount n - 1))) = Ok v') /\
  (type n = DIRECTORY -> writable h = true -> openCount n <> 1 -> forall fs, mount providers h v fs = Ok (set_error h BUSY, v)).
Proof.
  intros Ho Hh Hn Hl. destruct (locked_section v p n Hn Hl) as (v1 & E1 & E2 & E3 & _).
  split; [|split].
  - unfold getType, handleNode. rewrite Ho, Hh. cbn [of_option obind]. rewrite E1. cbn [obind]. rewrite E2. cbn [obind]. by rewrite E3.
  - destruct (counted_section v p n (fun c => u64 (c - 1)) Hn Hl) as (v' & E4 & E5 & _).
    exists (mkFileHandle None (writable h) (open h) CLOSED), v'. split; [|done]. unfold close, handleNode. rewrite Ho, Hh. cbn [of_option obind].
    destruct (acquireNode v p) as [va| | |]; try done. cbn [obind] in *. destruct (loadNode va p) as [na| | |]; try done. cbn [obind] in *.
    destruct (storeNode va p _) as [vb| | |]; try done. cbn [obind] in *. by rewrite E4.
  - intros Hd Hw Hc fs. unfold mount, handleNode. rewrite Ho, Hw, Hh. cbn [of_option obind]. rewrite E1. cbn [obind]. rewrite E2. cbn [obind].
    cbn [set_lock type children openCount]. rewrite bool_decide_eq_true_2 by done. rewrite (proj2 (Z.eqb_neq _ _) Hc), andb_false_r. by rewrite E3.
Qed.

(** A handle that dangles. *)
Lemma gone_handle providers v h p :
  open h = true -> h_node h = Some p -> gone v p ->
  getType h v = Fault /\ close h v = Fault /\ (forall o l b, read providers h v o l b = Fault) /\
  (forall nm, findChild providers h v nm = Fault) /\ (forall i, childName providers h v i = Fault) /\
  (forall i w, openChild providers h v i w = Fault) /\
  (writable h = true -> (forall o l b, write providers h v o l b = Fault) /\ forall fs, mount providers h v fs = Fault).
Proof.
  intros Ho Hh Hg. unfold getType, close, read, write, mount, findChild, childName, openChild, handleNode, acquireNode. rewrite Ho, Hh.
  cbn [of_option obind andb]. rewrite (gone_load _ _ Hg). repeat (split; [done|]). by intros ->.
Qed.

(** ** Properties *)

(** [C26] After any history of calls that return (opening paths and children,
    searching, naming, reading, writing, mounting and closing), from the
    unmounted root on, with any file systems that change nodes only as
    [FsEdits] allows: each open handle has a node, the open count of every node
    in memory is the number of handles on it, and every lock is free. As long as
    no directory has moved the children a handle is on, the node of a handle is
    where its pointer leads; then the handle can be closed and used, and a
    directory with a second handle on it cannot be mounted over. Otherwise every
    operation faults, but for [write] and [mount] without write permission. *)
Theorem open_counts kmallocFits providers k m v hs :
  (forall n, kmallocFits n = true -> n < 2 ^ 60) ->
  (forall pr f, providers pr = Some f -> FsEdits kmallocFits f) -> 0 < k ->
  star (handle_step providers) (Vfs_init (mkHeap ∅ k) m, []) (v, hs) ->
  (exists locs, List.length locs = List.length hs /\
     (forall p n, loadNode v p = Ok n -> lock n = false /\ openCount n = u64 (countOn locs p)) /\
     forall i h p, hs !! i = Some h -> locs !! i = Some p ->
       exists n, loadNode v p = Ok n /\ open h = true /\
       ((h_node h = Some p /\ getType h v = Ok (type n, v) /\
         (exists h' v', close h v = Ok (h', v') /\ storeNode v p (set_openCount n (u64 (openCount n - 1))) = Ok v') /\
         (type n = DIRECTORY -> writable h = true -> 1 < countOn locs p < 2 ^ 64 ->
            forall fs, mount providers h v fs = Ok (set_error h BUSY, v))) \/
        (exists q, h_node h = Some q /\ gone v q /\ getType h v = Fault /\ close h v = Fault /\
         (forall o l b, read providers h v o l b = Fault) /\ (forall nm, findChild providers h v nm = Fault) /\
         (forall i, childName providers h v i = Fault) /\ (forall i w, openChild providers h v i w = Fault) /\
         (writable h = true -> (forall o l b, write providers h v o l b = Fault) /\ forall fs, mount providers h v fs = Fault)))) /\
  ((forall h, h ∈ hs -> exists q n, h_node h = Some q /\ loadNode v q = Ok n) ->
     forall p n, loadNode v p = Ok n -> openCount n = u64 (handlesOn hs p)).
Proof.
  intros Hfits Hedits Hk Hs.
  assert (Hinv : exists locs, handles_inv (v, hs) locs).
  { apply (star_invariant _ (fun s => exists locs, handles_inv s locs)) with (2 := Hs); [|exists []; by apply init_inv].
    intros s s' Hi Hst. by eapply handle_step_inv. }
  destruct Hinv as [locs [Hinv Hf]]. cbn [fst snd] in *. split.
  - exists locs. split; [symmetry; by eapply Forall2_length|]. split; [intros p n Hn; by destruct (ni_node _ _ _ Hinv p n Hn) as [-> ->]|].
    intros i h p Hi Hp. destruct (ni_live _ _ _ Hinv p (list_elem_of_lookup_2 _ _ _ Hp)) as [n Hn]. exists n. split; [done|].
    destruct (Forall2_lookup_lr _ _ _ _ _ _ Hf Hi Hp) as (Ho & q & Hq & Hpq). split; [done|].
    destruct (ni_node _ _ _ Hinv p n Hn) as [Hl Hc]. destruct Hpq as [->|Hg].
    + left. split; [done|]. destruct (live_handle providers v h q n Ho Hq Hn Hl) as (H1 & H2 & H3). split; [done|]. split; [done|].
      intros Hd Hw Hr. apply H3; [done|done|]. rewrite Hc, u64_small; [lia|]. change (2 ^ 64) with 18446744073709551616 in Hr. lia.
    + right. exists q. split; [done|]. split; [done|]. by apply gone_handle with (p := q).
  - intros Hl p n Hn. rewrite <- (handlesOn_locs v hs locs p Hf Hl). by destruct (ni_node _ _ _ Hinv p n Hn).
Qed.

(** Two of the three handles are on the file. *)
Lemma open_counts_witness :
  exists v hs n r, star (handle_step aProviders) (unmounted, []) (v, hs) /\ List.length hs = 3%nat /\
    loadNode v (Child 1 1) = Ok n /\ openCount n = 2 /\ loadNode v Root = Ok r /\ openCount r = 1.
Proof.
  destruct (outcome_observed _ _ _ aHistory_nodes) as ([v hs] & E & Hn). cbn [fst snd] in Hn.
  pose proof (history_steps _ _ _ _ _ _ E) as Hs. clear E. injection Hn as Hh Hr Hc.
  destruct (outcome_observed _ _ _ Hc) as (n & En & _). change (loadNode v (Child 1 1) = Ok n) in En.
  pose proof (eq_refl : loadNode v Root = Ok (root v)) as Er. exists v, hs, n, (root v). split; [exact Hs|].
  destruct hs as [|h1 [|h2 [|h3 [|]]]]; try discriminate Hh. injection Hh as H1 H2 H3. split; [reflexivity|].
  destruct (open_counts aFits aProviders 1 pathMemory v [h1; h2; h3]) as [_ H].
  - intros k Hk. apply Z.ltb_lt. exact Hk.
  - exact aProviders_edits.
  - lia.
  - exact Hs.
  - assert (Hl : forall h, h ∈ [h1; h2; h3] -> exists q x, h_node h = Some q /\ loadNode v q = Ok x).
    { intros h Hin. rewrite !elem_of_cons in Hin. destruct Hin as [->|[->|[->|Hin]]]; [eauto..|]. by apply not_elem_of_nil in Hin. }
    pose proof (H Hl _ _ En) as Cn. pose proof (H Hl _ _ Er) as Cr. cbn [handlesOn] in Cn, Cr. rewrite H1, H2, H3 in Cn, Cr.
    split; [exact En|]. split; [exact Cn|]. split; [exact Er|exact Cr].
Defined.
