(* ===== verification/Display.v ===== *)
(** * The display ([display.h], [frameBuffer.cpp], [psfRenderer.cpp],
    [stringWriter.cpp])

    The frame buffer and its copy in ordinary memory (the back buffer), as
    bytes of a [Strings.Memory]; bitmaps, glyphs and region copies. The class
    [TextDisplay] is what a text console needs of it, the class
    [TextDisplayLaws] what it promises; the module [Console] is proved against
    the two. *)

From Stdlib Require Import ZArith Lia.
From stdpp Require Import base tactics numbers list.
From S2P Require Import Prelude Strings.

Open Scope Z_scope.

Record Pixel := mkPixel { r : Z; g : Z; b : Z }.

Record FrameBuffer := mkFrameBuffer { pointer : Z; width : Z; height : Z; pitch : Z; depth : Z }.

Definition set_pointer (f : FrameBuffer) (p : Z) : FrameBuffer :=
  mkFrameBuffer p (width f) (height f) (pitch f) (depth f).

(** [mapAddress] and [allocateMemory] as [Kmalloc] has them: the address of a
    mapping of the frame buffer, and of new memory. The result is the frame
    buffer, the back buffer and the memory. *)
Definition initFrameBuffer (mapAddress : Z -> Z -> bool -> outcome Z) (allocateMemory : Z -> outcome Z)
    (f : FrameBuffer) (m : Memory) : outcome (FrameBuffer * Z * Memory) :=
  let n := u32 (pitch f * height f) in
  let! p := mapAddress (pointer f) n false in
  let f := set_pointer f p in
  let! backBuffer := allocateMemory n in
  let m := memset m (pointer f) 0 n in
  let m := memset m backBuffer 0 n in
  Ok (f, backBuffer, m).

Section Display.
(** The static variables, once they are initialised. *)
Context (frameBuffer : FrameBuffer) (backBuffer : Z).

Definition getWidth : Z := width frameBuffer.
Definition getHeight : Z := height frameBuffer.

(** [pixelPointer[2] = pixel.r; pixelPointer[1] = ...]. *)
Definition storePixel (m : Memory) (pixelPointer : Z) (p : Pixel) : Memory :=
  storeb (storeb (storeb m (pixelPointer + 2) (r p)) (pixelPointer + 1) (g p)) pixelPointer (b p).

Definition writePixel (m : Memory) (x y : Z) (p : Pixel) : Memory :=
  if (x <? getWidth) && (y <? getHeight) then
    let pixelOffset := u32 (y * pitch frameBuffer + x * (depth frameBuffer / 8)) in
    let m := storePixel m (backBuffer + pixelOffset) p in
    memcpy m (pointer frameBuffer + pixelOffset) (backBuffer + pixelOffset) (depth frameBuffer / 8)
  else m.

(** The new width and height. *)
Definition clipRectangle (x y w h : Z) : Z * Z :=
  if getWidth <=? x then (0, h)
  else if getHeight <=? y then (w, 0)
  else
    let w := if getWidth <? u32 (x + w) then u32 (getWidth - x) else w in
    let h := if getHeight <? u32 (y + h) then u32 (getHeight - y) else h in
    (w, h).

(** Whether bit [x] of a line of a bitmap is clear. *)
Definition bitClear (m : Memory) (bitmapLine x : Z) : bool :=
  Z.land (m (bitmapLine + x / 8)) (Z.shiftl 1 (7 - x mod 8)) =? 0.

(** The inner loop of [writeBitmap], for the [n] pixels from [x] on. *)
Fixpoint bitmapLine_loop (n : nat) (m : Memory) (backBufferLine bitmapLine bytesPerPixel x : Z) (foreground background : Pixel) : Memory :=
  match n with
  | O => m
  | S n =>
      let pixelPointer := backBufferLine + u32 (x * bytesPerPixel) in
      let m := storePixel m pixelPointer (if bitClear m bitmapLine x then background else foreground) in
      bitmapLine_loop n m backBufferLine bitmapLine bytesPerPixel (x + 1) foreground background
  end.

(** The outer loop, for the [n] lines from [y] on. *)
Fixpoint writeBitmap_loop (n : nat) (m : Memory) (initialX initialY w bitmap y : Z) (foreground background : Pixel) : Memory :=
  match n with
  | O => m
  | S n =>
      let bytesPerBitmapLine := u32 (w + 7) / 8 in
      let bytesPerPixel := depth frameBuffer / 8 in
      let bitmapLine := bitmap + u32 (y * bytesPerBitmapLine) in
      let pixelOffset := u32 ((y + initialY) * pitch frameBuffer + initialX * bytesPerPixel) in
      let backBufferLine := backBuffer + pixelOffset in
      let m := bitmapLine_loop (Z.to_nat w) m backBufferLine bitmapLine bytesPerPixel 0 foreground background in
      let displayLine := pointer frameBuffer + pixelOffset in
      let m := memcpy m displayLine backBufferLine (u32 (bytesPerPixel * w)) in
      writeBitmap_loop n m initialX initialY w bitmap (y + 1) foreground background
  end.

Definition writeBitmap (m : Memory) (initialX initialY w h bitmap : Z) (foreground background : Pixel) : Memory :=
  let '(w, h) := clipRectangle initialX initialY w h in
  if (w =? 0) || (h =? 0) then m
  else writeBitmap_loop (Z.to_nat h) m initialX initialY w bitmap 0 foreground background.

Fixpoint copyRegion_loop (n : nat) (m : Memory) (x y w newX newY yOffset : Z) : Memory :=
  match n with
  | O => m
  | S n =>
      let bytesPerPixel := depth frameBuffer / 8 in
      let sourcePointer := backBuffer + u32 ((y + yOffset) * pitch frameBuffer + x * bytesPerPixel) in
      let destOffset := u32 ((newY + yOffset) * pitch frameBuffer + newX * bytesPerPixel) in
      let m := memcpy m (backBuffer + destOffset) sourcePointer (u32 (w * bytesPerPixel)) in
      let m := memcpy m (pointer frameBuffer + destOffset) sourcePointer (u32 (w * bytesPerPixel)) in
      copyRegion_loop n m x y w newX newY (yOffset + 1)
  end.

Definition copyRegion (m : Memory) (x y w h newX newY : Z) : Memory :=
  let '(w, h) := clipRectangle x y w h in
  let '(w, h) := clipRectangle newX newY w h in
  if (w =? 0) || (h =? 0) then m
  else copyRegion_loop (Z.to_nat h) m x y w newX newY 0.

(** ** The font *)

(** [headerSize] and the other fields of the header are not used. [f_data] is
    the address of the glyphs. *)
Record PsfFile := mkPsfFile { numGlyphs : Z; glyphSize : Z; f_height : Z; f_width : Z; f_data : Z }.

Context (fontFile : PsfFile).

(** [c] is the byte; as a [char] it is signed, and the product unsigned. *)
Definition render (m : Memory) (c x y : Z) (foreground background : Pixel) : Memory :=
  let glyph := f_data fontFile + u32 (toChar c * glyphSize fontFile) in
  writeBitmap m x y (f_width fontFile) (f_height fontFile) glyph foreground background.

Definition FOREGROUND : Pixel := mkPixel 255 255 255.
Definition BACKGROUND : Pixel := mkPixel 0 0 0.

Definition writeCharacter (m : Memory) (x y c : Z) : Memory := render m c x y FOREGROUND BACKGROUND.

(** [str] is the address; [fuel] bounds the characters. *)
Fixpoint writeString_loop (fuel : nat) (m : Memory) (x y str i : Z) : outcome Memory :=
  if m (str + i) =? 0 then Ok m
  else
    match fuel with
    | O => Hang
    | S fuel =>
        let m := render m (m (str + i)) (u32 (x + i * f_width fontFile)) y FOREGROUND BACKGROUND in
        writeString_loop fuel m x y str (i + 1)
    end.

Definition writeString (fuel : nat) (m : Memory) (x y str : Z) : outcome Memory := writeString_loop fuel m x y str 0.

Definition removeCharacter (m : Memory) (x y : Z) : Memory := render m 32 x y FOREGROUND BACKGROUND.

(** ** Specification *)

Definition bpp : Z := depth frameBuffer / 8.
Definition bufferSize : Z := pitch frameBuffer * height frameBuffer.

(** A mode with at least 24 bits per pixel, and two separate buffers of less
    than 4 GiB. *)
Record display_wf : Prop := {
  dw_bpp : 3 <= bpp;
  dw_pitch : width frameBuffer * bpp <= pitch frameBuffer;
  dw_nonneg : 0 <= width frameBuffer /\ 0 <= height frameBuffer;
  dw_size : bufferSize < 2 ^ 32 /\ height frameBuffer < 2 ^ 32 /\ pitch frameBuffer < 2 ^ 32;
  dw_disjoint : pointer frameBuffer + bufferSize <= backBuffer \/ backBuffer + bufferSize <= pointer frameBuffer
}.

Definition inBuffers (a : Z) : Prop :=
  backBuffer <= a < backBuffer + bufferSize \/ pointer frameBuffer <= a < pointer frameBuffer + bufferSize.

(** The screen shows the back buffer. *)
Record display_ok (m : Memory) : Prop := {
  do_bytes : isBytes m;
  do_mirror : forall o, 0 <= o < bufferSize -> m (pointer frameBuffer + o) = m (backBuffer + o)
}.

(** Nothing outside the two buffers changes. *)
Definition frame (m m' : Memory) : Prop := forall a, ~ inBuffers a -> m' a = m a.

Definition pixelOffset (x y : Z) : Z := y * pitch frameBuffer + x * bpp.

(** The byte of a channel: blue, green, red. *)
Definition channel (p : Pixel) (c : Z) : Z := if c =? 0 then b p else if c =? 1 then g p else r p.

Definition isPixel (p : Pixel) : Prop := 0 <= r p < 256 /\ 0 <= g p < 256 /\ 0 <= b p < 256.

Definition onScreen (x y : Z) : Prop := 0 <= x < getWidth /\ 0 <= y < getHeight.

(** The pixel [(x, y)] in the back buffer. *)
Definition pixelAt (m : Memory) (x y : Z) : Pixel :=
  mkPixel (m (backBuffer + pixelOffset x y + 2)) (m (backBuffer + pixelOffset x y + 1)) (m (backBuffer + pixelOffset x y)).

Definition inRectangle (x y w h px py : Z) : bool :=
  (x <=? px) && (px <? x + w) && (y <=? py) && (py <? y + h).

(** ** Offsets *)

Lemma frame_refl m : frame m m.
Proof. by intros a. Qed.

Lemma frame_trans m1 m2 m3 : frame m1 m2 -> frame m2 m3 -> frame m1 m3.
Proof. intros H1 H2 a Ha. rewrite H2, H1; done. Qed.

Lemma offset_range x y w :
  display_wf -> 0 <= x -> 0 <= w -> x + w <= getWidth -> 0 <= y < getHeight ->
  0 <= pixelOffset x y /\ pixelOffset x y + w * bpp <= bufferSize /\ pixelOffset x y + w * bpp < 2 ^ 32.
Proof.
  intros [H1 H2 H3 [H4 _] _] Hx Hw Hxw Hy. unfold getWidth, getHeight, pixelOffset, bufferSize in *.
  assert (x * bpp + w * bpp <= pitch frameBuffer) by nia.
  assert (y * pitch frameBuffer + pitch frameBuffer <= pitch frameBuffer * height frameBuffer) by nia.
  assert (0 <= x * bpp) by nia. assert (0 <= y * pitch frameBuffer) by nia. lia.
Qed.

(** Where the byte [c] of pixel [(px, py)] is relative to the run of [w]
    pixels from [(x, y)] on. *)
Lemma offset_relative x y w px py c :
  display_wf -> 0 <= x -> 0 <= w -> x + w <= getWidth -> 0 <= px < getWidth -> 0 <= c < bpp ->
  let o := pixelOffset px py + c - pixelOffset x y in
  if py =? y then o / bpp = px - x /\ o mod bpp = c else o < 0 \/ w * bpp <= o.
Proof.
  intros [H1 H2 H3 _ _] Hx Hw Hxw Hpx Hc o. subst o. unfold pixelOffset, getWidth in *.
  destruct (Z.eqb_spec py y) as [->|Hne].
  - replace (y * pitch frameBuffer + px * bpp + c - (y * pitch frameBuffer + x * bpp)) with (c + (px - x) * bpp) by lia.
    rewrite Z.div_add, Z.mod_add by lia. rewrite Z.div_small, Z.mod_small by lia. lia.
  - assert (px * bpp + c < pitch frameBuffer) by nia. assert (x * bpp + w * bpp <= pitch frameBuffer) by nia.
    assert (0 <= x * bpp) by nia. assert (0 <= px * bpp) by nia.
    destruct (Z.lt_trichotomy py y) as [Hlt|[?|Hgt]]; [|done|].
    + left. assert (py * pitch frameBuffer + pitch frameBuffer <= y * pitch frameBuffer) by nia. lia.
    + right. assert (y * pitch frameBuffer + pitch frameBuffer <= py * pitch frameBuffer) by nia. lia.
Qed.

Lemma run_div x n o : 0 < bpp -> (x <= o / bpp < x + n <-> x * bpp <= o < (x + n) * bpp).
Proof.
  intros Hb. split; intros [H1 H2].
  - pose proof (Z.mul_div_le o bpp Hb). pose proof (Z.mul_succ_div_gt o bpp Hb). nia.
  - split; [apply Z.div_le_lower_bound; lia|apply Z.div_lt_upper_bound; lia].
Qed.

(** ** Writing a bitmap *)

Lemma storePixel_spec m a p x :
  storePixel m a p x = if (a <=? x) && (x <? a + 3) then channel p (x - a) else m x.
Proof.
  unfold storePixel, storeb, channel. zcase; cbn [andb]; try lia; try done.
Qed.

Lemma storePixel_bytes m a p : isBytes m -> isPixel p -> isBytes (storePixel m a p).
Proof. intros Hm (? & ? & ?). unfold storePixel. auto with kernel. Qed.

Lemma bitClear_ext m m' a x : m (a + x / 8) = m' (a + x / 8) -> bitClear m a x = bitClear m' a x.
Proof. unfold bitClear. by intros ->. Qed.

Lemma bitmapLine_loop_spec n : forall m line bitmapLine x fg bg,
  3 <= bpp -> 0 <= x -> (x + Z.of_nat n) * bpp < 2 ^ 32 ->
  (forall i, x <= i < x + Z.of_nat n -> bitmapLine + i / 8 < line \/ line + (x + Z.of_nat n) * bpp <= bitmapLine + i / 8) ->
  forall a, bitmapLine_loop n m line bitmapLine bpp x fg bg a
    = let o := a - line in
      if (x <=? o / bpp) && (o / bpp <? x + Z.of_nat n) && (o mod bpp <? 3)
      then channel (if bitClear m bitmapLine (o / bpp) then bg else fg) (o mod bpp) else m a.
Proof.
  induction n as [|n IH]; intros m line bitmapLine x fg bg Hb Hx Hs Hd a; cbv zeta; set (o := a - line); cbn [bitmapLine_loop].
  - rewrite Z.add_0_r. by replace ((x <=? o / bpp) && (o / bpp <? x)) with false by (zcase; cbn; lia || done).
  - rewrite Nat2Z.inj_succ in *. replace (x + Z.succ (Z.of_nat n)) with (x + 1 + Z.of_nat n) in * by lia.
    rewrite (u32_small (x * bpp)) by (change (2 ^ 32) with 4294967296 in *; nia).
    rewrite IH; [|done|lia|done|intros i Hi; apply Hd; lia]. cbv zeta. fold o.
    assert (Hdm : o = bpp * (o / bpp) + o mod bpp) by (apply Z.div_mod; lia).
    assert (Hm : 0 <= o mod bpp < bpp) by (apply Z.mod_pos_bound; lia).
    destruct (Z.eqb_spec (o / bpp) x) as [Hq|Hq].
    + rewrite Hq. rewrite (proj2 (Z.leb_gt (x + 1) x)), (proj2 (Z.leb_le x x)), (proj2 (Z.ltb_lt x _)) by lia. cbn [andb].
      rewrite storePixel_spec. rewrite Hq in Hdm.
      replace (a - (line + x * bpp)) with (o mod bpp) by (subst o; lia). zcase; cbn [andb]; subst o; try lia; done.
    + assert (Hsame : storePixel m (line + x * bpp) (if bitClear m bitmapLine x then bg else fg) a = m a).
      { rewrite storePixel_spec. zcase; cbn [andb]; try done. exfalso. apply Hq. subst o.
        symmetry. apply (Z.div_unique _ _ _ (a - line - x * bpp)); lia. }
      rewrite Hsame. destruct (Z.leb_spec (x + 1) (o / bpp)) as [Hge|Hlt]; cbn [andb].
      * rewrite (proj2 (Z.leb_le x _)) by lia. cbn [andb].
        destruct (Z.ltb_spec (o / bpp) (x + 1 + Z.of_nat n)) as [Hlt|]; cbn [andb]; [|done].
        rewrite (bitClear_ext _ m); [done|]. rewrite storePixel_spec.
        destruct (Hd (o / bpp) ltac:(lia)) as [H|H]; zcase; cbn [andb]; try done; nia.
      * by rewrite (proj2 (Z.leb_gt x _)) by lia.
Qed.

Lemma isBytes_memcpy m dst src n : isBytes m -> 0 <= n -> dst <= src \/ src + n <= dst -> isBytes (memcpy m dst src n).
Proof. intros Hm Hn Ho a. rewrite memcpy_spec by done. destruct (_ && _); apply Hm. Qed.

(** Copying a run of bytes of the back buffer to the screen, when it is what
    the back buffer has at [off] and the buffers agree elsewhere. *)
Lemma show_run m off src n :
  display_wf -> isBytes m -> 0 <= off -> 0 <= n -> off + n <= bufferSize -> 0 <= src -> src + n <= bufferSize ->
  (forall i, 0 <= i < n -> m (backBuffer + src + i) = m (backBuffer + off + i)) ->
  (forall o, 0 <= o < bufferSize -> o < off \/ off + n <= o -> m (pointer frameBuffer + o) = m (backBuffer + o)) ->
  let m' := memcpy m (pointer frameBuffer + off) (backBuffer + src) n in
  display_ok m' /\ frame m m' /\ forall o, 0 <= o < bufferSize -> m' (backBuffer + o) = m (backBuffer + o).
Proof.
  intros [_ _ _ _ Hd] Hm Hoff Hn Hs Hsrc Hsn Heq Hmir m'.
  assert (Hov : pointer frameBuffer + off <= backBuffer + src \/ backBuffer + src + n <= pointer frameBuffer + off) by lia.
  assert (E : forall a, m' a = if (pointer frameBuffer + off <=? a) && (a <? pointer frameBuffer + off + n)
    then m (backBuffer + src + (a - (pointer frameBuffer + off))) else m a) by (intros a; by apply memcpy_spec).
  assert (Hback : forall o, 0 <= o < bufferSize -> m' (backBuffer + o) = m (backBuffer + o)).
  { intros o Ho. rewrite E. zcase; cbn [andb]; try done. lia. }
  split; [split|split; [|done]].
  - by apply isBytes_memcpy.
  - intros o Ho. rewrite Hback, E by done. zcase; cbn [andb]; try (apply Hmir; lia).
    rewrite Heq by lia. f_equal. lia.
  - intros a Ha. rewrite E. unfold inBuffers in Ha. zcase; cbn [andb]; try done. lia.
Qed.

(** One line of a bitmap: the back buffer, then the screen. *)
Lemma bitmapRow_spec m X Y w bitmapLine fg bg :
  display_wf -> display_ok m -> isPixel fg -> isPixel bg ->
  0 <= X -> 0 <= w -> X + w <= getWidth -> 0 <= Y < getHeight ->
  (forall i, 0 <= i < w -> ~ inBuffers (bitmapLine + i / 8)) ->
  let off := pixelOffset X Y in
  let m' := memcpy (bitmapLine_loop (Z.to_nat w) m (backBuffer + off) bitmapLine bpp 0 fg bg)
              (pointer frameBuffer + off) (backBuffer + off) (w * bpp) in
  display_ok m' /\ frame m m' /\
  forall px py c, onScreen px py -> 0 <= c < bpp ->
    m' (backBuffer + pixelOffset px py + c)
    = if inRectangle X Y w 1 px py && (c <? 3) then channel (if bitClear m bitmapLine (px - X) then bg else fg) c
      else m (backBuffer + pixelOffset px py + c).
Proof.
  intros Hwf [Hb Hmir] Hfg Hbg HX Hw HXw HY Hbm off m'. pose proof (dw_bpp Hwf) as Hbpp.
  destruct (offset_range X Y w Hwf HX Hw HXw HY) as (Ho1 & Ho2 & Ho3). fold off in Ho1, Ho2, Ho3.
  set (m1 := bitmapLine_loop (Z.to_nat w) m (backBuffer + off) bitmapLine bpp 0 fg bg) in *.
  assert (E : forall a, m1 a = let o := a - (backBuffer + off) in
      if (0 <=? o / bpp) && (o / bpp <? w) && (o mod bpp <? 3)
      then channel (if bitClear m bitmapLine (o / bpp) then bg else fg) (o mod bpp) else m a).
  { intros a. unfold m1. rewrite bitmapLine_loop_spec; rewrite ?Z2Nat.id by lia; [done|lia|lia|lia|].
    intros i Hi. specialize (Hbm i ltac:(lia)). unfold inBuffers in Hbm. cbn [Z.add] in *. nia. }
  assert (Hout : forall a, a < backBuffer + off \/ backBuffer + off + w * bpp <= a -> m1 a = m a).
  { intros a Ha. rewrite E. cbv zeta. destruct ((0 <=? _) && (_ <? w)) eqn:Er; cbn [andb]; [|done].
    apply andb_true_iff in Er as [E1%Z.leb_le E2%Z.ltb_lt].
    pose proof (proj1 (run_div 0 w (a - (backBuffer + off)) ltac:(lia)) ltac:(lia)). lia. }
  assert (Hb1 : isBytes m1).
  { intros a. rewrite E. cbv zeta. destruct ((_ && _) && _); [|apply Hb]. unfold channel.
    destruct Hfg as (? & ? & ?), Hbg as (? & ? & ?). destruct (bitClear _ _ _); do 2 (destruct (_ =? _); [done|]); done. }
  destruct (show_run m1 off off (w * bpp) Hwf Hb1) as (Hok & Hfr & Hbk); [lia|nia|lia|lia|lia|done| |].
  { intros o Hro Ho. destruct (dw_disjoint Hwf); rewrite !Hout by lia; by apply Hmir. }
  split; [exact Hok|]. split.
  { apply (frame_trans _ m1); [|exact Hfr]. intros a Ha. apply Hout. unfold inBuffers in Ha. lia. }
  intros px py c Hp Hc. unfold m'. rewrite <- Z.add_assoc.
  destruct (offset_range px py 1 Hwf) as (Hp1 & Hp2 & _); [apply Hp|lia|destruct Hp; lia|apply Hp|].
  rewrite Hbk by lia. rewrite E. cbv zeta. rewrite Z.add_assoc.
  replace (backBuffer + pixelOffset px py + c - (backBuffer + off)) with (pixelOffset px py + c - off) by lia.
  pose proof (offset_relative X Y w px py c Hwf HX Hw HXw ltac:(apply Hp) Hc) as Hr. cbv zeta in Hr. fold off in Hr.
  unfold inRectangle. destruct (Z.eqb_spec py Y) as [->|Hne].
  - destruct Hr as [-> ->]. rewrite (proj2 (Z.leb_le Y Y)), (proj2 (Z.ltb_lt Y (Y + 1))) by lia. rewrite !andb_true_r.
    replace (0 <=? px - X) with (X <=? px) by (zcase; lia || done).
    by replace (px - X <? w) with (px <? X + w) by (zcase; lia || done).
  - replace ((X <=? px) && (px <? X + w) && (Y <=? py) && (py <? Y + 1)) with false by (zcase; cbn; lia || done).
    cbn [andb]. destruct ((0 <=? _) && (_ <? w)) eqn:Er; cbn [andb]; [|done].
    apply andb_true_iff in Er as [E1%Z.leb_le E2%Z.ltb_lt].
    pose proof (proj1 (run_div 0 w (pixelOffset px py + c - off) ltac:(lia)) ltac:(lia)). lia.
Qed.

(** The colour of bit [(i, j)] of a bitmap of the given number of bytes per
    line. *)
Definition bitmapColour (m : Memory) (bitmap stride i j : Z) (fg bg : Pixel) : Pixel :=
  if bitClear m (bitmap + j * stride) i then bg else fg.

Lemma writeBitmap_loop_spec n : forall m X Y w bitmap y fg bg,
  display_wf -> display_ok m -> isPixel fg -> isPixel bg ->
  0 <= X -> 0 <= w -> X + w <= getWidth -> 0 <= Y -> 0 <= y -> Y + y + Z.of_nat n <= getHeight -> w + 7 < 2 ^ 32 ->
  let stride := (w + 7) / 8 in
  (forall i j, 0 <= i < w -> 0 <= j < y + Z.of_nat n -> ~ inBuffers (bitmap + j * stride + i / 8)) ->
  (y + Z.of_nat n) * stride < 2 ^ 32 ->
  let m' := writeBitmap_loop n m X Y w bitmap y fg bg in
  display_ok m' /\ frame m m' /\
  forall px py c, onScreen px py -> 0 <= c < bpp ->
    m' (backBuffer + pixelOffset px py + c)
    = if inRectangle X (Y + y) w (Z.of_nat n) px py && (c <? 3)
      then channel (bitmapColour m bitmap stride (px - X) (py - Y) fg bg) c
      else m (backBuffer + pixelOffset px py + c).
Proof.
  induction n as [|n IH]; intros m X Y w bitmap y fg bg Hwf Hok Hfg Hbg HX Hw HXw HY Hy HYy Hw7 stride Hbm Hst m'.
  - split; [done|]. split; [apply frame_refl|]. intros px py c _ _. unfold inRectangle.
    replace ((X <=? px) && (px <? X + w) && (Y + y <=? py) && (py <? Y + y + Z.of_nat 0)) with false by (zcase; cbn; lia || done).
    done.
  - rewrite Nat2Z.inj_succ in *. unfold m'. cbn [writeBitmap_loop]. change (depth frameBuffer / 8) with bpp.
    change (2 ^ 32) with 4294967296 in *.
    destruct (offset_range X (y + Y) w Hwf HX Hw HXw ltac:(unfold getHeight in *; lia)) as (Ho1 & Ho2 & Ho3).
    change (2 ^ 32) with 4294967296 in Ho3. pose proof (dw_bpp Hwf) as Hbpp.
    rewrite (u32_small (w + 7)) by lia. fold stride.
    assert (Hs0 : 0 <= stride) by (unfold stride; apply Z.div_pos; lia).
    rewrite (u32_small (y * stride)) by nia. change ((y + Y) * pitch frameBuffer + X * bpp) with (pixelOffset X (y + Y)).
    rewrite (u32_small (pixelOffset X (y + Y))) by nia. rewrite (u32_small (bpp * w)) by nia.
    rewrite (Z.mul_comm bpp w).
    destruct (bitmapRow_spec m X (y + Y) w (bitmap + y * stride) fg bg Hwf Hok Hfg Hbg HX Hw HXw) as (Hok1 & Hfr1 & Hp1);
      [unfold getHeight in *; lia|intros i Hi; apply Hbm; lia|].
    set (m1 := memcpy _ _ _ _) in *. cbv zeta in Hp1. fold m1 in Hp1.
    destruct (IH m1 X Y w bitmap (y + 1) fg bg Hwf Hok1 Hfg Hbg HX Hw HXw HY) as (Hok2 & Hfr2 & Hp2);
      [lia|lia|lia|intros i j Hi Hj; apply Hbm; lia|fold stride; nia|].
    split; [exact Hok2|]. split; [by eapply frame_trans|].
    intros px py c Hp Hc. rewrite Hp2 by done. fold stride. unfold inRectangle in *.
    assert (Hcol : X <= px < X + w -> Y + y + 1 <= py < Y + (y + 1) + Z.of_nat n ->
      bitmapColour m1 bitmap stride (px - X) (py - Y) fg bg = bitmapColour m bitmap stride (px - X) (py - Y) fg bg).
    { intros H1 H2. unfold bitmapColour. rewrite (bitClear_ext m1 m); [done|]. apply Hfr1, Hbm; lia. }
    rewrite Hp1 by done.
    destruct (Z.leb_spec X px), (Z.ltb_spec px (X + w)); cbn [andb]; try done.
    destruct (Z.eqb_spec py (y + Y)) as [->|Hne].
    + replace ((Y + (y + 1) <=? y + Y)) with false by (symmetry; apply Z.leb_gt; lia). cbn [andb].
      rewrite (proj2 (Z.leb_le (y + Y) (y + Y))), (proj2 (Z.ltb_lt (y + Y) (y + Y + 1))) by lia.
      rewrite (proj2 (Z.leb_le (Y + y) (y + Y))), (proj2 (Z.ltb_lt (y + Y) (Y + y + Z.succ (Z.of_nat n)))) by lia. cbn [andb].
      destruct (c <? 3); [|done]. unfold bitmapColour. by replace (y + Y - Y) with y by lia.
    + replace ((y + Y <=? py) && (py <? y + Y + 1)) with false by (zcase; cbn; lia || done). cbn [andb].
      replace ((Y + y <=? py) && (py <? Y + y + Z.succ (Z.of_nat n)))
        with ((Y + (y + 1) <=? py) && (py <? Y + (y + 1) + Z.of_nat n)) by (zcase; cbn; lia || done).
      destruct ((Y + (y + 1) <=? py) && (py <? Y + (y + 1) + Z.of_nat n)) eqn:Er; cbn [andb]; [|done].
      apply andb_true_iff in Er as [?%Z.leb_le ?%Z.ltb_lt]. by rewrite Hcol by lia.
Qed.

(** ** Clipping *)

Lemma clipRectangle_spec x y w h :
  0 <= x -> 0 <= y -> 0 <= w -> 0 <= h -> x + w < 2 ^ 32 -> y + h < 2 ^ 32 ->
  exists w' h', clipRectangle x y w h = (w', h') /\ 0 <= w' <= w /\ 0 <= h' <= h /\
    (w' = 0 \/ h' = 0 \/ x + w' <= getWidth /\ y + h' <= getHeight) /\
    forall px py, onScreen px py -> inRectangle x y w h px py = ((0 <? w') && (0 <? h')) && inRectangle x y w' h' px py.
Proof.
  change (2 ^ 32) with 4294967296. intros Hx Hy Hw Hh Hxw Hyh. unfold clipRectangle, onScreen, inRectangle.
  destruct (Z.leb_spec getWidth x) as [H1|H1]; [|destruct (Z.leb_spec getHeight y) as [H2|H2]].
  - eexists _, _. split; [done|]. split; [lia|]. split; [lia|]. split; [by left|]. intros. cbn. zcase; cbn; done || lia.
  - eexists _, _. split; [done|]. split; [lia|]. split; [lia|]. split; [by right; left|]. intros.
    rewrite andb_false_r. cbn. zcase; cbn; done || lia.
  - rewrite !(u32_small (_ + _)) by lia.
    destruct (Z.ltb_spec getWidth (x + w)), (Z.ltb_spec getHeight (y + h)); rewrite ?(u32_small (_ - _)) by lia;
      (eexists _, _; split; [done|]; split; [lia|]; split; [lia|]; split; [right; right; lia|]; intros; zcase; cbn; done || lia).
Qed.

(** Writing a bitmap of any size anywhere. [w'] and [h'] are what is left of it
    on the screen; the lines of the bitmap are taken to have [w'] bits. *)
Lemma writeBitmap_run m X Y w h bitmap fg bg :
  display_wf -> display_ok m -> isPixel fg -> isPixel bg ->
  0 <= X -> 0 <= Y -> 0 <= w -> 0 <= h -> X + w + 7 < 2 ^ 32 -> Y + h < 2 ^ 32 -> h * ((w + 7) / 8) < 2 ^ 32 ->
  (forall k, 0 <= k < h * ((w + 7) / 8) -> ~ inBuffers (bitmap + k)) ->
  let m' := writeBitmap m X Y w h bitmap fg bg in
  let stride := (fst (clipRectangle X Y w h) + 7) / 8 in
  display_ok m' /\ frame m m' /\
  forall px py c, onScreen px py -> 0 <= c < bpp ->
    m' (backBuffer + pixelOffset px py + c)
    = if inRectangle X Y w h px py && (c <? 3)
      then channel (bitmapColour m bitmap stride (px - X) (py - Y) fg bg) c
      else m (backBuffer + pixelOffset px py + c).
Proof.
  intros Hwf Hok Hfg Hbg HX HY Hw Hh HXw HYh Hst Hbm m' stride.
  destruct (clipRectangle_spec X Y w h HX HY Hw Hh ltac:(lia) HYh) as (w' & h' & E & Hw' & Hh' & Hfit & Hin).
  unfold m', writeBitmap. subst stride. rewrite E. cbn [fst].
  destruct (Z.eqb_spec w' 0) as [->|Hw0], (Z.eqb_spec h' 0) as [->|Hh0]; cbn [orb].
  1-3: (split; [done|]; split; [apply frame_refl|]; intros px py c Hp Hc; rewrite (Hin _ _ Hp);
        rewrite ?Z.ltb_irrefl, ?andb_false_r; done).
  assert (Hmono : (w' + 7) / 8 <= (w + 7) / 8) by (apply Z.div_le_mono; lia).
  assert (Hpos : 0 <= (w' + 7) / 8) by (apply Z.div_pos; lia).
  assert (Hle : h' * ((w' + 7) / 8) <= h * ((w + 7) / 8)) by nia.
  destruct (writeBitmap_loop_spec (Z.to_nat h') m X Y w' bitmap 0 fg bg Hwf Hok Hfg Hbg HX) as (H1 & H2 & H3);
    rewrite ?Z2Nat.id by lia; try lia.
  { intros i j Hi Hj. replace (bitmap + j * ((w' + 7) / 8) + i / 8) with (bitmap + (j * ((w' + 7) / 8) + i / 8)) by lia.
    assert (0 <= i / 8) by (apply Z.div_pos; lia). assert (i / 8 < (w' + 7) / 8) by (apply Z.div_lt_upper_bound; [lia|dlia]).
    apply Hbm. nia. }
  split; [exact H1|]. split; [exact H2|]. intros px py c Hp Hc. rewrite H3, Z2Nat.id, Z.add_0_r by (done || lia).
  rewrite (Hin _ _ Hp). by rewrite (proj2 (Z.ltb_lt 0 w')), (proj2 (Z.ltb_lt 0 h')) by lia.
Qed.

(** ** Copying a region *)

Lemma copyRow_spec m x y newX newY w :
  display_wf -> display_ok m -> 0 <= x -> 0 <= newX -> 0 <= w -> x + w <= getWidth -> newX + w <= getWidth ->
  0 <= newY < y -> y < getHeight ->
  let src := backBuffer + pixelOffset x y in
  let m1 := memcpy m (backBuffer + pixelOffset newX newY) src (w * bpp) in
  let m' := memcpy m1 (pointer frameBuffer + pixelOffset newX newY) src (w * bpp) in
  display_ok m' /\ frame m m' /\
  forall px py c, onScreen px py -> 0 <= c < bpp ->
    m' (backBuffer + pixelOffset px py + c)
    = if inRectangle newX newY w 1 px py then m (backBuffer + pixelOffset (px - newX + x) y + c)
      else m (backBuffer + pixelOffset px py + c).
Proof.
  intros Hwf [Hb Hmir] Hx HnX Hw Hxw HnXw HnY Hy src m1 m'. pose proof (dw_bpp Hwf) as Hbpp.
  destruct (offset_range x y w Hwf Hx Hw Hxw ltac:(lia)) as (Ho1 & Ho2 & Ho3).
  destruct (offset_range newX newY w Hwf HnX Hw HnXw ltac:(lia)) as (Hn1 & Hn2 & Hn3).
  assert (Hsep : pixelOffset newX newY + w * bpp <= pixelOffset x y).
  { unfold pixelOffset. destruct Hwf as [_ Hpi _ _ _]. unfold getWidth in *.
    assert (newX * bpp + w * bpp <= pitch frameBuffer) by nia. assert (0 <= x * bpp) by nia.
    assert (newY * pitch frameBuffer + pitch frameBuffer <= y * pitch frameBuffer) by nia. lia. }
  assert (E : forall a, m1 a = if (backBuffer + pixelOffset newX newY <=? a) && (a <? backBuffer + pixelOffset newX newY + w * bpp)
      then m (src + (a - (backBuffer + pixelOffset newX newY))) else m a).
  { intros a. apply memcpy_spec; [done|nia|unfold src; lia]. }
  assert (Hout : forall a, a < backBuffer + pixelOffset newX newY \/ backBuffer + pixelOffset newX newY + w * bpp <= a -> m1 a = m a).
  { intros a Ha. rewrite E. zcase; cbn [andb]; done || lia. }
  destruct (show_run m1 (pixelOffset newX newY) (pixelOffset x y) (w * bpp) Hwf) as (Hok & Hfr & Hbk); try lia.
  - apply isBytes_memcpy; [done|nia|unfold src; lia].
  - intros i Hi. rewrite (Hout (backBuffer + pixelOffset x y + i)) by lia. rewrite E.
    zcase; cbn [andb]; try lia. f_equal. unfold src. lia.
  - intros o Hro Ho. destruct (dw_disjoint Hwf); rewrite !Hout by lia; by apply Hmir.
  - split; [exact Hok|]. split.
    { apply (frame_trans _ m1); [|exact Hfr]. intros a Ha. apply Hout. unfold inBuffers in Ha. lia. }
    intros px py c Hp Hc. unfold m', src. rewrite <- Z.add_assoc.
    destruct (offset_range px py 1 Hwf) as (Hp1 & Hp2 & _); [apply Hp|lia|destruct Hp; lia|apply Hp|].
    rewrite Hbk by lia. rewrite E. rewrite Z.add_assoc.
    pose proof (offset_relative newX newY w px py c Hwf HnX Hw HnXw ltac:(apply Hp) Hc) as Hr. cbv zeta in Hr. unfold inRectangle.
    destruct (Z.eqb_spec py newY) as [->|Hne].
    + rewrite (proj2 (Z.leb_le newY newY)), (proj2 (Z.ltb_lt newY (newY + 1))) by lia. rewrite !andb_true_r.
      unfold src, pixelOffset. destruct Hr as [Hr _]. 
      pose proof (run_div 0 w (pixelOffset px newY + c - pixelOffset newX newY) ltac:(lia)) as Hrun. rewrite Hr in Hrun.
      unfold pixelOffset in *. zcase; cbn [andb]; try lia. f_equal. lia.
    + replace ((newX <=? px) && (px <? newX + w) && (newY <=? py) && (py <? newY + 1)) with false by (zcase; cbn; lia || done).
      zcase; cbn [andb]; done || lia.
Qed.

Lemma copyRegion_loop_spec n : forall m x y w newX newY k,
  display_wf -> display_ok m -> 0 <= x -> 0 <= newX -> 0 <= w -> x + w <= getWidth -> newX + w <= getWidth ->
  0 <= newY < y -> 0 <= k -> y + k + Z.of_nat n <= getHeight ->
  let m' := copyRegion_loop n m x y w newX newY k in
  display_ok m' /\ frame m m' /\
  forall px py c, onScreen px py -> 0 <= c < bpp ->
    m' (backBuffer + pixelOffset px py + c)
    = if inRectangle newX (newY + k) w (Z.of_nat n) px py
      then m (backBuffer + pixelOffset (px - newX + x) (py - newY + y) + c)
      else m (backBuffer + pixelOffset px py + c).
Proof.
  induction n as [|n IH]; intros m x y w newX newY k Hwf Hok Hx HnX Hw Hxw HnXw HnY Hk Hyk m'.
  - split; [done|]. split; [apply frame_refl|]. intros px py c _ _. unfold inRectangle.
    by replace ((newX <=? px) && (px <? newX + w) && (newY + k <=? py) && (py <? newY + k + Z.of_nat 0)) with false by (zcase; cbn; lia || done).
  - rewrite Nat2Z.inj_succ in *. unfold m'. cbn [copyRegion_loop]. change (depth frameBuffer / 8) with bpp.
    change ((y + k) * pitch frameBuffer + x * bpp) with (pixelOffset x (y + k)).
    change ((newY + k) * pitch frameBuffer + newX * bpp) with (pixelOffset newX (newY + k)).
    pose proof (dw_bpp Hwf) as Hbpp.
    destruct (offset_range x (y + k) w Hwf Hx Hw Hxw ltac:(lia)) as (Ho1 & Ho2 & Ho3).
    destruct (offset_range newX (newY + k) w Hwf HnX Hw HnXw ltac:(lia)) as (Hn1 & Hn2 & Hn3).
    change (2 ^ 32) with 4294967296 in *. rewrite !u32_small by nia.
    destruct (copyRow_spec m x (y + k) newX (newY + k) w Hwf Hok Hx HnX Hw Hxw HnXw ltac:(lia) ltac:(lia)) as (Hok1 & Hfr1 & Hp1).
    set (m1 := memcpy _ (pointer frameBuffer + _) _ _) in *. cbv zeta in Hp1. fold m1 in Hp1.
    destruct (IH m1 x y w newX newY (k + 1) Hwf Hok1 Hx HnX Hw Hxw HnXw HnY) as (Hok2 & Hfr2 & Hp2); [lia|lia|].
    split; [exact Hok2|]. split; [by eapply frame_trans|]. intros px py c Hp Hc. rewrite Hp2 by done.
    rewrite (Hp1 px py) by done. unfold inRectangle in *.
    destruct (Z.leb_spec newX px), (Z.ltb_spec px (newX + w)); cbn [andb]; try done.
    destruct (Z.eqb_spec py (newY + k)) as [->|Hne].
    + replace (newY + (k + 1) <=? newY + k) with false by (symmetry; apply Z.leb_gt; lia). cbn [andb].
      rewrite !Z.leb_refl. rewrite !(proj2 (Z.ltb_lt (newY + k) _)) by lia. cbn [andb].
      by replace (newY + k - newY + y) with (y + k) by lia.
    + replace ((newY + k <=? py) && (py <? newY + k + 1)) with false by (zcase; cbn; lia || done). cbn [andb].
      replace ((newY + k <=? py) && (py <? newY + k + Z.succ (Z.of_nat n)))
        with ((newY + (k + 1) <=? py) && (py <? newY + (k + 1) + Z.of_nat n)) by (zcase; cbn; lia || done).
      destruct ((newY + (k + 1) <=? py) && (py <? newY + (k + 1) + Z.of_nat n)) eqn:Er; cbn [andb]; [|done].
      apply andb_true_iff in Er as [?%Z.leb_le ?%Z.ltb_lt]. rewrite Hp1; [|unfold onScreen in *; lia|done].
      replace ((newX <=? px - newX + x) && (px - newX + x <? newX + w) && (newY + k <=? py - newY + y) && (py - newY + y <? newY + k + 1))
        with false by (zcase; cbn; lia || done). done.
Qed.

(** Copying upwards, of any size and from anywhere: the part whose source and
    destination are on the screen. *)
Lemma copyRegion_run m x y w h newX newY :
  display_wf -> display_ok m -> 0 <= x -> 0 <= newX -> 0 <= w -> 0 <= h -> 0 <= newY < y ->
  x + w < 2 ^ 32 -> newX + w < 2 ^ 32 -> y + h < 2 ^ 32 ->
  let m' := copyRegion m x y w h newX newY in
  display_ok m' /\ frame m m' /\
  forall px py c, onScreen px py -> 0 <= c < bpp ->
    let sx := px - newX + x in let sy := py - newY + y in
    m' (backBuffer + pixelOffset px py + c)
    = if inRectangle newX newY w h px py && (sx <? getWidth) && (sy <? getHeight)
      then m (backBuffer + pixelOffset sx sy + c) else m (backBuffer + pixelOffset px py + c).
Proof.
  intros Hwf Hok Hx HnX Hw Hh HnY Hxw HnXw Hyh m'. unfold m', copyRegion.
  destruct (clipRectangle_spec x y w h Hx ltac:(lia) Hw Hh Hxw Hyh) as (w1 & h1 & E1 & Hw1 & Hh1 & Hf1 & Hi1).
  destruct (clipRectangle_spec newX newY w1 h1 HnX ltac:(lia) ltac:(lia) ltac:(lia) ltac:(lia) ltac:(lia))
    as (w2 & h2 & E2 & Hw2 & Hh2 & Hf2 & Hi2).
  rewrite E1, E2.
  assert (Hin : forall px py, onScreen px py ->
    inRectangle newX newY w h px py && (px - newX + x <? getWidth) && (py - newY + y <? getHeight)
    = ((0 <? w2) && (0 <? h2)) && inRectangle newX newY w2 h2 px py).
  { intros px py Hp. rewrite <- (Hi2 px py Hp).
    destruct (Z.ltb_spec (px - newX + x) getWidth), (Z.ltb_spec (py - newY + y) getHeight);
      rewrite ?andb_true_r, ?andb_false_r.
    2-4: symmetry; unfold inRectangle; zcase; cbn; try done; lia.
    destruct (inRectangle newX newY w h px py) eqn:Er.
    - assert (Hs : onScreen (px - newX + x) (py - newY + y)).
      { unfold inRectangle in Er. unfold onScreen in *. zcase_in Er; cbn in Er; try done. lia. }
      specialize (Hi1 _ _ Hs). unfold inRectangle in *. zcase_in Er; cbn in Er; try done.
      zcase_in Hi1; cbn in Hi1; try lia; zcase; cbn; done || lia.
    - symmetry. unfold inRectangle in *. zcase; cbn; try done. zcase_in Er; cbn in Er; done || lia. }
  destruct (Z.eqb_spec w2 0) as [->|Hw0], (Z.eqb_spec h2 0) as [->|Hh0]; cbn [orb].
  1-3: (split; [done|]; split; [apply frame_refl|]; intros px py c Hp Hc; cbv zeta; rewrite (Hin _ _ Hp);
        rewrite ?Z.ltb_irrefl, ?andb_false_r; done).
  destruct (copyRegion_loop_spec (Z.to_nat h2) m x y w2 newX newY 0 Hwf Hok Hx HnX) as (H1 & H2 & H3); try lia.
  split; [exact H1|]. split; [exact H2|]. intros px py c Hp Hc. cbv zeta. rewrite H3, Z2Nat.id, Z.add_0_r by (done || lia).
  rewrite (Hin _ _ Hp). by rewrite (proj2 (Z.ltb_lt 0 w2)), (proj2 (Z.ltb_lt 0 h2)) by lia.
Qed.

(** ** A pixel *)

Lemma writePixel_run m x y p :
  display_wf -> display_ok m -> isPixel p -> 0 <= x -> 0 <= y ->
  let m' := writePixel m x y p in
  display_ok m' /\ frame m m' /\
  forall px py c, onScreen px py -> 0 <= c < bpp ->
    m' (backBuffer + pixelOffset px py + c)
    = if (px =? x) && (py =? y) && (c <? 3) then channel p c else m (backBuffer + pixelOffset px py + c).
Proof.
  intros Hwf [Hb Hmir] Hpx Hx Hy m'. unfold m', writePixel. pose proof (dw_bpp Hwf) as Hbpp.
  destruct (Z.ltb_spec x getWidth) as [H1|H1], (Z.ltb_spec y getHeight) as [H2|H2]; cbn [andb].
  2-4: (split; [done|]; split; [apply frame_refl|]; intros px py c [Hp1 Hp2] Hc;
        zcase; cbn [andb]; try done; lia).
  change (y * pitch frameBuffer + x * (depth frameBuffer / 8)) with (pixelOffset x y). change (depth frameBuffer / 8) with bpp.
  destruct (offset_range x y 1 Hwf Hx ltac:(lia) ltac:(lia) ltac:(lia)) as (Ho1 & Ho2 & Ho3).
  change (2 ^ 32) with 4294967296 in Ho3. rewrite u32_small by lia.
  set (m1 := storePixel m (backBuffer + pixelOffset x y) p).
  assert (E : forall a, m1 a = if (backBuffer + pixelOffset x y <=? a) && (a <? backBuffer + pixelOffset x y + 3)
    then channel p (a - (backBuffer + pixelOffset x y)) else m a) by (intros a; apply storePixel_spec).
  destruct (show_run m1 (pixelOffset x y) (pixelOffset x y) bpp Hwf) as (Hok & Hfr & Hbk); try lia; [by apply storePixel_bytes| |].
  { intros o Hro Ho. rewrite !E. destruct (dw_disjoint Hwf); zcase; cbn [andb]; try lia; by apply Hmir. }
  split; [exact Hok|]. split.
  { apply (frame_trans _ m1); [|exact Hfr]. intros a Ha. rewrite E. unfold inBuffers in Ha. zcase; cbn [andb]; done || lia. }
  intros px py c Hp Hc. rewrite <- Z.add_assoc.
  destruct (offset_range px py 1 Hwf) as (Hp1 & Hp2 & _); [apply Hp|lia|destruct Hp; lia|apply Hp|].
  rewrite Hbk by lia. rewrite E.
  pose proof (offset_relative x y 1 px py c Hwf Hx ltac:(lia) ltac:(lia) ltac:(apply Hp) Hc) as Hr. cbv zeta in Hr.
  destruct (Z.eqb_spec py y) as [->|Hne].
  + destruct Hr as [Hr1 Hr2]. pose proof (Z.div_mod (pixelOffset px y + c - pixelOffset x y) bpp ltac:(lia)) as Hdm.
    rewrite Hr1, Hr2 in Hdm.
    destruct (Z.eqb_spec px x) as [->|Hne]; cbn [andb].
    * replace (backBuffer + (pixelOffset x y + c) - (backBuffer + pixelOffset x y)) with c by lia.
      zcase; cbn [andb]; try done; lia.
    * assert (bpp * (px - x) <= - bpp \/ bpp <= bpp * (px - x)) by nia. zcase; cbn [andb]; try done; lia.
  + rewrite andb_false_r. cbn [andb]. zcase; cbn [andb]; try done; lia.
Qed.

(** ** Properties *)

Lemma pixelAt_ext m' px py p :
  (forall c, 0 <= c < 3 -> m' (backBuffer + pixelOffset px py + c) = channel p c) -> pixelAt m' px py = p.
Proof.
  intros H. unfold pixelAt. rewrite (H 2), (H 1) by lia. rewrite <- (Z.add_0_r (backBuffer + pixelOffset px py)), (H 0) by lia.
  by destruct p.
Qed.

Lemma channel_pixelAt m px py c : 0 <= c < 3 -> m (backBuffer + pixelOffset px py + c) = channel (pixelAt m px py) c.
Proof.
  intros Hc. assert (c = 0 \/ c = 1 \/ c = 2) as [->|[->| ->]] by lia; unfold channel, pixelAt; cbn; by rewrite ?Z.add_0_r.
Qed.

(** [C31] The three drawing operations at any position, also partly or wholly
    off the screen, [copyRegion] when it copies to a higher line, as scrolling
    does: they change no byte outside the frame buffer and the back buffer, the
    screen keeps showing the back buffer, and every pixel is known.
    [writePixel] sets one pixel. [writeBitmap] sets those of its rectangle by
    the bits of the bitmap, whose lines it takes to have the bytes of the width
    on the screen (so they are those of the bitmap if the rectangle is not cut
    by a whole byte at the right). [copyRegion] moves the part of its rectangle
    whose source and destination are on the screen. *)
Theorem display_correct m :
  display_wf -> display_ok m ->
  (forall x y p, isPixel p -> 0 <= x -> 0 <= y ->
     let m' := writePixel m x y p in
     display_ok m' /\ frame m m' /\
     forall px py, onScreen px py -> pixelAt m' px py = if (px =? x) && (py =? y) then p else pixelAt m px py) /\
  (forall X Y w h bitmap fg bg, isPixel fg -> isPixel bg ->
     0 <= X -> 0 <= Y -> 0 <= w -> 0 <= h -> X + w + 7 < 2 ^ 32 -> Y + h < 2 ^ 32 -> h * ((w + 7) / 8) < 2 ^ 32 ->
     (forall k, 0 <= k < h * ((w + 7) / 8) -> ~ inBuffers (bitmap + k)) ->
     let m' := writeBitmap m X Y w h bitmap fg bg in
     display_ok m' /\ frame m m' /\
     (forall px py, onScreen px py -> inRectangle X Y w h px py = false -> pixelAt m' px py = pixelAt m px py) /\
     (forall px py, onScreen px py -> inRectangle X Y w h px py = true ->
        pixelAt m' px py = bitmapColour m bitmap ((Z.min w (getWidth - X) + 7) / 8) (px - X) (py - Y) fg bg)) /\
  (forall x y w h newX newY, 0 <= x -> 0 <= newX -> 0 <= w -> 0 <= h -> 0 <= newY < y ->
     x + w < 2 ^ 32 -> newX + w < 2 ^ 32 -> y + h < 2 ^ 32 ->
     let m' := copyRegion m x y w h newX newY in
     display_ok m' /\ frame m m' /\
     forall px py, onScreen px py ->
       let sx := px - newX + x in let sy := py - newY + y in
       pixelAt m' px py = if inRectangle newX newY w h px py && (sx <? getWidth) && (sy <? getHeight)
                          then pixelAt m sx sy else pixelAt m px py).
Proof.
  intros Hwf Hok. pose proof (dw_bpp Hwf) as Hbpp. split; [|split].
  - intros x y p Hp Hx Hy m'. destruct (writePixel_run m x y p Hwf Hok Hp Hx Hy) as (H1 & H2 & H3).
    split; [done|]. split; [done|]. intros px py Hs. apply pixelAt_ext. intros c Hc. unfold m'. rewrite H3 by (done || lia).
    rewrite (proj2 (Z.ltb_lt c 3)), andb_true_r by lia. destruct (_ && _); [done|]. by apply channel_pixelAt.
  - intros X Y w h bitmap fg bg Hfg Hbg HX HY Hw Hh HXw HYh Hst Hbm m'.
    destruct (writeBitmap_run m X Y w h bitmap fg bg Hwf Hok Hfg Hbg HX HY Hw Hh HXw HYh Hst Hbm) as (H1 & H2 & H3).
    split; [done|]. split; [done|]. split.
    + intros px py Hs Hin. apply pixelAt_ext. intros c Hc. unfold m'. rewrite H3, Hin by (done || lia).
      by apply channel_pixelAt.
    + intros px py Hs Hin. apply pixelAt_ext. intros c Hc. unfold m'. rewrite H3, Hin by (done || lia).
      rewrite (proj2 (Z.ltb_lt c 3)) by lia. cbn [andb].
      assert (E : fst (clipRectangle X Y w h) = Z.min w (getWidth - X)).
      { unfold inRectangle in Hin. zcase_in Hin; cbn in Hin; try done. unfold onScreen, clipRectangle in *.
        rewrite (proj2 (Z.leb_gt getWidth X)), (proj2 (Z.leb_gt getHeight Y)) by lia.
        change (2 ^ 32) with 4294967296 in HXw. rewrite (u32_small (X + w)) by lia.
        destruct (Z.ltb_spec getWidth (X + w)); cbn [fst]; [|lia]. rewrite u32_small by lia. lia. }
      by rewrite E.
  - intros x y w h newX newY Hx HnX Hw Hh HnY Hxw HnXw Hyh m'.
    destruct (copyRegion_run m x y w h newX newY Hwf Hok Hx HnX Hw Hh HnY Hxw HnXw Hyh) as (H1 & H2 & H3).
    split; [done|]. split; [done|]. intros px py Hs sx sy. apply pixelAt_ext. intros c Hc. unfold m'.
    rewrite H3 by (done || lia). cbv zeta. destruct (_ && _); by apply channel_pixelAt.
Qed.
End Display.

(** ** The interface of a text console *)

Class TextDisplay (S : Type) := {
  td_width : Z; td_height : Z;
  td_fontWidth : Z; td_fontHeight : Z;
  td_writeCharacter : S -> Z -> Z -> Z -> S;
  td_removeCharacter : S -> Z -> Z -> S;
  td_copyRegion : S -> Z -> Z -> Z -> Z -> Z -> Z -> S
}.

(** The cell in the given column and line is on the screen. *)
Definition cell (S : Type) `{TextDisplay S} (column line : Z) : Prop :=
  0 <= column /\ (column + 1) * td_fontWidth (S := S) <= td_width (S := S) /\
  0 <= line /\ (line + 1) * td_fontHeight (S := S) <= td_height (S := S).

(** [td_shows s column line c]: the cell shows the character [c]. Drawing in a
    cell shows the character there and disturbs no other cell; copying the
    first [n] cells of a line to the line above does just that. *)
Class TextDisplayLaws (S : Type) `{TextDisplay S} := {
  td_inv : S -> Prop;
  td_char : Z -> Prop;
  td_shows : S -> Z -> Z -> Z -> Prop;
  td_sizes : 0 < td_fontWidth (S := S) /\ 0 < td_fontHeight (S := S) /\
    td_fontWidth (S := S) <= td_width (S := S) < 2 ^ 31 /\ td_fontHeight (S := S) <= td_height (S := S) < 2 ^ 31;
  td_space : td_char 32;
  td_write_law s column line c :
    td_inv s -> cell S column line -> td_char c ->
    let s' := td_writeCharacter s (column * td_fontWidth (S := S)) (line * td_fontHeight (S := S)) c in
    td_inv s' /\ td_shows s' column line c /\
    forall x y k, cell S x y -> td_char k -> (x, y) <> (column, line) -> td_shows s x y k -> td_shows s' x y k;
  td_remove_law s column line :
    td_inv s -> cell S column line ->
    let s' := td_removeCharacter s (column * td_fontWidth (S := S)) (line * td_fontHeight (S := S)) in
    td_inv s' /\ td_shows s' column line 32 /\
    forall x y k, cell S x y -> td_char k -> (x, y) <> (column, line) -> td_shows s x y k -> td_shows s' x y k;
  td_copy_law s n line :
    td_inv s -> 0 <= n -> (n = 0 \/ cell S (n - 1) line) -> 0 < line -> cell S 0 line ->
    let s' := td_copyRegion s 0 (line * td_fontHeight (S := S)) (n * td_fontWidth (S := S)) (td_fontHeight (S := S))
                0 ((line - 1) * td_fontHeight (S := S)) in
    td_inv s' /\
    forall x y k, cell S x y -> td_char k ->
      td_shows s x (if (y =? line - 1) && (x <? n) then line else y) k -> td_shows s' x y k
}.

Section Implementation.
Context (frameBuffer : FrameBuffer) (backBuffer : Z) (fontFile : PsfFile).

#[export] Instance FrameBufferDisplay : TextDisplay Memory := {
  td_width := getWidth frameBuffer; td_height := getHeight frameBuffer;
  td_fontWidth := f_width fontFile; td_fontHeight := f_height fontFile;
  td_writeCharacter := writeCharacter frameBuffer backBuffer fontFile;
  td_removeCharacter := removeCharacter frameBuffer backBuffer fontFile;
  td_copyRegion := copyRegion frameBuffer backBuffer
}.

Definition stride : Z := (f_width fontFile + 7) / 8.
Definition glyph (c : Z) : Z := f_data fontFile + c * glyphSize fontFile.

(** The font has the glyphs of ASCII, outside the buffers, and is not larger
    than the screen. *)
Record font_wf : Prop := {
  fw_width : 0 < f_width fontFile <= getWidth frameBuffer;
  fw_height : 0 < f_height fontFile <= getHeight frameBuffer;
  fw_screen : getWidth frameBuffer < 2 ^ 31 /\ getHeight frameBuffer < 2 ^ 31;
  fw_size : 0 <= glyphSize fontFile /\ 128 * glyphSize fontFile < 2 ^ 32 /\ f_height fontFile * stride < 2 ^ 32;
  fw_glyphs : forall c k, 0 <= c < 128 -> 0 <= k < f_height fontFile * stride -> ~ inBuffers frameBuffer backBuffer (glyph c + k)
}.

Context (display_is_wf : display_wf frameBuffer backBuffer) (font_is_wf : font_wf).

(** The cell's pixels are those of the glyph. *)
Definition shows (m : Memory) (column line c : Z) : Prop :=
  forall dx dy, 0 <= dx < f_width fontFile -> 0 <= dy < f_height fontFile ->
    pixelAt frameBuffer backBuffer m (column * f_width fontFile + dx) (line * f_height fontFile + dy)
    = bitmapColour m (glyph c) stride dx dy FOREGROUND BACKGROUND.

Lemma glyphColour_frame m m' c dx dy :
  frame frameBuffer backBuffer m m' -> 0 <= c < 128 -> 0 <= dx < f_width fontFile -> 0 <= dy < f_height fontFile ->
  bitmapColour m' (glyph c) stride dx dy FOREGROUND BACKGROUND = bitmapColour m (glyph c) stride dx dy FOREGROUND BACKGROUND.
Proof.
  intros Hf Hc Hx Hy. unfold bitmapColour. rewrite (bitClear_ext m' m); [done|]. apply Hf.
  assert (0 <= dx / 8) by (apply Z.div_pos; lia).
  assert (dx / 8 < stride) by (apply Z.div_lt_upper_bound; [lia|unfold stride; dlia]).
  replace (glyph c + dy * stride + dx / 8) with (glyph c + (dy * stride + dx / 8)) by lia.
  apply (fw_glyphs font_is_wf); [done|nia].
Qed.

Lemma onScreen_cell column line dx dy :
  cell Memory column line -> 0 <= dx < f_width fontFile -> 0 <= dy < f_height fontFile ->
  onScreen frameBuffer (column * f_width fontFile + dx) (line * f_height fontFile + dy).
Proof. intros (H1 & H2 & H3 & H4) Hx Hy. unfold onScreen. cbn in *. nia. Qed.

(** Two cells do not overlap. *)
Lemma cell_rectangle column line x y dx dy :
  0 <= column -> 0 <= x -> 0 <= dx < f_width fontFile -> 0 <= dy < f_height fontFile ->
  inRectangle (column * f_width fontFile) (line * f_height fontFile) (f_width fontFile) (f_height fontFile)
    (x * f_width fontFile + dx) (y * f_height fontFile + dy) = bool_decide ((x, y) = (column, line)).
Proof.
  intros Hc Hx Hdx Hdy. unfold inRectangle. case_bool_decide as E.
  - injection E as -> ->. zcase; cbn; done || lia.
  - assert (x <> column \/ y <> line) as [H|H] by (destruct (decide (x = column)); [right; congruence|by left]).
    + assert (x * f_width fontFile + f_width fontFile <= column * f_width fontFile \/
              column * f_width fontFile + f_width fontFile <= x * f_width fontFile) by nia.
      zcase; cbn; done || lia.
    + assert (y * f_height fontFile + f_height fontFile <= line * f_height fontFile \/
              line * f_height fontFile + f_height fontFile <= y * f_height fontFile) by nia.
      zcase; cbn; done || lia.
Qed.

Lemma render_cell m column line c :
  display_ok frameBuffer backBuffer m -> cell Memory column line -> 0 <= c < 128 ->
  let m' := render frameBuffer backBuffer fontFile m c (column * f_width fontFile) (line * f_height fontFile) FOREGROUND BACKGROUND in
  display_ok frameBuffer backBuffer m' /\ shows m' column line c /\
  forall x y k, cell Memory x y -> 0 <= k < 128 -> (x, y) <> (column, line) -> shows m x y k -> shows m' x y k.
Proof.
  intros Hok Hcell Hc m'. destruct Hcell as (H1 & H2 & H3 & H4) eqn:Ec. cbn in H2, H4.
  destruct font_is_wf as [[Hw1 Hw2] [Hh1 Hh2] [Hs1 Hs2] (Hg1 & Hg2 & Hg3) Hgl] eqn:Ef.
  assert (E : m' = writeBitmap frameBuffer backBuffer m (column * f_width fontFile) (line * f_height fontFile)
    (f_width fontFile) (f_height fontFile) (glyph c) FOREGROUND BACKGROUND).
  { unfold m', render, glyph, toChar. rewrite (proj2 (Z.ltb_lt c 128)) by lia.
    change (2 ^ 32) with 4294967296 in *. by rewrite u32_small by nia. }
  change (2 ^ 31) with 2147483648 in *.
  destruct (writeBitmap_run frameBuffer backBuffer m (column * f_width fontFile) (line * f_height fontFile)
    (f_width fontFile) (f_height fontFile) (glyph c) FOREGROUND BACKGROUND display_is_wf Hok) as (Hok' & Hfr & Hpx);
    [unfold isPixel; cbn; lia|unfold isPixel; cbn; lia|nia|nia|lia|lia|change (2 ^ 32) with 4294967296; nia|change (2 ^ 32) with 4294967296; nia|exact Hg3|
     intros k Hk; by apply Hgl|].
  rewrite <- E in Hok', Hfr, Hpx. pose proof (dw_bpp _ _ display_is_wf) as Hbpp.
  split; [exact Hok'|]. split.
  - intros dx dy Hdx Hdy. rewrite (glyphColour_frame m m' c dx dy) by done.
    pose proof (onScreen_cell column line dx dy Hcell Hdx Hdy) as Hon. apply pixelAt_ext. intros ch Hch.
    rewrite Hpx by (done || lia). rewrite cell_rectangle, bool_decide_eq_true_2 by done.
    rewrite (proj2 (Z.ltb_lt ch 3)) by lia. cbn [andb].
    replace (column * f_width fontFile + dx - column * f_width fontFile) with dx by lia.
    replace (line * f_height fontFile + dy - line * f_height fontFile) with dy by lia.
    unfold clipRectangle. rewrite (proj2 (Z.leb_gt _ _)), (proj2 (Z.leb_gt (getHeight frameBuffer) _)) by nia.
    rewrite (u32_small (column * _ + _)) by nia. rewrite (proj2 (Z.ltb_ge (getWidth frameBuffer) _)) by nia. done.
  - intros x y k Hxy Hk Hne Hsh dx dy Hdx Hdy. rewrite (glyphColour_frame m m' k dx dy), <- Hsh by done.
    pose proof (onScreen_cell x y dx dy Hxy Hdx Hdy) as Hon. apply pixelAt_ext. intros ch Hch.
    destruct Hxy as [Hx0 _]. rewrite Hpx by (done || lia). rewrite cell_rectangle, bool_decide_eq_false_2 by done.
    by apply channel_pixelAt.
Qed.

Lemma copy_cells m n line :
  display_ok frameBuffer backBuffer m -> 0 <= n -> (n = 0 \/ cell Memory (n - 1) line) -> 0 < line -> cell Memory 0 line ->
  let m' := copyRegion frameBuffer backBuffer m 0 (line * f_height fontFile) (n * f_width fontFile) (f_height fontFile)
              0 ((line - 1) * f_height fontFile) in
  display_ok frameBuffer backBuffer m' /\
  forall x y k, cell Memory x y -> 0 <= k < 128 ->
    shows m x (if (y =? line - 1) && (x <? n) then line else y) k -> shows m' x y k.
Proof.
  intros Hok Hn Hcn Hl Hcl m'. pose proof Hcl as (_ & _ & _ & Hh). cbn in Hh.
  pose proof font_is_wf as [[Hw1 Hw2] [Hh1 Hh2] [Hs1 Hs2] _ _]. change (2 ^ 31) with 2147483648 in *.
  assert (Hnw : n * f_width fontFile <= getWidth frameBuffer).
  { destruct Hcn as [->|(_ & H & _)]; [lia|]. cbn in H. by replace (n - 1 + 1) with n in H by lia. }
  destruct (copyRegion_run frameBuffer backBuffer m 0 (line * f_height fontFile) (n * f_width fontFile) (f_height fontFile)
    0 ((line - 1) * f_height fontFile) display_is_wf Hok) as (Hok' & Hfr & Hpx);
    [lia|lia|nia|lia|nia|change (2 ^ 32) with 4294967296; nia|change (2 ^ 32) with 4294967296; nia|change (2 ^ 32) with 4294967296; nia|].
  fold m' in Hok', Hfr, Hpx. pose proof (dw_bpp _ _ display_is_wf) as Hbpp.
  split; [exact Hok'|]. intros x y k Hxy Hk Hsh dx dy Hdx Hdy. rewrite (glyphColour_frame m m' k dx dy) by done.
  pose proof (onScreen_cell x y dx dy Hxy Hdx Hdy) as Hon. pose proof Hxy as (Hx0 & _ & Hy0 & _).
  rewrite <- Hsh by done. apply pixelAt_ext. intros ch Hch. rewrite Hpx by (done || lia). cbv zeta.
  assert (Hin : inRectangle 0 ((line - 1) * f_height fontFile) (n * f_width fontFile) (f_height fontFile)
    (x * f_width fontFile + dx) (y * f_height fontFile + dy) = (y =? line - 1) && (x <? n)).
  { unfold inRectangle. destruct (Z.eqb_spec y (line - 1)) as [->|Hne], (Z.ltb_spec x n); cbn [andb].
    - assert ((x + 1) * f_width fontFile <= n * f_width fontFile) by nia. assert (0 <= x * f_width fontFile) by nia.
      zcase; cbn; done || lia.
    - assert (n * f_width fontFile <= x * f_width fontFile) by nia. zcase; cbn; done || lia.
    - assert (y * f_height fontFile + f_height fontFile <= (line - 1) * f_height fontFile \/
              (line - 1) * f_height fontFile + f_height fontFile <= y * f_height fontFile) by nia. zcase; cbn; done || lia.
    - assert (n * f_width fontFile <= x * f_width fontFile) by nia. zcase; cbn; done || lia. }
  rewrite Hin. destruct ((y =? line - 1) && (x <? n)) eqn:Er; cbn [andb].
  - apply andb_true_iff in Er as [->%Z.eqb_eq Hxn%Z.ltb_lt].
    replace (x * f_width fontFile + dx - 0 + 0) with (x * f_width fontFile + dx) by lia.
    replace ((line - 1) * f_height fontFile + dy - (line - 1) * f_height fontFile + line * f_height fontFile)
      with (line * f_height fontFile + dy) by lia.
    rewrite (proj2 (Z.ltb_lt _ (getWidth frameBuffer))), (proj2 (Z.ltb_lt _ (getHeight frameBuffer))) by (destruct Hon; lia).
    by apply channel_pixelAt.
  - by apply channel_pixelAt.
Qed.

#[export] Instance FrameBufferDisplayLaws : TextDisplayLaws Memory.
Proof.
  refine {| td_inv := display_ok frameBuffer backBuffer; td_char := fun c => 0 <= c < 128; td_shows := shows |}.
  - destruct font_is_wf as [? ? [? ?] _ _]. cbn in *. lia.
  - lia.
  - intros m column line c. apply render_cell.
  - intros m column line Hm Hc. apply render_cell; [done|done|lia].
  - intros m n line. apply copy_cells.
Defined.
End Implementation.

(** ** A screen of eight by four pixels *)

Definition smallScreen : FrameBuffer := mkFrameBuffer 4096 8 4 32 32.
(** One line of pixels, the bit pattern 10100000 at 64. *)
Definition bitmapMemory : Memory := putBytes (fun _ => 0) 64 [160].

Lemma display_correct_witness :
  let m' := writeBitmap smallScreen 8192 bitmapMemory 5 2 3 1 64 FOREGROUND BACKGROUND in
  pixelAt smallScreen 8192 m' 7 2 = FOREGROUND /\ pixelAt smallScreen 8192 m' 6 2 = BACKGROUND /\
  pixelAt smallScreen 8192 m' 4 2 = BACKGROUND.
Proof.
  cbv zeta. destruct (display_correct smallScreen 8192 bitmapMemory) as (_ & H & _).
  - constructor; [by vm_compute|by vm_compute|split; by vm_compute|repeat split; by vm_compute|left; by vm_compute].
  - split; [apply putBytes_bytes; [intros a; lia|repeat constructor; lia]|].
    intros o Ho. change (0 <= o < 128) in Ho. change (bitmapMemory (4096 + o) = bitmapMemory (8192 + o)). unfold bitmapMemory, putBytes.
    rewrite (proj2 (Z.leb_le 64 (4096 + o))), (proj2 (Z.leb_le 64 (8192 + o))) by lia.
    by rewrite !lookup_ge_None_2 by (change (List.length [160]) with 1%nat; lia).
  - destruct (H 5 2 3 1 64 FOREGROUND BACKGROUND) as (_ & _ & Hout & Hin).
    + unfold isPixel. cbn. lia.
    + unfold isPixel. cbn. lia.
    + lia.
    + lia.
    + lia.
    + lia.
    + lia.
    + lia.
    + vm_compute. reflexivity.
    + intros k Hk. change (1 * ((3 + 7) / 8)) with 1 in Hk. unfold inBuffers. change (bufferSize smallScreen) with 128. cbn [pointer smallScreen]. lia.
    + split; [rewrite (Hin 7 2); [vm_compute; reflexivity|unfold onScreen; cbn; lia|reflexivity]|].
      split; [rewrite (Hin 6 2); [vm_compute; reflexivity|unfold onScreen; cbn; lia|reflexivity]|].
      rewrite (Hout 4 2); [vm_compute; reflexivity|unfold onScreen; cbn; lia|reflexivity].
Defined.
