(* ===== verification/Console.v ===== *)
(** * The kernel console ([kout.h], [console.cpp], [printf.cpp])

    The console is written against the class [Display.TextDisplay]: the
    characters it has printed are kept in a screen buffer of NUL-terminated
    lines, which [scrollDown] moves up together with the picture. The
    specification is a text terminal: a list of lines and a cursor. *)

From Stdlib Require Import ZArith Lia.
From stdpp Require Import base tactics numbers list.
From S2P Require Import Prelude Strings Display.

Open Scope Z_scope.

(** The static variables of console.cpp. [chars] is the memory the screen
    buffer is in; [consoleLock] is whether the lock is taken: acquiring it
    again on the same processor would spin for ever. *)
Record Console (S : Type) := mkConsole {
  line : Z; column : Z; lines : Z; columns : Z;
  screenBuffer : Z; chars : Memory;
  displayWidth : Z; displayHeight : Z; fontWidth : Z; fontHeight : Z;
  consoleLock : bool;
  display : S
}.
Arguments mkConsole {S}.
Arguments line {S}.
Arguments column {S}.
Arguments lines {S}.
Arguments columns {S}.
Arguments screenBuffer {S}.
Arguments chars {S}.
Arguments displayWidth {S}.
Arguments displayHeight {S}.
Arguments fontWidth {S}.
Arguments fontHeight {S}.
Arguments consoleLock {S}.
Arguments display {S}.

Section Console.
Context {S : Type} `{TextDisplay S}.

(** The address [kmalloc] returns. *)
Context (kmalloc : Z -> outcome Z).

Implicit Types con : Console S.

Definition set_cursor con (l c : Z) : Console S :=
  mkConsole l c (lines con) (columns con) (screenBuffer con) (chars con) (displayWidth con) (displayHeight con)
    (fontWidth con) (fontHeight con) (consoleLock con) (display con).
Definition set_chars con (m : Memory) : Console S :=
  mkConsole (line con) (column con) (lines con) (columns con) (screenBuffer con) m (displayWidth con) (displayHeight con)
    (fontWidth con) (fontHeight con) (consoleLock con) (display con).
Definition set_display con (s : S) : Console S :=
  mkConsole (line con) (column con) (lines con) (columns con) (screenBuffer con) (chars con) (displayWidth con) (displayHeight con)
    (fontWidth con) (fontHeight con) (consoleLock con) s.
Definition set_consoleLock con (b : bool) : Console S :=
  mkConsole (line con) (column con) (lines con) (columns con) (screenBuffer con) (chars con) (displayWidth con) (displayHeight con)
    (fontWidth con) (fontHeight con) b (display con).

Definition SCREEN_BUFFER_CHARACTER con (c l : Z) : Z := screenBuffer con + u32 (l * (columns con + 1) + c).
Definition SCREEN_BUFFER_LINE con (l : Z) : Z := screenBuffer con + u32 (l * (columns con + 1)).

(** [strlen] of a line; a line has at most [columns] characters. *)
Definition lineFuel con : nat := Datatypes.S (Z.to_nat (columns con)).

(** [for (i = ...; i < ...; i++) { removeCharacter(x, y); x += fontWidth; }] *)
Fixpoint remove_loop (n : nat) con (x y : Z) : Console S :=
  match n with
  | O => con
  | Datatypes.S n => remove_loop n (set_display con (td_removeCharacter (display con) x y)) (u32 (x + fontWidth con)) y
  end.

(** The loop of [scrollDown] over the [n] lines from [i] on; the result has
    the last [y]. *)
Fixpoint scroll_loop (n : nat) con (i y : Z) : outcome (Console S * Z) :=
  match n with
  | O => Ok (con, y)
  | Datatypes.S n =>
      let y := u32 (y + fontHeight con) in
      let ln := SCREEN_BUFFER_LINE con i in
      let previousLine := SCREEN_BUFFER_LINE con (i - 1) in
      let! lineLength := strlen (lineFuel con) (chars con) ln in
      let! previousLineLength := strlen (lineFuel con) (chars con) previousLine in
      let x := u32 (lineLength * fontWidth con) in
      let con := remove_loop (Z.to_nat (previousLineLength - lineLength)) con x (u32 (y - fontHeight con)) in
      let! m := strcpy (lineFuel con) (chars con) previousLine ln in
      let con := set_chars con m in
      let con := set_display con (td_copyRegion (display con) 0 y (u32 (lineLength * fontWidth con)) (fontHeight con)
                                    0 (u32 (y - fontHeight con))) in
      scroll_loop n con (i + 1) y
  end.

Definition scrollDown con : outcome (Console S) :=
  let! '(con, y) := scroll_loop (Z.to_nat (lines con - 1)) con 1 0 in
  let lastLine := SCREEN_BUFFER_LINE con (u32 (lines con - 1)) in
  let! lastLineLength := strlen (lineFuel con) (chars con) lastLine in
  let con := remove_loop (Z.to_nat lastLineLength) con 0 y in
  Ok (set_chars con (storeb (chars con) lastLine 0)).

(** [column = x = 0] and the move to the next line: the console and [y]. *)
Definition nextLine con (y : Z) : outcome (Console S * Z) :=
  let con := set_cursor con (line con) 0 in
  if line con <? u32 (lines con - 1) then
    Ok (set_cursor con (u32 (line con + 1)) 0, u32 (y + fontHeight con))
  else
    let! con := scrollDown con in
    let con := set_cursor con (u32 (lines con - 1)) 0 in
    Ok (con, u32 (line con * fontHeight con)).

(** Drawing a character at the cursor. *)
Definition putCharacter con (x y ch : Z) : Console S :=
  let con := set_display con (td_writeCharacter (display con) x y ch) in
  let m := storeb (chars con) (SCREEN_BUFFER_CHARACTER con (column con) (line con)) ch in
  let m := storeb m (SCREEN_BUFFER_CHARACTER con (column con + 1) (line con)) 0 in
  let con := set_chars con m in
  set_cursor con (line con) (u32 (column con + 1)).

(** The loop of [print]; [str] gets shorter with each step. *)
Fixpoint print_loop (fuel : nat) (m : Memory) (str : Str) (x y : Z) con : outcome (Console S) :=
  if 0 <? length str then
    match fuel with
    | O => Hang
    | Datatypes.S fuel =>
        let ch := Str_index m str 0 in
        if (columns con <=? column con) || (ch =? 10) then
          let! '(con, y) := nextLine con y in
          if ch =? 10 then print_loop fuel m (subStringFrom str 1) 0 y con
          else
            let con := putCharacter con 0 y ch in
            print_loop fuel m (subStringFrom str 1) (u32 (0 + fontWidth con)) y con
        else
          let con := putCharacter con x y ch in
          print_loop fuel m (subStringFrom str 1) (u32 (x + fontWidth con)) y con
    end
  else Ok con.

(** Clearing the lines of a new screen buffer. *)
Fixpoint clear_loop (n : nat) con (i : Z) : Console S :=
  match n with
  | O => con
  | Datatypes.S n => clear_loop n (set_chars con (storeb (chars con) (SCREEN_BUFFER_CHARACTER con 0 i) 0)) (i + 1)
  end.

(** [if (columns == 0) ...]. *)
Definition initConsole con : outcome (Console S) :=
  if columns con =? 0 then
    let c := td_width (S := S) / td_fontWidth (S := S) in
    let l := td_height (S := S) / td_fontHeight (S := S) in
    let! p := kmalloc (u32 ((c + 1) * l)) in
    let con := mkConsole (line con) (column con) l c p (chars con) (td_width (S := S)) (td_height (S := S))
                 (td_fontWidth (S := S)) (td_fontHeight (S := S)) (consoleLock con) (display con) in
    Ok (clear_loop (Z.to_nat l) con 0)
  else Ok con.

Definition acquireConsoleLock con : outcome (Console S) :=
  if consoleLock con then Hang else Ok (set_consoleLock con true).
Definition releaseConsoleLock con : Console S := set_consoleLock con false.

(** [print(String, bool)]; [m] is the memory [str] points to. *)
Definition print (m : Memory) (str : Str) (skipLocking : bool) con : outcome (Console S) :=
  let! con := (if negb skipLocking then acquireConsoleLock con else Ok con) in
  let! con := initConsole con in
  let x := u32 (column con * fontWidth con) in
  let y := u32 (line con * fontHeight con) in
  let! con := print_loop (Z.to_nat (length str)) m str x y con in
  Ok (if negb skipLocking then releaseConsoleLock con else con).

(** ** Numbers

    [stack] is the address of the local variables. *)
Context (stack : Z).

(** The literal of the 64 digits. *)
Definition digitChars : list Z :=
  (seqZ 48 10) ++ (seqZ 97 26) ++ (seqZ 65 26) ++ [43; 47].

Definition BUFFER_SIZE : Z := 65.

(** A store into [buffer]; outside it the stack would be overwritten. *)
Definition storeBuffer (m : Memory) (i c : Z) : outcome Memory :=
  if (0 <=? i) && (i <? BUFFER_SIZE) then Ok (storeb m (stack + i) c) else Fault.

(** The [do] loop: the memory and the number of digits. *)
Fixpoint digits_loop (fuel : nat) (m : Memory) (i value base : Z) : outcome (Memory * Z) :=
  match fuel with
  | O => Hang
  | Datatypes.S fuel =>
      if base =? 0 then Fault
      else
        let! c := of_option (digitChars !! Z.to_nat (value mod base)) in
        let! m := storeBuffer m i c in
        let value := value / base in
        if negb (value =? 0) then digits_loop fuel m (i + 1) value base else Ok (m, i + 1)
  end.

Fixpoint reverse_loop (n : nat) (m : Memory) (i end_ : Z) : Memory :=
  match n with
  | O => m
  | Datatypes.S n =>
      let temp := m (stack + i) in
      let m := storeb m (stack + i) (m (stack + (end_ - i))) in
      let m := storeb m (stack + (end_ - i)) temp in
      reverse_loop n m (i + 1) end_
  end.

(** The text of a number in [buffer]. *)
Definition formatNumber (m : Memory) (value base : Z) : outcome Memory :=
  let! '(m, count) := digits_loop 66 m 0 value base in
  let! m := storeBuffer m count 0 in
  Ok (reverse_loop (Z.to_nat (count / 2)) m 0 (count - 1)).

(** [print(unsigned long, unsigned long, bool)]. *)
Definition printNumber (m : Memory) (value base : Z) (skipLocking : bool) con : outcome (Console S) :=
  let! m := formatNumber m value base in
  let! str := Str_of 66 m stack in
  print m str skipLocking con.

(** ** printf

    [rodata] is where the literals are, [args] the variable arguments as
    quad-words, [chars_max] a bound for the length of a [%s] argument. *)
Context (rodata : Z) (chars_max : nat).

Definition printLiteral (m : Memory) (l : list Z) con : outcome (Console S) :=
  print (putBytes m rodata (l ++ [0])) (mkStr rodata (Z.of_nat (List.length l))) true con.

Definition va_arg (args : list Z) : outcome (Z * list Z) :=
  match args with
  | a :: args => Ok (a, args)
  | [] => Fault
  end.

(** An [int] argument converted to [unsigned long]. *)
Definition intToLong (a : Z) : Z := if u32 a <? 2 ^ 31 then u32 a else u64 (u32 a - 2 ^ 32).

Definition UNKNOWN : list Z :=
  [60; 117; 110; 107; 110; 111; 119; 110; 32; 116; 121; 112; 101; 32; 115; 112; 101; 99; 105; 102; 105; 101; 114; 62].

(** The [switch] on the specifier [c]: what is left of the arguments. *)
Definition printSpecifier (m : Memory) (c : Z) (args : list Z) con : outcome (list Z * Console S) :=
  if c =? 110 then Ok (args, con)
  else if c =? 37 then let! con := printLiteral m [37] con in Ok (args, con)
  else if c =? 99 then
    let! '(a, args) := va_arg args in
    let! con := print (storeb m stack (u8 a)) (mkStr stack 1) true con in Ok (args, con)
  else if c =? 100 then
    let! '(a, args) := va_arg args in
    let! con := printNumber m (intToLong a) 10 true con in Ok (args, con)
  else if c =? 108 then
    let! '(a, args) := va_arg args in
    let! con := printNumber m (u64 a) 10 true con in Ok (args, con)
  else if c =? 111 then
    let! '(a, args) := va_arg args in
    let! con := printNumber m (u64 a) 8 true con in Ok (args, con)
  else if c =? 112 then
    let! '(a, args) := va_arg args in
    let! con := printLiteral m [48; 120] con in
    let! con := printNumber m (u64 a) 16 true con in Ok (args, con)
  else if c =? 115 then
    let! '(a, args) := va_arg args in
    let! str := Str_of chars_max m (u64 a) in
    let! con := print m str true con in Ok (args, con)
  else if c =? 120 then
    let! '(a, args) := va_arg args in
    let! con := printNumber m (u64 a) 16 true con in Ok (args, con)
  else let! con := printLiteral m UNKNOWN con in Ok (args, con).

Fixpoint printf_loop (fuel : nat) (m : Memory) (format : Str) (args : list Z) con : outcome (Console S) :=
  if 0 <? length format then
    match fuel with
    | O => Hang
    | Datatypes.S fuel =>
        if Str_index m format 0 =? 37 then
          let format := subStringFrom format 1 in
          let! '(args, con) := printSpecifier m (Str_index m format 0) args con in
          printf_loop fuel m (subStringFrom format 1) args con
        else
          let! con := print m (findBefore m format 37) true con in
          printf_loop fuel m (findNext m format 37) args con
    end
  else Ok con.

Definition printf (m : Memory) (format : Str) (args : list Z) con : outcome (Console S) :=
  let! con := acquireConsoleLock con in
  let! con := printf_loop (Z.to_nat (length format)) m format args con in
  Ok (releaseConsoleLock con).

(** ** Specification: a text terminal *)

Record Terminal := mkTerminal { t_lines : list (list Z); t_line : nat }.

Definition t_current (t : Terminal) : list Z := default [] (t_lines t !! t_line t).

Definition t_newline (t : Terminal) : Terminal :=
  if (Datatypes.S (t_line t) <? List.length (t_lines t))%nat then mkTerminal (t_lines t) (Datatypes.S (t_line t))
  else mkTerminal (tail (t_lines t) ++ [[]]) (t_line t).

(** Printing a character on a terminal of [n] columns. *)
Definition t_put (n : Z) (t : Terminal) (c : Z) : Terminal :=
  let t := if (n <=? Z.of_nat (List.length (t_current t))) || (c =? 10) then t_newline t else t in
  if c =? 10 then t else mkTerminal (<[t_line t := t_current t ++ [c]]> (t_lines t)) (t_line t).

Definition t_print (n : Z) (t : Terminal) (l : list Z) : Terminal := fold_left (t_put n) l t.

Context {L : TextDisplayLaws S}.

(** A character that can be printed: not NUL, and in the font unless it is a
    newline. *)
Definition printable (c : Z) : Prop := 0 < c < 256 /\ (c <> 10 -> td_char c).

(** The rows of the terminal are in the screen buffer and on the screen. *)
Definition lineAddress con (i : nat) : Z := screenBuffer con + Z.of_nat i * (columns con + 1).

Record rows_ok con (rows : list (list Z)) : Prop := {
  ro_inv : td_inv (display con);
  ro_bytes : isBytes (chars con);
  ro_text : forall i l, rows !! i = Some l -> cstring (chars con) (lineAddress con i) l;
  ro_shown : forall i l j, rows !! i = Some l -> 0 <= j < columns con -> td_shows (display con) j (Z.of_nat i) (nth (Z.to_nat j) l 32)
}.

(** The dimensions, once they are known. *)
Record geometry con : Prop := {
  ge_columns : columns con = td_width (S := S) / td_fontWidth (S := S);
  ge_lines : lines con = td_height (S := S) / td_fontHeight (S := S);
  ge_fontWidth : fontWidth con = td_fontWidth (S := S);
  ge_fontHeight : fontHeight con = td_fontHeight (S := S);
  ge_size : (columns con + 1) * lines con < 2 ^ 32
}.

Record rows_wf con (rows : list (list Z)) : Prop := {
  rw_length : Z.of_nat (List.length rows) = lines con;
  rw_rows : forall i l, rows !! i = Some l -> Z.of_nat (List.length l) <= columns con /\ Forall (fun c => td_char c) l
}.

(** The console shows the terminal. *)
Record console_ok con (t : Terminal) : Prop := {
  co_geometry : geometry con;
  co_rows : rows_ok con (t_lines t);
  co_wf : rows_wf con (t_lines t);
  co_line : line con = Z.of_nat (t_line t) /\ line con < lines con;
  co_column : column con = Z.of_nat (List.length (t_current t));
  co_below : forall i l, (t_line t < i)%nat -> t_lines t !! i = Some l -> l = []
}.

(** ** Cells and addresses *)

Lemma geometry_bounds con : geometry con ->
  0 < columns con < 2 ^ 31 /\ 0 < lines con < 2 ^ 31 /\ columns con * fontWidth con < 2 ^ 31 /\ lines con * fontHeight con < 2 ^ 31.
Proof.
  intros [-> -> -> -> _]. pose proof td_sizes as (H1 & H2 & H3 & H4). change (2 ^ 31) with 2147483648 in *.
  pose proof (Z.mul_div_le (td_width (S := S)) (td_fontWidth (S := S)) H1).
  pose proof (Z.mul_div_le (td_height (S := S)) (td_fontHeight (S := S)) H2).
  assert (1 <= td_width (S := S) / td_fontWidth (S := S)) by (apply Z.div_le_lower_bound; lia).
  assert (1 <= td_height (S := S) / td_fontHeight (S := S)) by (apply Z.div_le_lower_bound; lia).
  nia.
Qed.

Lemma cell_of con x y : geometry con -> 0 <= x < columns con -> 0 <= y < lines con -> cell S x y.
Proof.
  intros Hg Hx Hy. pose proof Hg as [E1 E2 _ _ _]. pose proof td_sizes as (H1 & H2 & _).
  pose proof (Z.mul_div_le (td_width (S := S)) (td_fontWidth (S := S)) H1).
  pose proof (Z.mul_div_le (td_height (S := S)) (td_fontHeight (S := S)) H2).
  rewrite E1 in Hx. rewrite E2 in Hy. unfold cell. nia.
Qed.

Lemma lineAddress_spec con i : geometry con -> (Z.of_nat i < lines con) ->
  SCREEN_BUFFER_LINE con (Z.of_nat i) = lineAddress con i.
Proof.
  intros Hg Hi. pose proof (geometry_bounds con Hg). destruct Hg as [_ _ _ _ Hs].
  change (2 ^ 32) with 4294967296 in Hs. unfold SCREEN_BUFFER_LINE, lineAddress. rewrite u32_small by nia. done.
Qed.

Lemma characterAddress_spec con c i : geometry con -> 0 <= c <= columns con -> (Z.of_nat i < lines con) ->
  SCREEN_BUFFER_CHARACTER con c (Z.of_nat i) = lineAddress con i + c.
Proof.
  intros Hg Hc Hi. pose proof (geometry_bounds con Hg). destruct Hg as [_ _ _ _ Hs].
  change (2 ^ 32) with 4294967296 in Hs. unfold SCREEN_BUFFER_CHARACTER, lineAddress. rewrite u32_small by nia. lia.
Qed.

(** The lines do not overlap. *)
Lemma lineAddress_disjoint con i j : 0 < columns con -> (i < j)%nat -> lineAddress con i + columns con < lineAddress con j.
Proof. unfold lineAddress. nia. Qed.

Lemma nth_char l j : Forall (fun c => td_char c) l -> td_char (nth j l 32).
Proof.
  intros H0. destruct (nth_in_or_default j l 32) as [Hin| ->]; [|apply td_space].
  rewrite List.Forall_forall in H0. by apply H0.
Qed.

(** ** Scrolling *)

Lemma remove_loop_spec n : forall con col row,
  geometry con -> td_inv (display con) -> 0 <= row < lines con -> 0 <= col -> col + Z.of_nat n <= columns con ->
  exists s', remove_loop n con (col * fontWidth con) (row * fontHeight con) = set_display con s' /\ td_inv s' /\
    forall x y k, cell S x y -> td_char k ->
      (if (y =? row) && (col <=? x) && (x <? col + Z.of_nat n) then k = 32 else td_shows (display con) x y k) ->
      td_shows s' x y k.
Proof.
  induction n as [|n IH]; intros con col row Hg Hi Hr Hc Hn; cbn [remove_loop].
  - exists (display con). split; [by destruct con|]. split; [done|]. intros x y k _ _ Hk.
    replace ((y =? row) && (col <=? x) && (x <? col + Z.of_nat 0)) with false in Hk by (zcase; cbn; lia || done). done.
  - rewrite Nat2Z.inj_succ in Hn. pose proof (geometry_bounds con Hg) as (Hb1 & Hb2 & Hb3 & _).
    pose proof Hg as [E1 E2 E3 E4 E5]. pose proof td_sizes as (Hf1 & Hf2 & _). change (2 ^ 31) with 2147483648 in *.
    rewrite u32_small by nia. replace (col * fontWidth con + fontWidth con) with ((col + 1) * fontWidth con) by lia.
    rewrite E3, E4. set (con1 := set_display con _).
    destruct (td_remove_law (display con) col row Hi (cell_of con col row Hg ltac:(lia) Hr)) as (I1 & I2 & I3).
    destruct (IH con1 (col + 1) row) as (s' & E & Hi' & Hs); [constructor; done|exact I1|done|lia|cbn; lia|].
    exists s'. cbn [con1 fontWidth fontHeight set_display] in E. rewrite E3, E4 in E. rewrite E. split; [done|]. split; [done|].
    intros x y k Hcell Hk Hsh. apply Hs; [done|done|]. cbn [con1 display set_display].
    destruct (decide ((x, y) = (col, row))) as [[= -> ->]|Hne].
    + rewrite Z.eqb_refl, (proj2 (Z.leb_gt (col + 1) col)) by lia. cbn [andb].
      rewrite Z.eqb_refl, Z.leb_refl, (proj2 (Z.ltb_lt col _)) in Hsh by lia. cbn [andb] in Hsh. by subst k.
    + replace ((y =? row) && (col <=? x) && (x <? col + Z.of_nat (Datatypes.S n)))
        with ((y =? row) && (col + 1 <=? x) && (x <? col + 1 + Z.of_nat n)) in Hsh.
      * destruct (_ && _); [done|]. by apply I3.
      * assert (x <> col \/ y <> row) by (destruct (decide (x = col)); [right; congruence|by left]).
        zcase; cbn; lia || done.
Qed.

(** A console with other characters and another picture. *)
Definition redraw con (m : Memory) (s : S) : Console S := set_display (set_chars con m) s.

Lemma geometry_redraw con m s : geometry con -> geometry (redraw con m s).
Proof. by intros []. Qed.

Lemma rows_wf_redraw con m s rows : rows_wf con rows -> rows_wf (redraw con m s) rows.
Proof. by intros []. Qed.

(** Line [i] takes the text of line [i + 1], for the [n] lines from [i] on. *)
Fixpoint shiftRows (n i : nat) (rows : list (list Z)) : list (list Z) :=
  match n with
  | O => rows
  | Datatypes.S n => shiftRows n (i + 1) (<[i := default [] (rows !! Datatypes.S i)]> rows)
  end.

Lemma shiftRows_lookup n : forall i rows j,
  (i + n < List.length rows)%nat ->
  shiftRows n i rows !! j = if ((i <=? j) && (j <? i + n))%nat then rows !! Datatypes.S j else rows !! j.
Proof.
  induction n as [|n IH]; intros i rows j Hl; cbn [shiftRows].
  - by replace ((i <=? j) && (j <? i + 0))%nat with false by (destruct (Nat.leb_spec i j), (Nat.ltb_spec j (i + 0)); cbn; lia || done).
  - rewrite IH by (rewrite length_insert; lia).
    destruct (lookup_lt_is_Some_2 rows (Datatypes.S i) ltac:(lia)) as [x Hx]. rewrite Hx. cbn [default].
    destruct (decide (j = i)) as [->|Hne].
    + rewrite (proj2 (Nat.leb_gt (i + 1) i)), (proj2 (Nat.leb_le i i)), (proj2 (Nat.ltb_lt i (i + Datatypes.S n))) by lia. cbn [andb].
      rewrite list_lookup_insert_eq by lia. by rewrite Hx.
    + destruct (Nat.leb_spec (i + 1) j), (Nat.leb_spec i j), (Nat.ltb_spec j (i + 1 + n)), (Nat.ltb_spec j (i + Datatypes.S n));
        cbn [andb]; try lia; by rewrite list_lookup_insert_ne by lia.
Qed.

Lemma shiftRows_last rows : rows <> [] ->
  <[Nat.pred (List.length rows) := []]> (shiftRows (Nat.pred (List.length rows)) 0 rows) = tail rows ++ [[]].
Proof.
  intros Hne. destruct rows as [|r rows]; [done|]. cbn [List.length Nat.pred tail]. apply list_eq. intros j.
  assert (Hlen : forall n i l, List.length (shiftRows n i l) = List.length l).
  { induction n as [|n IH]; intros i l; cbn [shiftRows]; [done|]. by rewrite IH, length_insert. }
  destruct (decide (j = List.length rows)) as [->|Hj].
  - rewrite list_lookup_insert_eq by (rewrite Hlen; cbn; lia). by rewrite lookup_app_r, Nat.sub_diag by lia.
  - rewrite list_lookup_insert_ne by done. rewrite shiftRows_lookup by (cbn [List.length]; lia). cbn [Nat.leb andb].
    destruct (Nat.ltb_spec j (0 + List.length rows)).
    + by rewrite lookup_app_l by lia.
    + rewrite !lookup_ge_None_2; [done|rewrite length_app; cbn; lia|cbn; lia].
Qed.

(** One step: line [i] takes the text of line [i + 1]. *)
Lemma scroll_step con rows i l p :
  geometry con -> rows_ok con rows -> rows_wf con rows ->
  rows !! i = Some p -> rows !! Datatypes.S i = Some l ->
  let y := (Z.of_nat i + 1) * fontHeight con in
  exists m' s', strcpy (lineFuel con) (chars con) (lineAddress con i) (lineAddress con (Datatypes.S i)) = Ok m' /\
    td_copyRegion (display (remove_loop (Z.to_nat (Z.of_nat (List.length p) - Z.of_nat (List.length l))) con
        (Z.of_nat (List.length l) * fontWidth con) (Z.of_nat i * fontHeight con)))
      0 y (Z.of_nat (List.length l) * fontWidth con) (fontHeight con) 0 (Z.of_nat i * fontHeight con) = s' /\
    rows_ok (redraw con m' s') (<[i := l]> rows) /\ rows_wf (redraw con m' s') (<[i := l]> rows).
Proof.
  intros Hg [Ri Rb Rt Rs] [Wl Ww] Hp Hl y. pose proof (geometry_bounds con Hg) as (Hb1 & Hb2 & _).
  assert (Hi : (Datatypes.S i < List.length rows)%nat) by (by eapply lookup_lt_Some).
  destruct (Ww _ _ Hp) as [Hlp Hcp], (Ww _ _ Hl) as [Hll Hcl].
  destruct (strcpy_spec (lineFuel con) (chars con) (lineAddress con i) (lineAddress con (Datatypes.S i)) l Rb (Rt _ _ Hl))
    as (m' & Em & Hb' & Hc' & Hout); [unfold lineFuel; lia|left; pose proof (lineAddress_disjoint con i (Datatypes.S i) ltac:(lia) ltac:(lia)); lia|].
  destruct (remove_loop_spec (Z.to_nat (Z.of_nat (List.length p) - Z.of_nat (List.length l))) con (Z.of_nat (List.length l)) (Z.of_nat i)
    Hg Ri) as (s1 & E1 & I1 & S1); [lia|lia|lia|]. rewrite E1. cbn [display set_display].
  pose proof Hg as [_ _ E3 E4 _].
  destruct (td_copy_law s1 (Z.of_nat (List.length l)) (Z.of_nat i + 1) I1 ltac:(lia)) as [I2 S2].
  { destruct l as [|a l]; [by left|right]. apply (cell_of con); [done| |lia]. cbn [List.length] in *. lia. }
  { lia. }
  { apply (cell_of con); [done|lia|lia]. }
  exists m'. eexists. split; [exact Em|]. split; [done|]. unfold y. rewrite E3, E4.
  replace (Z.of_nat i + 1 - 1) with (Z.of_nat i) in I2, S2 by lia.
  split; [constructor|constructor]; cbn [redraw display chars set_display set_chars lineAddress screenBuffer columns lines].
  - exact I2.
  - exact Hb'.
  - intros j r Hj. destruct (decide (j = i)) as [->|Hne].
    + rewrite list_lookup_insert_eq in Hj by lia. by injection Hj as <-.
    + rewrite list_lookup_insert_ne in Hj by done. destruct (Ww _ _ Hj) as [Hlr _].
      apply (cstring_ext (chars con)); [|exact (Rt _ _ Hj)]. intros k Hk. apply Hout.
      match goal with |- context [lineAddress (redraw ?c ?m ?s) j] => change (lineAddress (redraw c m s) j) with (lineAddress con j) end.
      destruct (Nat.lt_trichotomy i j) as [H1|[?|H1]]; [|done|];
        [pose proof (lineAddress_disjoint con i j ltac:(lia) H1); lia|pose proof (lineAddress_disjoint con j i ltac:(lia) H1); lia].
  - intros j r x Hj Hx.
    assert (Hjr : (j < List.length rows)%nat) by (rewrite <- (length_insert rows i l); by eapply lookup_lt_Some).
    assert (Hcell : forall k, (k < List.length rows)%nat -> cell S x (Z.of_nat k)) by (intros; apply (cell_of con); [done|done|lia]).
    assert (Hcr : Forall (fun c => td_char c) r).
    { destruct (decide (j = i)) as [->|Hne]; [rewrite list_lookup_insert_eq in Hj by lia; by injection Hj as <-|].
      rewrite list_lookup_insert_ne in Hj by done. by apply (Ww j). }
    apply S2; [by apply Hcell|by apply nth_char|].
    apply S1; [destruct (_ && _); [replace (Z.of_nat i + 1) with (Z.of_nat (Datatypes.S i)) by lia; apply Hcell; lia|by apply Hcell]|by apply nth_char|].
    destruct (decide (j = i)) as [->|Hne].
    + rewrite list_lookup_insert_eq in Hj by lia. injection Hj as <-. rewrite Z.eqb_refl. cbn [andb].
      destruct (Z.ltb_spec x (Z.of_nat (List.length l))) as [Hlt|Hge]; cbn [andb].
      * rewrite (proj2 (Z.eqb_neq (Z.of_nat i + 1) (Z.of_nat i))) by lia. cbn [andb].
        replace (Z.of_nat i + 1) with (Z.of_nat (Datatypes.S i)) by lia. by apply Rs.
      * rewrite Z.eqb_refl, (proj2 (Z.leb_le _ x)) by lia. cbn [andb]. rewrite (nth_overflow l) by lia.
        destruct (Z.ltb_spec x (Z.of_nat (List.length l) + Z.of_nat (Z.to_nat (Z.of_nat (List.length p) - Z.of_nat (List.length l))))); [done|].
        pose proof (Rs _ _ x Hp Hx) as Hsh. by rewrite nth_overflow in Hsh by lia.
    + rewrite list_lookup_insert_ne in Hj by done. rewrite (proj2 (Z.eqb_neq (Z.of_nat j) (Z.of_nat i))) by lia. cbn [andb].
      rewrite (proj2 (Z.eqb_neq (Z.of_nat j) (Z.of_nat i))) by lia. cbn [andb]. by apply Rs.
  - by rewrite length_insert.
  - intros j r Hj. destruct (decide (j = i)) as [->|Hne]; [rewrite list_lookup_insert_eq in Hj by lia; by injection Hj as <-|].
    rewrite list_lookup_insert_ne in Hj by done. by apply (Ww j).
Qed.

Lemma scroll_loop_spec n : forall con rows i,
  geometry con -> rows_ok con rows -> rows_wf con rows -> (i + n < List.length rows)%nat ->
  exists m' s', scroll_loop n con (Z.of_nat i + 1) (Z.of_nat i * fontHeight con)
      = Ok (redraw con m' s', (Z.of_nat i + Z.of_nat n) * fontHeight con) /\
    rows_ok (redraw con m' s') (shiftRows n i rows) /\ rows_wf (redraw con m' s') (shiftRows n i rows).
Proof.
  induction n as [|n IH]; intros con rows i Hg Hr Hw Hi; cbn [scroll_loop shiftRows].
  - exists (chars con), (display con). rewrite Z.add_0_r. by destruct con.
  - destruct (lookup_lt_is_Some_2 rows i ltac:(lia)) as [p Hp], (lookup_lt_is_Some_2 rows (Datatypes.S i) ltac:(lia)) as [l Hl].
    pose proof (geometry_bounds con Hg) as (Hb1 & Hb2 & Hb3 & Hb4). pose proof (rw_length _ _ Hw) as Hlen.
    pose proof Hg as [_ _ E3 E4 _]. pose proof td_sizes as (Hf1 & Hf2 & _). change (2 ^ 31) with 2147483648 in *.
    destruct (rw_rows _ _ Hw _ _ Hp) as [Hlp _], (rw_rows _ _ Hw _ _ Hl) as [Hll _].
    replace (Z.of_nat i + 1) with (Z.of_nat (Datatypes.S i)) by lia. rewrite (lineAddress_spec con (Datatypes.S i)) by (done || lia).
    replace (Z.of_nat (Datatypes.S i) - 1) with (Z.of_nat i) by lia. rewrite (lineAddress_spec con i) by (done || lia).
    rewrite (strlen_spec _ _ _ l) by (first [exact (ro_text _ _ Hr _ _ Hl)|unfold lineFuel; lia]). cbn [obind].
    rewrite (strlen_spec _ _ _ p) by (first [exact (ro_text _ _ Hr _ _ Hp)|unfold lineFuel; lia]). cbn [obind].
    assert (Hy : u32 (Z.of_nat i * fontHeight con + fontHeight con) = (Z.of_nat i + 1) * fontHeight con) by (rewrite u32_small; nia).
    rewrite Hy. rewrite (u32_small (Z.of_nat (List.length l) * fontWidth con)) by nia.
    assert (Hy' : u32 ((Z.of_nat i + 1) * fontHeight con - fontHeight con) = Z.of_nat i * fontHeight con) by (rewrite u32_small; nia).
    rewrite Hy'.
    destruct (scroll_step con rows i l p Hg Hr Hw Hp Hl) as (m1 & s1 & Em & Es & Hr1 & Hw1). cbv zeta in Es.
    destruct (remove_loop_spec (Z.to_nat (Z.of_nat (List.length p) - Z.of_nat (List.length l))) con (Z.of_nat (List.length l)) (Z.of_nat i)
      Hg (ro_inv _ _ Hr)) as (s0 & E0 & _ & _); [lia|lia|lia|].
    rewrite E0 in Es |- *. cbn [lineFuel chars set_display columns]. change (lineFuel (set_display con s0)) with (lineFuel con). rewrite Em.
    cbn [obind display set_chars set_display fontWidth fontHeight]. cbn [display set_display] in Es.
    rewrite (u32_small (Z.of_nat (List.length l) * fontWidth con)), Hy' by nia. rewrite Es.
    change (set_display (set_chars (set_display con s0) m1) s1) with (redraw con m1 s1).
    destruct (IH (redraw con m1 s1) (<[i := l]> rows) (Datatypes.S i) (geometry_redraw _ _ _ Hg) Hr1 Hw1) as (m2 & s2 & E2 & Hr2 & Hw2).
    { rewrite length_insert. lia. }
    cbn [redraw fontHeight set_chars set_display] in E2. replace (Z.of_nat i + 1) with (Z.of_nat (Datatypes.S i)) by lia. rewrite E2.
    exists m2, s2. rewrite Hl. cbn [default]. rewrite (Nat.add_1_r i). split; [|done].
    replace (Z.of_nat (Datatypes.S i) + Z.of_nat n) with (Z.of_nat i + Z.of_nat (Datatypes.S n)) by lia. done.
Qed.

Lemma scrollDown_spec con rows :
  geometry con -> rows_ok con rows -> rows_wf con rows ->
  exists m' s', scrollDown con = Ok (redraw con m' s') /\
    rows_ok (redraw con m' s') (tail rows ++ [[]]) /\ rows_wf (redraw con m' s') (tail rows ++ [[]]).
Proof.
  intros Hg Hr Hw. unfold scrollDown. pose proof (geometry_bounds con Hg) as (Hb1 & Hb2 & Hb3 & Hb4).
  pose proof (rw_length _ _ Hw) as Hlen. change (2 ^ 31) with 2147483648 in *. set (k := Nat.pred (List.length rows)).
  destruct (scroll_loop_spec k con rows 0 Hg Hr Hw ltac:(unfold k; lia)) as (m1 & s1 & E & Hr1 & Hw1).
  replace (Z.to_nat (lines con - 1)) with k by (unfold k; lia). change (Z.of_nat 0) with 0 in E.
  change (0 * fontHeight con) with 0 in E. change (0 + Z.of_nat k) with (Z.of_nat k) in E. change (0 + 1) with 1 in E. rewrite E. cbn [obind].
  set (con1 := redraw con m1 s1) in *. assert (Hg1 : geometry con1) by (by apply geometry_redraw).
  change (lines con1) with (lines con). rewrite (u32_small (lines con - 1)) by lia.
  replace (lines con - 1) with (Z.of_nat k) by (unfold k; lia). rewrite (lineAddress_spec con1 k) by (done || (cbn; unfold k; lia)).
  set (rows1 := shiftRows k 0 rows) in *. pose proof (rw_length _ _ Hw1) as Hlen1. cbn [con1 redraw lines set_display set_chars] in Hlen1.
  destruct (lookup_lt_is_Some_2 rows1 k ltac:(unfold k; lia)) as [l Hl]. destruct (rw_rows _ _ Hw1 _ _ Hl) as [Hll _].
  change (columns con1) with (columns con) in Hll.
  rewrite (strlen_spec _ _ _ l) by (first [exact (ro_text _ _ Hr1 _ _ Hl)|unfold lineFuel; cbn; lia]). cbn [obind].
  destruct (remove_loop_spec (Z.to_nat (Z.of_nat (List.length l))) con1 0 (Z.of_nat k) Hg1 (ro_inv _ _ Hr1)) as (s2 & E2 & I2 & S2);
    [cbn; unfold k; lia|lia|cbn; lia|].
  change (0 * fontWidth con1) with 0 in E2. change (fontHeight con1) with (fontHeight con) in E2. rewrite E2.
  exists (storeb m1 (lineAddress con k) 0), s2. split; [done|].
  assert (Et : <[k := []]> rows1 = tail rows ++ [[]]) by (apply shiftRows_last; intros ->; cbn in Hlen; lia).
  rewrite <- Et. assert (Hk : (k < List.length rows1)%nat) by (unfold k; lia).
  split; constructor; cbn [redraw display chars set_display set_chars].
  - exact I2.
  - apply storeb_bytes; [apply (ro_bytes _ _ Hr1)|lia].
  - intros j r Hj. change (lineAddress (redraw con (storeb m1 (lineAddress con k) 0) s2) j) with (lineAddress con j).
    destruct (decide (j = k)) as [->|Hne].
    + rewrite list_lookup_insert_eq in Hj by done. injection Hj as <-. split; [done|]. split; [|done]. cbn [List.length Z.of_nat].
      rewrite Z.add_0_r. unfold storeb. by rewrite Z.eqb_refl.
    + rewrite list_lookup_insert_ne in Hj by done. destruct (rw_rows _ _ Hw1 _ _ Hj) as [Hlr _]. change (columns con1) with (columns con) in Hlr.
      apply (cstring_ext m1); [|exact (ro_text _ _ Hr1 _ _ Hj)]. intros x Hx. unfold storeb.
      destruct (Z.eqb_spec (lineAddress con j + x) (lineAddress con k)) as [E3|]; [|done].
      destruct (Nat.lt_trichotomy k j) as [H1|[?|H1]]; [|done|];
        [pose proof (lineAddress_disjoint con k j ltac:(lia) H1); lia|pose proof (lineAddress_disjoint con j k ltac:(lia) H1); lia].
  - intros j r x Hj Hx. change (columns (redraw _ _ _)) with (columns con) in Hx.
    assert (Hjr : (j < List.length rows1)%nat) by (rewrite <- (length_insert rows1 k []); by eapply lookup_lt_Some).
    apply S2; [apply (cell_of con1); [done|done|change (lines con1) with (lines con); lia]| |].
    + apply nth_char. destruct (decide (j = k)) as [->|Hne]; [rewrite list_lookup_insert_eq in Hj by done; by injection Hj as <-|].
      rewrite list_lookup_insert_ne in Hj by done. by apply (rw_rows _ _ Hw1 j).
    + destruct (decide (j = k)) as [->|Hne].
      * rewrite list_lookup_insert_eq in Hj by done. injection Hj as <-. rewrite Z.eqb_refl, (proj2 (Z.leb_le 0 x)) by lia. cbn [andb].
        rewrite nth_overflow by (cbn; lia). destruct (Z.ltb_spec x (0 + Z.of_nat (Z.to_nat (Z.of_nat (List.length l))))); [done|].
        pose proof (ro_shown _ _ Hr1 _ _ x Hl Hx) as Hsh. by rewrite nth_overflow in Hsh by lia.
      * rewrite list_lookup_insert_ne in Hj by done. rewrite (proj2 (Z.eqb_neq (Z.of_nat j) (Z.of_nat k))) by lia. cbn [andb].
        by apply (ro_shown _ _ Hr1).
  - by rewrite length_insert.
  - intros j r Hj. destruct (decide (j = k)) as [->|Hne].
    { rewrite list_lookup_insert_eq in Hj by done. injection Hj as <-. change (columns (redraw _ _ _)) with (columns con). cbn [List.length]. split; [lia|constructor]. }
    rewrite list_lookup_insert_ne in Hj by done. by apply (rw_rows _ _ Hw1 j).
Qed.

(** ** Printing *)

Lemma rows_ok_cursor con l c rows : rows_ok con rows -> rows_ok (set_cursor con l c) rows.
Proof. by intros []. Qed.

Lemma nextLine_spec con t :
  console_ok con t ->
  exists con', nextLine con (line con * fontHeight con) = Ok (con', line con' * fontHeight con') /\
    console_ok con' (t_newline t) /\ column con' = 0 /\ columns con' = columns con /\ consoleLock con' = consoleLock con.
Proof.
  intros [Hg Hr Hw [Hl1 Hl2] Hc Hb]. pose proof (geometry_bounds con Hg) as (Hb1 & Hb2 & Hb3 & Hb4).
  pose proof (rw_length _ _ Hw) as Hlen. pose proof Hg as [_ _ E3 E4 _]. pose proof td_sizes as (Hf1 & Hf2 & _).
  change (2 ^ 31) with 2147483648 in *. unfold nextLine, t_newline. cbn [line lines set_cursor].
  rewrite (u32_small (lines con - 1)) by lia.
  destruct (Z.ltb_spec (line con) (lines con - 1)) as [Hlt|Hge], (Nat.ltb_spec (Datatypes.S (t_line t)) (List.length (t_lines t))); try lia.
  - rewrite (u32_small (line con + 1)) by lia. cbn [fontHeight set_cursor].
    rewrite (u32_small (line con * _ + _)) by nia.
    assert (Hcur : t_current (mkTerminal (t_lines t) (Datatypes.S (t_line t))) = []).
    { unfold t_current. cbn [t_lines t_line]. destruct (t_lines t !! Datatypes.S (t_line t)) as [r|] eqn:E; [|done].
      cbn. eapply Hb; [|exact E]. lia. }
    exists (set_cursor (set_cursor con (line con) 0) (line con + 1) 0).
    split; [f_equal; f_equal; cbn [line fontHeight set_cursor]; lia|]. split; [|done].
    constructor; cbn [line column set_cursor t_lines t_line]; [by destruct Hg|by destruct Hr|by destruct Hw|cbn; lia|by rewrite Hcur|].
    intros i r Hi Hr'. eapply Hb; [|exact Hr']. lia.
  - destruct (scrollDown_spec (set_cursor con (line con) 0) (t_lines t)) as (m' & s' & E & Hr' & Hw'); [by destruct Hg|by destruct Hr|by destruct Hw|].
    rewrite E. cbn [obind lines redraw set_cursor set_chars set_display]. rewrite (u32_small (lines con - 1)) by lia.
    cbn [line fontHeight set_cursor redraw set_chars set_display].
    rewrite (u32_small ((lines con - 1) * fontHeight con)) by nia.
    exists (set_cursor (redraw (set_cursor con (line con) 0) m' s') (lines con - 1) 0). split; [done|]. split; [|done].
    assert (Hne : t_lines t <> []) by (intros E0; rewrite E0 in Hlen; cbn in Hlen; lia).
    assert (Htl : t_line t = List.length (tail (t_lines t))) by (destruct (t_lines t); [done|cbn [tail List.length] in *; lia]).
    assert (Hcur : t_current (mkTerminal (tail (t_lines t) ++ [[]]) (t_line t)) = []).
    { unfold t_current. cbn [t_lines t_line]. by rewrite Htl, lookup_app_r, Nat.sub_diag by lia. }
    constructor; cbn [t_lines t_line]; [by destruct Hg|by destruct Hr'|by destruct Hw'|cbn; lia|by rewrite Hcur|].
    intros i r Hi Hri. apply lookup_lt_Some in Hri. rewrite length_app in Hri. cbn in Hri. lia.
Qed.

Lemma putCharacter_spec con t c :
  console_ok con t -> column con < columns con -> printable c -> c <> 10 ->
  let con' := putCharacter con (column con * fontWidth con) (line con * fontHeight con) c in
  console_ok con' (mkTerminal (<[t_line t := t_current t ++ [c]]> (t_lines t)) (t_line t)) /\
  column con' = column con + 1 /\ columns con' = columns con /\ consoleLock con' = consoleLock con.
Proof.
  intros [Hg Hr Hw [Hl1 Hl2] Hc Hb] Hcol [Hp1 Hp2] Hnl con'. specialize (Hp2 Hnl).
  pose proof (geometry_bounds con Hg) as (Hb1 & Hb2 & Hb3 & Hb4). pose proof (rw_length _ _ Hw) as Hlen.
  pose proof Hg as [_ _ E3 E4 _]. change (2 ^ 31) with 2147483648 in *.
  destruct (lookup_lt_is_Some_2 (t_lines t) (t_line t) ltac:(lia)) as [cur Hcur].
  assert (Ecur : t_current t = cur) by (unfold t_current; by rewrite Hcur). rewrite Ecur in *.
  destruct (rw_rows _ _ Hw _ _ Hcur) as [_ Hcc].
  destruct (td_write_law (display con) (column con) (line con) c (ro_inv _ _ Hr) (cell_of con (column con) (line con) Hg ltac:(lia) ltac:(lia)) Hp2) as (I1 & I2 & I3).
  cbv zeta in I1, I2, I3. rewrite <- E3, <- E4 in I1, I2, I3.
  set (m' := storeb (storeb (chars con) (lineAddress con (t_line t) + column con) c) (lineAddress con (t_line t) + (column con + 1)) 0).
  set (s' := td_writeCharacter (display con) (column con * fontWidth con) (line con * fontHeight con) c) in *.
  assert (E : con' = set_cursor (redraw con m' s') (line con) (column con + 1)).
  { unfold con', putCharacter. change (SCREEN_BUFFER_CHARACTER (set_display con _)) with (SCREEN_BUFFER_CHARACTER con).
    cbn [column line chars set_display set_chars]. rewrite Hl1, !characterAddress_spec by (done || lia). rewrite <- Hl1.
    rewrite u32_small by lia. done. }
  rewrite E. split; [|done].
  assert (Ht : (t_line t < List.length (t_lines t))%nat) by lia.
  constructor; cbn [t_lines t_line set_cursor line column].
  - by destruct (geometry_redraw con m' s' Hg).
  - constructor; cbn [redraw display chars set_display set_chars set_cursor columns].
    + exact I1.
    + unfold m'. apply storeb_bytes; [|lia]. apply storeb_bytes; [apply (ro_bytes _ _ Hr)|lia].
    + intros i r Hi. match goal with |- cstring _ ?a _ => change a with (lineAddress con i) end.
      destruct (decide (i = t_line t)) as [->|Hne].
      * rewrite list_lookup_insert_eq in Hi by done. injection Hi as <-.
        destruct (ro_text _ _ Hr _ _ Hcur) as (T1 & T2 & T3). unfold cstring. rewrite length_app. cbn [List.length].
        rewrite Nat2Z.inj_add. change (Z.of_nat 1) with 1. split; [|split].
        -- rewrite bytesAt_app, bytesAt_1 by lia. f_equal.
           ++ etransitivity; [|exact T1]. apply bytesAt_pointwise. intros k Hk. unfold m', storeb. rewrite Hc. zcase; lia || done.
           ++ unfold m', storeb. rewrite Hc. zcase; try lia. done.
        -- unfold m', storeb. rewrite Hc. zcase; lia || done.
        -- rewrite Forall_app. split; [done|]. constructor; [lia|constructor].
      * rewrite list_lookup_insert_ne in Hi by done. destruct (rw_rows _ _ Hw _ _ Hi) as [Hlr _].
        apply (cstring_ext (chars con)); [|exact (ro_text _ _ Hr _ _ Hi)]. intros k Hk. unfold m', storeb.
        assert (lineAddress con i + k < lineAddress con (t_line t) \/ lineAddress con (t_line t) + columns con < lineAddress con i).
        { destruct (Nat.lt_trichotomy i (t_line t)) as [H1|[?|H1]]; [|done|];
            [pose proof (lineAddress_disjoint con i (t_line t) ltac:(lia) H1); lia|
             pose proof (lineAddress_disjoint con (t_line t) i ltac:(lia) H1); lia]. }
        zcase; lia || done.
    + intros i r j Hi Hj.
      assert (Hir : (i < List.length (t_lines t))%nat) by (rewrite <- (length_insert (t_lines t) (t_line t) (cur ++ [c])); by eapply lookup_lt_Some).
      destruct (decide (i = t_line t)) as [->|Hne].
      * rewrite list_lookup_insert_eq in Hi by done. injection Hi as <-.
        destruct (Z.lt_trichotomy j (column con)) as [H1|[->|H1]].
        -- rewrite app_nth1 by lia. apply I3; [apply (cell_of con); [done|lia|lia]|by apply nth_char|intros [= ->]; lia|].
           by apply (ro_shown _ _ Hr).
        -- rewrite app_nth2 by lia. replace (Z.to_nat (column con) - List.length cur)%nat with 0%nat by lia.
           cbn [nth]. by rewrite <- Hl1.
        -- rewrite nth_overflow by (rewrite length_app; cbn; lia).
           apply I3; [apply (cell_of con); [done|lia|lia]|apply td_space|intros [= ->]; lia|].
           pose proof (ro_shown _ _ Hr _ _ j Hcur Hj) as Hsh. by rewrite nth_overflow in Hsh by lia.
      * rewrite list_lookup_insert_ne in Hi by done. apply I3; [apply (cell_of con); [done|lia|lia]|apply nth_char; by apply (rw_rows _ _ Hw i)| |by apply (ro_shown _ _ Hr)].
        intros [= _ Heq]. lia.
  - constructor; [cbn; by rewrite length_insert|]. intros i r Hi. cbn [redraw set_display set_chars set_cursor columns].
    destruct (decide (i = t_line t)) as [->|Hne].
    + rewrite list_lookup_insert_eq in Hi by done. injection Hi as <-. rewrite length_app. cbn [List.length]. split; [lia|].
      rewrite Forall_app. split; [done|]. by constructor.
    + rewrite list_lookup_insert_ne in Hi by done. by apply (rw_rows _ _ Hw i).
  - done.
  - unfold t_current. cbn [t_lines t_line]. rewrite list_lookup_insert_eq by done. cbn [default id].
    unfold id. rewrite length_app. cbn [List.length]. lia.
  - intros i r Hi Hri. rewrite list_lookup_insert_ne in Hri by lia. by apply (Hb i).
Qed.

Lemma contents_cons m str : 0 < length str ->
  contents m str = Str_index m str 0 :: contents m (subStringFrom str 1) /\ length (subStringFrom str 1) = length str - 1.
Proof.
  intros Hl. unfold Str_index, subStringFrom, subString, contents. rewrite (proj2 (Z.ltb_lt 0 _)) by lia.
  rewrite (proj2 (Z.ltb_ge (length str) 1)), Z.ltb_irrefl by lia. cbn [orb cString length]. split; [|done].
  replace (length str) with (1 + (length str - 1)) at 1 by lia. by rewrite bytesAt_app, bytesAt_1, Z.add_0_r by lia.
Qed.

(** Putting a character when the cursor is in a free column. *)
Lemma t_put_char n t c : c <> 10 -> Z.of_nat (List.length (t_current t)) < n ->
  t_put n t c = mkTerminal (<[t_line t := t_current t ++ [c]]> (t_lines t)) (t_line t).
Proof. intros Hc Hn. unfold t_put. rewrite (proj2 (Z.leb_gt n _)), (proj2 (Z.eqb_neq c 10)) by lia. done. Qed.

Lemma print_loop_spec fuel : forall m str con t x y,
  console_ok con t -> Forall printable (contents m str) -> 0 <= length str -> (Z.to_nat (length str) <= fuel)%nat ->
  x = column con * fontWidth con -> y = line con * fontHeight con ->
  exists con', print_loop fuel m str x y con = Ok con' /\ console_ok con' (t_print (columns con) t (contents m str)) /\
    consoleLock con' = consoleLock con.
Proof.
  induction fuel as [|fuel IH]; intros m str con t x y Hok Hp Hl Hf -> ->; cbn [print_loop].
  - rewrite (proj2 (Z.ltb_ge 0 _)) by lia. exists con. split; [done|]. split; [|done].
    unfold contents. replace (length str) with 0 by lia. done.
  - destruct (Z.ltb_spec 0 (length str)) as [Hpos|Hz].
    2:{ exists con. split; [done|]. split; [|done]. unfold contents. replace (length str) with 0 by lia. done. }
    destruct (contents_cons m str Hpos) as [Ec El]. rewrite Ec in *. set (ch := Str_index m str 0) in *.
    apply Forall_cons in Hp as [Hch Hp]. cbn [t_print fold_left]. change (fold_left (t_put (columns con))) with (fun l t => t_print (columns con) t l). cbv beta.
    pose proof (geometry_bounds con (co_geometry _ _ Hok)) as (Hb1 & Hb2 & Hb3 & _). change (2 ^ 31) with 2147483648 in *.
    pose proof (co_column _ _ Hok) as Hcol.
    assert (Hnext : forall con1 t1, console_ok con1 t1 -> columns con1 = columns con -> column con1 < columns con1 -> ch <> 10 ->
      consoleLock con1 = consoleLock con -> t_put (columns con) t ch = t_put (columns con) t1 ch ->
      exists con', print_loop fuel m (subStringFrom str 1) (u32 (column con1 * fontWidth con1 + fontWidth con1)) (line con1 * fontHeight con1)
          (putCharacter con1 (column con1 * fontWidth con1) (line con1 * fontHeight con1) ch) = Ok con' /\
        console_ok con' (t_print (columns con) (t_put (columns con) t ch) (contents m (subStringFrom str 1))) /\
        consoleLock con' = consoleLock con).
    { intros con1 t1 Hok1 Ecols Hfree Hnl Elock Ht. destruct (putCharacter_spec con1 t1 ch Hok1 Hfree Hch Hnl) as (Hok2 & Ecol & Ecols2 & Elock2).
      pose proof (co_column _ _ Hok1) as Hcol1. pose proof (geometry_bounds con1 (co_geometry _ _ Hok1)) as (Hc1 & Hc2 & Hc3 & _).
      pose proof td_sizes as (Hf1 & _). pose proof (ge_fontWidth _ (co_geometry _ _ Hok1)) as Efw.
      change (2 ^ 31) with 2147483648 in *. rewrite Ht, t_put_char by (done || lia).
      destruct (IH m (subStringFrom str 1) _ _ (u32 (column con1 * fontWidth con1 + fontWidth con1)) (line con1 * fontHeight con1) Hok2 Hp)
        as (con' & E & Hok' & El'); [lia|lia| |done|].
      - rewrite Ecol. cbn [fontWidth putCharacter set_cursor set_chars set_display].
        assert (0 <= column con1 * fontWidth con1) by nia. rewrite u32_small by nia. lia.
      - exists con'. rewrite Ecols2, Ecols in Hok'. rewrite Elock2 in El'. by rewrite El', Elock. }
    destruct ((columns con <=? column con) || (ch =? 10)) eqn:Enl.
    + destruct (nextLine_spec con t Hok) as (con1 & E1 & Hok1 & Ecol1 & Ecols1 & Elock1). rewrite E1. cbn [obind].
      assert (Hput : ch <> 10 -> t_put (columns con) t ch = t_put (columns con) (t_newline t) ch).
      { intros Hne. unfold t_put at 1. rewrite <- Hcol, Enl, (proj2 (Z.eqb_neq ch 10)) by done.
        pose proof (co_column _ _ Hok1) as Hc1. rewrite t_put_char by (done || lia). done. }
      destruct (Z.eqb_spec ch 10) as [E10|Hne].
      * destruct (IH m (subStringFrom str 1) con1 (t_newline t) 0 (line con1 * fontHeight con1) Hok1 Hp) as (con' & E & Hok' & El');
          [lia|lia|by rewrite Ecol1|done|]. exists con'. split; [done|]. rewrite Elock1 in El'. split; [|done].
        unfold t_put at 1. rewrite <- Hcol, E10. cbn [Z.eqb Pos.eqb]. rewrite orb_true_r. by rewrite Ecols1 in Hok'.
      * specialize (Hnext con1 (t_newline t) Hok1 Ecols1 ltac:(lia) Hne Elock1 (Hput Hne)). by rewrite Ecol1, Z.mul_0_l in Hnext.
    + apply orb_false_iff in Enl as [Hfree%Z.leb_gt Hne%Z.eqb_neq]. by apply (Hnext con t).
Qed.

(** ** The first call *)

Definition blankTerminal : Terminal :=
  mkTerminal (replicate (Z.to_nat (td_height (S := S) / td_fontHeight (S := S))) []) 0.

(** Nothing was printed yet and the screen is blank. *)
Record fresh con : Prop := {
  fr_cursor : line con = 0 /\ column con = 0 /\ columns con = 0;
  fr_size : (td_width (S := S) / td_fontWidth (S := S) + 1) * (td_height (S := S) / td_fontHeight (S := S)) < 2 ^ 32;
  fr_kmalloc : exists p, kmalloc ((td_width (S := S) / td_fontWidth (S := S) + 1) * (td_height (S := S) / td_fontHeight (S := S))) = Ok p;
  fr_inv : td_inv (display con);
  fr_bytes : isBytes (chars con);
  fr_blank : forall x y, cell S x y -> td_shows (display con) x y 32
}.

Lemma clear_loop_spec n : forall con i,
  geometry con -> isBytes (chars con) -> Z.of_nat (i + n) <= lines con ->
  exists m', clear_loop n con (Z.of_nat i) = set_chars con m' /\ isBytes m' /\
    (forall j, (i <= j < i + n)%nat -> m' (lineAddress con j) = 0) /\
    (forall a, (forall j, (i <= j < i + n)%nat -> a <> lineAddress con j) -> m' a = chars con a).
Proof.
  induction n as [|n IH]; intros con i Hg Hb Hi; cbn [clear_loop].
  - exists (chars con). split; [by destruct con|]. split; [done|]. split; [lia|done].
  - pose proof (geometry_bounds con Hg) as (Hb1 & _). rewrite characterAddress_spec by (done || lia). rewrite Z.add_0_r.
    set (con1 := set_chars con (storeb (chars con) (lineAddress con i) 0)).
    destruct (IH con1 (Datatypes.S i)) as (m' & E & Hb' & Hz & Ho);
      [by destruct Hg|by apply storeb_bytes|cbn; lia|].
    replace (Z.of_nat i + 1) with (Z.of_nat (Datatypes.S i)) by lia. rewrite E. exists m'. split; [done|]. split; [done|].
    change (lineAddress con1) with (lineAddress con) in *. cbn [con1 chars set_chars] in Ho. split.
    + intros j Hj. destruct (decide (j = i)) as [->|Hne]; [|apply Hz; lia]. rewrite Ho.
      * unfold storeb. by rewrite Z.eqb_refl.
      * intros k Hk. pose proof (lineAddress_disjoint con i k ltac:(lia) ltac:(lia)). lia.
    + intros a Ha. rewrite Ho by (intros j Hj; apply Ha; lia). unfold storeb.
      by rewrite (proj2 (Z.eqb_neq a _)) by (apply Ha; lia).
Qed.

Lemma initConsole_spec con :
  fresh con -> exists con', initConsole con = Ok con' /\ console_ok con' blankTerminal /\ consoleLock con' = consoleLock con.
Proof.
  intros [(F1 & F2 & F3) Fs [p Fp] Fi Fb Fs']. unfold initConsole. rewrite F3. cbn [Z.eqb].
  set (c := td_width (S := S) / td_fontWidth (S := S)) in *. set (l := td_height (S := S) / td_fontHeight (S := S)) in *.
  set (con0 := mkConsole (line con) (column con) l c p (chars con) (td_width (S := S)) (td_height (S := S)) (td_fontWidth (S := S))
    (td_fontHeight (S := S)) (consoleLock con) (display con)).
  assert (Hg : geometry con0) by (constructor; done). pose proof (geometry_bounds con0 Hg) as (Hb1 & Hb2 & _).
  cbn [columns lines con0] in Hb1, Hb2. change (2 ^ 31) with 2147483648 in *. change (2 ^ 32) with 4294967296 in *.
  rewrite (u32_small ((c + 1) * l)) by nia. rewrite Fp. cbn [obind]. fold con0.
  destruct (clear_loop_spec (Z.to_nat l) con0 0 Hg Fb) as (m' & E & Hb' & Hz & Ho); [cbn; lia|].
  change (Z.of_nat 0) with 0 in E. rewrite E. exists (set_chars con0 m'). split; [done|]. split; [|done].
  assert (Hrow : forall i r, t_lines blankTerminal !! i = Some r -> r = [] /\ (i < Z.to_nat l)%nat).
  { intros i r Hi. apply lookup_replicate in Hi. done. }
  constructor.
  - by destruct Hg.
  - constructor; cbn [display chars set_chars con0 columns].
    + done.
    + done.
    + intros i r [-> Hi]%Hrow. split; [done|]. split; [|done]. change (Z.of_nat (List.length [])) with 0. rewrite Z.add_0_r.
      apply (Hz i). lia.
    + intros i r j [-> Hi]%Hrow Hj. assert (Hn : nth (Z.to_nat j) (@nil Z) 32 = 32) by (by destruct (Z.to_nat j)). rewrite Hn.
      apply Fs', (cell_of con0); [done|done|cbn; lia].
  - constructor; [cbn; rewrite length_replicate; lia|]. intros i r [-> Hi]%Hrow. cbn. split; [lia|done].
  - cbn. lia.
  - cbn [column set_chars con0]. unfold t_current. cbn [t_line blankTerminal].
    destruct (t_lines blankTerminal !! 0%nat) as [r|] eqn:E0; [|done]. by destruct (Hrow _ _ E0) as [-> _].
  - intros i r _ Hi. by destruct (Hrow _ _ Hi).
Qed.

(** The console shows the terminal, or will show it with the first call. *)
Definition ready con (t : Terminal) : Prop := console_ok con t \/ fresh con /\ t = blankTerminal.

Lemma ready_lock con t c : ready con t -> ready (set_consoleLock con c) t.
Proof.
  intros [[G R W ? ? ?]|[[] ->]]; [left|right; split; [|done]]; constructor; try done; [by destruct G|by destruct R|by destruct W].
Qed.

Definition terminalColumns : Z := td_width (S := S) / td_fontWidth (S := S).

Lemma print_run m str skip con t :
  ready con t -> (skip = false -> consoleLock con = false) -> Forall printable (contents m str) -> 0 <= length str ->
  exists con', print m str skip con = Ok con' /\ ready con' (t_print terminalColumns t (contents m str)) /\
    consoleLock con' = consoleLock con.
Proof.
  intros Hr Hlock Hp Hl. unfold print.
  assert (Hacq : exists con1, (if negb skip then acquireConsoleLock con else Ok con) = Ok con1 /\ ready con1 t /\
    (skip = true -> consoleLock con1 = consoleLock con)).
  { destruct skip; cbn [negb]; [by exists con|]. unfold acquireConsoleLock. rewrite Hlock by done.
    exists (set_consoleLock con true). split; [done|]. split; [by apply ready_lock|done]. }
  destruct Hacq as (con1 & -> & Hr1 & Hl1). cbn [obind].
  assert (Hin : exists con2, initConsole con1 = Ok con2 /\ console_ok con2 t /\ consoleLock con2 = consoleLock con1).
  { destruct Hr1 as [Hok|[Hf ->]]; [|by apply initConsole_spec]. exists con1. split; [|done]. unfold initConsole.
    pose proof (geometry_bounds con1 (co_geometry _ _ Hok)) as (Hb & _). by rewrite (proj2 (Z.eqb_neq _ _)) by lia. }
  destruct Hin as (con2 & -> & Hok & Hl2). cbn [obind].
  pose proof (geometry_bounds con2 (co_geometry _ _ Hok)) as (Hb1 & Hb2 & Hb3 & Hb4). pose proof td_sizes as (Hf1 & Hf2 & _).
  pose proof Hok as [[E1 E2 E3 E4 _] _ [Wl Ww] [Hc1 Hc2] Hcol _].
  assert (Hcur : column con2 <= columns con2).
  { rewrite Hcol. unfold t_current. destruct (t_lines t !! t_line t) as [r|] eqn:E; cbn; [|lia]. by apply (Ww _ _ E). }
  change (2 ^ 31) with 2147483648 in *.
  assert (column con2 * fontWidth con2 <= columns con2 * fontWidth con2) by nia.
  assert (line con2 * fontHeight con2 <= lines con2 * fontHeight con2) by nia.
  destruct (print_loop_spec (Z.to_nat (length str)) m str con2 t (u32 (column con2 * fontWidth con2)) (u32 (line con2 * fontHeight con2))
    Hok Hp Hl (Nat.le_refl _)) as (con3 & -> & Hok3 & Hl3); [rewrite u32_small; nia|rewrite u32_small; nia|].
  cbn [obind]. eexists. split; [done|]. rewrite E1 in Hok3. split.
  - destruct skip; cbn [negb]; [by left|]. apply ready_lock. by left.
  - destruct skip; cbn [negb]; [by rewrite Hl3, Hl2, Hl1|cbn; by rewrite Hlock].
Qed.

(** ** Numbers *)

(** The digits of a number, least significant first. *)
Fixpoint lowDigits (fuel : nat) (base v : Z) : list Z :=
  match fuel with
  | O => []
  | Datatypes.S fuel => v mod base :: (if v / base =? 0 then [] else lowDigits fuel base (v / base))
  end.

Definition digitChar (d : Z) : Z := nth (Z.to_nat d) digitChars 0.

(** The number a list of digits stands for, most significant first. *)
Definition valueOf (base : Z) (ds : list Z) : Z := fold_left (fun a d => a * base + d) ds 0.

Lemma digitChars_lookup d : 0 <= d < 64 -> digitChars !! Z.to_nat d = Some (digitChar d).
Proof.
  intros Hd. unfold digitChar. destruct (lookup_lt_is_Some_2 digitChars (Z.to_nat d)) as [x Hx].
  { change (List.length digitChars) with 64%nat. lia. }
  rewrite Hx. f_equal. symmetry. by apply nth_lookup_Some.
Qed.

Lemma digitChar_char d : 0 <= d < 64 -> 0 < digitChar d < 256 /\ digitChar d <> 10.
Proof.
  intros Hd. pose proof (digitChars_lookup d Hd) as E.
  assert (Hall : forallb (fun c => (0 <? c) && (c <? 256) && negb (c =? 10)) digitChars = true) by (vm_compute; reflexivity).
  rewrite forallb_forall in Hall. assert (Hin : List.In (digitChar d) digitChars) by (apply list_elem_of_In; by eapply list_elem_of_lookup_2).
  specialize (Hall _ Hin). zcase_in Hall; cbn in Hall; done || lia.
Qed.

Lemma lowDigits_spec fuel : forall base v, 2 <= base -> 0 <= v < base ^ Z.of_nat fuel -> (0 < fuel)%nat ->
  let ds := lowDigits fuel base v in
  valueOf base (rev ds) = v /\ Forall (fun d => 0 <= d < base) ds /\ (1 <= List.length ds <= fuel)%nat /\
  (v <> 0 -> last ds <> Some 0) /\ (v = 0 -> ds = [0]).
Proof.
  induction fuel as [|fuel IH]; intros base v Hb Hv Hf; [lia|]. cbn [lowDigits]. cbv zeta.
  assert (0 <= v mod base < base) by (apply Z.mod_pos_bound; lia).
  pose proof (Z.div_mod v base ltac:(lia)) as Hdm.
  destruct (Z.eqb_spec (v / base) 0) as [E|E].
  - assert (v mod base = v) by lia. unfold valueOf. cbn [rev app fold_left List.length last]. repeat split; try lia.
    + by constructor.
    + intros Hnz [= Hz]. lia.
    + intros ->. by rewrite Z.mod_0_l by lia.
  - assert (Hq : 0 <= v / base < base ^ Z.of_nat fuel).
    { split; [apply Z.div_pos; lia|]. apply Z.div_lt_upper_bound; [lia|].
      replace (Z.of_nat (Datatypes.S fuel)) with (Z.of_nat fuel + 1) in Hv by lia. rewrite Z.pow_add_r, Z.pow_1_r in Hv by lia. lia. }
    assert (Hfu : (0 < fuel)%nat) by (destruct fuel; [cbn in Hq; lia|lia]).
    destruct (IH base (v / base) Hb Hq Hfu) as (I1 & I2 & I3 & I4 & _).
    unfold valueOf in *. cbn [rev List.length]. rewrite fold_left_app, I1. cbn [fold_left].
    split; [lia|]. split; [by constructor|]. split; [lia|]. split.
    + intros _. rewrite last_cons. specialize (I4 E). destruct (last _) as [z|] eqn:El; [exact I4|].
      apply last_None in El. rewrite El in I3. cbn in I3. lia.
    + intros ->. by rewrite Z.div_0_l in E by lia.
Qed.

Lemma digits_loop_spec fuel : forall m i base v, 2 <= base <= 64 -> 0 <= v < base ^ Z.of_nat fuel -> (0 < fuel)%nat ->
  0 <= i -> i + Z.of_nat fuel <= 65 -> forall extra,
  exists m', digits_loop (fuel + extra) m i v base = Ok (m', i + Z.of_nat (List.length (lowDigits fuel base v))) /\
    bytesAt m' (stack + i) (Z.of_nat (List.length (lowDigits fuel base v))) = digitChar <$> lowDigits fuel base v /\
    forall a, a < stack + i \/ stack + i + Z.of_nat (List.length (lowDigits fuel base v)) <= a -> m' a = m a.
Proof.
  induction fuel as [|fuel IH]; intros m i base v Hb Hv Hf Hi Hi2 extra; [lia|]. cbn [digits_loop lowDigits Nat.add].
  rewrite (proj2 (Z.eqb_neq base 0)) by lia. assert (Hm : 0 <= v mod base < base) by (apply Z.mod_pos_bound; lia).
  rewrite digitChars_lookup by lia. cbn [of_option obind]. unfold storeBuffer, BUFFER_SIZE.
  rewrite (proj2 (Z.leb_le 0 i)), (proj2 (Z.ltb_lt i 65)) by lia. cbn [andb obind].
  destruct (Z.eqb_spec (v / base) 0) as [E|E]; cbn [negb].
  - eexists. split; [done|]. cbn [List.length]. change (Z.of_nat 1) with 1. split.
    + rewrite bytesAt_1. unfold storeb. by rewrite Z.eqb_refl.
    + intros a Ha. unfold storeb. zcase; lia || done.
  - assert (Hq : 0 <= v / base < base ^ Z.of_nat fuel).
    { split; [apply Z.div_pos; lia|]. apply Z.div_lt_upper_bound; [lia|].
      replace (Z.of_nat (Datatypes.S fuel)) with (Z.of_nat fuel + 1) in Hv by lia. rewrite Z.pow_add_r, Z.pow_1_r in Hv by lia. lia. }
    assert (Hfu : (0 < fuel)%nat) by (destruct fuel; [cbn in Hq; lia|lia]).
    destruct (IH (storeb m (stack + i) (digitChar (v mod base))) (i + 1) base (v / base) Hb Hq Hfu ltac:(lia) ltac:(lia) extra) as (m' & -> & Hbs & Ho).
    exists m'. set (ds := lowDigits fuel base (v / base)) in *. cbn [List.length fmap list_fmap].
    split; [f_equal; f_equal; lia|]. split.
    + replace (Z.of_nat (Datatypes.S (List.length ds))) with (1 + Z.of_nat (List.length ds)) by lia.
      rewrite bytesAt_app, bytesAt_1 by lia. cbn [app]. f_equal.
      * rewrite Ho by lia. unfold storeb. by rewrite Z.eqb_refl.
      * by replace (stack + i + 1) with (stack + (i + 1)) by lia.
    + intros a Ha. rewrite Ho by lia. unfold storeb. zcase; lia || done.
Qed.

Lemma reverse_loop_spec n : forall m i e,
  0 <= i -> 2 * (i + Z.of_nat n) <= e + 1 -> forall k,
  reverse_loop n m i e (stack + k)
  = if ((i <=? k) && (k <? i + Z.of_nat n)) || ((e - i - Z.of_nat n <? k) && (k <=? e - i)) then m (stack + (e - k)) else m (stack + k).
Proof.
  induction n as [|n IH]; intros m i e Hi He k; cbn [reverse_loop].
  - zcase; cbn; lia || done.
  - rewrite Nat2Z.inj_succ in *. rewrite IH by lia. unfold storeb.
    repeat match goal with |- context [Z.eqb ?a ?b] => destruct (Z.eqb_spec a b) end; zcase; cbn [andb orb]; try lia; try done; f_equal; lia.
Qed.

Lemma formatNumber_spec m v base : 2 <= base <= 64 -> 0 <= v < 2 ^ 64 ->
  exists m' ds, formatNumber m v base = Ok m' /\ cstring m' stack (digitChar <$> ds) /\
    valueOf base ds = v /\ Forall (fun d => 0 <= d < base) ds /\ (1 <= List.length ds <= 64)%nat /\
    (v <> 0 -> head ds <> Some 0) /\ (v = 0 -> ds = [0]) /\
    (forall a, a < stack \/ stack + BUFFER_SIZE <= a -> m' a = m a) /\ ds = rev (lowDigits 64 base v).
Proof.
  intros Hb Hv. assert (Hv' : 0 <= v < base ^ Z.of_nat 64).
  { split; [lia|]. pose proof (Z.pow_le_mono_l 2 base 64 ltac:(lia)). change (Z.of_nat 64) with 64. lia. }
  destruct (lowDigits_spec 64 base v ltac:(lia) Hv' ltac:(lia)) as (D1 & D2 & D3 & D4 & D5).
  destruct (digits_loop_spec 64 m 0 base v Hb Hv' ltac:(lia) ltac:(lia) ltac:(lia) 2) as (m1 & E1 & B1 & O1).
  remember (lowDigits 64 base v) as ds eqn:Eds. clear Eds. set (k := Z.of_nat (List.length ds)) in *.
  unfold formatNumber. change (64 + 2)%nat with 66%nat in E1. rewrite E1. cbn [obind]. rewrite !Z.add_0_l. unfold storeBuffer, BUFFER_SIZE in *.
  rewrite (proj2 (Z.leb_le 0 k)), (proj2 (Z.ltb_lt k 65)) by lia. cbn [andb obind]. rewrite !Z.add_0_r in B1, O1.
  set (m2 := storeb m1 (stack + k) 0). assert (Hh : 0 <= k / 2 /\ 2 * (k / 2) <= k /\ k - 1 <= 2 * (k / 2)) by dlia.
  assert (Er : forall j, reverse_loop (Z.to_nat (k / 2)) m2 0 (k - 1) (stack + j)
    = if (0 <=? j) && (j <? k) then m1 (stack + (k - 1 - j)) else m2 (stack + j)).
  { intros j. rewrite reverse_loop_spec by lia. rewrite Z2Nat.id by lia. unfold m2, storeb.
    repeat match goal with |- context [Z.eqb ?a ?b] => destruct (Z.eqb_spec a b) end; zcase; cbn [andb orb]; try lia; try done; f_equal; lia. }
  exists (reverse_loop (Z.to_nat (k / 2)) m2 0 (k - 1)), (rev ds). split; [done|].
  assert (Hbyte : forall j, 0 <= j < k -> m1 (stack + j) = digitChar (nth (Z.to_nat j) ds 0)).
  { intros j Hj. apply (f_equal (fun l => l !! Z.to_nat j)) in B1. rewrite bytesAt_lookup, Z2Nat.id, list_lookup_fmap in B1 by lia.
    rewrite (proj2 (Z.ltb_lt j k)) in B1 by lia. destruct (lookup_lt_is_Some_2 ds (Z.to_nat j) ltac:(lia)) as [d Hd].
    rewrite Hd in B1. injection B1 as ->. f_equal. symmetry. by apply nth_lookup_Some. }
  split; [|split; [exact D1|split; [|split; [by rewrite length_rev|split; [|split; [|split; [|done]]]]]]].
  - unfold cstring. rewrite length_fmap, length_rev. fold k. split; [|split].
    + apply list_eq. intros j. rewrite bytesAt_lookup, list_lookup_fmap. destruct (Z.ltb_spec (Z.of_nat j) k) as [Hj|Hj].
      * rewrite Er, (proj2 (Z.leb_le 0 _)), (proj2 (Z.ltb_lt _ k)) by lia. cbn [andb]. rewrite Hbyte by lia.
        destruct (lookup_lt_is_Some_2 (rev ds) j) as [d Hd]; [rewrite length_rev; lia|]. rewrite Hd. cbn. do 2 f_equal.
        apply nth_lookup_Some with (d := 0) in Hd. rewrite <- Hd, rev_nth by lia.
        by replace (Z.to_nat (k - 1 - Z.of_nat j)) with (List.length ds - Datatypes.S j)%nat by lia.
      * by rewrite lookup_ge_None_2 by (rewrite length_rev; lia).
    + rewrite Er, (proj2 (Z.ltb_ge k k)), andb_false_r by lia. unfold m2, storeb. by rewrite Z.eqb_refl.
    + apply Forall_fmap, Forall_rev. eapply Forall_impl; [exact D2|]. intros d Hd. cbv beta in Hd. change (digitChar d <> 0). pose proof (digitChar_char d ltac:(lia)). lia.
  - by apply Forall_rev.
  - intros Hnz. specialize (D4 Hnz). intros Hh'. apply D4. rewrite <- (rev_involutive ds). destruct (rev ds) as [|a l]; [done|].
    cbn in Hh'. injection Hh' as ->. cbn [rev]. by rewrite last_snoc.
  - intros Hz. by rewrite (D5 Hz).
  - intros a Ha. replace a with (stack + (a - stack)) by lia. rewrite Er. zcase; cbn [andb]; try lia.
    + unfold m2, storeb. zcase; [lia|]. apply O1. lia.
    + unfold m2, storeb. zcase; [lia|]. apply O1. lia.
Qed.

(** ** Properties *)

(** [C10] [print] refines a text terminal: from the first call on, printing any
    string of printable characters, with newlines, line wrap and scrolling,
    ends with the screen buffer holding the terminal's lines and every cell of
    the screen showing the character of its line and column (a space after the
    end of the line); the lock is as before. *)
Theorem print_refines m str skip con t :
  ready con t -> (skip = false -> consoleLock con = false) -> Forall printable (contents m str) -> 0 <= length str ->
  exists con', print m str skip con = Ok con' /\ ready con' (t_print terminalColumns t (contents m str)) /\
    consoleLock con' = consoleLock con.
Proof. apply print_run. Qed.

(** [print] of a number prints its digits in the given base: for every
    64-bit value and every base from 2 to 64 the digits stand for the value,
    have no leading zero, fit in the buffer of 65 characters, and are printed
    on the terminal as [print] prints a string. *)
Theorem printNumber_prints m v base skip con t :
  ready con t -> (skip = false -> consoleLock con = false) -> 2 <= base <= 64 -> 0 <= v < 2 ^ 64 ->
  (forall d, 0 <= d < base -> td_char (digitChar d)) ->
  exists con' ds, printNumber m v base skip con = Ok con' /\
    ready con' (t_print terminalColumns t (digitChar <$> ds)) /\ consoleLock con' = consoleLock con /\
    valueOf base ds = v /\ Forall (fun d => 0 <= d < base) ds /\ (v <> 0 -> head ds <> Some 0) /\ (v = 0 -> ds = [0]).
Proof.
  intros Hr Hlock Hb Hv Hch. destruct (formatNumber_spec m v base Hb Hv) as (m' & ds & E & Hs & D1 & D2 & D3 & D4 & D5 & _).
  unfold printNumber. rewrite E. cbn [obind]. unfold Str_of. rewrite (strlen_spec _ _ _ _ Hs) by (rewrite length_fmap; lia). cbn [obind].
  assert (Ec : contents m' (mkStr stack (Z.of_nat (List.length (digitChar <$> ds)))) = digitChar <$> ds) by apply Hs.
  destruct (print_run m' (mkStr stack (Z.of_nat (List.length (digitChar <$> ds)))) skip con t Hr Hlock) as (con' & Ep & Hr' & El).
  - rewrite Ec. apply Forall_fmap. eapply Forall_impl; [exact D2|]. intros d Hd. cbv beta in Hd.
    split; [pose proof (digitChar_char d ltac:(lia)); lia|]. intros _. by apply Hch.
  - cbn. lia.
  - rewrite Ec in Hr'. exists con', ds. by rewrite Ep.
Qed.
End Console.

(** ** A grid of characters as a display *)

Definition Grid : Type := Z -> Z -> Z.

Definition gridDisplay (w h : Z) : TextDisplay Grid := {|
  td_width := w; td_height := h; td_fontWidth := 1; td_fontHeight := 1;
  td_writeCharacter := fun s x y c px py => if (px =? x) && (py =? y) then c else s px py;
  td_removeCharacter := fun s x y px py => if (px =? x) && (py =? y) then 32 else s px py;
  td_copyRegion := fun s x y n k nx ny px py => if inRectangle nx ny n k px py then s (px - nx + x) (py - ny + y) else s px py
|}.

Lemma gridDisplayLaws w h : 1 <= w < 2 ^ 31 -> 1 <= h < 2 ^ 31 -> @TextDisplayLaws Grid (gridDisplay w h).
Proof.
  intros Hw Hh.
  assert (Hput : forall (s : Grid) x y c px py k, (px, py) <> (x, y) -> s px py = k ->
    (if (px =? x) && (py =? y) then c else s px py) = k).
  { intros s x y c px py k Hne Hk. destruct (Z.eqb_spec px x) as [->|], (Z.eqb_spec py y) as [->|]; cbn; congruence. }
  refine (Build_TextDisplayLaws Grid (gridDisplay w h) (fun _ => True) (fun _ => True) (fun s x y c => s x y = c) _ _ _ _ _).
  - cbn. lia.
  - done.
  - intros s x y c _ _ _. cbn. rewrite !Z.mul_1_r, !Z.eqb_refl. split; [done|]. split; [done|]. intros; by apply Hput.
  - intros s x y _ _. cbn. rewrite !Z.mul_1_r, !Z.eqb_refl. split; [done|]. split; [done|]. intros; by apply Hput.
  - intros s n l _ Hn _ Hl _. cbn. split; [done|]. intros x y k [Hx _] _ Hk. unfold inRectangle. rewrite !Z.mul_1_r.
    destruct (Z.eqb_spec y (l - 1)) as [->|Hne], (Z.ltb_spec x n); cbn [andb] in Hk; zcase; cbn [andb]; try lia; try done.
    replace (x - 0 + 0) with x by lia. by replace (l - 1 - (l - 1) + l) with l by lia.
Defined.

Definition smallLaws : @TextDisplayLaws Grid (gridDisplay 4 2).
Proof. by apply gridDisplayLaws. Defined.

(** A console of four columns and two lines, before the first call. *)
Definition freshConsole : Console Grid := mkConsole 0 0 0 0 0 (fun _ => 0) 0 0 0 0 false (fun _ _ => 32).

Lemma freshConsole_ready :
  @ready Grid (gridDisplay 4 2) (fun _ => Ok 1000) smallLaws freshConsole (@blankTerminal Grid (gridDisplay 4 2)).
Proof.
  right. split; [|done]. constructor; [done|done|by exists 1000|done|intros a; cbn; lia|].
  intros x y _. reflexivity.
Qed.

(** ["abcde\nf\ng"] wraps after four characters and scrolls twice. *)
Definition someText : list Z := [97; 98; 99; 100; 101; 10; 102; 10; 103].

Lemma print_refines_witness :
  exists con', @print Grid (gridDisplay 4 2) (fun _ => Ok 1000) (putBytes (fun _ => 0) 64 someText) (mkStr 64 9) false freshConsole = Ok con' /\
    @ready Grid (gridDisplay 4 2) (fun _ => Ok 1000) smallLaws con' (mkTerminal [[102]; [103]] 1).
Proof.
  destruct (@print_refines Grid (gridDisplay 4 2) (fun _ => Ok 1000) smallLaws
    (putBytes (fun _ => 0) 64 someText) (mkStr 64 9) false freshConsole (@blankTerminal Grid (gridDisplay 4 2))) as (con' & E & Hr & _).
  - exact freshConsole_ready.
  - reflexivity.
  - vm_compute. repeat constructor.
  - cbn. lia.
  - exists con'. split; [exact E|]. exact Hr.
Defined.

Lemma printNumber_prints_witness :
  exists con' ds, @printNumber Grid (gridDisplay 4 2) (fun _ => Ok 1000) 5000 (fun _ => 0) 255 16 false freshConsole = Ok con' /\
    @ready Grid (gridDisplay 4 2) (fun _ => Ok 1000) smallLaws con'
      (t_print 4 (@blankTerminal Grid (gridDisplay 4 2)) (digitChar <$> ds)) /\ valueOf 16 ds = 255.
Proof.
  destruct (@printNumber_prints Grid (gridDisplay 4 2) (fun _ => Ok 1000) 5000 smallLaws
    (fun _ => 0) 255 16 false freshConsole (@blankTerminal Grid (gridDisplay 4 2))) as (con' & ds & E & Hr & _ & Hv & _).
  - exact freshConsole_ready.
  - reflexivity.
  - lia.
  - lia.
  - intros d _. exact I.
  - exists con', ds. split; [exact E|]. split; [exact Hr|exact Hv].
Defined.
