(* ===== verification/Printf.v ===== *)
(** * printf and kpanic ([printf.cpp], [kpanic.cpp])

    What [kout::printf] prints, as a function of the format and the arguments,
    and that the code of [Console] prints it on the terminal; and what
    [kpanic] prints before it halts. *)

From Stdlib Require Import ZArith Lia.
From stdpp Require Import base tactics numbers list.
From S2P Require Import Prelude Spinlock Strings Display Console.

Open Scope Z_scope.

(** ** The text of a call *)

Section Text.
(** The strings that [%s] arguments point to. *)
Context (text : Z -> option (list Z)).

Definition numberText (base v : Z) : list Z := digitChar <$> rev (lowDigits 64 base v).

(** What a specifier with an argument prints. *)
Definition argumentText (c a : Z) : option (list Z) :=
  if c =? 99 then Some [u8 a]
  else if c =? 100 then Some (numberText 10 (intToLong a))
  else if c =? 108 then Some (numberText 10 (u64 a))
  else if c =? 111 then Some (numberText 8 (u64 a))
  else if c =? 112 then Some ([48; 120] ++ numberText 16 (u64 a))
  else if c =? 115 then text (u64 a)
  else Some (numberText 16 (u64 a)).

Definition takesArgument (c : Z) : bool := bool_decide (c ∈ [99; 100; 108; 111; 112; 115; 120]).

(** The text of a specifier and the arguments after it; [None] when there are
    too few, or no known string. *)
Definition specifierText (c : Z) (args : list Z) : option (list Z * list Z) :=
  if takesArgument c then
    match args with
    | [] => None
    | a :: args => (fun l => (l, args)) <$> argumentText c a
    end
  else if c =? 110 then Some ([], args)
  else if c =? 37 then Some ([37], args)
  else Some (UNKNOWN, args).

(** A percent sign at the end is an unknown specifier too. *)
Fixpoint formatText (format args : list Z) : option (list Z) :=
  match format with
  | [] => Some []
  | c :: format =>
      if c =? 37 then
        match format with
        | [] => Some UNKNOWN
        | s :: format =>
            match specifierText s args with
            | Some (l, args) => app l <$> formatText format args
            | None => None
            end
        end
      else cons c <$> formatText format args
  end.

Lemma formatText_plain l format args :
  (forall i, l !! i <> Some 37) -> formatText (l ++ format) args = app l <$> formatText format args.
Proof.
  induction l as [|c l IH]; intros Hl; [cbn [app]; by destruct (formatText format args)|]. cbn [app formatText].
  destruct (Z.eqb_spec c 37) as [->|]; [by exfalso; apply (Hl 0%nat)|]. rewrite IH by (intros i; apply (Hl (S i))).
  by destruct (formatText format args).
Qed.
End Text.

(** ["%d-%x %s%%%q"] with 42, 255 and a string. *)
Example formatText_example :
  formatText (fun p => if p =? 4096 then Some [111; 107] else None)
    [37; 100; 45; 37; 120; 32; 37; 115; 37; 37; 37; 110] [42; 255; 4096]
  = Some [52; 50; 45; 102; 102; 32; 111; 107; 37].
Proof. reflexivity. Qed.

(** ** Strings *)

Lemma putBytes_contents m p l l' : bytesAt (putBytes m p (l ++ l')) p (Z.of_nat (List.length l)) = l.
Proof.
  apply list_eq. intros i. rewrite bytesAt_lookup. zcase.
  - unfold putBytes. rewrite (proj2 (Z.leb_le _ _)) by lia. replace (Z.to_nat (p + Z.of_nat i - p)) with i by lia.
    rewrite lookup_app_l by lia. by destruct (lookup_lt_is_Some_2 l i ltac:(lia)) as [x ->].
  - symmetry. apply lookup_ge_None_2. lia.
Qed.

Lemma contents_lookup0 m s : Str_index m s 0 = default 0 (contents m s !! 0%nat).
Proof.
  unfold Str_index, contents. rewrite bytesAt_lookup. change (Z.of_nat 0) with 0. by destruct (0 <? length s).
Qed.

Lemma findNext_shorter m s c : 0 < length s -> 0 <= length (findNext m s c) < length s.
Proof.
  intros Hl. unfold findNext, memchr. rewrite (proj2 (Z.eqb_neq _ _)) by lia.
  pose proof (memchr_loop_spec (Z.to_nat (length s - 1)) m (cString s + 1) c) as H.
  destruct (memchr_loop _ m (cString s + 1) c) as [p|]; cbn [length Str_null]; lia.
Qed.

Lemma findNext_place m s c : 0 <= cString s -> 0 < length s -> 0 <= cString (findNext m s c).
Proof.
  intros H0 Hl. unfold findNext, memchr. rewrite (proj2 (Z.eqb_neq _ _)) by lia.
  pose proof (memchr_loop_spec (Z.to_nat (length s - 1)) m (cString s + 1) c) as H.
  destruct (memchr_loop _ m (cString s + 1) c) as [p|]; cbn [cString Str_null]; lia.
Qed.

Lemma findBefore_length m s c : 0 < length s -> length (findBefore m s c) = length s - length (findNext m s c).
Proof.
  intros Hl. pose proof (findNext_shorter m s c Hl). unfold findBefore, subString.
  rewrite (proj2 (Z.ltb_ge (length s) 0)), (proj2 (Z.ltb_ge (_ - _) 0)) by lia. cbn [orb].
  rewrite (proj2 (Z.ltb_ge (length s) (_ - _))) by lia. cbn. lia.
Qed.

(** ** printf *)

Section Printf.
Context {S : Type} `{TextDisplay S} (kmalloc : Z -> outcome Z) {L : TextDisplayLaws S}.
Context (stack rodata : Z) (chars_max : nat) (m : Memory).
(** The known strings are in memory. *)
Context (text : Z -> option (list Z)).
Context (Htext : forall p l, text p = Some l -> cstring m p l /\ (List.length l < chars_max)%nat).
Implicit Types con : Console S.

(** The call prints [l]: it goes from a console that shows [t] to one that
    shows [t] after [l], and leaves the lock. *)
Definition prints (l : list Z) con (r : outcome (Console S)) : Prop := forall t, ready kmalloc con t -> 
  exists con', r = Ok con' /\ ready kmalloc con' (t_print terminalColumns t l) /\ consoleLock con' = consoleLock con.

Lemma print_prints m' str con : Forall printable (contents m' str) -> 0 <= length str ->
  prints (contents m' str) con (print kmalloc m' str true con).
Proof. intros Hp Hl t Hr. by apply print_run. Qed.

Lemma printLiteral_prints l con : Forall printable l -> prints l con (printLiteral kmalloc rodata m l con).
Proof.
  intros Hp. unfold printLiteral. pose proof (putBytes_contents m rodata l [0]) as E.
  rewrite <- E at 1. apply print_prints; cbn [length]; [|lia]. unfold contents. cbn [cString length]. by rewrite E.
Qed.

Lemma printNumber_run v base con : 2 <= base <= 64 -> 0 <= v < 2 ^ 64 -> Forall printable (numberText base v) ->
  prints (numberText base v) con (printNumber kmalloc stack m v base true con).
Proof.
  intros Hb Hv Hp. destruct (formatNumber_spec kmalloc stack m v base Hb Hv) as (m' & ds & E & Hs & _ & _ & Hlen & _ & _ & _ & Eds).
  unfold printNumber. rewrite E. cbn [obind]. unfold Str_of.
  rewrite (strlen_spec _ _ _ _ Hs) by (rewrite length_fmap; lia). cbn [obind].
  assert (Ec : contents m' (mkStr stack (Z.of_nat (List.length (digitChar <$> ds)))) = numberText base v)
    by (unfold numberText; rewrite <- Eds; apply Hs).
  rewrite <- Ec in *. apply print_prints; [exact Hp|cbn; lia].
Qed.

Lemma intToLong_range a : 0 <= intToLong a < 2 ^ 64.
Proof.
  unfold intToLong. pose proof (u32_range a). change (2 ^ 32) with 4294967296 in *. destruct (_ <? _).
  - change (2 ^ 64) with 18446744073709551616. lia.
  - apply u64_range.
Qed.

(** What the cases of the [switch] do with the arguments after them. *)
Lemma prints_args l con r (args : list Z) t : prints l con r -> ready kmalloc con t ->
  exists con', (let! con := r in Ok (args, con)) = Ok (args, con') /\
    ready kmalloc con' (t_print terminalColumns t l) /\ consoleLock con' = consoleLock con.
Proof. intros Hp Hr. destruct (Hp t Hr) as (con' & -> & Hr' & Hl). by exists con'. Qed.

Lemma prints_bind l1 l2 con r k : prints l1 con r -> (forall con1, prints l2 con1 (k con1)) -> prints (l1 ++ l2) con (let! con := r in k con).
Proof.
  intros H1 H2 t Hr. destruct (H1 t Hr) as (con1 & -> & Hr1 & Hl1). cbn [obind].
  destruct (H2 con1 _ Hr1) as (con2 & -> & Hr2 & Hl2). exists con2. split; [done|]. split; [|congruence].
  unfold t_print in *. by rewrite fold_left_app.
Qed.

Lemma argument_prints c a l con (args : list Z) t :
  takesArgument c = true -> argumentText text c a = Some l -> Forall printable l -> ready kmalloc con t ->
  exists con', printSpecifier kmalloc stack rodata chars_max m c (a :: args) con = Ok (args, con') /\
    ready kmalloc con' (t_print terminalColumns t l) /\ consoleLock con' = consoleLock con.
Proof.
  intros Hc Ea Hp Hr. apply bool_decide_eq_true in Hc. rewrite !elem_of_cons in Hc.
  destruct Hc as [->|[->|[->|[->|[->|[->|[->|Hn]]]]]]]; [..|by apply elem_of_nil in Hn]; cbn in Ea; simplify_eq;
    unfold printSpecifier; cbn [Z.eqb Pos.eqb va_arg obind].
  - apply prints_args; [|exact Hr]. assert (E : contents (storeb m stack (u8 a)) (mkStr stack 1) = [u8 a])
      by (unfold contents; cbn [cString length]; rewrite bytesAt_1; unfold storeb; by rewrite Z.eqb_refl).
    rewrite <- E. apply print_prints; [by rewrite E|cbn; lia].
  - apply prints_args; [|exact Hr]. apply printNumber_run; [lia|apply intToLong_range|done].
  - apply prints_args; [|exact Hr]. apply printNumber_run; [lia|apply u64_range|done].
  - apply prints_args; [|exact Hr]. apply printNumber_run; [lia|apply u64_range|done].
  - assert (Hp12 : Forall printable [48; 120] /\ Forall printable (numberText 16 (u64 a))) by (by apply Forall_app). destruct Hp12 as [Hp1 Hp2].
    rewrite <- obind_assoc. apply (prints_args ([48; 120] ++ numberText 16 (u64 a))); [|exact Hr].
    apply prints_bind; [by apply printLiteral_prints|]. intros con1. apply printNumber_run; [lia|apply u64_range|done].
  - destruct (Htext _ _ Ea) as [Hs Hl]. unfold Str_of. rewrite (strlen_spec _ _ _ _ Hs Hl). cbn [obind].
    apply prints_args; [|exact Hr]. assert (E : contents m (mkStr (u64 a) (Z.of_nat (List.length l))) = l) by apply Hs.
    rewrite <- E at 1. apply print_prints; [by rewrite E|cbn; lia].
  - apply prints_args; [|exact Hr]. apply printNumber_run; [lia|apply u64_range|done].
Qed.

Lemma specifier_prints c args l args' con t :
  specifierText text c args = Some (l, args') -> Forall printable l -> ready kmalloc con t ->
  exists con', printSpecifier kmalloc stack rodata chars_max m c args con = Ok (args', con') /\
    ready kmalloc con' (t_print terminalColumns t l) /\ consoleLock con' = consoleLock con.
Proof.
  unfold specifierText. destruct (takesArgument c) eqn:Hc.
  - destruct args as [|a args]; [done|]. destruct (argumentText text c a) as [x|] eqn:Ea; [|done]. intros [= <- <-] Hp Hr.
    by apply argument_prints.
  - apply bool_decide_eq_false in Hc. rewrite !not_elem_of_cons in Hc. destruct Hc as (N1 & N2 & N3 & N4 & N5 & N6 & N7 & _).
    intros E Hp Hr. unfold printSpecifier. destruct (Z.eqb_spec c 110) as [->|Nn]; [simplify_eq; by exists con|].
    destruct (Z.eqb_spec c 37) as [->|Np]; [simplify_eq; apply prints_args; [by apply printLiteral_prints|exact Hr]|]. simplify_eq.
    repeat match goal with |- context [Z.eqb c ?x] => destruct (Z.eqb_spec c x); [done|] end.
    apply prints_args; [by apply printLiteral_prints|exact Hr].
Qed.

(** Cutting off the first character; of an empty string it is null. *)
Lemma subString1 s : length s = 0 \/ validStr s ->
  let s' := subStringFrom s 1 in (length s' = 0 \/ validStr s') /\ contents m s' = tail (contents m s) /\
    (length s' <= Z.max 0 (length s - 1)).
Proof.
  intros Hs s'. destruct (decide (length s <= 0)) as [H0|H0].
  - assert (Hl : length s = 0) by (destruct Hs as [|[_ ?]]; lia). unfold s', subStringFrom, subString. rewrite Hl. cbn.
    split; [by left|]. split; [|lia]. unfold contents. by rewrite Hl.
  - destruct Hs as [|Hv]; [lia|]. destruct (subStringFrom_spec m s 1 Hv ltac:(lia)) as [H1 H2]. fold s' in H1, H2.
    split; [by right|]. split; [rewrite H2; by destruct (contents m s)|].
    pose proof (contents_length m s' (proj2 H1)) as E1. pose proof (contents_length m s (proj2 Hv)) as E2. rewrite H2, length_skipn in E1.
    change (base.length (contents m s)) with (List.length (contents m s)) in E2. lia.
Qed.

(** A piece of the format without a percent sign. *)
Lemma plain_piece format : validStr format -> 0 < length format -> Str_index m format 0 <> 37 ->
  let b := findBefore m format 37 in let r := findNext m format 37 in
  contents m format = contents m b ++ contents m r /\ (forall i, contents m b !! i <> Some 37) /\ 0 <= length b /\
  (length r = 0 \/ validStr r) /\ length r < length format.
Proof.
  intros [Hp Hv] Hl Hc b r. destruct (findBefore_findNext_split m format 37 ltac:(lia) ltac:(lia)) as (E & Hb & Hr).
  fold b r in E, Hb, Hr. pose proof (findNext_shorter m format 37 Hl) as Hlen. fold r in Hlen.
  pose proof (findBefore_length m format 37 Hl) as Hbl. fold b r in Hbl.
  split; [exact E|]. split; [|split; [lia|split; [|lia]]].
  - intros [|i]; [|apply Hb; lia]. intros Hi. apply Hc. rewrite contents_lookup0, E, lookup_app_l by (by eapply lookup_lt_Some). by rewrite Hi.
  - destruct (decide (length r = 0)) as [|Hne]; [by left|right]. split; [|lia].
    assert (0 < cString r); [|done]. unfold r, findNext, memchr in *. rewrite (proj2 (Z.eqb_neq _ _)) in * by lia.
    pose proof (memchr_loop_spec (Z.to_nat (length format - 1)) m (cString format + 1) 37) as Hm.
    destruct (memchr_loop _ m (cString format + 1) 37) as [p|]; [cbn [cString]; lia|done].
Qed.

Lemma printf_loop_spec fuel : forall format args out con t,
  length format = 0 \/ validStr format -> (Z.to_nat (length format) <= fuel)%nat ->
  formatText text (contents m format) args = Some out -> Forall printable out -> ready kmalloc con t ->
  exists con', printf_loop kmalloc stack rodata chars_max fuel m format args con = Ok con' /\
    ready kmalloc con' (t_print terminalColumns t out) /\ consoleLock con' = consoleLock con.
Proof.
  induction fuel as [|fuel IH]; intros format args out con t Hf Hl E Hp Hr; cbn [printf_loop].
  all: destruct (Z.ltb_spec 0 (length format)) as [Hpos|Hz];
    [|assert (H0 : length format = 0) by (destruct Hf as [|[_ ?]]; lia); unfold contents in E; rewrite H0 in E; cbn in E; injection E as <-; exists con; split; [reflexivity|split; [exact Hr|reflexivity]]].
  { lia. }
  assert (Hv : validStr format) by (destruct Hf; [lia|done]).
  destruct (Z.eqb_spec (Str_index m format 0) 37) as [Hc|Hc].
  - destruct (subString1 format Hf) as (Hf1 & E1 & Hl1). set (format1 := subStringFrom format 1) in *.
    destruct (subString1 format1 Hf1) as (Hf2 & E2 & Hl2). set (format2 := subStringFrom format1 1) in *.
    rewrite contents_lookup0 in Hc. destruct (contents m format) as [|c rest]; [done|]. cbn in Hc, E1. subst c. cbn [formatText Z.eqb Pos.eqb] in E.
    assert (Hs : exists l args' out', specifierText text (Str_index m format1 0) args = Some (l, args') /\
      formatText text (contents m format2) args' = Some out' /\ out = l ++ out').
    { rewrite contents_lookup0, E1, E2. destruct rest as [|c rest].
      - exists UNKNOWN, args, []. cbn in E. simplify_eq. rewrite E1. by rewrite app_nil_r.
      - rewrite E1. cbn [lookup list_lookup default tail]. destruct (specifierText text c args) as [[l args']|] eqn:Es; [|done].
        destruct (formatText text rest args') as [out'|] eqn:Ef; [|done]. cbn in E. simplify_eq. by exists l, args', out'. }
    destruct Hs as (l & args' & out' & Es & Ef & ->). apply Forall_app in Hp as [Hp1 Hp2].
    destruct (specifier_prints _ args l args' con t Es Hp1 Hr) as (con1 & -> & Hr1 & Hlk1). cbn [obind].
    destruct (IH format2 args' out' con1 _ Hf2 ltac:(lia) Ef Hp2 Hr1) as (con2 & -> & Hr2 & Hlk2).
    exists con2. split; [done|]. unfold t_print in *. rewrite fold_left_app. split; [done|congruence].
  - destruct (plain_piece format Hv Hpos Hc) as (Ec & Hno & Hb0 & Hf2 & Hl2). rewrite Ec, formatText_plain in E by done.
    destruct (formatText text (contents m (findNext m format 37)) args) as [out'|] eqn:Ef; [|done]. cbn in E. simplify_eq.
    apply Forall_app in Hp as [Hp1 Hp2]. destruct (print_prints m (findBefore m format 37) con Hp1 Hb0 t Hr) as (con1 & -> & Hr1 & Hlk1).
    cbn [obind]. destruct (IH _ args out' con1 _ Hf2 ltac:(lia) Ef Hp2 Hr1) as (con2 & -> & Hr2 & Hlk2).
    exists con2. split; [done|]. unfold t_print in *. rewrite fold_left_app. split; [done|congruence].
Qed.
End Printf.

(** ** kpanic

    The message and the [Cpu] that halts; elsewhere a panic is the outcome
    [Panic]. *)
Section Kpanic.
Context {S : Type} `{TextDisplay S} (kmalloc : Z -> outcome Z) (rodata : Z) (chars_max : nat).
Implicit Types con : Console S.

Definition KPANIC : list Z := [75; 112; 97; 110; 105; 99; 33; 10].

Definition kpanic (m : Memory) (message : Z) con (c : Cpu) : outcome (Console S * Cpu) :=
  let! con := print kmalloc (putBytes m rodata (KPANIC ++ [0])) (mkStr rodata 8) false con in
  let! str := Str_of chars_max m message in
  let! con := print kmalloc m str false con in
  Ok (con, disableLocalIrqs c).

Lemma print_literal {L : TextDisplayLaws S} m lit n con t :
  ready kmalloc con t -> consoleLock con = false -> Forall printable lit -> n = Z.of_nat (List.length lit) ->
  exists con', print kmalloc (putBytes m rodata (lit ++ [0])) (mkStr rodata n) false con = Ok con' /\
    ready kmalloc con' (t_print terminalColumns t lit) /\ consoleLock con' = false.
Proof.
  intros Hr Hlock Hp ->. pose proof (putBytes_contents m rodata lit [0]) as E.
  destruct (print_run kmalloc (putBytes m rodata (lit ++ [0])) (mkStr rodata (Z.of_nat (List.length lit))) false con t Hr)
    as (con1 & E1 & Hr1 & Hl1); [done|unfold contents; cbn [cString length]; by rewrite E|cbn [length]; lia|].
  unfold contents in Hr1. cbn [cString length] in Hr1. rewrite E in Hr1.
  exists con1. by rewrite E1, Hl1, Hlock.
Qed.

(** The message comes after the word on the terminal, and the CPU halts with
    its interrupts off, ... *)
Lemma kpanic_prints {L : TextDisplayLaws S} m message l con c t :
  cstring m message l -> (List.length l < chars_max)%nat -> Forall printable KPANIC -> Forall printable l ->
  ready kmalloc con t -> consoleLock con = false ->
  exists con', kpanic m message con c = Ok (con', disableLocalIrqs c) /\
    ready kmalloc con' (t_print terminalColumns (t_print terminalColumns t KPANIC) l).
Proof.
  intros Hs Hl Hp1 Hp2 Hr Hlock. unfold kpanic.
  destruct (print_literal m KPANIC 8 con t Hr Hlock Hp1 eq_refl) as (con1 & -> & Hr1 & Hl1). cbn [obind].
  unfold Str_of. rewrite (strlen_spec _ _ _ _ Hs Hl). cbn [obind].
  assert (E2 : contents m (mkStr message (Z.of_nat (List.length l))) = l) by apply Hs.
  destruct (print_run kmalloc m (mkStr message (Z.of_nat (List.length l))) false con1 _ Hr1) as (con2 & -> & Hr2 & _);
    [done|by rewrite E2|cbn; lia|]. cbn [obind]. eexists. split; [done|]. by rewrite E2 in Hr2.
Qed.

(** ... unless the panic is raised while this CPU prints: then it spins on the
    lock of the console and prints nothing. *)
Lemma kpanic_while_printing m message con c : consoleLock con = true -> kpanic m message con c = Hang.
Proof. intros Hl. unfold kpanic, print, acquireConsoleLock. by rewrite Hl. Qed.
End Kpanic.

(** ** Properties *)

(** [C14] [printf] prints what its format says: the text between the
    specifiers, numbers in base 10, 8 and 16, characters, pointers and strings
    in place of the specifiers, in order, each with the next argument, and it
    ends. The text is printed on the terminal as [print] prints it, under one
    holding of the console's lock: [printf] waits while it is taken, takes it,
    runs the loop over the format and gives it back, and the loop prints the
    same whether the lock is taken or not and leaves it as it is. A specifier
    the code does not know, or a percent sign at the end, prints a notice. *)
Theorem printf_prints {S : Type} `{TextDisplay S} (kmalloc : Z -> outcome Z) {L : TextDisplayLaws S} stack rodata chars_max m text
    format args out (con : Console S) t :
  (forall p l, text p = Some l -> cstring m p l /\ (List.length l < chars_max)%nat) ->
  validStr format -> formatText text (contents m format) args = Some out -> Forall printable out -> ready kmalloc con t ->
  let loop con := printf_loop kmalloc stack rodata chars_max (Z.to_nat (length format)) m format args con in
  (consoleLock con = true -> printf kmalloc stack rodata chars_max m format args con = Hang) /\
  (consoleLock con = false -> exists con', loop (set_consoleLock con true) = Ok con' /\ consoleLock con' = true /\
     printf kmalloc stack rodata chars_max m format args con = Ok (set_consoleLock con' false) /\
     ready kmalloc (set_consoleLock con' false) (t_print terminalColumns t out)) /\
  (forall b, exists con', loop (set_consoleLock con b) = Ok con' /\ ready kmalloc con' (t_print terminalColumns t out) /\ consoleLock con' = b).
Proof.
  intros Ht Hv E Hp Hr loop.
  assert (Hloop : forall b, exists con', loop (set_consoleLock con b) = Ok con' /\ ready kmalloc con' (t_print terminalColumns t out) /\ consoleLock con' = b).
  { intros b. apply (printf_loop_spec kmalloc stack rodata chars_max m text Ht (Z.to_nat (length format)) format args out (set_consoleLock con b) t);
      [by right|lia|exact E|exact Hp|by apply ready_lock]. }
  unfold printf, acquireConsoleLock. split; [by intros ->|]. split; [|exact Hloop]. intros ->. cbn [obind].
  destruct (Hloop true) as (con' & El & Hr' & Hl'). exists con'. split; [exact El|]. split; [exact Hl'|]. unfold loop in El. rewrite El.
  split; [done|by apply ready_lock].
Qed.

(** ["%d-%x %s%%"] with 42, 255 and the string ["ok"] on four columns and two
    lines: the first line has scrolled away. *)
Definition someFormat : list Z := [37; 100; 45; 37; 120; 32; 37; 115; 37; 37].
Definition someMemory : Memory := putBytes (putBytes (fun _ => 0) 64 someFormat) 200 [111; 107].
Definition someStrings (p : Z) : option (list Z) := if p =? 200 then Some [111; 107] else None.

Lemma printf_prints_witness :
  exists con', @printf Grid (gridDisplay 4 2) (fun _ => Ok 1000) 5000 6000 10 someMemory (mkStr 64 10) [42; 255; 200] freshConsole = Ok con' /\
    @ready Grid (gridDisplay 4 2) (fun _ => Ok 1000) smallLaws con' (mkTerminal [[102; 32; 111; 107]; [37]] 1).
Proof.
  destruct (@printf_prints Grid (gridDisplay 4 2) (fun _ => Ok 1000) smallLaws 5000 6000 10%nat someMemory someStrings
    (mkStr 64 10) [42; 255; 200] [52; 50; 45; 102; 102; 32; 111; 107; 37] freshConsole (@blankTerminal Grid (gridDisplay 4 2)))
    as (_ & H & _).
  - intros p l. unfold someStrings. destruct (Z.eqb_spec p 200) as [->|]; [|discriminate]. intros [= <-].
    split; [split; [reflexivity|split; [reflexivity|]]|cbn; lia]. repeat constructor; discriminate.
  - split; cbn; lia.
  - vm_compute. reflexivity.
  - repeat constructor.
  - exact freshConsole_ready.
  - destruct (H eq_refl) as (con' & _ & _ & E & Hr). exists (set_consoleLock con' false). split; [exact E|exact Hr].
Defined.
