(* ===== verification/Mbi.v ===== *)
(** * The multiboot information ([mbi.h], [mbi.cpp])

    The tags the boot loader leaves in memory, parsed into the physical memory
    map ([MemoryBlock]), the frame buffer ([Display]), the location of the
    initial RAM file system and a copy of the ACPI root pointer. *)

From Stdlib Require Import ZArith Lia.
From stdpp Require Import base tactics numbers list.
From S2P Require Import Prelude Spinlock MemoryBlock Strings Display.

Open Scope Z_scope.

Definition PAGE_ALIGN_UP (x : Z) : Z := u64 (x + 4095) / 4096 * 4096.
Definition PAGE_ALIGN_DOWN (x : Z) : Z := x / 4096 * 4096.

Definition MBI_TAG_MODULE : Z := 3.
Definition MBI_TAG_MEMORY : Z := 6.
Definition MBI_TAG_FRAME_BUFFER : Z := 8.
Definition MBI_TAG_RSDP_OLD : Z := 14.
Definition MBI_TAG_RSDP_NEW : Z := 15.

(** The variables [parseMbi] sets; [rsdp] is the 36 bytes of the structure. *)
Record BootInfo := mkBootInfo {
  physicalMemory : BlockMap;
  frameBuffer : FrameBuffer;
  initramfsPointer : Z;
  initramfsSize : Z;
  rsdp : list Z
}.

Definition set_physicalMemory (b : BootInfo) (m : BlockMap) : BootInfo :=
  mkBootInfo m (frameBuffer b) (initramfsPointer b) (initramfsSize b) (rsdp b).

(** Fields of the tags, at their offsets. *)
Definition tag_type (m : Memory) (tag : Z) : Z := loadd m tag.
Definition tag_size (m : Memory) (tag : Z) : Z := loadd m (tag + 4).
Definition entry_base (m : Memory) (tag i : Z) : Z := loadq m (tag + 16 + i * 24).
Definition entry_length (m : Memory) (tag i : Z) : Z := loadq m (tag + 16 + i * 24 + 8).
Definition entry_type (m : Memory) (tag i : Z) : Z := loadd m (tag + 16 + i * 24 + 16).

Section Mbi.
(** The linker symbols. *)
Context (kernelPhysicalAddress kernelPhysicalEnd : Z).

Definition parseModuleTag (m : Memory) (tag : Z) (b : BootInfo) : BootInfo :=
  let moduleStart := loadd m (tag + 8) in
  let moduleEnd := loadd m (tag + 12) in
  mkBootInfo (physicalMemory b) (frameBuffer b) moduleStart (u32 (moduleEnd - moduleStart)) (rsdp b).

(** The block of an available entry. *)
Definition entryBlock (m : Memory) (tag i : Z) : Block :=
  let entryBase := PAGE_ALIGN_UP (entry_base m tag i) in
  let entrySize := PAGE_ALIGN_DOWN (entry_length m tag i) in
  mkBlock entryBase (u64 (entryBase + entrySize)).

(** The loop over the [n] entries from [i] on. *)
Fixpoint memoryMap_loop (n : nat) (c : Cpu) (m : Memory) (tag i : Z) (pm : BlockMap) : outcome (Cpu * BlockMap) :=
  match n with
  | O => Ok (c, pm)
  | S n =>
      let! '(c, pm) := (if entry_type m tag i =? 1 then addBlock c pm (entryBlock m tag i) true else Ok (c, pm)) in
      memoryMap_loop n c m tag (i + 1) pm
  end.

Definition parseMemoryMapTag (c : Cpu) (m : Memory) (tag : Z) (b : BootInfo) : outcome (Cpu * BootInfo) :=
  let entrySize := loadd m (tag + 8) in
  if entrySize =? 0 then Fault
  else
    let numEntries := u32 (u64 (tag_size m tag - 16) / entrySize) in
    let! '(c, pm) := memoryMap_loop (Z.to_nat numEntries) c m tag 0 (physicalMemory b) in
    let! '(c, pm) := reserve c pm (mkBlock (PAGE_ALIGN_DOWN kernelPhysicalAddress) (PAGE_ALIGN_UP kernelPhysicalEnd)) in
    let! '(c, pm) := reserve c pm (mkBlock 0 0x100000) in
    Ok (c, set_physicalMemory b pm).

Definition parseFrameBufferTag (m : Memory) (tag : Z) (b : BootInfo) : BootInfo :=
  mkBootInfo (physicalMemory b)
    (mkFrameBuffer (loadq m (tag + 8)) (loadd m (tag + 20)) (loadd m (tag + 24)) (loadd m (tag + 16)) (m (tag + 28)))
    (initramfsPointer b) (initramfsSize b) (rsdp b).

(** [memcpy(&acpi::rsdp, &tag->rsdp, n)]. *)
Definition copyRsdp (m : Memory) (tag n : Z) (b : BootInfo) : BootInfo :=
  mkBootInfo (physicalMemory b) (frameBuffer b) (initramfsPointer b) (initramfsSize b)
    (bytesAt m (tag + 8) n ++ skipn (Z.to_nat n) (rsdp b)).

Definition parseOldRsdpTag (m : Memory) (tag : Z) (b : BootInfo) : BootInfo := copyRsdp m tag 20 b.
Definition parseNewRsdpTag (m : Memory) (tag : Z) (b : BootInfo) : BootInfo := copyRsdp m tag 36 b.

Definition parseMbiTag (c : Cpu) (m : Memory) (type tag : Z) (b : BootInfo) : outcome (Cpu * BootInfo) :=
  if type =? MBI_TAG_MODULE then Ok (c, parseModuleTag m tag b)
  else if type =? MBI_TAG_MEMORY then parseMemoryMapTag c m tag b
  else if type =? MBI_TAG_FRAME_BUFFER then Ok (c, parseFrameBufferTag m tag b)
  else if type =? MBI_TAG_RSDP_OLD then Ok (c, parseOldRsdpTag m tag b)
  else if type =? MBI_TAG_RSDP_NEW then Ok (c, parseNewRsdpTag m tag b)
  else Ok (c, b).

Definition nextTag (m : Memory) (tag : Z) : Z := tag + u32 (tag_size m tag + 7) / 8 * 8.

(** The loop of [parseMbi]; [fuel] bounds the number of tags. *)
Fixpoint parseMbi_loop (fuel : nat) (c : Cpu) (m : Memory) (tag : Z) (b : BootInfo) : outcome (Cpu * BootInfo) :=
  if tag_type m tag =? 0 then Ok (c, b)
  else
    match fuel with
    | O => Hang
    | S fuel =>
        let! '(c, b) := parseMbiTag c m (tag_type m tag) tag b in
        parseMbi_loop fuel c m (nextTag m tag) b
    end.

(** [parseMbi]; the first tag is at offset 8. *)
Definition parseMbi (fuel : nat) (c : Cpu) (m : Memory) (mbiPointer : Z) (b : BootInfo) : outcome (Cpu * BootInfo) :=
  let! '(c, b) := parseMbi_loop fuel c m (mbiPointer + 8) b in
  if 0 <? initramfsSize b then
    let! '(c, pm) := reserve c (physicalMemory b)
      (mkBlock (PAGE_ALIGN_DOWN (initramfsPointer b)) (PAGE_ALIGN_UP (u64 (initramfsPointer b + initramfsSize b)))) in
    Ok (c, set_physicalMemory b pm)
  else Ok (c, b).

(** ** Specification *)

(** The tags at [p] are at the addresses [l]. *)
Fixpoint tagsAt (m : Memory) (p : Z) (l : list Z) : Prop :=
  match l with
  | [] => tag_type m p = 0
  | t :: l => p = t /\ tag_type m t <> 0 /\ tagsAt m (nextTag m t) l
  end.

Definition numEntries (m : Memory) (tag : Z) : nat :=
  Z.to_nat (u32 (u64 (tag_size m tag - 16) / loadd m (tag + 8))).

(** Address [a] is in entry [i] of the map, which is available memory. *)
Definition available (m : Memory) (tag i a : Z) : Prop :=
  entry_type m tag i = 1 /\ entry_base m tag i <= a < entry_base m tag i + entry_length m tag i.

(** A memory map a boot loader may give: entries of available memory begin at
    page boundaries, stay below the end of the address space and do not
    overlap. *)
Record memoryMap_wf (m : Memory) (tag : Z) : Prop := {
  mm_size : loadd m (tag + 8) <> 0;
  mm_entries : forall i, 0 <= i < Z.of_nat (numEntries m tag) -> entry_type m tag i = 1 ->
    0 <= entry_length m tag i /\ entry_base m tag i mod 4096 = 0 /\ 0 <= entry_base m tag i /\
    entry_base m tag i + entry_length m tag i + 4095 < 2 ^ 64;
  mm_disjoint : forall i j a, 0 <= i < Z.of_nat (numEntries m tag) -> 0 <= j < Z.of_nat (numEntries m tag) ->
    available m tag i a -> available m tag j a -> i = j
}.

(** The kernel image. *)
Record kernel_wf : Prop := {
  kw_range : 0 <= kernelPhysicalAddress < kernelPhysicalEnd;
  kw_end : kernelPhysicalEnd + 4095 < 2 ^ 64
}.

(** ** The memory map *)

Lemma PAGE_ALIGN_UP_aligned x : x mod 4096 = 0 -> 0 <= x -> x + 4095 < 2 ^ 64 -> PAGE_ALIGN_UP x = x.
Proof. change (2 ^ 64) with 18446744073709551616. intros H1 H2 H3. unfold PAGE_ALIGN_UP. rewrite u64_small by lia. dlia. Qed.

Lemma PAGE_ALIGN_UP_range x : 0 <= x -> x + 4095 < 2 ^ 64 -> x <= PAGE_ALIGN_UP x < x + 4096.
Proof. change (2 ^ 64) with 18446744073709551616. intros H1 H2. unfold PAGE_ALIGN_UP. rewrite u64_small by lia. dlia. Qed.

Lemma PAGE_ALIGN_DOWN_range x : x - 4096 < PAGE_ALIGN_DOWN x <= x.
Proof. unfold PAGE_ALIGN_DOWN. dlia. Qed.

Lemma PAGE_ALIGN_DOWN_nonneg x : 0 <= x -> 0 <= PAGE_ALIGN_DOWN x.
Proof. unfold PAGE_ALIGN_DOWN. intros H. assert (0 <= x / 4096) by (by apply Z.div_pos). lia. Qed.

Lemma loadw_range m a : isBytes m -> 0 <= loadw m a < 65536.
Proof. intros H. unfold loadw. pose proof (H a). pose proof (H (a + 1)). lia. Qed.

Lemma loadd_range m a : isBytes m -> 0 <= loadd m a < 4294967296.
Proof. intros H. unfold loadd. pose proof (loadw_range m a H). pose proof (loadw_range m (a + 2) H). lia. Qed.

(** A map whose free addresses, each free once, satisfy [Q]. *)
Definition freeOnly (Q : Z -> Prop) (pm : BlockMap) : Prop :=
  locked (bm_lock pm) = false /\ wfMap (blocks pm) /\ disjointMap (blocks pm) /\
  forall a, freeCount (blocks pm) a = 1 -> Q a.

Lemma entryBlock_spec m tag i :
  memoryMap_wf m tag -> 0 <= i < Z.of_nat (numEntries m tag) -> entry_type m tag i = 1 ->
  wfBlock (entryBlock m tag i) /\ forall a, cov (entryBlock m tag i) a = 1 -> available m tag i a.
Proof.
  intros Hw Hi Ht. destruct (mm_entries _ _ Hw i Hi Ht) as (H1 & H2 & H3 & H4). unfold entryBlock.
  rewrite PAGE_ALIGN_UP_aligned by (done || lia). pose proof (PAGE_ALIGN_DOWN_range (entry_length m tag i)).
  pose proof (PAGE_ALIGN_DOWN_nonneg (entry_length m tag i) H1).
  change (2 ^ 64) with 18446744073709551616 in *. rewrite u64_small by lia. split.
  - unfold wfBlock. cbn [start MemoryBlock.end_]. change (2 ^ 64) with 18446744073709551616. lia.
  - intros a [Ha1 Ha2]%cov_1. cbn [start MemoryBlock.end_] in *. split; [done|]. lia.
Qed.

Lemma memoryMap_loop_spec m tag n : forall c i pm,
  memoryMap_wf m tag -> Z.of_nat (i + n) <= Z.of_nat (numEntries m tag) ->
  freeOnly (fun a => exists j, 0 <= j < Z.of_nat i /\ available m tag j a) pm ->
  exists pm', memoryMap_loop n c m tag (Z.of_nat i) pm = Ok (c, pm') /\
    freeOnly (fun a => exists j, 0 <= j < Z.of_nat (i + n) /\ available m tag j a) pm'.
Proof.
  induction n as [|n IH]; intros c i pm Hw Hn Hf; cbn [memoryMap_loop].
  - exists pm. by rewrite Nat.add_0_r.
  - destruct Hf as (F1 & F2 & F3 & F4). replace (Z.of_nat i + 1) with (Z.of_nat (S i)) by lia.
    replace (i + S n)%nat with (S i + n)%nat by lia. destruct (Z.eqb_spec (entry_type m tag (Z.of_nat i)) 1) as [Ht|Ht].
    + destruct (entryBlock_spec m tag (Z.of_nat i) Hw ltac:(lia) Ht) as [Hb Hc].
      destruct (addBlock_run c pm _ F1 F2 Hb) as (bs & l & E & L1 & L2 & _ & L3). rewrite E. cbn [obind].
      assert (Hnew : forall a, cov (entryBlock m tag (Z.of_nat i)) a = 1 -> freeCount (blocks pm) a = 0).
      { intros a Ha. pose proof (freeCount_nonneg (blocks pm) a). specialize (F3 a).
        assert (freeCount (blocks pm) a <> 1); [|lia]. intros H1. destruct (F4 a H1) as (j & Hj & Hav).
        pose proof (mm_disjoint _ _ Hw j (Z.of_nat i) a ltac:(lia) ltac:(lia) Hav (Hc a Ha)). lia. }
      apply (IH c (S i)); [done|lia|]. split; [done|]. split; [done|]. split.
      * intros a. cbn [blocks]. rewrite L3. specialize (F3 a). pose proof (cov_range (entryBlock m tag (Z.of_nat i)) a).
        destruct (hasRoom _); [|lia]. destruct (decide (cov (entryBlock m tag (Z.of_nat i)) a = 1)) as [E1|]; [rewrite (Hnew a E1)|]; lia.
      * intros a. cbn [blocks]. rewrite L3. intros H1. pose proof (cov_range (entryBlock m tag (Z.of_nat i)) a).
        destruct (decide (freeCount (blocks pm) a = 1)) as [E1|Hne].
        -- destruct (F4 a E1) as (j & Hj & Hav). exists j. split; [lia|done].
        -- exists (Z.of_nat i). split; [lia|]. apply Hc. pose proof (freeCount_nonneg (blocks pm) a).
           specialize (F3 a). destruct (hasRoom _); lia.
    + cbn [obind]. apply (IH c (S i)); [done|lia|]. split; [done|]. split; [done|]. split; [done|].
      intros a Ha. destruct (F4 a Ha) as (j & Hj & Hav). exists j. split; [lia|done].
Qed.

(** Reserving takes the range out of what is free. *)
Lemma reserve_freeOnly c pm Q rm :
  freeOnly Q pm -> wfBlock rm -> start rm < MemoryBlock.end_ rm ->
  exists pm', reserve c pm rm = Ok (c, pm') /\ freeOnly (fun a => Q a /\ ~ start rm <= a < MemoryBlock.end_ rm) pm'.
Proof.
  intros (F1 & F2 & F3 & F4) Hrm Hne. destruct (reserve_run c pm rm F1 F2 F3 Hrm Hne) as (bs & E & R1 & R2 & R3 & _).
  eexists. split; [exact E|]. split; [done|]. split; [done|]. split.
  - intros a. specialize (R3 a). specialize (F3 a). cbn [blocks]. lia.
  - intros a Ha. cbn [blocks] in Ha. split.
    + apply F4. specialize (R3 a). specialize (F3 a). lia.
    + intros Hr. specialize (R2 a Hr). lia.
Qed.

Definition inKernel (a : Z) : Prop := PAGE_ALIGN_DOWN kernelPhysicalAddress <= a < PAGE_ALIGN_UP kernelPhysicalEnd.

(** What the memory map leaves free. *)
Definition mapFree (m : Memory) (tag a : Z) : Prop :=
  (exists i, 0 <= i < Z.of_nat (numEntries m tag) /\ available m tag i a) /\ ~ inKernel a /\ ~ 0 <= a < 0x100000.

Lemma parseMemoryMapTag_spec c m tag b :
  kernel_wf -> memoryMap_wf m tag -> locked (bm_lock (physicalMemory b)) = false -> blocks (physicalMemory b) = [] ->
  exists pm, parseMemoryMapTag c m tag b = Ok (c, set_physicalMemory b pm) /\ freeOnly (mapFree m tag) pm.
Proof.
  intros [Hk1 Hk2] Hw Hl Hb. unfold parseMemoryMapTag. rewrite (proj2 (Z.eqb_neq _ _)) by apply (mm_size _ _ Hw).
  change (Z.to_nat (u32 (u64 (tag_size m tag - 16) / loadd m (tag + 8)))) with (numEntries m tag).
  destruct (memoryMap_loop_spec m tag (numEntries m tag) c 0 (physicalMemory b) Hw ltac:(lia)) as (pm1 & E1 & F1).
  { split; [done|]. rewrite Hb. split; [split; [constructor|cbn; unfold BLOCKMAP_SIZE; lia]|]. split; [by intros a|]. intros a Ha. cbn in Ha. lia. }
  change (Z.of_nat 0) with 0 in E1. rewrite E1. cbn [obind].
  pose proof (PAGE_ALIGN_UP_range kernelPhysicalEnd ltac:(lia) Hk2). pose proof (PAGE_ALIGN_DOWN_range kernelPhysicalAddress).
  pose proof (PAGE_ALIGN_DOWN_nonneg kernelPhysicalAddress ltac:(lia)).
  assert (PAGE_ALIGN_UP kernelPhysicalEnd < 2 ^ 64).
  { unfold PAGE_ALIGN_UP. pose proof (u64_range (kernelPhysicalEnd + 4095)). change (2 ^ 64) with 18446744073709551616. dlia. }
  destruct (reserve_freeOnly c pm1 _ (mkBlock (PAGE_ALIGN_DOWN kernelPhysicalAddress) (PAGE_ALIGN_UP kernelPhysicalEnd)) F1) as (pm2 & E2 & F2);
    [unfold wfBlock; cbn [start MemoryBlock.end_]; lia|cbn [start MemoryBlock.end_]; lia|]. rewrite E2. cbn [obind].
  destruct (reserve_freeOnly c pm2 _ (mkBlock 0 0x100000) F2) as (pm3 & E3 & F3); [unfold wfBlock; cbn; lia|cbn; lia|].
  rewrite E3. cbn [obind]. exists pm3. split; [done|]. destruct F3 as (G1 & G2 & G3 & G4). split; [done|]. split; [done|]. split; [done|].
  intros a Ha. destruct (G4 a Ha) as [[Hav Hk] Hlow]. by split.
Qed.

(** ** The tags *)

Lemma parseMbiTag_other c m t b :
  tag_type m t <> MBI_TAG_MEMORY ->
  exists b', parseMbiTag c m (tag_type m t) t b = Ok (c, b') /\ physicalMemory b' = physicalMemory b.
Proof.
  intros Ht. unfold parseMbiTag. rewrite (proj2 (Z.eqb_neq _ MBI_TAG_MEMORY) Ht).
  repeat match goal with |- context [if ?x then _ else _] => destruct x end; eexists; split; done.
Qed.

(** The location of the module stays that of 32-bit fields. *)
Lemma parseMbiTag_module c m t b c' b' :
  isBytes m -> parseMbiTag c m (tag_type m t) t b = Ok (c', b') ->
  0 <= initramfsPointer b < 2 ^ 32 -> 0 <= initramfsSize b < 2 ^ 32 ->
  0 <= initramfsPointer b' < 2 ^ 32 /\ 0 <= initramfsSize b' < 2 ^ 32.
Proof.
  intros Hm E H1 H2. unfold parseMbiTag in E.
  repeat match type of E with context [if ?x then _ else _] => destruct x end; inv_ok; try done.
  - unfold parseModuleTag. cbn [initramfsPointer initramfsSize]. split; [by apply loadd_range|apply u32_range].
  - unfold parseMemoryMapTag in E. destruct (_ =? _); [done|]. inv_ok. done.
Qed.

Definition memoryTags (m : Memory) (l : list Z) : list Z := filter (fun t => tag_type m t = MBI_TAG_MEMORY) l.

Lemma parseMbi_loop_spec m tag l : forall fuel c p b,
  kernel_wf -> isBytes m -> memoryMap_wf m tag -> tagsAt m p l -> (List.length l <= fuel)%nat ->
  0 <= initramfsPointer b < 2 ^ 32 -> 0 <= initramfsSize b < 2 ^ 32 ->
  locked (bm_lock (physicalMemory b)) = false ->
  memoryTags m l = [tag] /\ blocks (physicalMemory b) = [] \/ memoryTags m l = [] /\ freeOnly (mapFree m tag) (physicalMemory b) ->
  exists b', parseMbi_loop fuel c m p b = Ok (c, b') /\ freeOnly (mapFree m tag) (physicalMemory b') /\
    0 <= initramfsPointer b' < 2 ^ 32 /\ 0 <= initramfsSize b' < 2 ^ 32.
Proof.
  induction l as [|t l IH]; intros fuel c p b Hk Hm Hw Htags Hf Hi1 Hi2 Hl Hmem; cbn [tagsAt] in Htags.
  - destruct Hmem as [[Hbad _]|[_ Hfree]]; [done|]. exists b. destruct fuel; cbn [parseMbi_loop]; by rewrite Htags.
  - destruct Htags as (-> & Hnz & Htags). cbn [List.length] in Hf. destruct fuel as [|fuel]; [lia|]. cbn [parseMbi_loop].
    rewrite (proj2 (Z.eqb_neq _ _) Hnz). unfold memoryTags in Hmem. rewrite filter_cons in Hmem.
    destruct (decide (tag_type m t = MBI_TAG_MEMORY)) as [Ht|Ht].
    + destruct Hmem as [[Hcons Hb]|[Hbad _]]; [|done]. injection Hcons as -> Hrest.
      destruct (parseMemoryMapTag_spec c m tag b Hk Hw Hl Hb) as (pm & E & Hfree).
      unfold parseMbiTag. rewrite Ht. change (MBI_TAG_MEMORY =? MBI_TAG_MODULE) with false. rewrite Z.eqb_refl, E. cbn [obind].
      apply (IH fuel c (nextTag m tag)); [done|done|done|done|lia|done|done|apply Hfree|right; split; [exact Hrest|exact Hfree]].
    + destruct (parseMbiTag_other c m t b Ht) as (b1 & E & Epm).
      destruct (parseMbiTag_module _ _ _ _ _ _ Hm E Hi1 Hi2) as [Hi1' Hi2']. rewrite E. cbn [obind].
      apply (IH fuel c (nextTag m t)); [done|done|done|done|lia|done|done|by rewrite Epm|]. by rewrite Epm.
Qed.

(** The free memory [parseMbi] leaves. *)
Definition bootFree (m : Memory) (tag : Z) (b : BootInfo) (a : Z) : Prop :=
  mapFree m tag a /\
  ~ (0 < initramfsSize b /\ PAGE_ALIGN_DOWN (initramfsPointer b) <= a < PAGE_ALIGN_UP (initramfsPointer b + initramfsSize b)).

Lemma parseMbi_run m tag l fuel c mbiPointer b :
  kernel_wf -> isBytes m -> memoryMap_wf m tag -> tagsAt m (mbiPointer + 8) l -> memoryTags m l = [tag] -> (List.length l <= fuel)%nat ->
  physicalMemory b = BlockMap_init -> 0 <= initramfsPointer b < 2 ^ 32 -> 0 <= initramfsSize b < 2 ^ 32 ->
  exists b', parseMbi fuel c m mbiPointer b = Ok (c, b') /\ freeOnly (bootFree m tag b') (physicalMemory b') /\
    0 <= initramfsPointer b' < 2 ^ 32 /\ 0 <= initramfsSize b' < 2 ^ 32.
Proof.
  intros Hk Hm Hw Htags Hmem Hf Hb Hi1 Hi2.
  destruct (parseMbi_loop_spec m tag l fuel c (mbiPointer + 8) b Hk Hm Hw Htags Hf Hi1 Hi2) as (b1 & E & Hfree & Hi1' & Hi2');
    [by rewrite Hb|left; by rewrite Hb|]. unfold parseMbi. rewrite E. cbn [obind].
  change (2 ^ 32) with 4294967296 in *. destruct (Z.ltb_spec 0 (initramfsSize b1)) as [Hs|Hs].
  - rewrite u64_small by lia.
    pose proof (PAGE_ALIGN_UP_range (initramfsPointer b1 + initramfsSize b1) ltac:(lia) ltac:(change (2 ^ 64) with 18446744073709551616; lia)).
    pose proof (PAGE_ALIGN_DOWN_range (initramfsPointer b1)). pose proof (PAGE_ALIGN_DOWN_nonneg (initramfsPointer b1) ltac:(lia)).
    destruct (reserve_freeOnly c (physicalMemory b1) _
      (mkBlock (PAGE_ALIGN_DOWN (initramfsPointer b1)) (PAGE_ALIGN_UP (initramfsPointer b1 + initramfsSize b1))) Hfree) as (pm & E2 & F);
      [unfold wfBlock; cbn [start MemoryBlock.end_]; change (2 ^ 64) with 18446744073709551616; lia|cbn [start MemoryBlock.end_]; lia|].
    rewrite E2. cbn [obind]. exists (set_physicalMemory b1 pm). split; [done|]. split; [|done].
    destruct F as (F1 & F2 & F3 & F4). do 3 (split; [done|]). intros a Ha. destruct (F4 a Ha) as [Hmf Hr].
    split; [done|]. intros [_ Hin]. by apply Hr.
  - exists b1. split; [done|]. split; [|done]. destruct Hfree as (F1 & F2 & F3 & F4). do 3 (split; [done|]).
    intros a Ha. split; [by apply F4|]. intros [? _]. lia.
Qed.

(** [C6] After [parseMbi], for any sequence of tags with one memory map, whose
    available entries begin at page boundaries and do not overlap, in any order: it returns with the lock of the physical memory map
    free, and every address the map hands out later is in available memory, in
    no page of the kernel image or of the initial RAM file system, not below
    1 MiB, and free only once. *)
Theorem parseMbi_safe m tag l fuel c mbiPointer b :
  kernel_wf -> isBytes m -> memoryMap_wf m tag -> tagsAt m (mbiPointer + 8) l -> memoryTags m l = [tag] -> (List.length l <= fuel)%nat ->
  physicalMemory b = BlockMap_init -> 0 <= initramfsPointer b < 2 ^ 32 -> 0 <= initramfsSize b < 2 ^ 32 ->
  exists b', parseMbi fuel c m mbiPointer b = Ok (c, b') /\ locked (bm_lock (physicalMemory b')) = false /\
    wfMap (blocks (physicalMemory b')) /\
    forall a, freeCount (blocks (physicalMemory b')) a <= 1 /\
      (freeCount (blocks (physicalMemory b')) a = 1 ->
       (exists i, 0 <= i < Z.of_nat (numEntries m tag) /\ available m tag i a) /\ ~ inKernel a /\ ~ 0 <= a < 0x100000 /\
       ~ (0 < initramfsSize b' /\
          PAGE_ALIGN_DOWN (initramfsPointer b') <= a < PAGE_ALIGN_UP (initramfsPointer b' + initramfsSize b'))).
Proof.
  intros Hk Hm Hw Htags Hmem Hf Hb Hi1 Hi2.
  destruct (parseMbi_run m tag l fuel c mbiPointer b Hk Hm Hw Htags Hmem Hf Hb Hi1 Hi2) as (b' & E & (F1 & F2 & F3 & F4) & _).
  exists b'. do 3 (split; [done|]). intros a. split; [apply F3|]. intros Ha. destruct (F4 a Ha) as [(? & ? & ?) Hr]. done.
Qed.

(** ** Whole pages

    The map's blocks begin at page boundaries and end below [2 ^ 52], where
    the entries of the table do. *)
Definition framed (pm : BlockMap) : Prop :=
  Forall (endpoints (fun x => x mod 4096 = 0) (fun x => x <= 2 ^ 52)) (blocks pm).

Definition entriesBelow (m : Memory) (tag : Z) : Prop :=
  forall i, 0 <= i < Z.of_nat (numEntries m tag) -> entry_type m tag i = 1 -> entry_base m tag i + entry_length m tag i <= 2 ^ 52.

Lemma PAGE_ALIGN_UP_mod x : PAGE_ALIGN_UP x mod 4096 = 0.
Proof. unfold PAGE_ALIGN_UP. generalize (u64 (x + 4095)). intros y. dlia. Qed.

Lemma reserve_framed c pm rm c' pm' :
  reserve c pm rm = Ok (c', pm') -> framed pm -> MemoryBlock.end_ rm mod 4096 = 0 -> start rm <= 2 ^ 52 -> framed pm'.
Proof. intros E Hp H1 H2. eapply (reserve_endpoints _ _ c pm rm); [exact E|exact Hp|reflexivity|cbn; lia|exact H1|exact H2]. Qed.

Lemma memoryMap_loop_framed m tag n : forall c i pm c' pm',
  memoryMap_wf m tag -> entriesBelow m tag -> 0 <= i -> i + Z.of_nat n <= Z.of_nat (numEntries m tag) ->
  memoryMap_loop n c m tag i pm = Ok (c', pm') -> framed pm -> framed pm'.
Proof.
  induction n as [|n IH]; intros c i pm c' pm' Hw Hb Hi Hn E Hf; cbn [memoryMap_loop] in E; [by simplify_eq|].
  destruct (Z.eqb_spec (entry_type m tag i) 1) as [Ht|Ht]; [|by eapply (IH _ (i + 1)); [..|exact E|]; try done; lia].
  destruct (addBlock c pm (entryBlock m tag i) true) as [[c1 pm1]| | |] eqn:Ea; try done. cbn [obind] in E.
  eapply (IH _ (i + 1)); [done|done|lia|lia|exact E|].
  eapply addBlock_endpoints; [exact Ea|exact Hf|]. unfold entryBlock. split; cbn [start MemoryBlock.end_]; [apply PAGE_ALIGN_UP_mod|].
  destruct (mm_entries _ _ Hw i ltac:(lia) Ht) as (H1 & H2 & H3 & H4). specialize (Hb i ltac:(lia) Ht).
  rewrite PAGE_ALIGN_UP_aligned by (done || lia). pose proof (PAGE_ALIGN_DOWN_range (entry_length m tag i)).
  pose proof (PAGE_ALIGN_DOWN_nonneg (entry_length m tag i) H1).
  change (2 ^ 64) with 18446744073709551616 in *. rewrite u64_small by lia. lia.
Qed.

Lemma parseMbiTag_framed c m tag t b c' b' :
  kernelPhysicalAddress <= 2 ^ 52 -> memoryMap_wf m tag -> entriesBelow m tag ->
  (tag_type m t = MBI_TAG_MEMORY -> t = tag) -> parseMbiTag c m (tag_type m t) t b = Ok (c', b') ->
  framed (physicalMemory b) -> framed (physicalMemory b').
Proof.
  intros Hk Hw Hb Ht E Hf. destruct (decide (tag_type m t = MBI_TAG_MEMORY)) as [Hm|Hm].
  - rewrite <- (Ht Hm) in *. unfold parseMbiTag in E. rewrite Hm in E. change (MBI_TAG_MEMORY =? MBI_TAG_MODULE) with false in E.
    rewrite Z.eqb_refl in E. unfold parseMemoryMapTag in E. destruct (_ =? 0); [done|].
    change (Z.to_nat (u32 (u64 (tag_size m t - 16) / loadd m (t + 8)))) with (numEntries m t) in E.
    destruct (memoryMap_loop _ _ _ _ _ _) as [[c1 pm1]| | |] eqn:E1; try done. cbn [obind] in E.
    destruct (reserve c1 pm1 _) as [[c2 pm2]| | |] eqn:E2; try done. cbn [obind] in E.
    destruct (reserve c2 pm2 _) as [[c3 pm3]| | |] eqn:E3; try done. cbn [obind] in E. simplify_eq. cbn.
    eapply reserve_framed; [exact E3| |done|cbn; lia].
    eapply reserve_framed; [exact E2| |apply PAGE_ALIGN_UP_mod|cbn; pose proof (PAGE_ALIGN_DOWN_range kernelPhysicalAddress); lia].
    eapply memoryMap_loop_framed; [done|done| | |exact E1|done]; lia.
  - destruct (parseMbiTag_other c m t b Hm) as (b1 & E1 & Epm). rewrite E1 in E. simplify_eq. by rewrite Epm.
Qed.

Lemma parseMbi_framed m tag l fuel c mbiPointer b c' b' :
  kernelPhysicalAddress <= 2 ^ 52 -> isBytes m -> memoryMap_wf m tag -> entriesBelow m tag ->
  tagsAt m (mbiPointer + 8) l -> memoryTags m l = [tag] ->
  0 <= initramfsPointer b < 2 ^ 32 -> 0 <= initramfsSize b < 2 ^ 32 ->
  parseMbi fuel c m mbiPointer b = Ok (c', b') -> framed (physicalMemory b) -> framed (physicalMemory b').
Proof.
  intros Hk Hm Hw Hb Htags Hmem Hi1 Hi2 E Hf. unfold parseMbi in E.
  destruct (parseMbi_loop fuel c m (mbiPointer + 8) b) as [[c1 b1]| | |] eqn:E1; try done. cbn [obind] in E.
  assert (H : framed (physicalMemory b1) /\ 0 <= initramfsPointer b1 < 2 ^ 32).
  { assert (Hone : forall t, t ∈ l -> tag_type m t = MBI_TAG_MEMORY -> t = tag).
    { intros t Ht Hty. assert (t ∈ memoryTags m l) as Hin by (by apply list_elem_of_filter). rewrite Hmem in Hin. by apply list_elem_of_singleton in Hin. }
    clear E Hmem. revert fuel c b c1 b1 E1 Hi1 Hi2 Hf. generalize dependent (mbiPointer + 8).
    induction l as [|t l IH]; intros p Htags fuel c b c1 b1 E1 Hi1 Hi2 Hf; cbn [tagsAt] in Htags.
    - destruct fuel; cbn [parseMbi_loop] in E1; rewrite Htags in E1; cbn in E1; by simplify_eq.
    - destruct Htags as (-> & Hnz & Htags). destruct fuel as [|fuel]; cbn [parseMbi_loop] in E1; rewrite (proj2 (Z.eqb_neq _ _) Hnz) in E1; [done|].
      destruct (parseMbiTag c m (tag_type m t) t b) as [[c2 b2]| | |] eqn:E2; try done. cbn [obind] in E1.
      destruct (parseMbiTag_module _ _ _ _ _ _ Hm E2 Hi1 Hi2) as [Hi1' Hi2'].
      eapply (IH ltac:(intros x Hx; apply Hone; by right) (nextTag m t) Htags fuel); [exact E1|done|done|].
      eapply (parseMbiTag_framed c m tag t b); try done. apply Hone. by left. }
  destruct H as [H1 H2]. destruct (0 <? initramfsSize b1); [|by simplify_eq].
  destruct (reserve c1 _ _) as [[c2 pm]| | |] eqn:E2; try done. cbn [obind] in E. simplify_eq. cbn.
  eapply reserve_framed; [exact E2|done|apply PAGE_ALIGN_UP_mod|cbn]. pose proof (PAGE_ALIGN_DOWN_range (initramfsPointer b1)). lia.
Qed.
End Mbi.

(** ** A boot loader's tags

    64 MiB of memory from 1 MiB on, the kernel at 2 MiB and a module at 3 MiB. *)

Fixpoint leBytes (n : nat) (v : Z) : list Z :=
  match n with
  | O => []
  | S n => v mod 256 :: leBytes n (v / 256)
  end.

Definition someTags : list Z :=
  concat [leBytes 4 6; leBytes 4 40; leBytes 4 24; leBytes 4 0; leBytes 8 0x100000; leBytes 8 0x4000000; leBytes 4 1; leBytes 4 0;
          leBytes 4 3; leBytes 4 17; leBytes 4 0x300000; leBytes 4 0x301800; leBytes 8 0; leBytes 4 0; leBytes 4 8].

Definition mbiMemory : Memory := putBytes (fun _ => 0) 1008 someTags.

Definition emptyBoot : BootInfo := mkBootInfo BlockMap_init (mkFrameBuffer 0 0 0 0 0) 0 0 (replicate 36 0).

Lemma leBytes_bytes n : forall v, Forall (fun b => 0 <= b < 256) (leBytes n v).
Proof. induction n as [|n IH]; intros v; cbn [leBytes]; constructor; [dlia|apply IH]. Qed.

Lemma mbiMemory_bytes : isBytes mbiMemory.
Proof.
  apply putBytes_bytes; [intros a; lia|]. unfold someTags. cbn [concat].
  repeat (apply Forall_app_2; [apply leBytes_bytes|]). constructor.
Qed.

Lemma mbiMemory_map : memoryMap_wf mbiMemory 1008.
Proof.
  assert (Hn : Z.of_nat (numEntries mbiMemory 1008) = 1) by (vm_compute; reflexivity).
  split.
  - vm_compute. discriminate.
  - rewrite Hn. intros i Hi _. assert (i = 0) as -> by lia. repeat split; vm_compute; first [discriminate|reflexivity].
  - rewrite Hn. intros i j a Hi Hj _ _. lia.
Qed.

Lemma parseMbi_safe_witness :
  exists b', parseMbi 0x200000 0x250123 2 (mkCpu 512 0) mbiMemory 1000 emptyBoot = Ok (mkCpu 512 0, b') /\
    initramfsPointer b' = 0x300000 /\ initramfsSize b' = 0x1800 /\
    freeCount (blocks (physicalMemory b')) 0x301000 <> 1 /\ freeCount (blocks (physicalMemory b')) 0x250000 <> 1.
Proof.
  destruct (parseMbi_safe 0x200000 0x250123 mbiMemory 1008 [1008; 1048] 2 (mkCpu 512 0) 1000 emptyBoot) as (b' & E & _ & _ & H).
  - split; vm_compute; [split; [discriminate|reflexivity]|reflexivity].
  - exact mbiMemory_bytes.
  - exact mbiMemory_map.
  - repeat split; try (vm_compute; discriminate); vm_compute; reflexivity.
  - vm_compute. reflexivity.
  - cbn. lia.
  - reflexivity.
  - cbn. lia.
  - cbn. lia.
  - exists b'. split; [exact E|].
    assert (Ei : initramfsPointer b' = 0x300000 /\ initramfsSize b' = 0x1800).
    { vm_compute in E. injection E as <-. split; reflexivity. }
    destruct Ei as [Ep Es]. split; [exact Ep|]. split; [exact Es|]. rewrite Ep, Es in H. split.
    + intros Ha. destruct (H 0x301000) as [_ H1]. destruct (H1 Ha) as (_ & _ & _ & H2). apply H2. vm_compute. repeat split; discriminate.
    + intros Ha. destruct (H 0x250000) as [_ H1]. destruct (H1 Ha) as (_ & H2 & _). apply H2. vm_compute. repeat split; discriminate.
Defined.

(** An entry that does not begin at a page boundary gives a block that ends
    after the entry: here the entry ends at 0x2800. *)
Definition unalignedMemory : Memory := putBytes (fun _ => 0) 16 (leBytes 8 0x1800 ++ leBytes 8 0x1000 ++ leBytes 4 1).

Lemma unaligned_entry_overshoots : entryBlock unalignedMemory 0 0 = mkBlock 0x2000 0x3000.
Proof. vm_compute. reflexivity. Qed.
