(* ===== verification/Acpi.v ===== *)
(** * The ACPI tables ([rsdp.h], [tables.h], [tables.cpp], [rsdt], [madt],
    [hpet], [mcfg])

    Tables are read from physical memory. The mappings made for it are a list
    of address and size: [mapAddress] adds one and gives the physical address
    as the pointer (or null), [unmapMemory] takes one away, so that what stays
    mapped is visible. Console output is left out. *)

From Stdlib Require Import ZArith Lia.
From stdpp Require Import base tactics numbers list.
From S2P Require Import Prelude Strings.

Open Scope Z_scope.

(** ** Sizes, offsets and limits *)

Definition sizeof_TableHeader : Z := 36.
Definition sizeof_MadtTable : Z := 44.
Definition sizeof_RsdpV1 : Z := 20.
Definition sizeof_RsdpV2 : Z := 36.
Definition MAX_LOCAL_APICS : Z := 64.
Definition MAX_IO_APICS : Z := 8.
Definition MAX_GSI_OVERRIDES : Z := 16.
Definition MAX_MCFG_ENTRIES : Z := 16.
Definition MADT_FLAGS_PIC : Z := 1.
Definition MADT_FLAGS_ENABLED : Z := 1.
Definition MADT_TYPE_LOCAL_APIC : Z := 0.
Definition MADT_TYPE_IO_APIC : Z := 1.
Definition MADT_TYPE_GSI_OVERRIDE : Z := 2.

Definition header_length (m : Memory) (header : Z) : Z := loadd m (header + 4).

(** ** Table managers *)

Inductive TableType := RSDT | MADT | HPET | MCFG.

#[export] Instance TableType_eq_dec : EqDecision TableType.
Proof. solve_decision. Defined.

Record IoApicDescriptor := mkIoApicDescriptor { io_physicalAddress : Z; io_gsiBase : Z }.

Record MadtGsiOverride := mkGsiOverride { levelTriggered : bool; activeHigh : bool; source : Z; destination : Z }.

(** The arrays and their counters, as lists. *)
Record Madt := mkMadt {
  hasPic : bool;
  localApicAddress : Z;
  localApics : list Z;
  ioApics : list IoApicDescriptor;
  gsiOverrides : list MadtGsiOverride
}.

(** A field the constructor did not set is [None]. *)
Record HpetInfo := mkHpetInfo {
  physicalAddress : option Z;
  numComparators : Z;
  legacyReplacementCapable : option bool
}.

Record McfgEntry := mkMcfgEntry { mc_address : Z; segmentGroup : Z; firstBusNumber : Z; lastBusNumber : Z }.

(** A null child is [None]. *)
Inductive TableManager :=
| RsdtTable (children : list (option TableManager))
| MadtTable (madt : Madt)
| HpetTable (hpet : HpetInfo)
| McfgTable (entries : list McfgEntry).

Definition type (t : TableManager) : TableType :=
  match t with
  | RsdtTable _ => RSDT
  | MadtTable _ => MADT
  | HpetTable _ => HPET
  | McfgTable _ => MCFG
  end.

(** ** Checksums *)

(** The sum of [n] bytes in an [unsigned char]. *)
Fixpoint sum_loop (n : nat) (m : Memory) (p sum : Z) : Z :=
  match n with
  | O => sum
  | S n => sum_loop n m (p + 1) (u8 (sum + m p))
  end.

Definition doChecksum (m : Memory) (header : Z) : bool :=
  sum_loop (Z.to_nat (header_length m header)) m header 0 =? 0.

(** [RsdpV2::doChecksum], on the structure at [rsdp]; the revision is byte 15. *)
Definition rsdp_doChecksum (m : Memory) (rsdp : Z) : bool :=
  sum_loop (Z.to_nat (if 2 <=? m (rsdp + 15) then sizeof_RsdpV2 else sizeof_RsdpV1)) m rsdp 0 =? 0.

(** ** Mappings *)

Definition Mappings : Type := list (Z * Z).

Section Tables.
(** Whether [mapAddress] finds room. *)
Context (mappable : Z -> Z -> bool).

Definition mapAddress (s : Mappings) (address size : Z) : Z * Mappings :=
  if mappable address size then (address, (address, size) :: s) else (0, s).

(** Taking the mapping away; there is no other mapping to take away. *)
Fixpoint unmapMemory (s : Mappings) (pointer size : Z) : outcome Mappings :=
  match s with
  | [] => Fault
  | x :: s =>
      if bool_decide (x = (pointer, size)) then Ok s
      else let! s := unmapMemory s pointer size in Ok (x :: s)
  end.

(** The null page is not mapped. *)
Definition readable (p : Z) : outcome Z := if p =? 0 then Fault else Ok p.

(** ** MADT *)

(** The [switch] on the entry at [entry]. *)
Definition madtEntry (m : Memory) (entry : Z) (t : Madt) : Madt :=
  if m entry =? MADT_TYPE_LOCAL_APIC then
    if negb (Z.land (loadd m (entry + 4)) MADT_FLAGS_ENABLED =? 0) && (Z.of_nat (List.length (localApics t)) <? MAX_LOCAL_APICS)
    then mkMadt (hasPic t) (localApicAddress t) (localApics t ++ [m (entry + 3)]) (ioApics t) (gsiOverrides t)
    else t
  else if m entry =? MADT_TYPE_IO_APIC then
    if Z.of_nat (List.length (ioApics t)) <? MAX_IO_APICS
    then mkMadt (hasPic t) (localApicAddress t) (localApics t)
           (ioApics t ++ [mkIoApicDescriptor (loadd m (entry + 4)) (loadd m (entry + 8))]) (gsiOverrides t)
    else t
  else if m entry =? MADT_TYPE_GSI_OVERRIDE then
    if Z.of_nat (List.length (gsiOverrides t)) <? MAX_GSI_OVERRIDES
    then mkMadt (hasPic t) (localApicAddress t) (localApics t) (ioApics t)
           (gsiOverrides t ++ [mkGsiOverride (negb (Z.land (loadw m (entry + 8)) 8 =? 0)) (Z.land (loadw m (entry + 8)) 2 =? 0)
                                 (m (entry + 3)) (loadd m (entry + 4))])
    else t
  else t.

(** The loop over the entries; [fuel] bounds their number. *)
Fixpoint madt_loop (fuel : nat) (m : Memory) (madt entry : Z) (t : Madt) : outcome Madt :=
  if entry - madt <? header_length m madt then
    match fuel with
    | O => Hang
    | S fuel => madt_loop fuel m madt (entry + m (entry + 1)) (madtEntry m entry t)
    end
  else Ok t.

Definition MadtTableManager (fuel : nat) (s : Mappings) (m : Memory) (header : Z) : outcome (TableManager * Mappings) :=
  let localApicAddress := loadd m (header + 36) in
  let hasPic := negb (Z.land (loadd m (header + 40)) MADT_FLAGS_PIC =? 0) in
  let! t := madt_loop fuel m header (header + sizeof_MadtTable) (mkMadt hasPic localApicAddress [] [] []) in
  let! s := unmapMemory s header (header_length m header) in
  Ok (MadtTable t, s).

(** [getLocalApic], [getIoApic], [getGsiOverride]: a default out of range. *)
Definition getLocalApic (t : Madt) (i : Z) : Z := nth (Z.to_nat i) (localApics t) 0.
Definition getIoApic (t : Madt) (i : Z) : IoApicDescriptor := nth (Z.to_nat i) (ioApics t) (mkIoApicDescriptor 0 0).
Definition getGsiOverride (t : Madt) (i : Z) : MadtGsiOverride := nth (Z.to_nat i) (gsiOverrides t) (mkGsiOverride false false 0 0).

(** ** HPET *)

(** The byte at 37 has the number of comparators in its low five bits and the
    legacy bit as bit 7; the address structure is at 40. *)
Definition HpetTableManager (s : Mappings) (m : Memory) (header : Z) : outcome (TableManager * Mappings) :=
  let t :=
    if negb (m (header + 40) =? 0) then mkHpetInfo None 0 None
    else mkHpetInfo (Some (loadq m (header + 44))) (u8 (Z.land (m (header + 37)) 31 + 1)) (Some (Z.testbit (m (header + 37)) 7)) in
  let! s := unmapMemory s header (header_length m header) in
  Ok (HpetTable t, s).

(** ** MCFG *)

(** The loop over the [n] entries from [i] on; an entry after the last of the
    array overwrites memory of others. *)
Fixpoint mcfg_loop (n : nat) (s : Mappings) (m : Memory) (header i : Z) (acc : list McfgEntry) : outcome (list McfgEntry * Mappings) :=
  match n with
  | O => Ok (acc, s)
  | S n =>
      let tableEntry := header + 44 + i * 16 in
      let first := m (tableEntry + 10) in
      let last := m (tableEntry + 11) in
      let '(p, s) := mapAddress s (loadq m tableEntry) (u64 ((last - first + 1) * 1048576)) in
      if i <? MAX_MCFG_ENTRIES
      then mcfg_loop n s m header (i + 1) (acc ++ [mkMcfgEntry p (loadw m (tableEntry + 8)) first last])
      else Fault
  end.

Definition McfgTableManager (s : Mappings) (m : Memory) (header : Z) : outcome (TableManager * Mappings) :=
  let numEntries := u32 (header_length m header - 44) / 16 in
  let! '(entries, s) := mcfg_loop (Z.to_nat numEntries) s m header 0 [] in
  let! s := unmapMemory s header (header_length m header) in
  Ok (McfgTable entries, s).

Definition getEntry (t : list McfgEntry) (index : Z) : McfgEntry := nth (Z.to_nat index) t (mkMcfgEntry 0 0 0 0).

(** ** RSDT and XSDT *)

(** The loop over the [n] entries of [entrySize] bytes from [entry] on. *)
Fixpoint rsdt_loop (load : Mappings -> Z -> outcome (option TableManager * Mappings)) (n : nat) (s : Mappings) (m : Memory)
    (entrySize entry : Z) : outcome (list (option TableManager) * Mappings) :=
  match n with
  | O => Ok ([], s)
  | S n =>
      let entryValue := if entrySize =? 4 then loadd m entry else loadq m entry in
      let! '(child, s) := load s entryValue in
      let! '(children, s) := rsdt_loop load n s m entrySize (entry + entrySize) in
      Ok (child :: children, s)
  end.

Definition RsdtTableManager (load : Mappings -> Z -> outcome (option TableManager * Mappings)) (s : Mappings) (m : Memory)
    (header : Z) : outcome (TableManager * Mappings) :=
  let entrySize := if m header =? 88 then 8 else 4 in
  let numChildren := u64 (header_length m header - sizeof_TableHeader) / entrySize in
  let! '(children, s) := rsdt_loop load (Z.to_nat numChildren) s m entrySize (header + sizeof_TableHeader) in
  let! s := unmapMemory s header (header_length m header) in
  Ok (RsdtTable children, s).

(** The [for] loop of [get]. *)
Fixpoint get_loop (children : list (option TableManager)) (t : TableType) (num : Z) : option TableManager :=
  match children with
  | [] => None
  | Some c :: children =>
      if bool_decide (type c = t) then if num =? 0 then Some c else get_loop children t (num - 1)
      else get_loop children t num
  | None :: children => get_loop children t num
  end.

Definition get (t : TableManager) (ty : TableType) (num : Z) : option TableManager :=
  match t with
  | RsdtTable children => get_loop children ty num
  | _ => None
  end.

(** [operator[]]: null out of range. *)
Definition childAt (children : list (option TableManager)) (i : Z) : option TableManager := nth (Z.to_nat i) children None.
Definition childCount (children : list (option TableManager)) : Z := Z.of_nat (List.length children).

(** The destructors: the tables deleted below and with a table, in order. *)
Fixpoint delete_table (t : TableManager) : list TableManager :=
  (match t with
   | RsdtTable children =>
       (fix loop (l : list (option TableManager)) : list TableManager :=
          match l with
          | [] => []
          | Some c :: l => delete_table c ++ loop l
          | None :: l => loop l
          end) children
   | _ => []
   end) ++ [t].

(** ** loadTable *)

(** The signatures of [tableHandlers], in order. *)
Inductive TableHandler := loadRsdt | loadMadt | loadHpet | loadMcfg.

Definition tableHandlers : list (list Z * TableHandler) :=
  [([82; 83; 68; 84], loadRsdt); ([88; 83; 68; 84], loadRsdt); ([65; 80; 73; 67], loadMadt);
   ([72; 80; 69; 84], loadHpet); ([77; 67; 70; 71], loadMcfg)].

(** The first handler with the table's signature. *)
Fixpoint findHandler (m : Memory) (header : Z) (l : list (list Z * TableHandler)) : option TableHandler :=
  match l with
  | [] => None
  | (signature, h) :: l => if bool_decide (bytesAt m header 4 = signature) then Some h else findHandler m header l
  end.

(** [fuel] bounds the depth of tables in tables and the entries of a MADT. *)
Fixpoint loadTable (fuel : nat) (m : Memory) (s : Mappings) (physicalAddress : Z) : outcome (option TableManager * Mappings) :=
  match fuel with
  | O => Hang
  | S fuel =>
      let '(header, s) := mapAddress s physicalAddress sizeof_TableHeader in
      let! header := readable header in
      let tableSize := header_length m header in
      if tableSize <? sizeof_TableHeader then Ok (None, s)
      else
        let! s := unmapMemory s header sizeof_TableHeader in
        let '(header, s) := mapAddress s physicalAddress tableSize in
        let! header := readable header in
        if negb (doChecksum m header) then
          let! s := unmapMemory s header (header_length m header) in Ok (None, s)
        else
          match findHandler m header tableHandlers with
          | Some h =>
              let! '(t, s) :=
                (match h with
                 | loadRsdt => RsdtTableManager (loadTable fuel m) s m header
                 | loadMadt => MadtTableManager fuel s m header
                 | loadHpet => HpetTableManager s m header
                 | loadMcfg => McfgTableManager s m header
                 end) in
              Ok (Some t, s)
          | None => let! s := unmapMemory s header tableSize in Ok (None, s)
          end
  end.

(** ** Specification of the MADT *)

(** The entries from [entry] to the end of the table are at the addresses [l]. *)
Fixpoint madtChain (m : Memory) (madt entry : Z) (l : list Z) : Prop :=
  match l with
  | [] => header_length m madt <= entry - madt
  | e :: l => entry = e /\ e - madt < header_length m madt /\ 0 < m (e + 1) /\ madtChain m madt (e + m (e + 1)) l
  end.

(** What an entry contributes. *)
Definition enabledApic (m : Memory) (e : Z) : option Z :=
  if (m e =? MADT_TYPE_LOCAL_APIC) && negb (Z.land (loadd m (e + 4)) MADT_FLAGS_ENABLED =? 0) then Some (m (e + 3)) else None.

Definition ioApicOf (m : Memory) (e : Z) : option IoApicDescriptor :=
  if m e =? MADT_TYPE_IO_APIC then Some (mkIoApicDescriptor (loadd m (e + 4)) (loadd m (e + 8))) else None.

Definition overrideOf (m : Memory) (e : Z) : option MadtGsiOverride :=
  if m e =? MADT_TYPE_GSI_OVERRIDE
  then Some (mkGsiOverride (negb (Z.land (loadw m (e + 8)) 8 =? 0)) (Z.land (loadw m (e + 8)) 2 =? 0) (m (e + 3)) (loadd m (e + 4)))
  else None.

(** The arrays keep the first entries that fit. *)
Definition madtOf (m : Memory) (t : Madt) (l : list Z) : Madt :=
  mkMadt (hasPic t) (localApicAddress t)
    (firstn 64 (localApics t ++ omap (enabledApic m) l))
    (firstn 8 (ioApics t ++ omap (ioApicOf m) l))
    (firstn 16 (gsiOverrides t ++ omap (overrideOf m) l)).

(** ** Parsing the MADT *)

(** Appending to a bounded array and continuing with [l]. *)
Lemma take_append {A} (k : nat) (a : list A) (o : option A) (l : list A) :
  (List.length a <= k)%nat ->
  firstn k ((match o with Some x => if (List.length a <? k)%nat then a ++ [x] else a | None => a end) ++ l)
  = firstn k (a ++ (match o with Some x => [x] | None => [] end) ++ l).
Proof.
  intros Hl. destruct o as [x|]; [|done]. destruct (Nat.ltb_spec (List.length a) k) as [H|H].
  - by rewrite <- app_assoc.
  - by rewrite !take_app_ge, !(proj2 (Nat.sub_0_le k (List.length a))), !take_0 by lia.
Qed.

Definition madt_bounded (t : Madt) : Prop :=
  (List.length (localApics t) <= 64)%nat /\ (List.length (ioApics t) <= 8)%nat /\ (List.length (gsiOverrides t) <= 16)%nat.

(** One entry adds what it contributes where there is room. *)
Lemma madtEntry_spec m e t :
  let add {A} k (a : list A) o := match o with Some x => if (List.length a <? k)%nat then a ++ [x] else a | None => a end in
  madtEntry m e t
  = mkMadt (hasPic t) (localApicAddress t) (add 64%nat (localApics t) (enabledApic m e))
      (add 8%nat (ioApics t) (ioApicOf m e)) (add 16%nat (gsiOverrides t) (overrideOf m e)).
Proof.
  assert (Hb : forall {A} (a : list A) k, (Z.of_nat (List.length a) <? Z.of_nat k) = (List.length a <? k)%nat).
  { intros A a k. destruct (Z.ltb_spec (Z.of_nat (List.length a)) (Z.of_nat k)), (Nat.ltb_spec (List.length a) k); lia || done. }
  destruct t as [p la ls io gs]. cbv zeta. unfold madtEntry, enabledApic, ioApicOf, overrideOf.
  cbn [hasPic localApicAddress localApics ioApics gsiOverrides].
  change MAX_LOCAL_APICS with (Z.of_nat 64). change MAX_IO_APICS with (Z.of_nat 8). change MAX_GSI_OVERRIDES with (Z.of_nat 16).
  rewrite !Hb. unfold MADT_TYPE_LOCAL_APIC, MADT_TYPE_IO_APIC, MADT_TYPE_GSI_OVERRIDE.
  destruct (Z.eqb_spec (m e) 0) as [E0|E0]; [rewrite E0|].
  - cbn [Z.eqb andb]. destruct (negb _); cbn [andb]; [|done]. by destruct (_ <? _)%nat.
  - destruct (Z.eqb_spec (m e) 1) as [E1|E1]; [rewrite E1|]; cbn [andb Z.eqb Pos.eqb]; [by destruct (_ <? _)%nat|].
    destruct (Z.eqb_spec (m e) 2) as [E2|E2]; [|done]. by destruct (_ <? _)%nat.
Qed.

Lemma madtEntry_bounded m e t : madt_bounded t -> madt_bounded (madtEntry m e t).
Proof.
  intros (H1 & H2 & H3). rewrite madtEntry_spec. unfold madt_bounded. cbv zeta. cbn [localApics ioApics gsiOverrides].
  repeat split.
  all: match goal with |- context [match ?o with Some _ => _ | None => _ end] => destruct o end; [|done];
    match goal with |- context [(?a <? ?b)%nat] => destruct (Nat.ltb_spec a b) end; rewrite ?length_app; cbn [List.length]; lia.
Qed.

Lemma madt_loop_spec m madt l : forall fuel entry t,
  madt_bounded t -> madtChain m madt entry l -> (List.length l <= fuel)%nat ->
  madt_loop fuel m madt entry t = Ok (madtOf m t l).
Proof.
  induction l as [|e l IH]; intros fuel entry t Hb Hc Hf; cbn [madtChain] in Hc.
  - assert (E : (entry - madt <? header_length m madt) = false) by (apply Z.ltb_ge; lia).
    destruct Hb as (H1 & H2 & H3). unfold madtOf. cbn [omap list_omap]. rewrite !app_nil_r, !take_ge by done.
    destruct fuel; cbn [madt_loop]; rewrite E; by destruct t.
  - destruct Hc as (-> & Hlt & Hpos & Hc). cbn [List.length] in Hf. destruct fuel as [|fuel]; [lia|]. cbn [madt_loop].
    rewrite (proj2 (Z.ltb_lt _ _) Hlt). rewrite (IH fuel) by (first [by apply madtEntry_bounded|done|lia]).
    f_equal. rewrite madtEntry_spec. unfold madtOf. cbv zeta. cbn [hasPic localApicAddress localApics ioApics gsiOverrides omap list_omap].
    destruct Hb as (H1 & H2 & H3). rewrite !take_append by done.
    by destruct (enabledApic m e), (ioApicOf m e), (overrideOf m e).
Qed.

(** The entries reach the end of the table, or one of them has length 0. *)
Lemma madtChain_exists m madt : isBytes m -> forall n entry,
  header_length m madt - (entry - madt) <= Z.of_nat n -> 0 <= entry - madt ->
  (exists l, madtChain m madt entry l /\ (List.length l <= n)%nat) \/
  (forall fuel t, madt_loop fuel m madt entry t = Hang).
Proof.
  intros Hm. induction n as [|n IH]; intros entry Hn Hpos.
  - left. exists []. cbn. lia.
  - destruct (Z.ltb_spec (entry - madt) (header_length m madt)) as [Hlt|Hge]; [|left; exists []; cbn; lia].
    pose proof (Hm (entry + 1)) as Hlen. destruct (Z.eqb_spec (m (entry + 1)) 0) as [Hz|Hnz].
    + right. induction fuel as [|fuel IHf]; intros t; cbn [madt_loop]; rewrite (proj2 (Z.ltb_lt _ _) Hlt); [done|].
      by rewrite Hz, Z.add_0_r.
    + destruct (IH (entry + m (entry + 1)) ltac:(lia) ltac:(lia)) as [(l & Hc & Hl)|Hh].
      * left. exists (entry :: l). cbn [madtChain List.length]. split; [|lia]. split; [done|]. split; [done|]. split; [lia|done].
      * right. intros [|fuel] t; cbn [madt_loop]; rewrite (proj2 (Z.ltb_lt _ _) Hlt); [done|apply Hh].
Qed.

(** [C34] Parsing the interrupt table terminates exactly when no entry on the way
    has length 0: then the number of steps is at most the length of the table
    and the arrays hold, in table order, the enabled local APICs, the I/O
    APICs and the interrupt overrides, each up to the size of its array. With
    an entry of length 0 the loop never ends. *)
Theorem madt_parsed m madt pic address :
  isBytes m ->
  let t0 := mkMadt pic address [] [] [] in
  (exists l, madtChain m madt (madt + sizeof_MadtTable) l /\ Z.of_nat (List.length l) <= header_length m madt /\
     forall fuel, (List.length l <= fuel)%nat ->
       madt_loop fuel m madt (madt + sizeof_MadtTable) t0
       = Ok (mkMadt pic address (firstn 64 (omap (enabledApic m) l)) (firstn 8 (omap (ioApicOf m) l)) (firstn 16 (omap (overrideOf m) l)))) \/
  (forall fuel t, madt_loop fuel m madt (madt + sizeof_MadtTable) t = Hang).
Proof.
  intros Hm t0. unfold sizeof_MadtTable.
  assert (Hl : 0 <= header_length m madt).
  { unfold header_length, loadd, loadw. pose proof (Hm (madt + 4)). pose proof (Hm (madt + 4 + 1)).
    pose proof (Hm (madt + 4 + 2)). pose proof (Hm (madt + 4 + 2 + 1)). lia. }
  destruct (madtChain_exists m madt Hm (Z.to_nat (header_length m madt)) (madt + 44)) as [(l & Hc & Hn)|Hh]; [lia|lia| |by right].
  left. exists l. split; [done|]. split; [lia|]. intros fuel Hf.
  rewrite (madt_loop_spec m madt l) by (done || (unfold madt_bounded; cbn; lia)). done.
Qed.

(** ** What stays mapped *)

Lemma unmapMemory_spec s p n s' : unmapMemory s p n = Ok s' -> s ≡ₚ (p, n) :: s'.
Proof.
  revert s'. induction s as [|x s IH]; intros s' E; cbn [unmapMemory] in E; [done|].
  case_bool_decide as Hx; [injection E as <-; by subst x|]. inv_ok. rewrite (IH _ eq_refl). apply Permutation_swap.
Qed.

Lemma unmapMemory_total s p n : (p, n) ∈ s -> exists s', unmapMemory s p n = Ok s'.
Proof.
  induction s as [|x s IH]; intros Hin; [by apply elem_of_nil in Hin|]. cbn [unmapMemory]. case_bool_decide as Hx; [eauto|].
  apply elem_of_cons in Hin as [?|Hin]; [done|]. destruct (IH Hin) as [s' ->]. by exists (x :: s').
Qed.

(** The mappings [loadTable] may keep: the header of a table that is too small,
    and the configuration space of a PCI segment. *)
Definition kept (m : Memory) (x : Z * Z) : Prop :=
  snd x = sizeof_TableHeader /\ header_length m (fst x) < sizeof_TableHeader \/
  exists tableEntry, fst x = loadq m tableEntry /\
    snd x = u64 ((m (tableEntry + 11) - m (tableEntry + 10) + 1) * 1048576).

(** [s'] is [s] and mappings that are kept. *)
Definition keeps (m : Memory) (s s' : Mappings) : Prop :=
  exists extra, s' ≡ₚ extra ++ s /\ Forall (kept m) extra.

#[export] Instance keeps_refl m : Reflexive (keeps m).
Proof. intros s. by exists []. Qed.

#[export] Instance keeps_trans m : Transitive (keeps m).
Proof.
  intros s1 s2 s3 (e1 & P1 & F1) (e2 & P2 & F2). exists (e2 ++ e1). split; [|by apply Forall_app].
  by rewrite P2, P1, app_assoc.
Qed.

Lemma keeps_one m x s : kept m x -> keeps m s (x :: s).
Proof. intros Hx. exists [x]. split; [done|]. constructor; [done|constructor]. Qed.

(** A table's own mapping, on top of [s], is taken away at the end. *)
Lemma keeps_unmap m s s1 s' p n : keeps m ((p, n) :: s) s1 -> unmapMemory s1 p n = Ok s' -> keeps m s s'.
Proof.
  intros (extra & Hp & Hf) E. apply unmapMemory_spec in E. exists extra. split; [|done].
  rewrite Hp in E. apply (Permutation_cons_inv (a := (p, n))). rewrite <- E. by rewrite Permutation_middle.
Qed.

Lemma mcfg_loop_keeps m header n : forall s i acc acc' s',
  mcfg_loop n s m header i acc = Ok (acc', s') -> keeps m s s'.
Proof.
  induction n as [|n IH]; intros s i acc acc' s' E; cbn [mcfg_loop] in E; [by inv_ok|]. unfold mapAddress in E.
  destruct (mappable _ _), (i <? MAX_MCFG_ENTRIES); try discriminate E; apply IH in E; try exact E.
  etransitivity; [apply keeps_one|exact E]. right. by eexists.
Qed.

Lemma rsdt_loop_keeps m load n : (forall s p r s', load s p = Ok (r, s') -> keeps m s s') ->
  forall s size entry l s', rsdt_loop load n s m size entry = Ok (l, s') -> keeps m s s'.
Proof.
  intros Hload. induction n as [|n IH]; intros s size entry l s' E; cbn [rsdt_loop] in E; inv_ok; [done|].
  etransitivity; [by eapply Hload|by eapply IH].
Qed.

(** [C35] Loading a table, and through a root table the whole tree, takes away
    every mapping it made, whether the table is used, has a wrong checksum or
    no handler, except the configuration spaces of PCI segments, which are
    kept for use, and the header of a table whose length field is less than
    the header's size, which is forgotten. *)
Theorem loadTable_mappings fuel m s p r s' :
  loadTable fuel m s p = Ok (r, s') -> keeps m s s'.
Proof.
  revert s p r s'. induction fuel as [|fuel IH]; intros s p r s' E; cbn [loadTable] in E; [done|].
  unfold mapAddress at 1, readable at 1 in E. destruct (mappable p sizeof_TableHeader); [|done].
  destruct (p =? 0); cbn [obind] in E; [done|].
  destruct (Z.ltb_spec (header_length m p) sizeof_TableHeader) as [Hsmall|Hbig].
  - inv_ok. apply keeps_one. by left.
  - inv_ok. apply unmapMemory_spec in E0. apply (Permutation_cons_inv (a := (p, sizeof_TableHeader))) in E0.
    unfold mapAddress, readable in E. destruct (mappable p (header_length m p)); [|done]. destruct (p =? 0); cbn [obind] in E; [done|].
    assert (Hdone : forall s1 s2, keeps m ((p, header_length m p) :: a) s1 -> unmapMemory s1 p (header_length m p) = Ok s2 -> keeps m s s2).
    { intros s1 s2 Hk Hu. apply (keeps_unmap m s s1 s2 p (header_length m p)); [|done].
      destruct Hk as (ex & P & F). exists ex. by rewrite P, E0. }
    destruct (doChecksum m p); cbn [negb] in E; [|inv_ok; by eapply Hdone].
    destruct (findHandler m p tableHandlers) as [[]|]; inv_ok; try by eapply Hdone.
    + unfold RsdtTableManager in E1. inv_ok. eapply Hdone; [|done]. eapply rsdt_loop_keeps; [|done]. exact IH.
    + unfold MadtTableManager in E1. inv_ok. by eapply Hdone.
    + unfold HpetTableManager in E1. inv_ok. by eapply Hdone.
    + unfold McfgTableManager in E1. inv_ok. eapply Hdone; [|done]. by eapply mcfg_loop_keeps.
Qed.
End Tables.

(** ** Examples *)

(** An interrupt table at 4096 with the local APIC 3, a disabled one, an I/O
    APIC and an entry of another type, in memory that is 0 elsewhere. *)
Definition someMadt : Memory := putBytes (fun _ => 0) 4096
  ([65; 80; 73; 67; 78; 0; 0; 0; 1; 199] ++ replicate 26 0 ++ [0; 0; 224; 254; 1; 0; 0; 0] ++
   [0; 8; 0; 3; 1; 0; 0; 0] ++ [0; 8; 1; 4; 0; 0; 0; 0] ++ [1; 12; 0; 0; 0; 0; 192; 254; 0; 0; 0; 0] ++ [4; 6; 0; 0; 0; 0]).

Lemma someMadt_bytes : isBytes someMadt.
Proof. apply putBytes_bytes; [intros a; lia|]. repeat (constructor; [lia|]). constructor. Qed.

Example someMadt_loaded :
  loadTable (fun _ _ => true) 9 someMadt [] 4096
  = Ok (Some (MadtTable (mkMadt true 0xfee00000 [3] [mkIoApicDescriptor 0xfec00000 0] [])), []).
Proof. vm_compute. reflexivity. Qed.

Lemma madt_parsed_witness :
  isBytes someMadt /\
  exists l, madtChain someMadt 4096 4140 l /\
    forall fuel, (List.length l <= fuel)%nat ->
      madt_loop fuel someMadt 4096 4140 (mkMadt true 0xfee00000 [] [] [])
      = Ok (mkMadt true 0xfee00000 (firstn 64 (omap (enabledApic someMadt) l)) (firstn 8 (omap (ioApicOf someMadt) l))
              (firstn 16 (omap (overrideOf someMadt) l))).
Proof.
  split; [exact someMadt_bytes|].
  destruct (madt_parsed someMadt 4096 true 0xfee00000 someMadt_bytes) as [(l & Hc & _ & Hl)|H].
  - exists l. split; [exact Hc|exact Hl].
  - exfalso. specialize (H 9%nat (mkMadt true 0xfee00000 [] [] [])). vm_compute in H. discriminate H.
Defined.

(** A header that claims 35 bytes stays mapped. *)
Definition smallTable : Memory := putBytes (fun _ => 0) 4096 [65; 80; 73; 67; 35].

Lemma small_table_stays_mapped : loadTable (fun _ _ => true) 1 smallTable [] 4096 = Ok (None, [(4096, 36)]).
Proof. vm_compute. reflexivity. Qed.

Lemma loadTable_mappings_witness :
  keeps someMadt [(4096, 8192)] [(4096, 8192)] /\ keeps smallTable [] [(4096, 36)].
Proof.
  split.
  - apply (loadTable_mappings (fun _ _ => true) 9 someMadt [(4096, 8192)] 4096
             (Some (MadtTable (mkMadt true 0xfee00000 [3] [mkIoApicDescriptor 0xfec00000 0] [])))). vm_compute. reflexivity.
  - apply (loadTable_mappings (fun _ _ => true) 1 smallTable [] 4096 None). vm_compute. reflexivity.
Defined.
