(* ===== verification/Apic.v ===== *)
(** * Interrupt controllers ([mmio.h], [apic.h], [apic.cpp], [pic.cpp])

    The registers of a device are reached through [mmio::read] and
    [mmio::write]. What the devices do is not part of the program: the world
    outside is a type [W] with the accesses as operations of the class [Mmio],
    and what the code relies on is a class of laws. A read may change the
    world. *)

From Stdlib Require Import ZArith Lia String.
From stdpp Require Import base tactics numbers list list_numbers.
From S2P Require Import Prelude Acpi.

Open Scope Z_scope.

(** ** Memory-mapped registers *)

(** [mmio::read] and [mmio::write] at the widths the program uses. *)
Class Mmio (W : Type) := {
  read8 : W -> Z -> Z * W;
  read16 : W -> Z -> Z * W;
  read32 : W -> Z -> Z * W;
  read64 : W -> Z -> Z * W;
  write32 : W -> Z -> Z -> W;
  write64 : W -> Z -> Z -> W
}.

(** ** Register numbers and codes *)

Definition LOCAL_APIC_ID_REGISTER : Z := 0x20.
Definition LOCAL_APIC_VERSION_REGISTER : Z := 0x30.
Definition LOCAL_APIC_EOI_REGISTER : Z := 0xb0.
Definition LOCAL_APIC_SPURIOUS_INTERRUPT_REGISTER : Z := 0xf0.
Definition LOCAL_APIC_IN_SERVICE_REGISTERS : Z := 0x100.
Definition LOCAL_APIC_ERROR_REGISTER : Z := 0x280.
Definition LOCAL_APIC_IPI_REGISTER_LOW : Z := 0x300.
Definition LOCAL_APIC_IPI_REGISTER_HIGH : Z := 0x310.
Definition LOCAL_APIC_TIMER_LVT_REGISTER : Z := 0x320.
Definition LOCAL_APIC_THERMAL_LVT_REGISTER : Z := 0x330.
Definition LOCAL_APIC_PERFORMANCE_LVT_REGISTER : Z := 0x340.
Definition LOCAL_APIC_ERROR_LVT_REGISTER : Z := 0x370.
Definition LOCAL_APIC_TIMER_INITIAL_COUNT_REGISTER : Z := 0x380.
Definition LOCAL_APIC_TIMER_CURRENT_COUNT_REGISTER : Z := 0x390.
Definition LOCAL_APIC_TIMER_DIVIDE_REGISTER : Z := 0x3e0.
Definition LOCAL_APIC_VERSION_MASK : Z := 0xff.
Definition LOCAL_APIC_ID_POSITION : Z := 24.
Definition LOCAL_APIC_SPURIOUS_INTERRUPT_VECTOR : Z := 0xff.
Definition LOCAL_APIC_SPURIOUS_INTERRUPT_REGISTER_ENABLE : Z := Z.shiftl 1 8.
Definition APIC_FIXED_IPI : Z := 0.
Definition APIC_INIT_IPI : Z := 5.
Definition APIC_STARTUP_IPI : Z := 6.
Definition LOCAL_APIC_FIXED_MESSAGE : Z := 0.
Definition APIC_DIVIDE_16 : Z := 3.
Definition IO_APIC_INTERRUPT_BASE : Z := 0x20.

(** A [bool] converted to an integer. *)
Definition ofBool (b : bool) : Z := if b then 1 else 0.

Section Apic.
Context {W : Type} `{Mmio W}.
(** Whether [mapAddress] finds room. *)
Context (mappable : Z -> Z -> bool).

(** ** The local APIC

    [registers] is the address of its registers, 0 before [init]. *)
Definition init (registers : Z) (s : Mappings) (physicalAddress : Z) : Z * Mappings :=
  if registers =? 0 then mapAddress mappable s physicalAddress 4096 else (registers, s).

Section LocalApic.
Context (registers : Z).

Definition writeRegister (w : W) (offset value : Z) : W := write32 w (registers + 4 * (offset / 4)) value.
Definition readRegister (w : W) (offset : Z) : Z * W := read32 w (registers + 4 * (offset / 4)).

Definition enable (w : W) : W :=
  writeRegister w LOCAL_APIC_SPURIOUS_INTERRUPT_REGISTER
    (Z.lor LOCAL_APIC_SPURIOUS_INTERRUPT_VECTOR LOCAL_APIC_SPURIOUS_INTERRUPT_REGISTER_ENABLE).

Definition getVersion (w : W) : Z * W :=
  let '(v, w) := readRegister w LOCAL_APIC_VERSION_REGISTER in (Z.land v LOCAL_APIC_VERSION_MASK, w).

Definition getApicId (w : W) : Z * W :=
  let '(v, w) := readRegister w LOCAL_APIC_ID_REGISTER in (u8 (Z.shiftr v LOCAL_APIC_ID_POSITION), w).

Definition clearErrors (w : W) : W := writeRegister w LOCAL_APIC_ERROR_REGISTER 0.
Definition readErrors (w : W) : Z * W := readRegister w LOCAL_APIC_ERROR_REGISTER.

Definition ipiCommand (vector messageType : Z) (logicalDestination assert levelTriggered : bool) : Z :=
  Z.lor (Z.lor (Z.lor (Z.lor (Z.shiftl vector 0) (Z.shiftl messageType 8)) (Z.shiftl (ofBool logicalDestination) 11))
    (Z.shiftl (ofBool assert) 14)) (Z.shiftl (ofBool levelTriggered) 15).

(** Waiting for delivery; [fuel] bounds the number of reads. *)
Fixpoint delivery_loop (fuel : nat) (w : W) : outcome W :=
  match fuel with
  | O => Hang
  | S fuel =>
      let '(v, w) := readRegister w LOCAL_APIC_IPI_REGISTER_LOW in
      if negb (Z.land v (Z.shiftl 1 12) =? 0) then delivery_loop fuel w else Ok w
  end.

Definition sendIpi (fuel : nat) (w : W) (vector messageType : Z) (logicalDestination assert levelTriggered : bool)
    (destinationApicId : Z) : outcome W :=
  let w := writeRegister w LOCAL_APIC_IPI_REGISTER_HIGH (u32 (Z.shiftl destinationApicId 24)) in
  let w := writeRegister w LOCAL_APIC_IPI_REGISTER_LOW (ipiCommand vector messageType logicalDestination assert levelTriggered) in
  delivery_loop fuel w.

Definition writeLvtRegister (w : W) (registerOffset : Z) (timerPeriodic mask levelTriggered : bool) (messageType vector : Z) : W :=
  writeRegister w registerOffset
    (Z.lor (Z.lor (Z.lor (Z.lor (Z.shiftl (ofBool timerPeriodic) 17) (Z.shiftl (ofBool mask) 16)) (Z.shiftl (ofBool levelTriggered) 15))
       (Z.shiftl messageType 8)) vector).

Definition maskLvtRegister (w : W) (registerOffset : Z) : W :=
  let '(v, w) := readRegister w registerOffset in writeRegister w registerOffset (Z.lor v (Z.shiftl 1 16)).

Definition writeTimerLvt (w : W) (periodic mask : bool) (vector : Z) : W :=
  writeLvtRegister w LOCAL_APIC_TIMER_LVT_REGISTER periodic mask false LOCAL_APIC_FIXED_MESSAGE vector.
Definition writeTimerInitialCountRegister (w : W) (initialCount : Z) : W :=
  writeRegister w LOCAL_APIC_TIMER_INITIAL_COUNT_REGISTER initialCount.
Definition getTimerCurrentCount (w : W) : Z * W := readRegister w LOCAL_APIC_TIMER_CURRENT_COUNT_REGISTER.
Definition writeTimerDivideRegister (w : W) (divideFlag : Z) : W := writeRegister w LOCAL_APIC_TIMER_DIVIDE_REGISTER divideFlag.

Definition maskAllInternal (w : W) : W :=
  let w := maskLvtRegister w LOCAL_APIC_TIMER_LVT_REGISTER in
  let w := maskLvtRegister w LOCAL_APIC_THERMAL_LVT_REGISTER in
  let w := maskLvtRegister w LOCAL_APIC_PERFORMANCE_LVT_REGISTER in
  maskLvtRegister w LOCAL_APIC_ERROR_LVT_REGISTER.

Definition inService (w : W) (vector : Z) : bool * W :=
  let '(v, w) := readRegister w (LOCAL_APIC_IN_SERVICE_REGISTERS + (vector / 32) * 16) in
  (negb (Z.land v (Z.shiftl 1 (Z.land vector 31)) =? 0), w).

Definition eoi (w : W) : W := writeRegister w LOCAL_APIC_EOI_REGISTER 0.
End LocalApic.

(** ** I/O APICs *)

Record IoApic := mkIoApic { base : Z; gsiCount : Z; gsiBase : Z }.

Definition io_readRegister (base : Z) (w : W) (registerIndex : Z) : Z * W :=
  let w := write32 w base registerIndex in read32 w (base + 16).

Definition io_writeRegister (base : Z) (w : W) (registerIndex value : Z) : W :=
  let w := write32 w base registerIndex in write32 w (base + 16) value.

Definition mapGsi (io : IoApic) (w : W) (gsi vector : Z) (levelTriggered activeHigh : bool) (targetLocalApic : Z) : W :=
  let '(redirectionEntry, w) := io_readRegister (base io) w (u32 (0x10 + gsi * 2)) in
  let redirectionEntry := Z.lor redirectionEntry (u32 (Z.shiftl vector 0)) in
  let redirectionEntry := Z.lor redirectionEntry (Z.shiftl (ofBool levelTriggered) 15) in
  let redirectionEntry := Z.lor redirectionEntry (Z.shiftl (ofBool (negb activeHigh)) 13) in
  let w := io_writeRegister (base io) w (u32 (0x10 + gsi * 2)) redirectionEntry in
  io_writeRegister (base io) w (u32 (0x10 + gsi * 2 + 1)) (u32 (Z.shiftl targetLocalApic 24)).

Definition maskGsi (io : IoApic) (w : W) (gsi : Z) : W :=
  let '(v, w) := io_readRegister (base io) w (u32 (0x10 + gsi * 2)) in
  io_writeRegister (base io) w (u32 (0x10 + gsi * 2)) (Z.lor v (Z.shiftl 1 16)).

(** [~(1 << 16)] as a 32-bit word. *)
Definition unmaskGsi (io : IoApic) (w : W) (gsi : Z) : W :=
  let '(v, w) := io_readRegister (base io) w (u32 (0x10 + gsi * 2)) in
  io_writeRegister (base io) w (u32 (0x10 + gsi * 2)) (Z.land v (u32 (Z.lnot (Z.shiftl 1 16)))).

(** The loop of [initIoApics] from the descriptor [i] on; a ninth I/O APIC is
    written past the array. *)
Fixpoint initIoApics_loop (descriptors : list IoApicDescriptor) (s : Mappings) (w : W) (i nextGsiBase : Z) (acc : list IoApic)
    : outcome (list IoApic * Mappings * W) :=
  match descriptors with
  | [] => Ok (acc, s, w)
  | descriptor :: descriptors =>
      if negb (io_gsiBase descriptor =? nextGsiBase) then Panic "Invalid GSI base"
      else
        let '(base, s) := mapAddress mappable s (io_physicalAddress descriptor) 32 in
        if i <? MAX_IO_APICS then
          let! base := readable base in
          let '(v, w) := io_readRegister base w 1 in
          let gsiCount := Z.land (Z.shiftr v 16) 0xff + 1 in
          initIoApics_loop descriptors s w (i + 1) (u32 (nextGsiBase + gsiCount))
            (acc ++ [mkIoApic base gsiCount (io_gsiBase descriptor)])
        else Fault
  end.

Definition initIoApics (descriptors : list IoApicDescriptor) (s : Mappings) (w : W) : outcome (list IoApic * Mappings * W) :=
  initIoApics_loop descriptors s w 0 0 [].

(** The first I/O APIC the interrupt belongs to. *)
Fixpoint findIoApic (ioApics : list IoApic) (gsi : Z) : option IoApic :=
  match ioApics with
  | [] => None
  | io :: ioApics => if (gsiBase io <=? gsi) && (gsi <? u32 (gsiBase io + gsiCount io)) then Some io else findIoApic ioApics gsi
  end.

(** [localApicIds] has one entry for each possible CPU. *)
Definition mapIoApicInterrupt (ioApics : list IoApic) (localApicIds : list Z) (w : W) (gsi vector : Z)
    (levelTriggered activeHigh : bool) (targetCpuNumber : Z) : outcome W :=
  let! targetLocalApic := of_option (localApicIds !! Z.to_nat targetCpuNumber) in
  match findIoApic ioApics gsi with
  | Some io => Ok (mapGsi io w (gsi - gsiBase io) vector levelTriggered activeHigh targetLocalApic)
  | None => Panic "Failed to map GSI"
  end.

Definition maskIoApicInterrupt (ioApics : list IoApic) (w : W) (gsi : Z) : outcome W :=
  match findIoApic ioApics gsi with
  | Some io => Ok (maskGsi io w (gsi - gsiBase io))
  | None => Panic "Failed to mask GSI"
  end.

Definition unmaskIoApicInterrupt (ioApics : list IoApic) (w : W) (gsi : Z) : outcome W :=
  match findIoApic ioApics gsi with
  | Some io => Ok (unmaskGsi io w (gsi - gsiBase io))
  | None => Panic "Failed to unmask GSI"
  end.

Definition getGsiCount (ioApics : list IoApic) : Z := fold_left (fun result io => u32 (result + gsiCount io)) ioApics 0.

(** ** The legacy PICs *)

(** A write to an I/O port. *)
Record PortAccess := writePort8 { value : Z; port : Z }.

Definition delay : PortAccess := writePort8 0 0x80.

Definition PIC_REMAP_BASE : Z := 0xf8.

(** The writes of [disablePic], in order. *)
Definition disablePic : list PortAccess :=
  [writePort8 0x11 0x20; writePort8 0x11 0xa0; delay;
   writePort8 PIC_REMAP_BASE 0x21; writePort8 PIC_REMAP_BASE 0xa1; delay;
   writePort8 4 0x21; writePort8 2 0xa1; delay;
   writePort8 1 0x21; writePort8 1 0xa1; delay;
   writePort8 0xff 0x21; writePort8 0xff 0xa1; delay].

(** ** Fields of the commands *)

(** The command an IPI writes has each field at its place. *)
Lemma ipiCommand_fields vector messageType logical assert level :
  0 <= vector < 256 -> 0 <= messageType < 8 ->
  let c := ipiCommand vector messageType logical assert level in
  0 <= c < 2 ^ 16 /\ Z.land c 255 = vector /\ Z.land (Z.shiftr c 8) 7 = messageType /\
  Z.testbit c 11 = logical /\ Z.testbit c 14 = assert /\ Z.testbit c 15 = level /\ Z.testbit c 12 = false.
Proof.
  intros Hv Ht. set (fields := fun vector messageType logical assert level =>
    let c := ipiCommand vector messageType logical assert level in
    (0 <=? c) && (c <? 2 ^ 16) && (Z.land c 255 =? vector) && (Z.land (Z.shiftr c 8) 7 =? messageType) &&
    eqb (Z.testbit c 11) logical && eqb (Z.testbit c 14) assert && eqb (Z.testbit c 15) level && negb (Z.testbit c 12)).
  assert (Hf : fields vector messageType logical assert level = true).
  { pose (all := fun v t => forallb (fun l => forallb (fun a => forallb (fields v t l a) [true; false]) [true; false]) [true; false]).
    assert (Ha : all vector messageType = true).
    { apply (forall_below (fun v => all v messageType) 256); [|done].
      apply (forall_below (fun t => forallb (fun v => all v t) (seqZ 0 256)) 8); [|done]. vm_compute. reflexivity. }
    unfold all in Ha. cbn [forallb] in Ha. rewrite !andb_true_iff in Ha. destruct logical, assert, level; tauto. }
  unfold fields in Hf. cbv zeta in *. rewrite !andb_true_iff, !eqb_true_iff, !Z.eqb_eq, Z.leb_le, Z.ltb_lt, negb_true_iff in Hf.
  tauto.
Qed.
End Apic.

(** ** What an I/O APIC does *)

(** A write to a redirection entry: delivery status (12) and remote IRR (14)
    of its low word are read-only. *)
Definition stored (i old v : Z) : Z :=
  if Z.even i then Z.lor (Z.land v (Z.lnot 0x5000)) (Z.land old 0x5000) else v.

(** Each I/O APIC has a selected register and the contents of its registers;
    reading changes neither. *)
Class IoApicLaws (W : Type) `{Mmio W} (bases : list Z) := {
  selected : W -> Z -> Z;
  ioRegister : W -> Z -> Z -> Z;
  select_selected w b i b' : b ∈ bases -> b' ∈ bases -> 0 <= i < 256 ->
    selected (write32 w b i) b' = if decide (b' = b) then i else selected w b';
  select_register w b i b' j : b ∈ bases -> b' ∈ bases -> ioRegister (write32 w b i) b' j = ioRegister w b' j;
  window_read w b : b ∈ bases -> fst (read32 w (b + 16)) = ioRegister w b (selected w b);
  window_read_selected w b b' : b ∈ bases -> b' ∈ bases -> selected (snd (read32 w (b + 16))) b' = selected w b';
  window_read_register w b b' j : b ∈ bases -> b' ∈ bases -> ioRegister (snd (read32 w (b + 16))) b' j = ioRegister w b' j;
  window_write w b v b' j : b ∈ bases -> b' ∈ bases -> 16 <= selected w b ->
    ioRegister (write32 w (b + 16) v) b' j
    = if decide (b' = b /\ j = selected w b) then stored j (ioRegister w b j) v else ioRegister w b' j;
}.

Section Routing.
Context {W : Type} {M : Mmio W} {bases : list Z} {L : IoApicLaws W bases}.
Context (mappable : Z -> Z -> bool).

Lemma io_read_spec b (w w' : W) i v :
  b ∈ bases -> 0 <= i < 256 -> io_readRegister b w i = (v, w') ->
  v = ioRegister w b i /\ forall b' j, b' ∈ bases -> ioRegister w' b' j = ioRegister w b' j.
Proof.
  intros Hb Hi E. unfold io_readRegister in E. cbv zeta in E.
  assert (Ev : v = fst (read32 (write32 w b i) (b + 16))) by (by rewrite E).
  assert (Ew : w' = snd (read32 (write32 w b i) (b + 16))) by (by rewrite E).
  split.
  - rewrite Ev, window_read, select_selected, decide_True, select_register by done. done.
  - intros b' j Hb'. by rewrite Ew, window_read_register, select_register.
Qed.

Lemma io_write_spec b (w : W) i v b' j :
  b ∈ bases -> b' ∈ bases -> 16 <= i < 256 ->
  ioRegister (io_writeRegister b w i v) b' j
  = if decide (b' = b /\ j = i) then stored i (ioRegister w b i) v else ioRegister w b' j.
Proof.
  intros Hb Hb' Hi. unfold io_writeRegister. cbv zeta.
  assert (Es : selected (write32 w b i) b = i) by (rewrite select_selected by (done || lia); by rewrite decide_True).
  rewrite window_write by (done || (rewrite Es; lia)). rewrite Es.
  destruct (decide (b' = b /\ j = i)) as [[-> ->]|Hn]; by rewrite select_register.
Qed.

(** The low word of a redirection entry after [mapGsi] on [old]. *)
Definition routed (old vector : Z) (levelTriggered activeHigh : bool) : Z :=
  Z.lor (Z.lor (Z.lor old vector) (Z.shiftl (ofBool levelTriggered) 15)) (Z.shiftl (ofBool (negb activeHigh)) 13).

Lemma mapGsi_spec io (w : W) gsi vector level high target b' j :
  base io ∈ bases -> b' ∈ bases -> 0 <= gsi < 120 -> 0 <= vector < 256 -> 0 <= target < 256 ->
  let low := 16 + gsi * 2 in
  ioRegister (mapGsi io w gsi vector level high target) b' j
  = if decide (b' = base io /\ j = low)
    then stored low (ioRegister w (base io) low) (routed (ioRegister w (base io) low) vector level high)
    else if decide (b' = base io /\ j = low + 1) then Z.shiftl target 24 else ioRegister w b' j.
Proof.
  intros Hb Hb' Hg Hv Ht low. unfold mapGsi.
  assert (E1 : u32 (16 + gsi * 2) = low) by (apply u32_small; unfold low; lia).
  assert (E2 : u32 (16 + gsi * 2 + 1) = low + 1) by (apply u32_small; unfold low; lia).
  assert (E3 : u32 (Z.shiftl vector 0) = vector) by (rewrite Z.shiftl_0_r; apply u32_small; lia).
  assert (E4 : u32 (Z.shiftl target 24) = Z.shiftl target 24).
  { apply u32_small. rewrite Z.shiftl_mul_pow2 by lia. change (2 ^ 24) with 16777216. lia. }
  rewrite E1, E2, E3, E4. destruct (io_readRegister (base io) w low) as [v w1] eqn:Er.
  apply io_read_spec in Er as [-> Hw1]; [|done|unfold low; lia]. cbv zeta.
  rewrite !io_write_spec by (done || (unfold low; lia)).
  assert (Ev : Z.even low = true) by (unfold low; rewrite Z.even_add, Z.even_mul; by destruct (Z.even gsi)).
  assert (Eo : Z.even (low + 1) = false) by (rewrite Z.even_add, Ev; done).
  repeat case_decide; try lia; rewrite ?Hw1 by done; try done. unfold stored. by rewrite Eo.
Qed.

Lemma unmaskGsi_spec io (w : W) gsi b' j :
  base io ∈ bases -> b' ∈ bases -> 0 <= gsi < 120 ->
  let low := 16 + gsi * 2 in
  ioRegister (unmaskGsi io w gsi) b' j
  = if decide (b' = base io /\ j = low)
    then stored low (ioRegister w (base io) low) (Z.land (ioRegister w (base io) low) (u32 (Z.lnot (Z.shiftl 1 16))))
    else ioRegister w b' j.
Proof.
  intros Hb Hb' Hg low. unfold unmaskGsi. assert (E1 : u32 (16 + gsi * 2) = low) by (apply u32_small; unfold low; lia).
  rewrite E1. destruct (io_readRegister (base io) w low) as [v w1] eqn:Er.
  apply io_read_spec in Er as [-> Hw1]; [|done|unfold low; lia].
  rewrite io_write_spec, !Hw1 by (done || (unfold low; lia)). done.
Qed.

Lemma maskGsi_spec io (w : W) gsi b' j :
  base io ∈ bases -> b' ∈ bases -> 0 <= gsi < 120 ->
  let low := 16 + gsi * 2 in
  ioRegister (maskGsi io w gsi) b' j
  = if decide (b' = base io /\ j = low)
    then stored low (ioRegister w (base io) low) (Z.lor (ioRegister w (base io) low) (Z.shiftl 1 16))
    else ioRegister w b' j.
Proof.
  intros Hb Hb' Hg low. unfold maskGsi. assert (E1 : u32 (16 + gsi * 2) = low) by (apply u32_small; unfold low; lia).
  rewrite E1. destruct (io_readRegister (base io) w low) as [v w1] eqn:Er.
  apply io_read_spec in Er as [-> Hw1]; [|done|unfold low; lia].
  rewrite io_write_spec, !Hw1 by (done || (unfold low; lia)). done.
Qed.

(** ** The I/O APICs share the interrupts out without a gap *)

Fixpoint contiguous (n : Z) (l : list IoApic) : Prop :=
  match l with
  | [] => True
  | io :: l => gsiBase io = n /\ 1 <= gsiCount io <= 256 /\ contiguous (n + gsiCount io) l
  end.

Fixpoint total (l : list IoApic) : Z :=
  match l with
  | [] => 0
  | io :: l => gsiCount io + total l
  end.

Lemma contiguous_app n a b : contiguous n (a ++ b) <-> contiguous n a /\ contiguous (n + total a) b.
Proof.
  revert n. induction a as [|io a IH]; intros n; cbn [contiguous total app]; [rewrite Z.add_0_r; tauto|].
  rewrite IH, Z.add_assoc. tauto.
Qed.

Lemma total_app a b : total (a ++ b) = total a + total b.
Proof. induction a as [|io a IH]; cbn [total app]; lia. Qed.

Lemma total_bound n l : contiguous n l -> 0 <= total l <= 256 * Z.of_nat (List.length l).
Proof. revert n. induction l as [|io l IH]; intros n Hc; cbn [contiguous total List.length] in *; [lia|]. destruct Hc as (_ & Hn & Hc). apply IH in Hc. lia. Qed.

Lemma land_255 x : 0 <= Z.land x 255 < 256.
Proof. change 255 with (Z.ones 8). rewrite Z.land_ones by lia. apply Z.mod_pos_bound. lia. Qed.

(** The invariant of the loop of [initIoApics]. *)
Definition initialised (l : list IoApic) : Prop :=
  contiguous 0 l /\ Z.of_nat (List.length l) <= 8 /\ Forall (fun io => base io ∈ bases) l.

Lemma initIoApics_loop_spec ds : forall s (w : W) acc l s' w',
  Forall (fun d => io_physicalAddress d ∈ bases) ds -> initialised acc ->
  initIoApics_loop mappable ds s w (Z.of_nat (List.length acc)) (total acc) acc = Ok (l, s', w') ->
  initialised l /\ forall b j, b ∈ bases -> ioRegister w' b j = ioRegister w b j.
Proof.
  induction ds as [|d ds IH]; intros s w acc l s' w' Hd Ha E; cbn [initIoApics_loop] in E.
  - inv_ok. done.
  - apply Forall_cons in Hd as [Hb Hd]. destruct (Z.eqb_spec (io_gsiBase d) (total acc)) as [Eb|]; cbn [negb] in E; [|done].
    unfold mapAddress, readable in E. destruct (mappable _ _); destruct (Z.ltb_spec (Z.of_nat (List.length acc)) MAX_IO_APICS) as [Hlt|];
      try done. destruct (io_physicalAddress d =? 0); cbn [obind] in E; [done|].
    destruct (io_readRegister _ w 1) as [v w1] eqn:Er. apply io_read_spec in Er as [_ Hw1]; [|done|lia].
    set (io := mkIoApic _ _ _) in E. unfold MAX_IO_APICS in Hlt. destruct Ha as (Hc & Hl & Hf).
    assert (Hn : 1 <= gsiCount io <= 256) by (cbn [gsiCount io]; pose proof (land_255 (Z.shiftr v 16)); lia).
    pose proof (total_bound _ _ Hc) as Ht.
    assert (Ea : initialised (acc ++ [io])).
    { split; [|split].
      - rewrite contiguous_app. cbn [contiguous]. split; [done|]. split; [|done]. cbn [gsiBase io]. lia.
      - rewrite length_app. cbn [List.length]. lia.
      - apply Forall_app_2; [done|]. by constructor. }
    assert (El : Z.of_nat (List.length acc) + 1 = Z.of_nat (List.length (acc ++ [io]))) by (rewrite length_app; cbn [List.length]; lia).
    assert (Et : u32 (total acc + (Z.land (Z.shiftr v 16) 255 + 1)) = total (acc ++ [io])).
    { rewrite total_app. cbn [total]. rewrite Z.add_0_r. change (Z.land (Z.shiftr v 16) 255 + 1) with (gsiCount io). apply u32_small. lia. }
    rewrite El, Et in E. destruct (IH _ _ _ _ _ _ Hd Ea E) as [Hi Hr]. split; [done|]. intros b j Hbj. by rewrite Hr, Hw1.
Qed.

Lemma initIoApics_spec ds s (w : W) l s' w' :
  Forall (fun d => io_physicalAddress d ∈ bases) ds -> initIoApics mappable ds s w = Ok (l, s', w') ->
  initialised l /\ forall b j, b ∈ bases -> ioRegister w' b j = ioRegister w b j.
Proof. intros Hd E. eapply (initIoApics_loop_spec ds s w []); [done| |exact E]. split; [done|]. split; [done|constructor]. Qed.

Lemma getGsiCount_total l : initialised l -> getGsiCount l = total l.
Proof.
  intros (Hc & Hl & _). unfold getGsiCount.
  enough (H : forall a n, 0 <= a -> contiguous n l -> a + 256 * Z.of_nat (List.length l) < 4294967296 ->
    fold_left (fun result io => u32 (result + gsiCount io)) l a = a + total l) by (rewrite (H 0 0); [lia|lia|done|lia]).
  clear Hc Hl. induction l as [|io l IH]; intros a n Ha Hc Hn; cbn [fold_left total contiguous List.length] in *; [lia|].
  destruct Hc as (_ & Hg & Hc). rewrite u32_small by lia. rewrite (IH (a + gsiCount io) (n + gsiCount io)) by (done || lia). lia.
Qed.

Lemma findIoApic_spec l gsi : forall n, contiguous n l -> 0 <= n -> n + 256 * Z.of_nat (List.length l) < 4294967296 ->
  (n <= gsi < n + total l -> exists io, findIoApic l gsi = Some io /\ io ∈ l /\ gsiBase io <= gsi < gsiBase io + gsiCount io) /\
  (n + total l <= gsi -> findIoApic l gsi = None).
Proof.
  induction l as [|io l IH]; intros n Hc Hn Hl; cbn [findIoApic contiguous total List.length] in *; [split; [lia|done]|].
  destruct Hc as (Eb & Hg & Hc). destruct (IH (n + gsiCount io) Hc ltac:(lia) ltac:(lia)) as [IH1 IH2]. pose proof (total_bound _ _ Hc).
  rewrite u32_small by lia. split.
  - intros Hi. destruct (Z.ltb_spec gsi (gsiBase io + gsiCount io)) as [Hlt|Hge].
    + rewrite (proj2 (Z.leb_le (gsiBase io) gsi)) by lia. cbn [andb]. exists io. repeat split; [left|lia|done].
    + rewrite andb_false_r. destruct IH1 as (io' & E & Hin & Hr); [lia|]. exists io'. repeat split; [done|by right|lia|lia].
  - intros Hi. rewrite (proj2 (Z.ltb_ge gsi (gsiBase io + gsiCount io))) by lia. rewrite andb_false_r. apply IH2. lia.
Qed.

(** An entry that was reset (only masked), mapped and unmasked. *)
Lemma routed_reset vector level high : 0 <= vector < 256 ->
  let e := stored 16 0x10000 (routed 0x10000 vector level high) in
  stored 16 e (Z.land e (u32 (Z.lnot (Z.shiftl 1 16)))) = vector + 8192 * ofBool (negb high) + 32768 * ofBool level.
Proof.
  intros Hv. cbv zeta.
  pose (P := fun v l h => let e := stored 16 0x10000 (routed 0x10000 v l h) in
    stored 16 e (Z.land e (u32 (Z.lnot (Z.shiftl 1 16)))) =? v + 8192 * ofBool (negb h) + 32768 * ofBool l).
  enough (E : P vector level high = true) by (by apply Z.eqb_eq in E).
  apply (forall_below (fun v => P v level high) 256); [|done]. destruct level, high; vm_compute; reflexivity.
Qed.

Lemma stored_even i old v : stored (16 + i * 2) old v = stored 16 old v.
Proof. unfold stored. rewrite Z.even_add, Z.even_mul. by destruct (Z.even i). Qed.

(** [C15] After [initIoApics] an interrupt below the number the I/O APICs have
    together belongs to one of them, whose redirection entry (at reset: only
    masked), once mapped and unmasked, holds exactly the vector, polarity and
    trigger mode asked for, unmasked, with the local APIC of the CPU as the
    destination, and no other register of any I/O APIC changes; any other
    interrupt panics. *)
Theorem interrupt_routed ds s (w : W) l s' w' gsi vector level high ids cpu target :
  Forall (fun d => io_physicalAddress d ∈ bases) ds -> initIoApics mappable ds s w = Ok (l, s', w') ->
  Forall (fun io => gsiCount io <= 120) l -> 0 <= vector < 256 -> ids !! Z.to_nat cpu = Some target -> 0 <= target < 256 -> 0 <= gsi ->
  (gsi < getGsiCount l ->
     exists io w1 w2, io ∈ l /\ gsiBase io <= gsi < gsiBase io + gsiCount io /\
       mapIoApicInterrupt l ids w' gsi vector level high cpu = Ok w1 /\ unmaskIoApicInterrupt l w1 gsi = Ok w2 /\
       let low := 16 + (gsi - gsiBase io) * 2 in
       (ioRegister w (base io) low = 0x10000 ->
        ioRegister w2 (base io) low = vector + 8192 * ofBool (negb high) + 32768 * ofBool level) /\
       ioRegister w2 (base io) (low + 1) = Z.shiftl target 24 /\
       forall b j, b ∈ bases -> b <> base io \/ j <> low /\ j <> low + 1 -> ioRegister w2 b j = ioRegister w b j) /\
  (getGsiCount l <= gsi ->
     mapIoApicInterrupt l ids w' gsi vector level high cpu = Panic "Failed to map GSI" /\
     unmaskIoApicInterrupt l w' gsi = Panic "Failed to unmask GSI" /\ maskIoApicInterrupt l w' gsi = Panic "Failed to mask GSI").
Proof.
  intros Hd E Hp Hv Hids Ht Hg. destruct (initIoApics_spec _ _ _ _ _ _ Hd E) as [Hi Hw]. rewrite (getGsiCount_total _ Hi).
  destruct Hi as (Hc & Hl & Hb). destruct (findIoApic_spec l gsi 0 Hc) as [Hin Hout]; [lia|lia|].
  unfold mapIoApicInterrupt, unmaskIoApicInterrupt, maskIoApicInterrupt. rewrite Hids. cbn [of_option obind]. split.
  - intros Hlt. destruct Hin as (io & Ef & Hio & Hr); [lia|]. rewrite Ef. do 3 eexists. split; [done|]. split; [done|].
    split; [reflexivity|]. split; [reflexivity|]. cbv zeta.
    rewrite Forall_forall in Hp, Hb. specialize (Hp _ Hio). specialize (Hb _ Hio).
    assert (H120 : 0 <= gsi - gsiBase io < 120) by lia. split; [|split].
    + intros Hreset. rewrite unmaskGsi_spec, decide_True, !mapGsi_spec, decide_True, Hw, Hreset by done.
      rewrite !stored_even. by apply routed_reset.
    + rewrite unmaskGsi_spec, decide_False, mapGsi_spec, decide_False, decide_True by (done || (intros [_ ?]; lia)). done.
    + intros b j Hb' Hne. rewrite unmaskGsi_spec, decide_False, mapGsi_spec, !decide_False by (done || (intros [??]; subst; destruct Hne as [|[]]; lia)).
      by apply Hw.
  - intros Hge. rewrite Hout by lia. done.
Qed.
End Routing.

(** Mapping an entry again, without a reset in between, leaves the bits of the
    old vector: 0x30 and 0x41 give 0x71. *)
Lemma remapping_merges_vectors : Z.land (routed (routed 0x10000 0x30 false true) 0x41 false true) 255 = 0x71.
Proof. reflexivity. Qed.

(** ** Two I/O APICs *)

Definition twoIoApics : list Z := [0x1000; 0x2000].

Record IoDevices := mkIoDevices { ioSelect : Z -> Z; ioContents : Z -> Z -> Z }.

Definition isIoApic (a : Z) : bool := bool_decide (a ∈ twoIoApics).

Definition ioWrite (d : IoDevices) (a v : Z) : IoDevices :=
  if isIoApic a then mkIoDevices (fun b => if b =? a then v else ioSelect d b) (ioContents d)
  else if isIoApic (a - 16) && (16 <=? ioSelect d (a - 16)) then
    mkIoDevices (ioSelect d) (fun b j => if (b =? a - 16) && (j =? ioSelect d (a - 16)) then stored j (ioContents d b j) v else ioContents d b j)
  else d.

#[export] Instance IoDevices_mmio : Mmio IoDevices := {
  read8 d _ := (0, d);
  read16 d _ := (0, d);
  read32 d a := (ioContents d (a - 16) (ioSelect d (a - 16)), d);
  read64 d _ := (0, d);
  write32 := ioWrite;
  write64 d _ _ := d
}.

Lemma isIoApic_true b : b ∈ twoIoApics -> isIoApic b = true.
Proof. intros Hb. by apply bool_decide_eq_true. Qed.

Lemma isIoApic_window b : b ∈ twoIoApics -> isIoApic (b + 16) = false.
Proof. intros Hb. repeat (apply elem_of_cons in Hb as [->|Hb]; [reflexivity|]). by apply elem_of_nil in Hb. Qed.

#[export] Instance IoDevices_laws : IoApicLaws IoDevices twoIoApics.
Proof.
  refine {| selected := ioSelect; ioRegister := ioContents |}; intros; cbn [write32 read32 IoDevices_mmio fst snd];
    rewrite ?Z.add_simpl_r; try done; unfold ioWrite.
  - rewrite isIoApic_true by done. cbn [ioSelect]. case_decide as Hd; [subst; by rewrite Z.eqb_refl|]. by rewrite (proj2 (Z.eqb_neq _ _) Hd).
  - by rewrite isIoApic_true.
  - rewrite isIoApic_window, Z.add_simpl_r, isIoApic_true by done. cbn [andb].
    rewrite (proj2 (Z.leb_le _ _)) by done. cbn [ioContents].
    case_decide as Hd; [destruct Hd as [-> ->]; by rewrite !Z.eqb_refl|].
    destruct (Z.eqb_spec b' b); [|done]. destruct (Z.eqb_spec j (ioSelect w b)); [|done]. by destruct Hd.
Defined.

(** The first has 24 interrupts, the second 8; every entry is at reset. *)
Definition devicesAtReset : IoDevices :=
  mkIoDevices (fun _ => 0) (fun b j => if j =? 1 then (if b =? 0x1000 then 0x170020 else 0x70020) else if Z.even j then 0x10000 else 0).

Definition twoDescriptors : list IoApicDescriptor := [mkIoApicDescriptor 0x1000 0; mkIoApicDescriptor 0x2000 24].

Lemma interrupt_routed_witness :
  exists l s' w' io (w1 w2 : IoDevices),
    initIoApics (fun _ _ => true) twoDescriptors [] devicesAtReset = Ok (l, s', w') /\ getGsiCount l = 32 /\ io ∈ l /\
    mapIoApicInterrupt l [7] w' 26 0x3a true false 0 = Ok w1 /\ unmaskIoApicInterrupt l w1 26 = Ok w2 /\
    maskIoApicInterrupt l w' 32 = Panic "Failed to mask GSI" /\
    gsiBase io <= 26 < gsiBase io + gsiCount io /\
    (base io = 0x2000 -> gsiBase io = 24 -> ioContents w2 0x2000 20 = 0x3a + 8192 + 32768).
Proof.
  destruct (initIoApics (fun _ _ => true) twoDescriptors [] devicesAtReset) as [[[l s'] w']| | |] eqn:E; try (vm_compute in E; discriminate E).
  assert (El : l = [mkIoApic 0x1000 24 0; mkIoApic 0x2000 8 24]) by (vm_compute in E; injection E as <- _ _; reflexivity).
  pose proof (interrupt_routed (fun _ _ => true) twoDescriptors [] devicesAtReset l s' w') as H.
  assert (Hd : Forall (fun d => io_physicalAddress d ∈ twoIoApics) twoDescriptors) by (apply (bool_decide_unpack _); vm_compute; reflexivity).
  assert (Hc : Forall (fun io => gsiCount io <= 120) l) by (subst l; repeat constructor; cbn; lia).
  destruct (H 26 0x3a true false [7] 0 7 Hd E Hc) as [H1 _]; [lia|reflexivity|lia|lia|].
  destruct (H 32 0x3a true false [7] 0 7 Hd E Hc) as [_ H2]; [lia|reflexivity|lia|lia|].
  destruct H1 as (io & w1 & w2 & Hio & Hr & E1 & E2 & Hlow & _); [subst l; reflexivity|].
  destruct H2 as (_ & _ & H2); [subst l; vm_compute; discriminate|].
  exists l, s', w', io, w1, w2. repeat split; try done; [subst l; reflexivity|lia|lia|].
  intros Eb Eg. rewrite Eb, Eg in Hlow. apply Hlow. reflexivity.
Defined.
