(* ===== verification/Hpet.v ===== *)
(** * Timers ([hpet.h], [hpet.cpp], [apicTimer.h], [apicTimer.cpp])

    The counter of the HPET is a register of the world outside; what the waits
    rely on is the class [HpetLaws]. *)

From Stdlib Require Import ZArith Lia.
From stdpp Require Import base tactics numbers list.
From S2P Require Import Prelude Acpi Apic.

Open Scope Z_scope.

Definition HPET_REGISTER_GENERAL_CAPABILITIES : Z := 0x0.
Definition HPET_REGISTER_GENERAL_CONFIGURATION : Z := 0x10.
Definition HPET_REGISTER_COUNTER : Z := 0xf0.
Definition HPET_CONFIGURATION_ENABLE_BIT : Z := Z.shiftl 1 0.
Definition HPET_CONFIGURATION_LEGACY_BIT : Z := Z.shiftl 1 1.
Definition APIC_TIMER_INTERRUPT : Z := 0xf0.

Record Hpet := mkHpet { registerPointer : Z; frequencyFemtos : Z }.

Section Hpet.
Context {W : Type} `{Mmio W}.
(** Whether [mapAddress] finds room. *)
Context (mappable : Z -> Z -> bool).

(** ** The HPET *)

Definition hpet_writeRegister (pointer : Z) (w : W) (offset value : Z) : W := write64 w (pointer + 8 * (offset / 8)) value.
Definition hpet_readRegister (pointer : Z) (w : W) (offset : Z) : Z * W := read64 w (pointer + 8 * (offset / 8)).

(** [~bit] is a negative [int], extended to 64 bits. *)
Definition reset (pointer : Z) (w : W) : W :=
  let '(v, w) := hpet_readRegister pointer w HPET_REGISTER_GENERAL_CONFIGURATION in
  let w := hpet_writeRegister pointer w HPET_REGISTER_GENERAL_CONFIGURATION (Z.land v (u64 (Z.lnot HPET_CONFIGURATION_ENABLE_BIT))) in
  let w := hpet_writeRegister pointer w HPET_REGISTER_COUNTER 0 in
  let '(v, w) := hpet_readRegister pointer w HPET_REGISTER_GENERAL_CONFIGURATION in
  hpet_writeRegister pointer w HPET_REGISTER_GENERAL_CONFIGURATION (Z.lor v HPET_CONFIGURATION_ENABLE_BIT).

(** The constructor. *)
Definition newHpet (s : Mappings) (w : W) (physicalAddress : Z) : outcome (Hpet * Mappings * W) :=
  let '(pointer, s) := mapAddress mappable s physicalAddress 1024 in
  let! pointer := readable pointer in
  let '(v, w) := hpet_readRegister pointer w HPET_REGISTER_GENERAL_CAPABILITIES in
  let frequencyFemtos := Z.shiftr v 32 in
  let '(v, w) := hpet_readRegister pointer w HPET_REGISTER_GENERAL_CONFIGURATION in
  let w := hpet_writeRegister pointer w HPET_REGISTER_GENERAL_CONFIGURATION (Z.land v (u64 (Z.lnot HPET_CONFIGURATION_LEGACY_BIT))) in
  let w := reset pointer w in
  Ok (mkHpet pointer frequencyFemtos, s, w).

(** The destructor. *)
Definition deleteHpet (h : Hpet) (s : Mappings) : outcome Mappings := unmapMemory s (registerPointer h) 1024.

Definition nanoTime (h : Hpet) (w : W) : Z * W :=
  let '(v, w) := hpet_readRegister (registerPointer h) w HPET_REGISTER_COUNTER in
  (u64 (v * frequencyFemtos h) / 1000000, w).

(** A division by 0 is an exception of the CPU. *)
Definition getFrequencyKhz (h : Hpet) : outcome Z :=
  if frequencyFemtos h =? 0 then Fault else Ok (1000000000000 / frequencyFemtos h).

Fixpoint wait_loop (fuel : nat) (h : Hpet) (w : W) (deadline : Z) : outcome W :=
  match fuel with
  | O => Hang
  | S fuel => let '(t, w) := nanoTime h w in if t <? deadline then wait_loop fuel h w deadline else Ok w
  end.

(** [fuel] bounds the number of reads of the counter. *)
Definition wait (fuel : nat) (h : Hpet) (w : W) (nanos : Z) : outcome W :=
  let '(currentNanos, w) := nanoTime h w in wait_loop fuel h w (u64 (currentNanos + nanos)).

(** ** The timer of the local APIC *)

Definition timerTicksPer (fuel : nat) (localApic : Z) (w : W) (nanos : Z) (h : Hpet) : outcome (Z * W) :=
  let w := writeTimerLvt localApic w false false APIC_TIMER_INTERRUPT in
  let w := writeTimerDivideRegister localApic w APIC_DIVIDE_16 in
  let w := writeTimerInitialCountRegister localApic w 0xffffffff in
  let! w := wait fuel h w nanos in
  let w := writeTimerLvt localApic w false true APIC_TIMER_INTERRUPT in
  let '(v, w) := getTimerCurrentCount localApic w in
  let ticksPassed := u32 (0xffffffff - v) in
  Ok (u32 (ticksPassed * 16), w).

Definition setUpTimer (localApic : Z) (w : W) (tickFrequency : Z) : W :=
  let w := writeTimerLvt localApic w true false APIC_TIMER_INTERRUPT in
  let w := writeTimerDivideRegister localApic w APIC_DIVIDE_16 in
  writeTimerInitialCountRegister localApic w (tickFrequency / 16).
End Hpet.

(** ** Waiting *)

(** The counter at [pointer] runs: it never goes back, advances by at most
    [delta] between two reads, and passes every value. *)
Class HpetLaws (W : Type) `{Mmio W} (pointer delta : Z) := {
  counter : W -> Z;
  counter_nonneg w : 0 <= counter w;
  counter_read w : fst (hpet_readRegister pointer w HPET_REGISTER_COUNTER) = counter w;
  counter_monotone w : let w' := snd (hpet_readRegister pointer w HPET_REGISTER_COUNTER) in counter w <= counter w' <= counter w + delta;
  counter_runs w c : exists n, c <= counter (Nat.iter n (fun w => snd (hpet_readRegister pointer w HPET_REGISTER_COUNTER)) w)
}.

Section Wait.
Context {W : Type} {M : Mmio W} {pointer delta : Z} {L : HpetLaws W pointer delta}.
Context (f : Z) (Hf : 0 < f).

Abbreviation hpet := (mkHpet pointer f).
Abbreviation next := (fun w => snd (hpet_readRegister pointer w HPET_REGISTER_COUNTER)).

Lemma nanoTime_eq (w : W) : nanoTime hpet w = (u64 (counter w * f) / 1000000, next w).
Proof.
  unfold nanoTime. cbn [registerPointer frequencyFemtos]. pose proof (counter_read (pointer := pointer) w) as E.
  destruct (hpet_readRegister pointer w HPET_REGISTER_COUNTER) as [v w'] eqn:Er. cbn [fst snd] in *. by rewrite E.
Qed.

Lemma counter_next (w : W) : counter w <= counter (next w) <= counter w + delta.
Proof. exact (counter_monotone w). Qed.

(** The first count whose time is at least [d]. *)
Definition reached (d : Z) : Z := (d * 1000000 + f - 1) / f.

Lemma reached_spec d c : 0 <= d -> (reached d <= c <-> d <= c * f / 1000000).
Proof.
  intros Hd. unfold reached. split; intros H.
  - apply Z.div_le_lower_bound; [lia|]. pose proof (Z.mul_div_le (d * 1000000 + f - 1) f Hf).
    pose proof (Z.mod_pos_bound (d * 1000000 + f - 1) f Hf). pose proof (Z.div_mod (d * 1000000 + f - 1) f ltac:(lia)). nia.
  - assert (Hc : d * 1000000 <= c * f) by (pose proof (Z.mul_div_le (c * f) 1000000); nia).
    enough (H1 : (d * 1000000 + f - 1) / f < c + 1) by lia. apply Z.div_lt_upper_bound; [lia|]. nia.
Qed.

Lemma wait_loop_ends d bound n : 0 <= d -> bound * f < 18446744073709551616 -> reached d + delta <= bound ->
  forall w : W, counter w <= bound -> reached d <= counter (Nat.iter n next w) ->
  exists w0, reached d <= counter w0 <= bound /\ forall fuel, (n < fuel)%nat -> wait_loop fuel hpet w d = Ok (next w0).
Proof.
  intros Hd Hb Hr. induction n as [|n IH]; intros w Hw Hn; pose proof (counter_nonneg w);
    assert (Ew : u64 (counter w * f) = counter w * f) by (apply u64_small; nia); pose proof (reached_spec d (counter w) Hd) as Hs.
  - exists w. split; [cbn in Hn; lia|]. intros [|fuel] Hf'; [lia|]. cbn [wait_loop]. rewrite nanoTime_eq, Ew.
    rewrite (proj2 (Z.ltb_ge _ d)); [done|]. apply Hs, Hn.
  - destruct (Z.ltb_spec (counter w * f / 1000000) d) as [Hlt|Hge].
    + rewrite Nat.iter_succ_r in Hn. pose proof (counter_next w) as Hnext; cbv beta in Hnext.
      assert (Hlow : counter w < reached d) by (apply Z.nle_gt; intros Hle; apply Hs in Hle; lia).
      destruct (IH (next w)) as (w0 & H0 & Hl); cbv beta; [lia|done|].
      exists w0. split; [done|]. intros [|fuel] Hf'; [lia|]. cbn [wait_loop]. rewrite nanoTime_eq, Ew.
      rewrite (proj2 (Z.ltb_lt _ d)) by done. apply Hl. lia.
    + apply Hs in Hge as Hle. exists w. split; [lia|]. intros [|fuel] Hf'; [lia|]. cbn [wait_loop]. rewrite nanoTime_eq, Ew.
      by rewrite (proj2 (Z.ltb_ge _ d)).
Qed.

(** [C23] A wait ends, provided the product of the counter and the period does
    not pass 64 bits before the deadline: the time of the last read is at
    least [nanos] after the first, and its count at most [delta] after the
    first count of the deadline. *)
Theorem wait_terminates (w : W) nanos :
  0 <= nanos ->
  let start := counter w * f / 1000000 in
  (Z.max (counter w) (reached (start + nanos)) + delta) * f < 2 ^ 64 ->
  exists n w0, (forall fuel, (n <= fuel)%nat -> wait fuel hpet w nanos = Ok (next w0)) /\
    start + nanos <= counter w0 * f / 1000000 /\ counter w0 <= Z.max (counter w) (reached (start + nanos)) + delta.
Proof.
  intros Hn start Hb. change (2 ^ 64) with 18446744073709551616 in Hb. pose proof (counter_nonneg w) as Hc. pose proof (counter_next w) as Hnext; cbv beta in Hnext.
  assert (Hs : 0 <= start) by (apply Z.div_pos; nia).
  assert (Hd : start + nanos < 18446744073709551616).
  { pose proof (proj1 (reached_spec (start + nanos) (reached (start + nanos)) ltac:(lia)) ltac:(lia)) as Hr.
    pose proof (Z.mul_div_le (reached (start + nanos) * f) 1000000 ltac:(lia)). nia. }
  destruct (counter_runs (next w) (reached (start + nanos))) as [n Hrun].
  destruct (wait_loop_ends (start + nanos) (Z.max (counter w) (reached (start + nanos)) + delta) n ltac:(lia) Hb ltac:(lia) (next w))
    as (w0 & H0 & Hl); cbv beta; [lia|done|].
  exists (S n), w0. split; [|split; [|lia]].
  - intros fuel Hfuel. unfold wait. rewrite nanoTime_eq, (u64_small (counter w * f)) by nia. fold start. rewrite u64_small by lia. apply Hl. lia.
  - apply reached_spec; lia.
Qed.
End Wait.

(** No reading is later than 18446744073709 nanoseconds (about five hours), so
    a wait with a later deadline never ends, whatever the counter does. *)
Lemma wait_beyond_range {W} `{Mmio W} fuel h (w : W) nanos :
  18446744073709 < u64 (fst (nanoTime h w) + nanos) -> wait fuel h w nanos = Hang.
Proof.
  unfold wait. destruct (nanoTime h w) as [t w']. cbn [fst]. generalize (u64 (t + nanos)). clear t w. intros d Hd. revert w'.
  induction fuel as [|fuel IH]; intros w; cbn [wait_loop]; [done|]. destruct (nanoTime h w) as [t w'] eqn:E.
  assert (Ht : t <= 18446744073709).
  { unfold nanoTime in E. destruct (hpet_readRegister _ _ _) as [v ?]. injection E as <- _.
    pose proof (u64_range (v * frequencyFemtos h)). apply Z.lt_succ_r, Z.div_lt_upper_bound; lia. }
  rewrite (proj2 (Z.ltb_lt t d)) by lia. apply IH.
Qed.

(** ** A clock that advances by three at each read *)

Record Clock := mkClock { ticks : Z; ticks_nonneg : bool_decide (0 <= ticks) }.

Lemma tick3_nonneg c : bool_decide (0 <= ticks c + 3).
Proof. pose proof (bool_decide_unpack _ (ticks_nonneg c)). apply bool_decide_pack. lia. Qed.

Definition tick3 (c : Clock) : Clock := mkClock (ticks c + 3) (tick3_nonneg c).

#[export] Instance Clock_mmio : Mmio Clock := {
  read8 c _ := (0, c);
  read16 c _ := (0, c);
  read32 c _ := (0, c);
  read64 c _ := (ticks c, tick3 c);
  write32 c _ _ := c;
  write64 c _ _ := c
}.

Lemma Clock_iter n c : ticks (Nat.iter n (fun w => snd (hpet_readRegister 0x5000 w HPET_REGISTER_COUNTER)) c) = ticks c + 3 * Z.of_nat n.
Proof. induction n as [|n IH]; cbn [Nat.iter nat_rect]; [lia|]. change (ticks (tick3 (Nat.iter n (fun w => snd (hpet_readRegister 0x5000 w HPET_REGISTER_COUNTER)) c)) = ticks c + 3 * Z.of_nat (S n)). cbn [tick3 ticks]. lia. Qed.

#[export] Instance Clock_laws : HpetLaws Clock 0x5000 3.
Proof.
  refine {| counter := ticks |}.
  - intros c. exact (bool_decide_unpack _ (ticks_nonneg c)).
  - done.
  - intros w. cbn. lia.
  - intros w c. exists (Z.to_nat (Z.max 0 (c - ticks w))). rewrite Clock_iter. lia.
Defined.

Lemma wait_terminates_witness :
  exists n w0, (forall fuel, (n <= fuel)%nat -> wait fuel (mkHpet 0x5000 10000000) (mkClock 50 I) 1000
                 = Ok (snd (hpet_readRegister 0x5000 w0 HPET_REGISTER_COUNTER))) /\
    500 + 1000 <= ticks w0 * 10000000 / 1000000.
Proof.
  destruct (wait_terminates (pointer := 0x5000) (delta := 3) 10000000 ltac:(lia) (mkClock 50 I) 1000) as (n & w0 & H1 & H2 & _);
    [lia|vm_compute; reflexivity|].
  exists n, w0. split; [exact H1|exact H2].
Defined.
