(* ===== verification/Irq.v ===== *)
(** * Interrupts ([idt.h], [interrupts.cpp], [irq.h], [interruptHandlers.cpp],
    [cpuExceptions.h], [exceptionHandlers.cpp])

    The table of interrupt descriptors, the table of handlers with its
    dispatch, and the handler of CPU exceptions. A handler is an address, 0 is
    null; what handlers, the scheduler's tick and a call from another CPU do
    to the world is a parameter of the dispatch. *)

From Stdlib Require Import ZArith Lia String.
From stdpp Require Import base tactics numbers list.
From S2P Require Import Prelude Acpi Apic Hpet.

Open Scope Z_scope.

(** ** The interrupt descriptor table *)







(** ** Interrupt handlers *)

Definition MAX_IRQ_SHARING : nat := 16.
Definition PROCESSOR_CALLBACK_INTERRUPT : Z := 0xfe.

Inductive IrqClass := STANDARD | LOCAL_INTERRUPT | MSI.

Record IrqHandlerAndContext := mkHandler { handler : Z; context : Z }.

(** The 256 rows of [irqHandlers]. *)
Abbreviation IrqTable := (list (list IrqHandlerAndContext)).

Definition noHandlers : IrqTable := replicate 256 (replicate MAX_IRQ_SHARING (mkHandler 0 0)).

(** The loop that looks for a free place. *)
Fixpoint addHandler (row : list IrqHandlerAndContext) (h : IrqHandlerAndContext) : list IrqHandlerAndContext :=
  match row with
  | [] => []
  | e :: row => if handler e =? 0 then h :: row else e :: addHandler row h
  end.

Section Irq.
Context {W : Type} `{Mmio W}.
Context (ioApics : list IoApic) (localApicIds : list Z) (localApic : Z).

Definition registerIrqHandlerBase (t : IrqTable) (w : W) (irqClass : IrqClass) (irq : Z) (h : IrqHandlerAndContext)
    (levelTriggered activeHigh : bool) : outcome (IrqTable * W) :=
  let! '(irq, w) :=
    (match irqClass with
     | STANDARD =>
         let! w := mapIoApicInterrupt ioApics localApicIds w irq (u8 (irq + IO_APIC_INTERRUPT_BASE)) levelTriggered activeHigh 0 in
         let! w := unmaskIoApicInterrupt ioApics w irq in
         Ok (u32 (irq + IO_APIC_INTERRUPT_BASE), w)
     | LOCAL_INTERRUPT => Ok (irq, w)
     | MSI => Ok (u32 (irq + u32 (IO_APIC_INTERRUPT_BASE + getGsiCount ioApics)), w)
     end) in
  if 256 <=? irq then Panic "IRQ out of range"
  else Ok (alter (fun row => addHandler row h) (Z.to_nat irq) t, w).

(** What the calls do. *)
Context (call : IrqHandlerAndContext -> W -> W) (tick receiveCall : W -> W).

(** The loop over the handlers, up to the first free place. *)
Fixpoint run_loop (row : list IrqHandlerAndContext) (w : W) : W :=
  match row with
  | [] => w
  | e :: row => if negb (handler e =? 0) then run_loop row (call e w) else w
  end.

Definition handleInterrupt (t : IrqTable) (w : W) (interruptNumber : Z) : W :=
  if interruptNumber =? APIC_TIMER_INTERRUPT then tick (eoi localApic w)
  else if interruptNumber =? PROCESSOR_CALLBACK_INTERRUPT then receiveCall (eoi localApic w)
  else
    let w := run_loop (default [] (t !! Z.to_nat interruptNumber)) w in
    let '(s, w) := inService localApic w interruptNumber in
    if s then eoi localApic w else w.
End Irq.

(** ** CPU exceptions *)

Definition CPU_DE : Z := 0.
Definition CPU_DB : Z := 1.
Definition CPU_NMI : Z := 2.
Definition CPU_BP : Z := 3.
Definition CPU_OF : Z := 4.
Definition CPU_BR : Z := 5.
Definition CPU_UD : Z := 6.
Definition CPU_NM : Z := 7.
Definition CPU_DF : Z := 8.
Definition CPU_TS : Z := 10.
Definition CPU_NP : Z := 11.
Definition CPU_SS : Z := 12.
Definition CPU_GP : Z := 13.
Definition CPU_PF : Z := 14.
Definition CPU_MF : Z := 16.
Definition CPU_AC : Z := 17.
Definition CPU_MC : Z := 18.
Definition CPU_XF : Z := 19.
Definition CPU_CP : Z := 21.
Definition CPU_HV : Z := 28.
Definition CPU_VC : Z := 29.
Definition CPU_SX : Z := 30.

Record InterruptStackFrame := mkStackFrame { rip : Z; cs : Z; rflags : Z; rsp : Z; ss : Z }.

(** Calls of the console: [print] with its argument [skipLocking] and
    [printf] with numbers to format. *)
Inductive KoutCall :=
| Print (s : string) (skipLocking : bool)
| Printf (format : string) (arguments : list Z).

(** The [switch] on the exception number; [cr2] is the address of a page fault. *)
Definition exceptionMessage (exceptionNumber errorCode cr2 : Z) : KoutCall :=
  if exceptionNumber =? CPU_DE then Print "Division exception"%string false
  else if exceptionNumber =? CPU_DB then Print "Debug trap"%string false
  else if exceptionNumber =? CPU_NMI then Print "Non-maskable interrupt"%string false
  else if exceptionNumber =? CPU_BP then Print "Breakpoint"%string false
  else if exceptionNumber =? CPU_OF then Print "Overflow exception"%string false
  else if exceptionNumber =? CPU_BR then Print "Bound range exception"%string false
  else if exceptionNumber =? CPU_UD then Print "Invalid opcode"%string false
  else if exceptionNumber =? CPU_NM then Print "Device not available"%string false
  else if exceptionNumber =? CPU_DF then Print "Double fault"%string false
  else if exceptionNumber =? CPU_TS then Print "Invalid TSS"%string false
  else if exceptionNumber =? CPU_NP then Print "Segment not present: %d"%string (negb (errorCode =? 0))
  else if exceptionNumber =? CPU_SS then Print "Stack exception"%string false
  else if exceptionNumber =? CPU_GP then Printf "General protection fault (0x%d)"%string [errorCode]
  else if exceptionNumber =? CPU_PF then Printf "Page fault (%x) on address %p"%string [errorCode; cr2]
  else if exceptionNumber =? CPU_MF then Print "X87 error"%string false
  else if exceptionNumber =? CPU_AC then Print "Alignment check exception"%string false
  else if exceptionNumber =? CPU_MC then Print "Machine check exception"%string false
  else if exceptionNumber =? CPU_XF then Print "SSE exception"%string false
  else if exceptionNumber =? CPU_CP then Print "Control transfer exception"%string false
  else if exceptionNumber =? CPU_HV then Print "Hyper visor exception"%string false
  else if exceptionNumber =? CPU_VC then Print "VMM communication exception"%string false
  else if exceptionNumber =? CPU_SX then Print "Security exception"%string false
  else Print "Unimplemented exception number"%string false.

(** What is printed, and how the handler ends. Line ends are left out. *)
Definition handleCpuException (exceptionNumber errorCode : Z) (frame : InterruptStackFrame) (cr2 : Z) : list KoutCall * outcome unit :=
  ([Printf "Exception at address %p:"%string [rip frame]; exceptionMessage exceptionNumber errorCode cr2],
   Panic "Non recoverable exception caught").


(** ** The descriptors *)












(** ** Handlers run in the order of their registration *)

(** A row with the handlers [hs] and free places. *)
Definition rowOf (hs : list IrqHandlerAndContext) : list IrqHandlerAndContext :=
  firstn MAX_IRQ_SHARING hs ++ replicate (MAX_IRQ_SHARING - List.length hs) (mkHandler 0 0).

Lemma addHandler_spec a k h : Forall (fun e => handler e <> 0) a ->
  addHandler (a ++ replicate k (mkHandler 0 0)) h = a ++ (match k with O => [] | S k => h :: replicate k (mkHandler 0 0) end).
Proof.
  induction 1 as [|e a He Ha IH]; [by destruct k|]. cbn [addHandler app]. rewrite (proj2 (Z.eqb_neq _ _) He). by rewrite IH.
Qed.

Lemma addHandler_rowOf hs h : Forall (fun e => handler e <> 0) hs -> addHandler (rowOf hs) h = rowOf (hs ++ [h]).
Proof.
  intros Hh. unfold rowOf. rewrite addHandler_spec by (by apply Forall_take). rewrite length_app. cbn [List.length].
  destruct (MAX_IRQ_SHARING - List.length hs)%nat as [|k] eqn:E.
  - rewrite take_app_le by lia. by replace (MAX_IRQ_SHARING - (List.length hs + 1))%nat with O by lia.
  - rewrite (take_ge hs), take_ge by (rewrite ?length_app; cbn [List.length]; lia).
    replace (MAX_IRQ_SHARING - (List.length hs + 1))%nat with k by lia. by rewrite <- app_assoc.
Qed.

(** A call of [registerIrqHandlerBase]. *)
Record Registration := mkRegistration {
  reg_class : IrqClass;
  reg_irq : Z;
  reg_handler : IrqHandlerAndContext;
  reg_level : bool;
  reg_high : bool
}.

Section Dispatch.
Context {W : Type} {M : Mmio W}.
Context (ioApics : list IoApic) (localApicIds : list Z) (localApic : Z).
Context (call : IrqHandlerAndContext -> W -> W) (tick receiveCall : W -> W).

Abbreviation register := (registerIrqHandlerBase ioApics localApicIds).

Fixpoint registerAll (t : IrqTable) (w : W) (l : list Registration) : outcome (IrqTable * W) :=
  match l with
  | [] => Ok (t, w)
  | r :: l => let! '(t, w) := register t w (reg_class r) (reg_irq r) (reg_handler r) (reg_level r) (reg_high r) in registerAll t w l
  end.

(** The vector a registration is for. *)
Definition vectorOf (r : Registration) : Z :=
  match reg_class r with
  | STANDARD => u32 (reg_irq r + IO_APIC_INTERRUPT_BASE)
  | LOCAL_INTERRUPT => reg_irq r
  | MSI => u32 (reg_irq r + u32 (IO_APIC_INTERRUPT_BASE + getGsiCount ioApics))
  end.

Lemma register_spec t (w : W) r t' w' :
  register t w (reg_class r) (reg_irq r) (reg_handler r) (reg_level r) (reg_high r) = Ok (t', w') ->
  vectorOf r < 256 /\ t' = alter (fun row => addHandler row (reg_handler r)) (Z.to_nat (vectorOf r)) t.
Proof.
  unfold registerIrqHandlerBase, vectorOf. intros E. destruct (reg_class r); cbn [obind] in E; inv_ok;
    match type of E with (if ?b then _ else _) = _ => destruct b eqn:Eb end; try discriminate E; inv_ok; apply Z.leb_gt in Eb; done.
Qed.

Definition handlersFor (v : Z) (l : list Registration) : list IrqHandlerAndContext :=
  omap (fun r => if vectorOf r =? v then Some (reg_handler r) else None) l.

Definition registration_wf (r : Registration) : Prop := 0 <= reg_irq r /\ handler (reg_handler r) <> 0.

Lemma vectorOf_nonneg r : registration_wf r -> 0 <= vectorOf r.
Proof. intros [Hr _]. unfold vectorOf. destruct (reg_class r); [apply u32_range|done|apply u32_range]. Qed.

Lemma registerAll_rows l : forall t (w : W) t' w' v hs,
  Forall registration_wf l -> 0 <= v -> registerAll t w l = Ok (t', w') ->
  Forall (fun e => handler e <> 0) hs -> t !! Z.to_nat v = Some (rowOf hs) -> t' !! Z.to_nat v = Some (rowOf (hs ++ handlersFor v l)).
Proof.
  induction l as [|r l IH]; intros t w t' w' v hs Hl Hv E Hh Ht; cbn [registerAll] in E.
  - inv_ok. cbn. by rewrite app_nil_r.
  - apply Forall_cons in Hl as [Hr Hl]. inv_ok. apply register_spec in E0 as [_ ->]. pose proof (vectorOf_nonneg r Hr) as Hn.
    cbn [handlersFor omap list_omap]. destruct (Z.eqb_spec (vectorOf r) v) as [Ev|Ev].
    + subst v. erewrite (IH _ _ _ _ _ (hs ++ [reg_handler r]) Hl Hv E).
      * by rewrite <- app_assoc.
      * apply Forall_app_2; [done|]. constructor; [apply Hr|constructor].
      * etransitivity; [apply list_lookup_alter_eq|]. rewrite Ht. cbn [fmap option_fmap option_map]. by rewrite addHandler_rowOf.
    + apply (IH _ _ _ _ _ hs Hl Hv E Hh). etransitivity; [apply list_lookup_alter_ne; lia|done].
Qed.

Lemma run_loop_spec a k (w : W) : Forall (fun e => handler e <> 0) a ->
  run_loop call (a ++ replicate k (mkHandler 0 0)) w = fold_left (fun w h => call h w) a w.
Proof.
  intros Ha. revert w. induction Ha as [|e a He Ha IH]; intros w; [by destruct k|]. cbn [run_loop app fold_left].
  rewrite (proj2 (Z.eqb_neq _ _) He). cbn [negb]. apply IH.
Qed.

(** [C25] After any sequence of registrations that succeed, an interrupt on a
    vector other than the timer's and the one for calls between CPUs runs the
    first sixteen handlers registered for that vector, each once and in the
    order of registration, with their contexts, and then ends the interrupt at
    the local APIC exactly when the vector is in service. *)
Theorem interrupt_dispatched l (w : W) t w' w1 v :
  Forall registration_wf l -> registerAll noHandlers w l = Ok (t, w') ->
  0 <= v < 256 -> v <> APIC_TIMER_INTERRUPT -> v <> PROCESSOR_CALLBACK_INTERRUPT ->
  handleInterrupt localApic call tick receiveCall t w1 v
  = let w2 := fold_left (fun w h => call h w) (firstn 16 (handlersFor v l)) w1 in
    let '(s, w3) := inService localApic w2 v in if s then eoi localApic w3 else w3.
Proof.
  intros Hl E Hv H1 H2. unfold handleInterrupt.
  rewrite (proj2 (Z.eqb_neq v APIC_TIMER_INTERRUPT) H1), (proj2 (Z.eqb_neq v PROCESSOR_CALLBACK_INTERRUPT) H2).
  rewrite (registerAll_rows l noHandlers w t w' v [] Hl ltac:(lia) E ltac:(constructor)).
  - cbn [from_option id app]. unfold rowOf. rewrite run_loop_spec; [reflexivity|]. apply Forall_take. unfold handlersFor.
    clear -Hl. induction Hl as [|r l Hr Hl IH]; cbn [omap list_omap]; [constructor|]. destruct (vectorOf r =? v); [|done].
    constructor; [apply Hr|done].
  - unfold noHandlers, rowOf. apply lookup_replicate. split; [reflexivity|lia].
Qed.
End Dispatch.

(** ** An example: the world records the handlers that ran *)

Record Recorder := mkRecorder { ran : list Z; eois : Z }.

(** The register of the vectors 32 to 63 says that 33 is in service. *)
#[export] Instance Recorder_mmio : Mmio Recorder := {
  read8 w _ := (0, w);
  read16 w _ := (0, w);
  read32 w a := (if a =? 0x9110 then 2 else 0, w);
  read64 w _ := (0, w);
  write32 w a _ := if a =? 0x90b0 then mkRecorder (ran w) (eois w + 1) else w;
  write64 w _ _ := w
}.

Definition record (h : IrqHandlerAndContext) (w : Recorder) : Recorder := mkRecorder (ran w ++ [context h]) (eois w).

Definition someRegistrations : list Registration :=
  [mkRegistration LOCAL_INTERRUPT 33 (mkHandler 0x100 1) false true; mkRegistration MSI 0 (mkHandler 0x100 2) false true;
   mkRegistration MSI 1 (mkHandler 0x200 3) false true].

Lemma interrupt_dispatched_witness :
  exists t w', registerAll [] [] noHandlers (mkRecorder [] 0) someRegistrations = Ok (t, w') /\
    handleInterrupt 0x9000 record id id t w' 33 = mkRecorder [1; 3] 1.
Proof.
  destruct (registerAll [] [] noHandlers (mkRecorder [] 0) someRegistrations) as [[t w']| | |] eqn:E; try (vm_compute in E; discriminate E).
  exists t, w'. split; [reflexivity|].
  rewrite (interrupt_dispatched [] [] 0x9000 record id id someRegistrations (mkRecorder [] 0) t w' w' 33); [|
    repeat constructor; cbn; lia|exact E|lia|discriminate|discriminate].
  vm_compute in E. injection E as _ <-. vm_compute. reflexivity.
Defined.

(** An I/O APIC interrupt past the table is mapped, truncated, and unmasked
    before it is refused: 0x100 is delivered on vector 0x20. *)
Lemma vector_truncated : u8 (0x100 + IO_APIC_INTERRUPT_BASE) = 0x20.
Proof. reflexivity. Qed.

(** The seventeenth handler of a vector is dropped. *)
Lemma seventeenth_dropped h : handler h <> 0 -> addHandler (rowOf (replicate 16 h)) h = rowOf (replicate 16 h).
Proof. intros Hh. rewrite addHandler_rowOf; [reflexivity|]. by apply Forall_replicate. Qed.

(** The error code of a missing segment is passed as [skipLocking]. *)
Lemma error_code_skips_locking cr2 : exceptionMessage CPU_NP 0x18 cr2 = Print "Segment not present: %d" true.
Proof. reflexivity. Qed.
