(* ===== verification/Processors.v ===== *)
(** * Calls between processors ([processors.h], [processors.cpp], [smp.h],
    [smp.cpp])

    [runOn] gives a callback to another CPU through its mailbox, sends it an
    interrupt and waits until the callback lets it return. Every access to a
    mailbox is a step of its own and the steps of all CPUs interleave. A CPU
    inside [runOn] has its interrupts disabled by the lock of the mailbox; a
    callback runs in the interrupt handler of its CPU, calls
    [letCallerReturn] once and calls no other CPU. *)

From Stdlib Require Import ZArith Lia.
From stdpp Require Import base tactics numbers functions list.
From S2P Require Import Prelude Acpi Apic Hpet.

Definition MAX_CPUS : nat := 64.

(** ** State *)

(** A call: the CPU that calls and the number of the call among its calls. *)
Definition Call : Type := nat * nat.

(** [callback] is null or points to the callback of a call. *)
Record MailboxEntry := mkMailbox { mb_lock : bool; callback : option Call; callerCanReturn : bool }.

(** Where a CPU is in [runOn (cpuNumber, callback)] of its call number [k]. *)
Inductive Caller :=
| Idle
| Acquire (cpuNumber k : nat)
| SetCallback (cpuNumber k : nat)
| ClearFlag (cpuNumber k : nat)
| Send (cpuNumber k : nat)
| Wait (cpuNumber k : nat)
| CleanUp (cpuNumber k : nat)
| Release (cpuNumber k : nat).

(** Where a CPU is in [receiveCall]: before the test of the pointer, before
    the pointer is read again, in the callback before and after it calls
    [letCallerReturn], or past a null pointer. *)
Inductive Receiver :=
| NoInterrupt
| Test
| Invoke
| Running (call : Call)
| Returned
| NullCallback.

(** [ipi]: an interrupt of the vector [PROCESSOR_CALLBACK_INTERRUPT] is pending.
    [calls] counts the calls of a CPU. [executed] holds the CPU and the call of
    each callback that ran, [returned] those of each [runOn] that returned. *)
Record Cpus := mkCpus {
  mailboxes : nat -> MailboxEntry;
  caller : nat -> Caller;
  receiver : nat -> Receiver;
  ipi : nat -> bool;
  calls : nat -> nat;
  executed : list (nat * Call);
  returned : list (nat * Call)
}.

Definition Cpus_init : Cpus :=
  mkCpus (fun _ => mkMailbox false None false) (fun _ => Idle) (fun _ => NoInterrupt) (fun _ => false) (fun _ => O) [] [].

Definition set_mailbox (s : Cpus) (i : nat) (m : MailboxEntry) : Cpus :=
  mkCpus (<[i := m]> (mailboxes s)) (caller s) (receiver s) (ipi s) (calls s) (executed s) (returned s).
Definition set_caller (s : Cpus) (i : nat) (c : Caller) : Cpus :=
  mkCpus (mailboxes s) (<[i := c]> (caller s)) (receiver s) (ipi s) (calls s) (executed s) (returned s).
Definition set_receiver (s : Cpus) (i : nat) (r : Receiver) : Cpus :=
  mkCpus (mailboxes s) (caller s) (<[i := r]> (receiver s)) (ipi s) (calls s) (executed s) (returned s).
Definition set_ipi (s : Cpus) (i : nat) (b : bool) : Cpus :=
  mkCpus (mailboxes s) (caller s) (receiver s) (<[i := b]> (ipi s)) (calls s) (executed s) (returned s).

(** ** Steps *)

(** [runOn], one access at a time. A number that is too large does nothing. *)
Inductive runOn (i : nat) : Cpus -> Cpus -> Prop :=
| runOn_call s t : caller s i = Idle -> receiver s i = NoInterrupt -> (t < MAX_CPUS)%nat ->
    runOn i s (mkCpus (mailboxes s) (<[i := Acquire t (calls s i)]> (caller s)) (receiver s) (ipi s)
                 (<[i := S (calls s i)]> (calls s)) (executed s) (returned s))
| runOn_acquire s t k : caller s i = Acquire t k -> mb_lock (mailboxes s t) = false ->
    runOn i s (set_caller (set_mailbox s t (mkMailbox true (callback (mailboxes s t)) (callerCanReturn (mailboxes s t)))) i (SetCallback t k))
| runOn_setCallback s t k : caller s i = SetCallback t k ->
    runOn i s (set_caller (set_mailbox s t (mkMailbox (mb_lock (mailboxes s t)) (Some (i, k)) (callerCanReturn (mailboxes s t)))) i (ClearFlag t k))
| runOn_clearFlag s t k : caller s i = ClearFlag t k ->
    runOn i s (set_caller (set_mailbox s t (mkMailbox (mb_lock (mailboxes s t)) (callback (mailboxes s t)) false)) i (Send t k))
| runOn_send s t k : caller s i = Send t k ->
    runOn i s (set_caller (set_ipi s t true) i (Wait t k))
| runOn_wait s t k : caller s i = Wait t k -> callerCanReturn (mailboxes s t) = true ->
    runOn i s (set_caller s i (CleanUp t k))
| runOn_cleanUp s t k : caller s i = CleanUp t k ->
    runOn i s (set_caller (set_mailbox s t (mkMailbox (mb_lock (mailboxes s t)) None (callerCanReturn (mailboxes s t)))) i (Release t k))
| runOn_release s t k : caller s i = Release t k ->
    runOn i s (mkCpus (<[t := mkMailbox false (callback (mailboxes s t)) (callerCanReturn (mailboxes s t))]> (mailboxes s))
                 (<[i := Idle]> (caller s)) (receiver s) (ipi s) (calls s) (executed s) ((t, (i, k)) :: returned s)).

(** The interrupt and [receiveCall] with the callback. *)
Inductive receiveCall (i : nat) : Cpus -> Cpus -> Prop :=
| receive_interrupt s : ipi s i = true -> caller s i = Idle -> receiver s i = NoInterrupt ->
    receiveCall i s (set_receiver (set_ipi s i false) i Test)
| receive_test s : receiver s i = Test ->
    receiveCall i s (set_receiver s i (match callback (mailboxes s i) with Some _ => Invoke | None => NoInterrupt end))
| receive_invoke s : receiver s i = Invoke ->
    receiveCall i s (set_receiver s i (match callback (mailboxes s i) with Some c => Running c | None => NullCallback end))
| letCallerReturn s c : receiver s i = Running c ->
    receiveCall i s (mkCpus (<[i := mkMailbox (mb_lock (mailboxes s i)) (callback (mailboxes s i)) true]> (mailboxes s)) (caller s)
                       (<[i := Returned]> (receiver s)) (ipi s) (calls s) ((i, c) :: executed s) (returned s))
| receive_return s : receiver s i = Returned ->
    receiveCall i s (set_receiver s i NoInterrupt).

Definition step (s s' : Cpus) : Prop := exists i, runOn i s s' \/ receiveCall i s s'.

(** ** The invariant *)

(** The mailbox whose lock a CPU holds. *)
Definition holds (p : Caller) : option nat :=
  match p with
  | Idle | Acquire _ _ => None
  | SetCallback t _ | ClearFlag t _ | Send t _ | Wait t _ | CleanUp t _ | Release t _ => Some t
  end.

Definition resting (r : Receiver) : Prop := r = NoInterrupt \/ r = Returned.

Definition active (r : Receiver) : Prop := match r with NoInterrupt | Returned => False | _ => True end.

(** The call [k] of CPU [i] was made and its callback did not run. *)
Definition fresh (s : Cpus) (i k : nat) : Prop := (k < calls s i)%nat /\ forall t, (t, (i, k)) ∉ executed s.

(** The CPU [t] is about to run, or runs, the callback of the call. *)
Definition delivering (s : Cpus) (t i k : nat) : Prop :=
  ipi s t = true /\ resting (receiver s t) \/
  ipi s t = false /\ (receiver s t = Test \/ receiver s t = Invoke \/ receiver s t = Running (i, k)).

Definition phase (s : Cpus) (i : nat) (p : Caller) : Prop :=
  match p with
  | Idle => True
  | Acquire t k => fresh s i k
  | SetCallback t k => mb_lock (mailboxes s t) = true /\ callback (mailboxes s t) = None /\ fresh s i k
  | ClearFlag t k => mb_lock (mailboxes s t) = true /\ callback (mailboxes s t) = Some (i, k) /\ fresh s i k
  | Send t k => mb_lock (mailboxes s t) = true /\ callback (mailboxes s t) = Some (i, k) /\
      callerCanReturn (mailboxes s t) = false /\ fresh s i k
  | Wait t k => mb_lock (mailboxes s t) = true /\ callback (mailboxes s t) = Some (i, k) /\
      if callerCanReturn (mailboxes s t)
      then (ipi s t = false /\ resting (receiver s t)) /\ (t, (i, k)) ∈ executed s
      else fresh s i k /\ delivering s t i k
  | CleanUp t k => mb_lock (mailboxes s t) = true /\ callback (mailboxes s t) = Some (i, k) /\ (t, (i, k)) ∈ executed s
  | Release t k => mb_lock (mailboxes s t) = true /\ callback (mailboxes s t) = None /\ (t, (i, k)) ∈ executed s
  end.

Record inv (s : Cpus) : Prop := {
  inv_irq i : caller s i <> Idle -> receiver s i = NoInterrupt;
  inv_phase i : phase s i (caller s i);
  inv_unique i j t : holds (caller s i) = Some t -> holds (caller s j) = Some t -> i = j;
  inv_free t : mb_lock (mailboxes s t) = false -> callback (mailboxes s t) = None;
  inv_active t : ipi s t = true \/ active (receiver s t) -> exists i k, caller s i = Wait t k;
  inv_null t : receiver s t <> NullCallback;
  inv_calls t i k : (t, (i, k)) ∈ executed s -> (k < calls s i)%nat;
  inv_once : NoDup (snd <$> executed s);
  inv_returned x : x ∈ returned s -> x ∈ executed s
}.

Lemma inv_init : inv Cpus_init.
Proof.
  split; cbn; try done.
  - intros t [?|[]]; done.
  - intros t i k H. by apply elem_of_nil in H.
  - constructor.
Qed.

Lemma holds_locked s i t : phase s i (caller s i) -> holds (caller s i) = Some t -> mb_lock (mailboxes s t) = true.
Proof. intros Hp Hh. destruct (caller s i); cbn in *; simplify_eq; tauto. Qed.

(** What a phase depends on. *)
Lemma phase_frame s s' i p :
  phase s i p -> (calls s i <= calls s' i)%nat -> (forall t k, (t, (i, k)) ∈ executed s' <-> (t, (i, k)) ∈ executed s) ->
  (forall t, holds p = Some t -> mailboxes s' t = mailboxes s t /\ receiver s' t = receiver s t /\ ipi s' t = ipi s t) ->
  phase s' i p.
Proof.
  intros Hp Hc He Hh.
  assert (Hf : forall k, fresh s i k -> fresh s' i k) by (intros k [H1 H2]; split; [lia|intros t; rewrite He; apply H2]).
  destruct p; cbn [phase holds] in *; unfold delivering in *; rewrite ?He; auto;
    try (destruct (Hh _ eq_refl) as (-> & Hr & Hi)); rewrite ?Hr, ?Hi; try (intuition auto; fail).
  destruct (callerCanReturn _); rewrite ?He; intuition auto.
Qed.

(** A step of [runOn] on CPU [i] that has the mailbox [t] to itself. *)
Lemma inv_caller_step s s' i t p :
  inv s -> caller s i <> Idle ->
  (holds (caller s i) = Some t \/ holds (caller s i) = None /\ mb_lock (mailboxes s t) = false) ->
  caller s' = <[i := p]> (caller s) ->
  (forall t', t' <> t -> mailboxes s' t' = mailboxes s t' /\ ipi s' t' = ipi s t') ->
  receiver s' = receiver s -> calls s' = calls s -> executed s' = executed s ->
  (holds p = None \/ holds p = Some t) ->
  phase s' i p ->
  (mb_lock (mailboxes s' t) = false -> callback (mailboxes s' t) = None) ->
  (ipi s' t = true \/ active (receiver s t) -> exists k, p = Wait t k) ->
  (forall x, x ∈ returned s' -> x ∈ executed s') ->
  inv s'.
Proof.
  intros Hinv Hi Hown Hc Hm Hr Hca He Hp Hph Hfree Hact Hret.
  assert (Hother : forall j t', i <> j -> holds (caller s j) = Some t' -> t' <> t).
  { intros j t' Hij Hj ->. destruct Hown as [Hown|[_ Hl]]; [by apply Hij, (inv_unique s Hinv i j t)|].
    rewrite (holds_locked s j t (inv_phase s Hinv j) Hj) in Hl. discriminate Hl. }
  split.
  - intros j Hj. rewrite Hr. rewrite Hc in Hj. destruct (decide (i = j)) as [->|Hij]; [by apply (inv_irq s Hinv)|].
    rewrite fn_lookup_insert_ne in Hj by done. by apply (inv_irq s Hinv).
  - intros j. rewrite Hc. destruct (decide (i = j)) as [->|Hij]; [by rewrite fn_lookup_insert|].
    rewrite fn_lookup_insert_ne by done. apply (phase_frame s); [apply (inv_phase s Hinv)|by rewrite Hca|by rewrite He|].
    intros t' Ht'. destruct (Hm t' (Hother j t' Hij Ht')) as [-> ->]. by rewrite Hr.
  - intros j1 j2 t'. rewrite Hc. unfold insert, fn_insert. destruct (decide (i = j1)) as [<-|N1], (decide (i = j2)) as [<-|N2]; intros H1 H2.
    + done.
    + exfalso. apply (Hother j2 t'); [done|done|]. destruct Hp as [Hp|Hp]; congruence.
    + exfalso. apply (Hother j1 t'); [done|done|]. destruct Hp as [Hp|Hp]; congruence.
    + by apply (inv_unique s Hinv j1 j2 t').
  - intros t'. destruct (decide (t' = t)) as [->|Ht]; [done|]. destruct (Hm t' Ht) as [-> _]. apply (inv_free s Hinv).
  - intros t'. destruct (decide (t' = t)) as [->|Ht].
    + rewrite Hr. intros Ha. destruct (Hact Ha) as [k ->]. exists i, k. by rewrite Hc, fn_lookup_insert.
    + destruct (Hm t' Ht) as [_ ->]. rewrite Hr. intros Ha. destruct (inv_active s Hinv t' Ha) as (j & k & Hj). exists j, k.
      rewrite Hc, fn_lookup_insert_ne; [done|]. intros ->. rewrite Hj in Hown. cbn in Hown. destruct Hown as [|[]]; congruence.
  - intros t'. rewrite Hr. apply (inv_null s Hinv).
  - intros t' j k. rewrite He, Hca. apply (inv_calls s Hinv).
  - rewrite He. apply (inv_once s Hinv).
  - done.
Qed.

(** Without an owner that waits, nothing is pending or running. *)
Lemma calm s i t : inv s -> holds (caller s i) = Some t -> (forall k, caller s i <> Wait t k) ->
  ~ (ipi s t = true \/ active (receiver s t)).
Proof.
  intros Hinv Hh Hn Ha. destruct (inv_active s Hinv t Ha) as (j & k & Hj).
  assert (i = j) as <- by (apply (inv_unique s Hinv i j t); [done|by rewrite Hj]). by apply (Hn k).
Qed.

Ltac caller_step i t :=
  eapply (inv_caller_step _ _ i t); cbn [set_caller set_mailbox set_ipi mailboxes caller receiver ipi calls executed returned];
  [eassumption|congruence| |reflexivity
  |intros t' Ht'; rewrite ?fn_lookup_insert_ne by (intros e; apply Ht'; symmetry; exact e); split; reflexivity
  |reflexivity|reflexivity|reflexivity|cbn; auto| | | |].

Lemma runOn_inv i s s' : inv s -> runOn i s s' -> inv s'.
Proof.
  intros Hinv Hs. pose proof (inv_phase s Hinv i) as Hp. pose proof (inv_returned s Hinv) as Hret.
  destruct Hs as [s t Hi Hr Ht|s t k Hi Hl|s t k Hi|s t k Hi|s t k Hi|s t k Hi Hc|s t k Hi|s t k Hi]; rewrite Hi in Hp; cbn [phase] in Hp.
  - split; cbn.
    + intros j. destruct (decide (i = j)) as [->|Hij]; [done|]. rewrite fn_lookup_insert_ne by done. apply (inv_irq s Hinv).
    + intros j. destruct (decide (i = j)) as [->|Hij].
      * rewrite fn_lookup_insert. cbn [phase]. split; cbn [calls executed]; [rewrite fn_lookup_insert; lia|].
        intros t' Hin. apply (inv_calls s Hinv) in Hin. lia.
      * rewrite fn_lookup_insert_ne by done. apply (phase_frame s); cbn; [apply (inv_phase s Hinv)| |done|done].
        by rewrite fn_lookup_insert_ne.
    + intros j1 j2 t'. unfold insert, fn_insert. repeat case_decide; cbn; try done. apply (inv_unique s Hinv).
    + apply (inv_free s Hinv).
    + intros t' Ha. destruct (inv_active s Hinv t' Ha) as (j & k & Hj). exists j, k. rewrite fn_lookup_insert_ne; [done|]. intros ->. congruence.
    + apply (inv_null s Hinv).
    + intros t' j k Hin. apply (inv_calls s Hinv) in Hin. unfold insert, fn_insert. case_decide; subst; lia.
    + apply (inv_once s Hinv).
    + apply (inv_returned s Hinv).
  - caller_step i t; rewrite ?fn_lookup_insert; cbn [mb_lock callback]; try done.
    + right. by rewrite Hi.
    + cbn. rewrite fn_lookup_insert. cbn. split; [done|]. split; [by apply (inv_free s Hinv)|done].
    + intros Ha. destruct (inv_active s Hinv t Ha) as (j & k' & Hj).
      rewrite (holds_locked s j t) in Hl; [done|apply (inv_phase s Hinv)|by rewrite Hj].
  - caller_step i t; rewrite ?fn_lookup_insert; cbn [mb_lock callback].
    + left. by rewrite Hi.
    + cbn. rewrite fn_lookup_insert. cbn. tauto.
    + destruct Hp as (-> & _). done.
    + intros Ha. exfalso. apply (calm s i t Hinv); [by rewrite Hi|congruence|done].
    + done.
  - caller_step i t; rewrite ?fn_lookup_insert; cbn [mb_lock callback].
    + left. by rewrite Hi.
    + cbn. rewrite fn_lookup_insert. cbn. tauto.
    + destruct Hp as (-> & _). done.
    + intros Ha. exfalso. apply (calm s i t Hinv); [by rewrite Hi|congruence|done].
    + done.
  - caller_step i t.
    + left. by rewrite Hi.
    + destruct Hp as (H1 & H2 & H3 & H4). cbn [phase set_caller set_ipi mailboxes]. rewrite H3. split; [done|]. split; [done|]. split; [done|].
      left. cbn. rewrite fn_lookup_insert. split; [done|].
      destruct (receiver s t) eqn:Er; try (by left); try (by right); exfalso; apply (calm s i t Hinv); try (by rewrite Hi); try congruence; rewrite Er; cbn; by right.
    + destruct Hp as (-> & _). done.
    + intros _. by exists k.
    + done.
  - caller_step i t.
    + left. by rewrite Hi.
    + cbn. rewrite Hc in Hp. tauto.
    + destruct Hp as (-> & _). done.
    + rewrite Hc in Hp. intros [Ha|Ha]; [destruct Hp as (_ & _ & (Hp & _) & _); congruence|].
      destruct Hp as (_ & _ & (_ & [E|E]) & _); rewrite E in Ha; done.
    + done.
  - caller_step i t; rewrite ?fn_lookup_insert; cbn [mb_lock callback].
    + left. by rewrite Hi.
    + cbn. rewrite fn_lookup_insert. cbn. tauto.
    + done.
    + intros Ha. exfalso. apply (calm s i t Hinv); [by rewrite Hi|congruence|done].
    + done.
  - caller_step i t; rewrite ?fn_lookup_insert; cbn [mb_lock callback].
    + left. by rewrite Hi.
    + done.
    + tauto.
    + intros Ha. exfalso. apply (calm s i t Hinv); [by rewrite Hi|congruence|done].
    + intros x Hx. apply elem_of_cons in Hx as [->|Hx]; [tauto|auto].
Qed.

(** A call is in delivery: its callback is in the mailbox and did not run. *)
Lemma delivering_owner s t : inv s -> ipi s t = true \/ active (receiver s t) ->
  exists j k, caller s j = Wait t k /\ mb_lock (mailboxes s t) = true /\ callback (mailboxes s t) = Some (j, k) /\
    callerCanReturn (mailboxes s t) = false /\ fresh s j k /\ delivering s t j k.
Proof.
  intros Hinv Ha. destruct (inv_active s Hinv t Ha) as (j & k & Hj). exists j, k. split; [done|].
  pose proof (inv_phase s Hinv j) as Hp. rewrite Hj in Hp. cbn [phase] in Hp. destruct Hp as (H1 & H2 & H3).
  destruct (callerCanReturn (mailboxes s t)); [|tauto]. exfalso. destruct H3 as [[Hi [Hr|Hr]] _], Ha as [Ha|Ha]; rewrite ?Hr in Ha; done || congruence.
Qed.

(** A step of the receiver [t] while the call [k] of [j] is in delivery. *)
Lemma inv_receiver_step s s' t j k :
  inv s -> caller s j = Wait t k -> caller s t = Idle ->
  caller s' = caller s -> calls s' = calls s -> returned s' = returned s ->
  (forall t', t' <> t -> mailboxes s' t' = mailboxes s t' /\ receiver s' t' = receiver s t' /\ ipi s' t' = ipi s t') ->
  mb_lock (mailboxes s' t) = true -> receiver s' t <> NullCallback -> phase s' j (Wait t k) ->
  (executed s' = executed s \/ executed s' = (t, (j, k)) :: executed s /\ fresh s j k) ->
  inv s'.
Proof.
  intros Hinv Hj Hidle Hc Hca Hret Hm Hl Hnull Hph He.
  assert (Hmono : forall x, x ∈ executed s -> x ∈ executed s') by (destruct He as [->|[-> _]]; [done|by right]).
  split; rewrite ?Hc, ?Hca, ?Hret.
  - intros i Hi. destruct (decide (i = t)) as [->|Hit]; [done|]. destruct (Hm i Hit) as (_ & -> & _). by apply (inv_irq s Hinv).
  - intros i. destruct (decide (i = j)) as [->|Hij]; [by rewrite Hj|].
    apply (phase_frame s); [apply (inv_phase s Hinv)|by rewrite Hca| |].
    + intros t' k'. destruct He as [->|[-> _]]; [done|]. rewrite elem_of_cons. naive_solver.
    + intros t' Ht'. apply Hm. intros ->. apply Hij, (inv_unique s Hinv i j t); [done|by rewrite Hj].
  - apply (inv_unique s Hinv).
  - intros t' Ht'. destruct (decide (t' = t)) as [->|Htt]; [congruence|]. destruct (Hm t' Htt) as (E & _ & _). rewrite E in *.
    by apply (inv_free s Hinv).
  - intros t' Ha. destruct (decide (t' = t)) as [->|Htt]; [by eauto|]. destruct (Hm t' Htt) as (_ & E1 & E2). rewrite E1, E2 in Ha.
    by apply (inv_active s Hinv).
  - intros t'. destruct (decide (t' = t)) as [->|Htt]; [done|]. destruct (Hm t' Htt) as (_ & -> & _). apply (inv_null s Hinv).
  - intros t' i k'. destruct He as [->|[-> [Hlt _]]]; [apply (inv_calls s Hinv)|]. intros Hin. apply elem_of_cons in Hin as [?|Hin]; [by simplify_eq|].
    by apply (inv_calls s Hinv) in Hin.
  - destruct He as [->|[-> [_ Hf]]]; [apply (inv_once s Hinv)|]. cbn. constructor; [|apply (inv_once s Hinv)].
    intros Hin. apply list_elem_of_fmap in Hin as ([t' ?] & Ek & Hin). cbn in Ek. subst. by apply (Hf t').
  - intros x Hx. by apply Hmono, (inv_returned s Hinv).
Qed.

Lemma receiving_idle s t : inv s -> receiver s t <> NoInterrupt -> caller s t = Idle.
Proof. intros Hinv Hr. destruct (caller s t) eqn:E; try done; exfalso; apply Hr, (inv_irq s Hinv); by rewrite E. Qed.

Ltac receiver_step t j k :=
  eapply (inv_receiver_step _ _ t j k); cbn [set_receiver set_ipi mailboxes caller receiver ipi calls executed returned];
  [eassumption|eassumption| |reflexivity|reflexivity|reflexivity
  |intros t' Ht'; rewrite ?fn_lookup_insert_ne by (intros e; apply Ht'; symmetry; exact e); auto|rewrite ?fn_lookup_insert; assumption|rewrite fn_lookup_insert| |].

Lemma receiveCall_inv t s s' : inv s -> receiveCall t s s' -> inv s'.
Proof.
  intros Hinv Hs. destruct Hs as [s Hi Hc Hr|s Hr|s Hr|s c Hr|s Hr].
  - destruct (delivering_owner s t Hinv ltac:(by left)) as (j & k & Hj & Hl & Hcb & Hccr & Hf & Hd). receiver_step t j k.
    + done.
    + done.
    + cbn [phase set_receiver set_ipi mailboxes]. rewrite Hccr. split; [done|]. split; [done|]. split; [done|]. right. cbn.
      rewrite !fn_lookup_insert. auto.
    + by left.
  - destruct (delivering_owner s t Hinv ltac:(rewrite Hr; by right)) as (j & k & Hj & Hl & Hcb & Hccr & Hf & Hd).
    rewrite Hcb. receiver_step t j k.
    + apply receiving_idle; [done|congruence].
    + done.
    + cbn [phase set_receiver mailboxes]. rewrite Hccr. split; [done|]. split; [done|]. split; [done|]. right. cbn. rewrite fn_lookup_insert.
      destruct Hd as [[_ [E|E]]|[E _]]; [congruence|congruence|auto].
    + by left.
  - destruct (delivering_owner s t Hinv ltac:(rewrite Hr; by right)) as (j & k & Hj & Hl & Hcb & Hccr & Hf & Hd).
    rewrite Hcb. receiver_step t j k.
    + apply receiving_idle; [done|congruence].
    + done.
    + cbn [phase set_receiver mailboxes]. rewrite Hccr. split; [done|]. split; [done|]. split; [done|]. right. cbn. rewrite fn_lookup_insert.
      destruct Hd as [[_ [E|E]]|[E _]]; [congruence|congruence|auto].
    + by left.
  - destruct (delivering_owner s t Hinv ltac:(rewrite Hr; by right)) as (j & k & Hj & Hl & Hcb & Hccr & Hf & Hd).
    assert (c = (j, k)) as -> by (destruct Hd as [[_ [E|E]]|[_ [E|[E|E]]]]; congruence).
    assert (Hipi : ipi s t = false) by (destruct Hd as [[_ [E|E]]|[E _]]; congruence). receiver_step t j k.
    + apply receiving_idle; [done|congruence].
    + done.
    + cbn [phase mailboxes]. rewrite fn_lookup_insert. cbn. rewrite fn_lookup_insert. split; [done|]. split; [done|].
      split; [split; [done|by right]|by left].
    + by right.
  - split; cbn.
    + intros i Hi. apply (inv_irq s Hinv) in Hi. unfold insert, fn_insert. by case_decide.
    + intros i. pose proof (inv_phase s Hinv i) as Hp. 
      assert (Hrest : forall t', resting (receiver s t') -> resting (<[t:=NoInterrupt]> (receiver s) t')).
      { intros t' Hr'. unfold insert, fn_insert. case_decide; [by left|done]. }
      assert (Hact : forall t', active (receiver s t') -> <[t:=NoInterrupt]> (receiver s) t' = receiver s t').
      { intros t' Ha. apply fn_lookup_insert_ne. intros ->. by rewrite Hr in Ha. }
      destruct (caller s i) as [|t' k|t' k|t' k|t' k|t' k|t' k|t' k]; try exact Hp. cbn [phase set_receiver mailboxes] in *.
      destruct Hp as (H1 & H2 & H3). split; [done|]. split; [done|]. destruct (callerCanReturn (mailboxes s t')).
      * destruct H3 as [[H3 H4] H5]. split; [split; [done|by apply Hrest]|done].
      * destruct H3 as [H3 [[H4 H5]|[H4 H5]]]; (split; [done|]); [left; split; [done|by apply Hrest]|right; split; [done|]].
        cbn. rewrite Hact; [done|]. destruct H5 as [->|[-> | ->]]; done.
    + apply (inv_unique s Hinv).
    + apply (inv_free s Hinv).
    + intros t' Ha. apply (inv_active s Hinv). destruct Ha as [Ha|Ha]; [by left|]. unfold insert, fn_insert in Ha. case_decide; [done|by right].
    + intros t'. unfold insert, fn_insert. case_decide; [done|apply (inv_null s Hinv)].
    + apply (inv_calls s Hinv).
    + apply (inv_once s Hinv).
    + apply (inv_returned s Hinv).
Qed.

Lemma reachable_inv s : star step Cpus_init s -> inv s.
Proof.
  intros Hs. apply (star_invariant step inv) with (2 := Hs); [|apply inv_init].
  intros a b Ha [i [H|H]]; [by eapply runOn_inv|by eapply receiveCall_inv].
Qed.

(** [C2] Whatever the interleaving of calls between any CPUs: a callback runs at
    most once, and on the CPU it was sent to; [runOn] returns only after that;
    [receiveCall] never calls a null pointer; and while a callback runs, up to
    [letCallerReturn], its caller is still inside [runOn], so that the callback
    on the caller's stack exists. *)
Theorem runOn_safe s :
  star step Cpus_init s ->
  NoDup (snd <$> executed s) /\
  (forall t i k, (t, (i, k)) ∈ returned s -> (t, (i, k)) ∈ executed s) /\
  (forall t, receiver s t <> NullCallback) /\
  (forall t i k, receiver s t = Running (i, k) -> caller s i = Wait t k /\ callerCanReturn (mailboxes s t) = false).
Proof.
  intros Hs. apply reachable_inv in Hs as Hinv. split; [apply (inv_once s Hinv)|]. split; [intros t i k; apply (inv_returned s Hinv)|].
  split; [apply (inv_null s Hinv)|]. intros t i k Hr.
  destruct (delivering_owner s t Hinv ltac:(rewrite Hr; by right)) as (j & k' & Hj & _ & _ & Hccr & _ & Hd).
  destruct Hd as [[_ [E|E]]|[_ [E|[E|E]]]]; try congruence. rewrite Hr in E. by simplify_eq.
Qed.

(** ** Deadlock

    A CPU in [runOn] cannot take the interrupt, so two CPUs that wait for each
    other, or a CPU that waits for itself, wait for ever. *)

Definition deadlocked (s : Cpus) (a b : nat) : Prop :=
  (exists k, caller s a = Wait b k) /\ (exists k, caller s b = Wait a k) /\
  callerCanReturn (mailboxes s a) = false /\ callerCanReturn (mailboxes s b) = false /\
  mb_lock (mailboxes s a) = true /\ mb_lock (mailboxes s b) = true /\
  receiver s a = NoInterrupt /\ receiver s b = NoInterrupt.

Lemma deadlocked_caller i s s' a b : inv s -> deadlocked s a b -> runOn i s s' -> deadlocked s' a b.
Proof.
  intros Hinv ([ka Ha] & [kb Hb] & Fa & Fb & La & Lb & Ra & Rb) Hs.
  assert (Hi : forall p, caller s i = p -> (forall t k, p = Wait t k -> callerCanReturn (mailboxes s t) = true) -> i <> a /\ i <> b).
  { intros p Hp Hw. split; intros ->; [rewrite (Hw b ka) in Fb|rewrite (Hw a kb) in Fa]; congruence. }
  assert (Hother : forall t, i <> a -> i <> b -> holds (caller s i) = Some t -> t <> a /\ t <> b).
  { intros t Na Nb Ht. split; intros ->; [apply Nb, (inv_unique s Hinv i b a)|apply Na, (inv_unique s Hinv i a b)]; rewrite ?Hb, ?Ha; done. }
  destruct Hs as [s t Ei Hr Ht|s t k Ei Hl|s t k Ei|s t k Ei|s t k Ei|s t k Ei Hc|s t k Ei|s t k Ei];
    destruct (Hi _ Ei) as [Na Nb]; try (intros ?? [=]; subst; congruence); try (by intros; simplify_eq);
    try (destruct (Hother t Na Nb) as [Ta Tb]; [by rewrite Ei|]);
    unfold deadlocked; cbn; rewrite ?fn_lookup_insert_ne by done; try (repeat split; eauto; fail).
  assert (t <> a /\ t <> b) as [Ta Tb] by (split; intros ->; congruence).
  rewrite !fn_lookup_insert_ne by done. repeat split; eauto.
Qed.

Lemma deadlocked_receiver i s s' a b : deadlocked s a b -> receiveCall i s s' -> deadlocked s' a b.
Proof.
  intros ([ka Ha] & [kb Hb] & Fa & Fb & La & Lb & Ra & Rb) Hs.
  destruct Hs as [s Hi Hc Hr|s Hr|s Hr|s c Hr|s Hr];
    (assert (i <> a /\ i <> b) as [Na Nb] by (split; intros ->; congruence));
    unfold deadlocked; cbn; rewrite ?fn_lookup_insert_ne by done; repeat split; eauto.
Qed.

(** Two CPUs that wait for each other, or one for itself ([a = b]), never
    return, whatever all CPUs do from then on. *)
Theorem runOn_deadlock s a b :
  star step Cpus_init s -> deadlocked s a b -> forall s', star step s s' -> deadlocked s' a b.
Proof.
  intros Hs Hd s' Hs'. apply reachable_inv in Hs as Hinv.
  enough (H : inv s' /\ deadlocked s' a b) by apply H.
  apply (star_invariant step (fun s => inv s /\ deadlocked s a b)) with (2 := Hs'); [|done].
  intros s1 s2 [H1 H2] [i [H|H]]; (split; [first [by eapply runOn_inv|by eapply receiveCall_inv]|]).
  - by eapply deadlocked_caller.
  - by eapply deadlocked_receiver.
Qed.

(** ** Executions *)

Ltac caller_does i := eapply star_step; [exists i; left; econstructor; first [reflexivity|cbv; lia]|].
Ltac receiver_does i := eapply star_step; [exists i; right; econstructor; reflexivity|].

(** CPU 0 runs a callback on CPU 1. *)
Lemma call_returns : exists s, star step Cpus_init s /\ returned s = [(1, (0, 0))]%nat.
Proof.
  eexists. split.
  - eapply star_step; [exists 0%nat; left; apply (runOn_call 0 Cpus_init 1); [reflexivity|reflexivity|cbv; lia]|].
    do 4 caller_does 0%nat. do 5 receiver_does 1%nat. do 3 caller_does 0%nat. apply star_refl.
  - reflexivity.
Qed.

Lemma runOn_safe_witness :
  exists s, star step Cpus_init s /\ returned s = [(1, (0, 0))]%nat /\ (1, (0, 0))%nat ∈ executed s.
Proof.
  destruct call_returns as (s & Hs & Hr). exists s. split; [exact Hs|]. split; [exact Hr|].
  apply (proj1 (proj2 (runOn_safe s Hs))). rewrite Hr. left.
Defined.

(** CPUs 0 and 1 call each other at the same time, as in two TLB shootdowns. *)
Lemma mutual_call : exists s, star step Cpus_init s /\ deadlocked s 0 1.
Proof.
  eexists. split.
  - eapply star_step; [exists 0%nat; left; apply (runOn_call 0 Cpus_init 1); [reflexivity|reflexivity|cbv; lia]|].
    eapply star_step; [exists 1%nat; left; eapply (runOn_call 1 _ 0); [reflexivity|reflexivity|cbv; lia]|].
    do 4 caller_does 0%nat. do 4 caller_does 1%nat. apply star_refl.
  - unfold deadlocked. cbn. repeat split; eauto.
Qed.

Lemma runOn_deadlock_witness :
  exists s, star step Cpus_init s /\ forall s', star step s s' -> deadlocked s' 0 1.
Proof.
  destruct mutual_call as (s & Hs & Hd). exists s. split; [exact Hs|]. exact (runOn_deadlock s 0 1 Hs Hd).
Defined.

(** ** Starting CPUs *)

Open Scope Z_scope.

Definition SMP_TRAMPOLINE_PAGE : Z := 8.

Section Smp.
Context {W : Type} `{Mmio W}.
(** A read of the volatile counter [runningCpus], which a CPU that starts
    increments. *)
Context (runningCpus : W -> Z * W).

(** Polling for the counter until [deadline]; [fuel] bounds the polls. *)
Fixpoint poll_loop (fuel : nat) (w : W) (previousRunningCpus deadline : Z) (hpet : Hpet) : outcome W :=
  match fuel with
  | O => Hang
  | S fuel =>
      let '(running, w) := runningCpus w in
      if running =? previousRunningCpus then
        let '(t, w) := nanoTime hpet w in
        if t <? deadline then poll_loop fuel w previousRunningCpus deadline hpet else Ok w
      else Ok w
  end.

Definition startCpu (fuel : nat) (localApic : Z) (w : W) (apicId : Z) (hpet : Hpet) : outcome (bool * W) :=
  let '(previousRunningCpus, w) := runningCpus w in
  let w := clearErrors localApic w in
  let! w := sendIpi localApic fuel w 0 APIC_INIT_IPI false true false apicId in
  let! w := wait fuel hpet w 10000000 in
  let w := clearErrors localApic w in
  let! w := sendIpi localApic fuel w SMP_TRAMPOLINE_PAGE APIC_STARTUP_IPI false true false apicId in
  let! w := wait fuel hpet w 1000000 in
  let '(running, w) := runningCpus w in
  if previousRunningCpus <? running then Ok (true, w)
  else
    let w := clearErrors localApic w in
    let! w := sendIpi localApic fuel w SMP_TRAMPOLINE_PAGE APIC_STARTUP_IPI false true false apicId in
    let '(pollStart, w) := nanoTime hpet w in
    let! w := poll_loop fuel w previousRunningCpus (u64 (pollStart + 1000000000)) hpet in
    let '(running, w) := runningCpus w in
    Ok (previousRunningCpus <? running, w).

(** [stacks::allocateStack]. *)
Context {S : Type} (allocateStack : S -> outcome (Z * S)).

(** The stacks of the CPUs from [i] on, [n] of them. *)
Fixpoint allocateStacks_loop (n : nat) (i : Z) (initialStackPointers : list Z) (s : S) : outcome (list Z * S) :=
  match n with
  | O => Ok (initialStackPointers, s)
  | Datatypes.S n =>
      let! '(p, s) := allocateStack s in
      allocateStacks_loop n (i + 1) (<[Z.to_nat i := p]> initialStackPointers) s
  end.

Definition allocateStacks (numLocalApics : Z) (initialStackPointers : list Z) (s : S) : outcome (list Z * S) :=
  allocateStacks_loop (Z.to_nat (numLocalApics - 1)) 1 initialStackPointers s.
End Smp.

(** The table has a place for each possible CPU. *)
Definition getInitialStackPointer (initialStackPointers : list Z) (cpuNumber : Z) : outcome Z :=
  of_option (initialStackPointers !! Z.to_nat cpuNumber).
