(* ===== verification/Shootdown.v ===== *)
(** * Unmapping on several processors ([kmalloc.cpp], [paging.cpp],
    [processors.cpp])

    [memory::unmapMemory] interleaved with the other CPUs: their accesses fill
    their TLBs from the page table at any time, and their calls go through the
    mailboxes of [Processors]. [Kmalloc.unmapMemory] is the same operation on
    one CPU, with the effect on the others as one step. *)

From Stdlib Require Import ZArith Lia.
From stdpp Require Import base tactics numbers functions list.
From S2P Require Import Prelude Processors.

(** ** State *)

(** Where the CPU is in [unmapMemory]: at one of the three effects of
    [unmapPage] on a page, at the test of the loop over the processors, in the
    call of a processor, or past the loop. *)
Inductive Pc :=
| ReturnFrame (page : nat)
| ClearEntry (page : nat)
| InvalidateTlb (page : nat)
| Loop (i : nat)
| Called (i k : nat)
| ReturnMemory.

(** The pages of the range are numbered; [entries] has their frames in the
    page table and [tlbs] those each CPU has cached. [freeFrames] are the
    frames given back. *)
Record Unmap := mkUnmap {
  cpus : Cpus;
  pc : Pc;
  entries : nat -> option Z;
  tlbs : nat -> nat -> option Z;
  freeFrames : list Z
}.

#[export] Instance Pc_eq_dec : EqDecision Pc.
Proof. solve_decision. Defined.

Section Shootdown.
(** CPU [u] of [n] unmaps [pages] pages; [allocated] are those whose entry has
    the flag. *)
Context (u n pages : nat) (allocated : nat -> bool).

Definition frameOf (s : Unmap) (j : nat) : list Z :=
  if allocated j then match entries s j with Some f => [f] | None => [] end else [].

(** [invalidateTlb] for all pages, on CPU [t]. *)
Definition invalidateAll (t : nat) (tlbs : nat -> nat -> option Z) : nat -> nat -> option Z :=
  <[t := fun j => if decide (j < pages)%nat then None else tlbs t j]> tlbs.

(** The callback of the call runs on CPU [t]. *)
Definition runCallback (p : Pc) (t : nat) (c : Call) (tlbs : nat -> nat -> option Z) : nat -> nat -> option Z :=
  match p with
  | Called i k => if decide (c = (u, k)) then invalidateAll t tlbs else tlbs
  | _ => tlbs
  end.

Inductive unmapMemory : Unmap -> Unmap -> Prop :=
| um_noEntry s j : pc s = ReturnFrame j -> (j < pages)%nat -> entries s j = None ->
    unmapMemory s (mkUnmap (cpus s) (ReturnFrame (S j)) (entries s) (tlbs s) (freeFrames s))
| um_returnFrame s j : pc s = ReturnFrame j -> (j < pages)%nat ->
    unmapMemory s (mkUnmap (cpus s) (ClearEntry j) (entries s) (tlbs s) (frameOf s j ++ freeFrames s))
| um_clear s j : pc s = ClearEntry j ->
    unmapMemory s (mkUnmap (cpus s) (InvalidateTlb j) (<[j := None]> (entries s)) (tlbs s) (freeFrames s))
| um_invalidate s j : pc s = InvalidateTlb j ->
    unmapMemory s (mkUnmap (cpus s) (ReturnFrame (S j)) (entries s) (<[u := <[j := None]> (tlbs s u)]> (tlbs s)) (freeFrames s))
| um_unmapped s : pc s = ReturnFrame pages ->
    unmapMemory s (mkUnmap (cpus s) (Loop 0) (entries s) (tlbs s) (freeFrames s))
| um_self s : pc s = Loop u -> (u < n)%nat ->
    unmapMemory s (mkUnmap (cpus s) (Loop (S u)) (entries s) (tlbs s) (freeFrames s))
| um_call s i c' : pc s = Loop i -> (i < n)%nat -> i <> u ->
    runOn u (cpus s) c' -> caller c' u = Acquire i (calls (cpus s) u) -> calls c' u = S (calls (cpus s) u) ->
    unmapMemory s (mkUnmap c' (Called i (calls (cpus s) u)) (entries s) (tlbs s) (freeFrames s))
| um_return s i k : pc s = Called i k -> (i, (u, k)) ∈ returned (cpus s) ->
    unmapMemory s (mkUnmap (cpus s) (Loop (S i)) (entries s) (tlbs s) (freeFrames s))
| um_done s : pc s = Loop n ->
    unmapMemory s (mkUnmap (cpus s) ReturnMemory (entries s) (tlbs s) (freeFrames s)).

(** A step of the call, of a call between processors, or of a callback. *)
Inductive work : Unmap -> Unmap -> Prop :=
| wk_unmap s s' : unmapMemory s s' -> work s s'
| wk_call s c' : step (cpus s) c' -> calls c' u = calls (cpus s) u -> executed c' = executed (cpus s) ->
    work s (mkUnmap c' (pc s) (entries s) (tlbs s) (freeFrames s))
| wk_callback s c' t c : step (cpus s) c' -> calls c' u = calls (cpus s) u -> executed c' = (t, c) :: executed (cpus s) ->
    work s (mkUnmap c' (pc s) (entries s) (runCallback (pc s) t c (tlbs s)) (freeFrames s)).

(** The accesses of all CPUs, which may fill a TLB or drop from it. *)
Inductive access : Unmap -> Unmap -> Prop :=
| ac_fill s t j f : (t < n)%nat -> entries s j = Some f ->
    access s (mkUnmap (cpus s) (pc s) (entries s) (<[t := <[j := Some f]> (tlbs s t)]> (tlbs s)) (freeFrames s))
| ac_evict s t j :
    access s (mkUnmap (cpus s) (pc s) (entries s) (<[t := <[j := None]> (tlbs s t)]> (tlbs s)) (freeFrames s)).

Definition machine (s s' : Unmap) : Prop := work s s' \/ access s s'.

(** No other CPU begins a call in the step. *)
Definition alone (s s' : Unmap) : Prop := forall t, t <> u -> calls (cpus s') t = calls (cpus s) t.

(** [run k s s']: an execution in which no other CPU calls, with [k] steps of
    [work] and any accesses between them. *)
Inductive run : nat -> Unmap -> Unmap -> Prop :=
| run_refl s : run 0 s s
| run_work k s0 s s' : run k s0 s -> work s s' -> alone s s' -> run (S k) s0 s'
| run_access k s0 s s' : run k s0 s -> access s s' -> run k s0 s'.

(** The call begins when its CPU makes no other, and the TLBs agree with the
    page table. *)
Record begins (s : Unmap) : Prop := {
  be_cpus : star step Cpus_init (cpus s);
  be_pc : pc s = ReturnFrame 0;
  be_tlbs t j f : (t < n)%nat -> tlbs s t j = Some f -> entries s j = Some f
}.

(** ** The invariant *)

(** Pages whose entry is cleared. *)
Definition cleared (p : Pc) (j : nat) : Prop :=
  match p with
  | ReturnFrame j0 | ClearEntry j0 => (j < j0)%nat
  | InvalidateTlb j0 => (j <= j0)%nat
  | _ => True
  end /\ (j < pages)%nat.

(** CPUs that may still have a translation for a cleared page. *)
Definition stale (s : Unmap) (t j : nat) : Prop :=
  match pc s with
  | ReturnFrame _ | ClearEntry _ => t <> u
  | InvalidateTlb j0 => t <> u \/ j = j0
  | Loop i => t <> u /\ (i <= t)%nat
  | Called i k => t <> u /\ ((i < t)%nat \/ t = i /\ (i, (u, k)) ∉ executed (cpus s))
  | ReturnMemory => False
  end.

Record unmap_inv (s : Unmap) : Prop := {
  un_cpus : inv (cpus s);
  un_pages : match pc s with ReturnFrame j => (j <= pages)%nat | ClearEntry j | InvalidateTlb j => (j < pages)%nat | _ => True end;
  un_cleared j : cleared (pc s) j -> entries s j = None;
  un_tlbs t j f : (t < n)%nat -> tlbs s t j = Some f -> entries s j = Some f \/ cleared (pc s) j /\ stale s t j
}.

Lemma begins_inv s : begins s -> unmap_inv s.
Proof.
  intros [H1 H2 H3]. constructor; rewrite ?H2.
  - by apply reachable_inv.
  - apply Nat.le_0_l.
  - intros j [H _]. cbn in H. lia.
  - intros t j f Ht E. left. by eapply H3.
Qed.

(** A fill or an eviction of one translation. *)
Lemma tlb_lookup (tlbs : nat -> nat -> option Z) t j x t' j' :
  <[t := <[j := x]> (tlbs t)]> tlbs t' j' = if decide (t' = t /\ j' = j) then x else tlbs t' j'.
Proof.
  destruct (decide (t' = t)) as [->|Ht].
  - rewrite fn_lookup_insert. destruct (decide (j' = j)) as [->|Hj].
    + rewrite fn_lookup_insert. by rewrite decide_True.
    + rewrite fn_lookup_insert_ne by done. by rewrite decide_False by tauto.
  - rewrite fn_lookup_insert_ne by done. by rewrite decide_False by tauto.
Qed.

Lemma unmap_step_inv s s' : unmap_inv s -> unmapMemory s s' -> unmap_inv s'.
Proof.
  intros [Hc Hp He Ht] Hs. destruct Hs as [s j E Hj En|s j E Hj|s j E|s j E|s E|s E Hu|s i c' E Hi Hu Hr Hca Hk|s i k E Hr|s E];
    rewrite E in Hp, He; unfold stale in Ht; rewrite E in Ht; constructor; cbn [cpus pc entries tlbs]; try done; unfold stale; cbn [pc cpus].
  - intros j' [H1 H2]. destruct (decide (j' = j)) as [->|]; [done|]. apply He. split; [lia|done].
  - intros t j' f Hn Hf. destruct (Ht t j' f Hn Hf) as [?|[[H1 H2] H3]]; [by left|right]. split; [split; [lia|done]|done].
  - intros j' [H1 H2]. destruct (decide (j' = j)) as [->|Hne]; [by rewrite fn_lookup_insert|].
    rewrite fn_lookup_insert_ne by done. apply He. split; [lia|done].
  - intros t j' f Hn Hf. destruct (decide (j' = j)) as [->|Hne]; [right; split; [split; [lia|done]|by right]|].
    rewrite fn_lookup_insert_ne by done. destruct (Ht t j' f Hn Hf) as [?|[[H1 H2] H3]]; [by left|right].
    split; [split; [lia|done]|by left].
  - intros j' [H1 H2]. apply He. split; [lia|done].
  - intros t j' f Hn. rewrite tlb_lookup. case_decide as Hd; [done|]. intros Hf.
    destruct (Ht t j' f Hn Hf) as [?|[[H1 H2] H3]]; [by left|right]. split; [split; [lia|done]|]. intros ->. destruct H3; tauto.
  - intros j' [_ H]. apply He. split; [lia|done].
  - intros t j' f Hn Hf. destruct (Ht t j' f Hn Hf) as [?|[[H1 H2] H3]]; [by left|right]. split; [done|]. split; [done|lia].
  - intros t j' f Hn Hf. destruct (Ht t j' f Hn Hf) as [?|[H1 [H2 H3]]]; [by left|right]. split; [done|]. split; [done|lia].
  - by eapply runOn_inv.
  - intros t j' f Hn Hf. destruct (Ht t j' f Hn Hf) as [?|[H1 [H2 H3]]]; [by left|right]. split; [done|]. split; [done|].
    destruct (decide (t = i)) as [->|]; [right; split; [done|]|left; lia].
    intros Hx. assert (He' : executed c' = executed (cpus s)) by (inversion Hr; done). rewrite He' in Hx.
    apply (inv_calls _ Hc) in Hx. lia.
  - intros t j' f Hn Hf. destruct (Ht t j' f Hn Hf) as [?|[H1 [H2 H3]]]; [by left|right]. split; [done|]. split; [done|].
    destruct H3 as [H3|[-> H3]]; [lia|]. destruct H3. by apply (inv_returned _ Hc).
  - intros t j' f Hn Hf. destruct (Ht t j' f Hn Hf) as [?|[H1 [H2 H3]]]; [by left|lia].
Qed.

Lemma step_cpus_inv c c' : inv c -> step c c' -> inv c'.
Proof. intros H [i [Hs|Hs]]; [by eapply runOn_inv|by eapply receiveCall_inv]. Qed.

Lemma runCallback_le p t c tl t' j f : runCallback p t c tl t' j = Some f -> tl t' j = Some f.
Proof.
  unfold runCallback, invalidateAll. destruct p; try done. destruct (decide (c = (u, k))); [|done].
  destruct (decide (t' = t)) as [->|Ht]; [|by rewrite fn_lookup_insert_ne by done]. rewrite fn_lookup_insert. by destruct (decide _).
Qed.

Lemma machine_inv s s' : unmap_inv s -> machine s s' -> unmap_inv s'.
Proof.
  intros Hinv [Hm|Hm]; [destruct Hm as [s1 s2 Hs|s1 c' Hs Hk Hx|s1 c' t c Hs Hk Hx]|destruct Hm as [s1 t j f Ht He|s1 t j]]; [by eapply unmap_step_inv|..];
    destruct Hinv as [Hc Hp Hcl Htl]; constructor; cbn [cpus pc entries tlbs]; try done; try (by eapply step_cpus_inv).
  - unfold stale in *. cbn [pc cpus]. rewrite Hx. done.
  - intros t' j f Hn Hf. pose proof (runCallback_le _ _ _ _ _ _ _ Hf) as Hf0. destruct (Htl t' j f Hn Hf0) as [?|[H1 H2]]; [by left|right].
    split; [done|]. unfold stale in *. cbn [pc cpus]. destruct (pc s1) as [| | | |i k|]; try done. destruct H2 as [H2 H3]. split; [done|].
    destruct H3 as [H3|[-> H3]]; [by left|right]. split; [done|]. rewrite Hx, elem_of_cons. intros [Hd|Hd]; [|done].
    injection Hd as <- <-. unfold runCallback, invalidateAll in Hf. rewrite decide_True in Hf by done. rewrite fn_lookup_insert in Hf.
    destruct H1 as [_ H1]. by rewrite decide_True in Hf by done.
  - intros t' j' f' Hn. rewrite tlb_lookup. case_decide as Hd; [destruct Hd as [-> ->]; intros [= <-]; by left|]. by apply Htl.
  - intros t' j' f' Hn. rewrite tlb_lookup. case_decide as Hd; [done|]. by apply Htl.
Qed.

(** ** The call ends when the other CPUs make none

    A measure decreases in every step of [work], and until [ReturnMemory] such
    a step is possible. *)

Definition quiet (c : Cpus) : Prop :=
  (forall i, caller c i = Idle) /\ (forall i, receiver c i = NoInterrupt) /\ (forall i, ipi c i = false) /\
  forall t, mb_lock (mailboxes c t) = false.

(** The call a CPU is in: the CPU called and the number. *)
Definition callOf (p : Caller) : option (nat * nat) :=
  match p with
  | Idle => None
  | Acquire t k | SetCallback t k | ClearFlag t k | Send t k | Wait t k | CleanUp t k | Release t k => Some (t, k)
  end.

(** Only CPU [u] calls, and only CPUs below [n]. *)
Record solo (c : Cpus) : Prop := {
  so_inv : inv c;
  so_others i : i <> u -> caller c i = Idle;
  so_receiver t : receiver c t <> NoInterrupt -> (t < n)%nat /\ t <> u;
  so_lock t : mb_lock (mailboxes c t) = true -> holds (caller c u) = Some t;
  so_target t k : callOf (caller c u) = Some (t, k) -> (t < n)%nat /\ t <> u;
  so_returned t k t' : callOf (caller c u) = Some (t, k) -> (t', (u, k)) ∉ returned c
}.

(** How many steps a CPU has left in [runOn] and in [receiveCall]; sending the
    interrupt gives the other CPU five. *)
Definition callerRank (p : Caller) : nat :=
  match p with
  | Idle => 0 | Acquire _ _ => 13 | SetCallback _ _ => 12 | ClearFlag _ _ => 11 | Send _ _ => 10 | Wait _ _ => 4 | CleanUp _ _ => 3
  | Release _ _ => 2
  end.

Definition receiverRank (c : Cpus) (t : nat) : nat :=
  (if ipi c t then 5 else 0) +
  match receiver c t with Test => 4 | Invoke => 3 | Running _ => 2 | Returned => 1 | _ => 0 end.

Definition cpusRank (c : Cpus) : nat := callerRank (caller c u) + sum_list_with (receiverRank c) (seq 0 n).

Lemma sum_update (f g : nat -> nat) t m : forall b, (b <= t < b + m)%nat -> (forall x, x <> t -> g x = f x) ->
  (sum_list_with g (seq b m) + f t = sum_list_with f (seq b m) + g t)%nat.
Proof.
  induction m as [|m IH]; intros b Ht Hg; [lia|]. cbn [seq sum_list_with]. destruct (decide (t = b)) as [->|Hne].
  - assert (E : sum_list_with g (seq (S b) m) = sum_list_with f (seq (S b) m)).
    { clear IH Ht. assert (H : forall x, (b < x)%nat -> g x = f x) by (intros x Hx; apply Hg; lia). clear Hg.
      enough (Hk : forall k, (b < k)%nat -> sum_list_with g (seq k m) = sum_list_with f (seq k m)) by (apply Hk; lia).
      induction m as [|m IH]; intros k Hk; [done|]. cbn [seq sum_list_with]. rewrite H, IH by lia. done. }
    rewrite E. lia.
  - specialize (IH (S b) ltac:(lia) Hg). rewrite (Hg b) by done. lia.
Qed.

(** A step that changes the rank of the receiver [t] alone. *)
Lemma rank_moves c c' t :
  (t < n)%nat -> (forall x, x <> t -> ipi c' x = ipi c x /\ receiver c' x = receiver c x) ->
  (callerRank (caller c' u) + receiverRank c' t < callerRank (caller c u) + receiverRank c t)%nat -> (cpusRank c' < cpusRank c)%nat.
Proof.
  intros Ht Hx Hr. unfold cpusRank.
  assert (E : forall x, x <> t -> receiverRank c' x = receiverRank c x) by (intros x Hne; unfold receiverRank; by destruct (Hx x Hne) as [-> ->]).
  pose proof (sum_update (receiverRank c) (receiverRank c') t n 0 ltac:(lia) E). lia.
Qed.

Local Ltac norm :=
  cbn [cpus pc entries tlbs freeFrames caller receiver ipi mailboxes calls executed returned
    set_caller set_mailbox set_receiver set_ipi mb_lock callback callerCanReturn] in *.
Local Ltac upd := unfold insert, fn_insert in *; repeat case_decide; subst; try done.

Lemma solo_runOn c c' j :
  solo c -> runOn j c c' -> (forall t, calls c' t = calls c t) ->
  j = u /\ solo c' /\ (cpusRank c' < cpusRank c)%nat /\ executed c' = executed c /\ (forall x, x ∈ returned c -> x ∈ returned c') /\
  exists t k, callOf (caller c u) = Some (t, k) /\ (callOf (caller c' u) = Some (t, k) \/ caller c' u = Idle /\ (t, (u, k)) ∈ returned c').
Proof.
  intros Hs Hr Hk. assert (Hinv' : inv c') by (eapply runOn_inv; [apply Hs|exact Hr]). pose proof Hs as [Hinv Ho Hrc Hlk Htg Hre].
  assert (Hj : caller c j <> Idle -> j = u) by (intros Hne; destruct (decide (j = u)) as [|Hju]; [done|by destruct Hne; apply Ho]).
  destruct Hr as [c t Hi H2 Ht|c t k Hi Hl|c t k Hi|c t k Hi|c t k Hi|c t k Hi Hc|c t k Hi|c t k Hi];
    [exfalso; specialize (Hk j); cbn in Hk; rewrite fn_lookup_insert in Hk; lia|..];
    (assert (j = u) as -> by (apply Hj; congruence)); destruct (Htg t k ltac:(by rewrite Hi)) as [Htn Htu]; clear Hj Hk;
    (split; [done|]); (split; [|split; [|split; [done|split; [intros x Hx; cbn; by try right|]]]]).
  all: try (exists t, k; rewrite Hi; norm; rewrite fn_lookup_insert; split; [done|]; first [by left|right; split; [done|by left]]).
  all: try (apply (rank_moves _ _ t); norm; [done|intros x Hx; by rewrite ?fn_lookup_insert_ne by done|];
    unfold receiverRank; norm; rewrite ?fn_lookup_insert, Hi; destruct (ipi c t); cbn; lia).
  all: split; [done|norm; intros i Hne; rewrite fn_lookup_insert_ne by done; by apply Ho|by norm|norm; intros t' Hl'|
    norm; intros t' k'; rewrite fn_lookup_insert; cbn; intros E; by simplify_eq|
    norm; intros t' k' t2; rewrite fn_lookup_insert; cbn; intros E; simplify_eq; by apply (Hre t'); rewrite Hi].
  all: rewrite fn_lookup_insert; cbn [holds]; upd; try (apply Hlk in Hl'; rewrite Hi in Hl'; by cbn in Hl').
  apply Hlk in Hl'. rewrite Hi in Hl'. cbn in Hl'. congruence.
Qed.

Lemma solo_receiveCall c c' j :
  solo c -> receiveCall j c c' ->
  solo c' /\ (cpusRank c' < cpusRank c)%nat /\ caller c' = caller c /\ returned c' = returned c.
Proof.
  intros Hs Hr. assert (Hinv' : inv c') by (eapply receiveCall_inv; [apply Hs|exact Hr]). pose proof Hs as [Hinv Ho Hrc Hlk Htg Hre].
  assert (Hj : (j < n)%nat /\ j <> u).
  { destruct Hr as [c Hi Hc Hr|c Hr|c Hr|c cl Hr|c Hr]; try (apply Hrc; congruence).
    destruct (inv_active c Hinv j ltac:(by left)) as (i & k & Hik). destruct (decide (i = u)) as [->|Hne]; [|by rewrite Ho in Hik].
    apply (Htg j k). by rewrite Hik. }
  destruct Hj as [Hn Hu]. split; [|split; [|by destruct Hr]].
  - split; [done|by destruct Hr|intros t Ht|intros t|by destruct Hr|by destruct Hr].
    + destruct Hr; norm; upd; by apply Hrc.
    + destruct Hr; norm; try apply Hlk. intros Ht. upd; by apply Hlk.
  - apply (rank_moves _ _ j); [done|destruct Hr; norm; intros x Hx; by rewrite ?fn_lookup_insert_ne by done|].
    destruct Hr as [c Hi Hc Hr|c Hr|c Hr|c cl Hr|c Hr]; unfold receiverRank; norm; rewrite ?fn_lookup_insert, ?Hi, ?Hr; destruct (ipi c j); cbn;
      try destruct (callback _); cbn; lia.
Qed.

(** The place of [unmapMemory] agrees with that of its CPU in [runOn]. *)
Definition atCall (s : Unmap) : Prop :=
  match pc s with
  | Called i k => (i < n)%nat /\ i <> u /\
      (callOf (caller (cpus s) u) = Some (i, k) \/ caller (cpus s) u = Idle /\ (i, (u, k)) ∈ returned (cpus s))
  | Loop i => caller (cpus s) u = Idle /\ (i <= n)%nat
  | _ => caller (cpus s) u = Idle
  end.

Record alone_inv (s : Unmap) : Prop := {
  al_unmap : unmap_inv s;
  al_solo : solo (cpus s);
  al_call : atCall s
}.

Definition pcRank (p : Pc) : nat :=
  match p with
  | ReturnFrame j => 3 * (pages - j) + 20 * n + 2
  | ClearEntry j => 3 * (pages - j) + 20 * n + 1
  | InvalidateTlb j => 3 * (pages - j) + 20 * n
  | Loop i => 20 * (n - i) + 1
  | Called i _ => 20 * (n - i) - 18
  | ReturnMemory => 0
  end.

Definition rank (s : Unmap) : nat := pcRank (pc s) + cpusRank (cpus s).

(** The whole call takes at most this many steps of [work]. *)
Definition steps : nat := 3 * pages + 20 * n + 2.

Lemma begins_alone s : begins s -> quiet (cpus s) -> alone_inv s /\ rank s = steps.
Proof.
  intros Hb (Q1 & Q2 & Q3 & Q4). pose proof (begins_inv s Hb) as Hi. split.
  - split; [done| |unfold atCall; by rewrite (be_pc s Hb)]. split; [apply Hi|by intros|intros t; by rewrite Q2|intros t; by rewrite Q4|intros t k; by rewrite Q1|intros t k t'; by rewrite Q1].
  - unfold rank, cpusRank, steps. rewrite (be_pc s Hb), Q1. cbn [pcRank callerRank].
    enough (E : forall b, sum_list_with (receiverRank (cpus s)) (seq b n) = O) by (rewrite E; lia).
    induction n as [|m IH]; intros b; [done|]. cbn [seq sum_list_with]. rewrite IH. unfold receiverRank. by rewrite Q2, Q3.
Qed.

Lemma work_alone s s' : alone_inv s -> work s s' -> alone s s' -> alone_inv s' /\ (rank s' < rank s)%nat.
Proof.
  intros [Hi Hs Hc] Hw Ha. assert (Hi' : unmap_inv s') by (eapply machine_inv; [exact Hi|by left]).
  assert (Hstep : forall c' tl, step (cpus s) c' -> calls c' u = calls (cpus s) u ->
    s' = mkUnmap c' (pc s) (entries s) tl (freeFrames s) -> alone_inv s' /\ (rank s' < rank s)%nat).
  { intros c' tl [j Hj] Hk ->. unfold alone in Ha. cbn [cpus] in Ha. unfold atCall in Hc. destruct Hj as [Hj|Hj].
    - destruct (solo_runOn _ _ j Hs Hj) as (-> & Hs' & Hr & _ & Hret & t & k & Et & Et');
        [intros t; destruct (decide (t = u)) as [->|]; [done|by apply Ha]|].
      split; [split; [done|done|]|unfold rank; cbn [cpus pc]; lia]. unfold atCall. cbn [cpus pc].
      destruct (pc s) as [| | | |i k0|]; try (rewrite ?(proj1 Hc), ?Hc in Et; done).
      destruct Hc as (H1 & H2 & [H3|[H3 _]]); [|by rewrite H3 in Et]. split; [done|]. split; [done|].
      rewrite H3 in Et. injection Et as <- <-. tauto.
    - destruct (solo_receiveCall _ _ j Hs Hj) as (Hs' & Hr & Ec & Er).
      split; [split; [done|done|]|unfold rank; cbn [cpus pc]; lia]. unfold atCall. cbn [cpus pc]. by rewrite Ec, Er. }
  destruct Hw as [s s' Hw|s c' Hst Hk Hx|s c' t c Hst Hk Hx]; [|by eapply Hstep|by eapply Hstep]. clear Hstep.
  pose proof (un_pages _ Hi) as Hp. pose proof (un_pages _ Hi') as Hp'. unfold atCall in Hc.
  destruct Hw as [s j E Hj En|s j E Hj|s j E|s j E|s E|s E Hu|s i c' E Hn Hne Hr Hca Hk|s i k E Hr|s E];
    rewrite E in Hp, Hc; cbn [pc] in Hp'.
  7: { inversion Hr as [? t Hid Hrec Ht| | | | | | | ]; subst; norm; try (exfalso; lia).
    rewrite fn_lookup_insert in Hca. injection Hca as ->. split; [split; [done| |]|].
    - destruct Hs as [H1 H2 H3 H4 H5 H6]. split; norm; [apply Hi'|intros x Hx; rewrite fn_lookup_insert_ne by done; by apply H2|done| | |].
      + intros t Hl. apply H4 in Hl. by rewrite Hid in Hl.
      + intros t k. rewrite fn_lookup_insert. cbn. intros [= <- <-]. done.
      + intros t k t'. rewrite fn_lookup_insert. cbn. intros [= <- <-] Hx. apply (inv_returned _ H1), (inv_calls _ H1) in Hx. lia.
    - unfold atCall. norm. rewrite fn_lookup_insert. split; [done|]. split; [done|]. by left.
    - unfold rank, cpusRank. norm. rewrite E, fn_lookup_insert, Hid. cbn [pcRank callerRank].
      change (receiverRank _) with (receiverRank (cpus s)) at 1. lia. }
  all: split; [split; [done|done|unfold atCall; cbn [pc cpus]; try (destruct Hc as [? Hc]); try split; try done; try lia]|
    unfold rank; rewrite E; cbn [pc cpus pcRank]; try lia].
  destruct Hc as (Hne & [Hc|[Hc _]]); [|done]. exfalso. by eapply (so_returned _ Hs).
Qed.

Lemma work_possible s : alone_inv s -> (n <= MAX_CPUS)%nat -> pc s <> ReturnMemory -> exists s', work s s' /\ alone s s'.
Proof.
  intros [Hi Hs Hc] Hm Hpc. unfold atCall in Hc. pose proof (un_pages _ Hi) as Hp.
  destruct (pc s) as [j|j|j|i|i k|] eqn:E; [| | | | |done].
  - destruct (decide (j = pages)) as [->|Hj]; (eexists; split; [apply wk_unmap|]);
      [by apply um_unmapped|done|apply (um_returnFrame _ j); [done|lia]|done].
  - eexists; split; [apply wk_unmap; by apply (um_clear _ j)|done].
  - eexists; split; [apply wk_unmap; by apply (um_invalidate _ j)|done].
  - destruct Hc as [Hc Hn]. destruct (decide (i = n)) as [->|Hin]; [eexists; split; [apply wk_unmap; by apply um_done|done]|].
    destruct (decide (i = u)) as [->|Hu]; [eexists; split; [apply wk_unmap; apply um_self; [done|lia]|done]|].
    assert (Hr : receiver (cpus s) u = NoInterrupt).
    { destruct (receiver (cpus s) u) eqn:Er; try done; destruct (so_receiver _ Hs u); congruence. }
    eexists. split; [apply wk_unmap; eapply (um_call _ i); [done|lia|done|by apply (runOn_call u (cpus s) i); [..|lia]|cbn; by rewrite fn_lookup_insert|cbn; by rewrite fn_lookup_insert]|].
    intros t Ht. cbn. by rewrite fn_lookup_insert_ne.
  - destruct Hc as (Hn & Hu & [Hc|[Hc Hr]]); [|eexists; split; [apply wk_unmap; by apply (um_return _ i k)|done]].
    assert (Hrun : forall c', runOn u (cpus s) c' -> calls c' = calls (cpus s) -> executed c' = executed (cpus s) -> exists s', work s s' /\ alone s s').
    { intros c' Hr Hk Hx. eexists. split; [eapply wk_call; [exists u; by left|by rewrite Hk|done]|]. intros t _. cbn. by rewrite Hk. }
    assert (Hrec : forall c', receiveCall i (cpus s) c' -> calls c' = calls (cpus s) -> executed c' = executed (cpus s) -> exists s', work s s' /\ alone s s').
    { intros c' Hr Hk Hx. eexists. split; [eapply wk_call; [exists i; by right|by rewrite Hk|done]|]. intros t _. cbn. by rewrite Hk. }
    pose proof (inv_phase _ (so_inv _ Hs) u) as Hph.
    destruct (caller (cpus s) u) as [|t k'|t k'|t k'|t k'|t k'|t k'|t k'] eqn:Ec; cbn in Hc; try done; injection Hc as -> ->; cbn [phase] in Hph.
    + assert (Hl : mb_lock (mailboxes (cpus s) i) = false).
      { destruct (mb_lock _) eqn:El; [|done]. apply (so_lock _ Hs) in El. by rewrite Ec in El. }
      eapply Hrun; [by apply (runOn_acquire u _ i k)|done|done].
    + eapply Hrun; [by apply (runOn_setCallback u _ i k)|done|done].
    + eapply Hrun; [by apply (runOn_clearFlag u _ i k)|done|done].
    + eapply Hrun; [by apply (runOn_send u _ i k)|done|done].
    + destruct Hph as (_ & Hcb & Hph). destruct (callerCanReturn _) eqn:Ef; [eapply Hrun; [by apply (runOn_wait u _ i k)|done|done]|].
      destruct Hph as [_ [[Hipi [Hr|Hr]]|[_ [Hr|[Hr|Hr]]]]].
      * eapply Hrec; [apply receive_interrupt; [done|by apply (so_others _ Hs)|done]|done|done].
      * eapply Hrec; [by apply receive_return|done|done].
      * eapply Hrec; [by apply receive_test|done|done].
      * eapply Hrec; [by apply receive_invoke|done|done].
      * eexists. split; [eapply wk_callback; [exists i; right; by apply letCallerReturn|done|done]|done].
    + eapply Hrun; [by apply (runOn_cleanUp u _ i k)|done|done].
    + eapply Hrun; [by apply (runOn_release u _ i k)|done|done].
Qed.

Lemma run_alone k s0 s : run k s0 s -> alone_inv s0 -> alone_inv s /\ (rank s + k <= rank s0)%nat.
Proof.
  induction 1 as [s|k s0 s s' Hr IH Hw Ha|k s0 s s' Hr IH Ha]; intros H0; [split; [done|lia]|..]; destruct (IH H0) as [Hi Hk].
  - destruct (work_alone s s' Hi Hw Ha) as [Hi' Hlt]. split; [done|lia].
  - assert (Hu : unmap_inv s') by (eapply machine_inv; [apply Hi|by right]). destruct Hi as [_ H2 H3]. by destruct Ha.
Qed.

Lemma run_machine k s0 s : run k s0 s -> star machine s0 s.
Proof.
  induction 1 as [s|k s0 s s' Hr IH Hw Ha|k s0 s s' Hr IH Ha]; [apply star_refl|..];
    (eapply star_trans; [exact IH|]); apply star_one; [by left|by right].
Qed.

Lemma run_ends s0 : alone_inv s0 -> (n <= MAX_CPUS)%nat ->
  forall d k s, run k s0 s -> (rank s <= d)%nat -> exists k' s', run k' s0 s' /\ pc s' = ReturnMemory.
Proof.
  intros H0 Hm. induction d as [|d IH]; intros k s Hr Hd; destruct (run_alone k s0 s Hr H0) as [Hi _];
    (destruct (decide (pc s = ReturnMemory)) as [|Hpc]; [by exists k, s|]);
    destruct (work_possible s Hi Hm Hpc) as (s' & Hw & Ha); destruct (work_alone s s' Hi Hw Ha) as [_ Hlt]; [lia|].
  apply (IH (S k) s'); [by eapply run_work|lia].
Qed.

(** ** Properties *)

(** [C9] TLB shootdown, with the accesses and calls of all CPUs interleaved:
    when [unmapMemory] gets to giving the range back to the heap, and from then
    on, no CPU has a translation for a page of the range in its TLB or can get
    one from the page table, so that the next owner of the addresses never sees
    the old pages. Before that a CPU that was not called yet may still have old
    translations, but only for pages whose entries are cleared. When no other
    CPU makes a call at the same time, [unmapMemory] gets there on every
    schedule: whatever was run so far, a step is possible, and the steps of all
    CPUs together, apart from their memory accesses, are at most [steps]. *)
Theorem shootdown_complete s0 :
  begins s0 ->
  (forall s, star machine s0 s ->
    (pc s = ReturnMemory -> forall t j, (t < n)%nat -> (j < pages)%nat -> tlbs s t j = None /\ entries s j = None) /\
    (forall t j f, (t < n)%nat -> tlbs s t j = Some f -> entries s j = Some f \/ cleared (pc s) j /\ stale s t j)) /\
  (quiet (cpus s0) -> (n <= MAX_CPUS)%nat ->
    (forall k s, run k s0 s -> (k <= steps)%nat /\ (pc s = ReturnMemory \/ exists s', work s s' /\ alone s s')) /\
    exists k s, run k s0 s /\ pc s = ReturnMemory).
Proof.
  intros Hb. split.
  - intros s Hs. assert (Hinv : unmap_inv s).
    { apply (star_invariant machine unmap_inv) with (2 := Hs); [|by apply begins_inv]. intros a b Ha. by apply machine_inv. }
    split; [|apply (un_tlbs _ Hinv)].
    intros Hpc t j Ht Hj. assert (He : entries s j = None) by (apply (un_cleared _ Hinv); rewrite Hpc; by split). split; [|done].
    destruct (tlbs s t j) as [f|] eqn:E; [|done]. destruct (un_tlbs _ Hinv t j f Ht E) as [H|[_ H]]; [congruence|].
    unfold stale in H. by rewrite Hpc in H.
  - intros Hq Hm. destruct (begins_alone s0 Hb Hq) as [Ha Hr]. split.
    + intros k s Hk. destruct (run_alone k s0 s Hk Ha) as [Hi Hle]. split; [lia|].
      destruct (decide (pc s = ReturnMemory)) as [|Hpc]; [by left|right]. by apply work_possible.
    + apply (run_ends s0 Ha Hm (rank s0) 0 s0 (run_refl s0)). lia.
Qed.

(** The frames are given back earlier, by [unmapPage]: while another CPU can
    still reach a frame through its TLB, the frame can be allocated again. *)
Lemma frame_returned_early s0 t j f :
  begins s0 -> (j < pages)%nat -> allocated j = true -> entries s0 j = Some f -> tlbs s0 t j = Some f -> t <> u ->
  exists s, star machine s0 s /\ f ∈ freeFrames s /\ entries s j = None /\ tlbs s t j = Some f.
Proof.
  intros Hb Hj Ha He Ht Hu.
  assert (Hreach : forall i, (i <= j)%nat -> exists s, star machine s0 s /\ pc s = ReturnFrame i /\
    entries s j = Some f /\ tlbs s t j = Some f).
  { induction i as [|i IH]; intros Hi; [exists s0; split; [apply star_refl|]; split; [apply Hb|done]|].
    destruct IH as (s & Hs & Hp & E1 & E2); [lia|]. eexists. split.
    - eapply star_trans; [exact Hs|]. eapply star_step; [left; apply wk_unmap, (um_returnFrame _ i); [done|lia]|].
      eapply star_step; [left; apply wk_unmap, (um_clear _ i); done|]. eapply star_step; [left; apply wk_unmap, (um_invalidate _ i); done|]. apply star_refl.
    - cbn [pc entries tlbs]. split; [done|]. rewrite fn_lookup_insert_ne by lia. split; [done|]. by rewrite fn_lookup_insert_ne. }
  destruct (Hreach j (Nat.le_refl j)) as (s & Hs & Hp & E1 & E2). eexists. split.
  - eapply star_trans; [exact Hs|]. eapply star_step; [left; apply wk_unmap, (um_returnFrame _ j); [done|lia]|].
    eapply star_step; [left; apply wk_unmap, (um_clear _ j); done|]. apply star_refl.
  - cbn [freeFrames entries tlbs]. unfold frameOf. rewrite Ha, E1. split; [by left|]. by rewrite fn_lookup_insert.
Qed.
End Shootdown.

(** CPU 0 of two unmaps a page that CPU 1 has in its TLB. *)
Definition twoCpus : Unmap := mkUnmap Cpus_init (ReturnFrame 0) (fun j => if decide (j = 0)%nat then Some 7 else None)
  (fun t j => if decide (t = 1 /\ j = 0)%nat then Some 7 else None) [].

Lemma twoCpus_begins : begins 2 twoCpus.
Proof.
  constructor; [apply star_refl|done|]. intros t j f _. cbn. case_decide as H; [|done]. destruct H as [_ ->]. done.
Qed.

Lemma shootdown_complete_witness :
  tlbs twoCpus 1 0 = Some 7 /\
  exists k s, run 0 2 1 (fun _ => true) k twoCpus s /\ pc s = ReturnMemory /\ tlbs s 1 0 = None.
Proof.
  split; [reflexivity|]. destruct (shootdown_complete 0 2 1 (fun _ => true) twoCpus twoCpus_begins) as [Hsafe Hends].
  destruct Hends as [_ (k & s & Hr & Hp)]; [repeat split|unfold MAX_CPUS; lia|]. exists k, s. split; [exact Hr|]. split; [exact Hp|].
  apply (Hsafe s (run_machine 0 2 1 (fun _ => true) k twoCpus s Hr)); [exact Hp|lia|lia].
Defined.
