(* ===== verification/Pcie.v ===== *)
(** * PCI Express ([pcie.h], [pcieBars.cpp], [pcieTree.h], [pcieTree.cpp],
    [xhciRegisters.h], [xhciDriver.h], [xhciDriver.cpp])

    The configuration space is memory-mapped; the devices are a parameter with
    laws. Console output is left out, the reads its arguments make are not. *)

From Stdlib Require Import ZArith Lia.
From stdpp Require Import base tactics numbers list list_numbers.
From S2P Require Import Prelude Acpi Apic.

Open Scope Z_scope.

Section Pcie.
Context {W : Type} `{Mmio W}.
(** Whether [mapAddress] finds room. *)
Context (mappable : Z -> Z -> bool).

(** ** PcieDeviceAccess: [devicePointer] is the address of the header *)

Section PcieDeviceAccess.
Context (devicePointer : Z).

Definition getVendorId (w : W) : Z * W := read16 w devicePointer.
Definition getDeviceId (w : W) : Z * W := read16 w (devicePointer + 2).
Definition getCommand (w : W) : Z * W := read16 w (devicePointer + 4).
Definition getStatus (w : W) : Z * W := read16 w (devicePointer + 6).
Definition getRevision (w : W) : Z * W := read8 w (devicePointer + 8).
Definition getRegisterInterface (w : W) : Z * W := read8 w (devicePointer + 9).
Definition getSubclass (w : W) : Z * W := read8 w (devicePointer + 10).
Definition getClass (w : W) : Z * W := read8 w (devicePointer + 11).
Definition getHeaderType (w : W) : Z * W := read8 w (devicePointer + 14).

Definition readBar (w : W) (number : Z) : Z * W := read32 w (devicePointer + 16 + 4 * number).
Definition writeBar (w : W) (number value : Z) : W := write32 w (devicePointer + 16 + 4 * number) value.

Definition PCIE_BAR_MEMORY : Z := Z.shiftl 1 0.
Definition PCIE_BAR_TYPE (bar : Z) : Z := Z.shiftr (Z.land bar 6) 1.
Definition PCIE_BAR_64 : Z := 2.

Definition mapBar (s : Mappings) (w : W) (number : Z) : Z * (Mappings * W) :=
  if 5 <? number then (0, (s, w))
  else
    let '(bar, w) := readBar w number in
    if negb (Z.land bar PCIE_BAR_MEMORY =? 0) then (0, (s, w))
    else
      let '(bar, w) :=
        (if (number <? 5) && (PCIE_BAR_TYPE bar =? PCIE_BAR_64) then
           let '(high, w) := readBar w (number + 1) in (Z.lor bar (Z.shiftl high 32), w)
         else (bar, w)) in
      let bar := Z.land bar (u64 (Z.lnot 15)) in
      let w := writeBar w number 0xffffffff in
      let '(v, w) := readBar w number in
      let mappedSize := u32 (u32 (Z.lnot (Z.land v 0xfffffff0)) + 1) in
      let w := writeBar w number (Z.land bar 0xffffffff) in
      let '(p, s) := mapAddress mappable s bar mappedSize in
      (p, (s, w)).
End PcieDeviceAccess.

(** ** Drivers *)

(** The XHCI driver keeps the address of its registers. *)
Record XhciDriver := mkXhciDriver { registers : Z }.

Definition getCapabilityLength (d : XhciDriver) (w : W) : Z * W := read8 w (registers d).
Definition getVersion (d : XhciDriver) (w : W) : Z * W := read16 w (registers d + 2).

(** [XhciDriver::load] reads the version to print it. *)
Definition xhci_load (d : XhciDriver) (w : W) : W := snd (getVersion d w).

(** A driver of the table, without its function [get]: the table has one
    driver, whose [get] is [loadXhciDriver]. *)
Record PcieDriver := mkPcieDriver { vendorId : Z; deviceId : Z; classId : Z; subclass : Z; registerInterface : Z }.

Definition pcieDrivers : list PcieDriver := [mkPcieDriver 0xffff 0xffff 0x0c 0x03 0x30].

Definition loadXhciDriver (s : Mappings) (w : W) (access : Z) : XhciDriver * (Mappings * W) :=
  let '(p, (s, w)) := mapBar access s w 0 in (mkXhciDriver p, (s, w)).

(** ** PcieDeviceTree::load *)

(** What the loops change: the mappings, the world, the children with the
    functions they are for, and the number of unknown devices. *)
Record Scan := mkScan { sc_mappings : Mappings; sc_world : W; children : list (Z * XhciDriver); unknownDeviceCount : Z }.

Definition PCIE_DEVICE (base bus device function : Z) : Z :=
  u64 (base + Z.shiftl bus 20 + Z.shiftl device 15 + Z.shiftl function 12).

(** Whether a driver matches; [&&] and [||] read only what they need. *)
Definition matchDriver (driver : PcieDriver) (access : Z) (w : W) : bool * W :=
  if negb (vendorId driver =? 0xffff) then
    let '(v, w) := getVendorId access w in
    if vendorId driver =? v then let '(d, w) := getDeviceId access w in (deviceId driver =? d, w) else (false, w)
  else
    let '(c, w) := getClass access w in
    if classId driver =? c then
      let '(sc, w) := getSubclass access w in
      if subclass driver =? sc then
        if registerInterface driver =? 0xff then (true, w)
        else let '(r, w) := getRegisterInterface access w in (registerInterface driver =? r, w)
      else (false, w)
    else (false, w).

(** The loop over the drivers. *)
Fixpoint drivers_loop (drivers : list PcieDriver) (access : Z) (x : Scan) : bool * Scan :=
  match drivers with
  | [] => (false, x)
  | driver :: drivers =>
      let '(matched, w) := matchDriver driver access (sc_world x) in
      if matched then
        let '(child, (s, w)) := loadXhciDriver (sc_mappings x) w access in
        (true, mkScan s w (children x ++ [(access, child)]) (unknownDeviceCount x))
      else drivers_loop drivers access (mkScan (sc_mappings x) w (children x) (unknownDeviceCount x))
  end.

Definition set_world (x : Scan) (w : W) : Scan := mkScan (sc_mappings x) w (children x) (unknownDeviceCount x).

(** The body of the loop over the functions; the header type comes back. *)
Definition scanFunction (access : Z) (x : Scan) : Z * Scan :=
  let '(headerType, w) := getHeaderType access (sc_world x) in
  if Z.land headerType 0x7f =? 0 then
    let '(v, w) := getVendorId access w in
    if negb (v =? 0xffff) then
      let '(_, w) := getVendorId access w in
      let '(_, w) := getDeviceId access w in
      let '(_, w) := getClass access w in
      let '(_, w) := getSubclass access w in
      let '(matched, x) := drivers_loop pcieDrivers access (set_world x w) in
      (headerType, if matched then x else mkScan (sc_mappings x) (sc_world x) (children x) (u32 (unknownDeviceCount x + 1)))
    else (headerType, set_world x w)
  else (headerType, set_world x w).

(** [n] functions from [function] on. *)
Fixpoint functions_loop (n : nat) (base bus device function : Z) (x : Scan) : Scan :=
  match n with
  | O => x
  | S n =>
      let '(headerType, x) := scanFunction (PCIE_DEVICE base bus device function) x in
      if (function =? 0) && (Z.land headerType 0x80 =? 0) then x
      else functions_loop n base bus device (function + 1) x
  end.

Fixpoint devices_loop (n : nat) (base bus device : Z) (x : Scan) : Scan :=
  match n with
  | O => x
  | S n => devices_loop n base bus (device + 1) (functions_loop 8 base bus device 0 x)
  end.

Fixpoint buses_loop (n : nat) (base bus : Z) (x : Scan) : Scan :=
  match n with
  | O => x
  | S n => buses_loop n base (bus + 1) (devices_loop 32 base bus 0 x)
  end.

Fixpoint entries_loop (mcfg : list McfgEntry) (x : Scan) : Scan :=
  match mcfg with
  | [] => x
  | e :: mcfg => entries_loop mcfg (buses_loop (Z.to_nat (lastBusNumber e - firstBusNumber e + 1)) (mc_address e) (firstBusNumber e) x)
  end.

Definition pcie_load (mcfg : list McfgEntry) (s : Mappings) (w : W) : Scan := entries_loop mcfg (mkScan s w [] 0).
End Pcie.

(** ** The functions of a configuration space *)

Record PcieHeader := mkPcieHeader {
  h_vendorId : Z;
  h_deviceId : Z;
  h_registerInterface : Z;
  h_subclass : Z;
  h_classId : Z;
  h_headerType : Z
}.

(** Where the configuration space of a function is, from the address of that
    of bus 0. *)
Definition ecam (base bus device function : Z) : Z := base + bus * 1048576 + device * 32768 + function * 4096.

(** [h] is what the function at an address identifies itself as, whatever was
    read or written before. *)
Definition functionAt {W} `{Mmio W} (a : Z) (h : PcieHeader) : Prop := forall w : W,
  fst (read16 w a) = h_vendorId h /\ fst (read16 w (a + 2)) = h_deviceId h /\ fst (read8 w (a + 9)) = h_registerInterface h /\
  fst (read8 w (a + 10)) = h_subclass h /\ fst (read8 w (a + 11)) = h_classId h /\ fst (read8 w (a + 14)) = h_headerType h.

(** The configuration space of the first [mappedBuses base] buses is mapped at
    [base]; nothing is said of reads outside it. *)
Class PcieConfig (W : Type) `{Mmio W} := {
  mappedBuses : Z -> Z;
  header : Z -> Z -> Z -> Z -> PcieHeader;
  config base bus device function :
    0 <= bus < mappedBuses base -> 0 <= device < 32 -> 0 <= function < 8 ->
    functionAt (ecam base bus device function) (header base bus device function)
}.

(** A function is there and has the layout of a device. *)
Definition present (h : PcieHeader) : bool := (Z.land (h_headerType h) 0x7f =? 0) && negb (h_vendorId h =? 0xffff).

Definition matches (h : PcieHeader) (d : PcieDriver) : bool :=
  if negb (vendorId d =? 0xffff) then (vendorId d =? h_vendorId h) && (deviceId d =? h_deviceId h)
  else (classId d =? h_classId h) && (subclass d =? h_subclass h) &&
       ((registerInterface d =? 0xff) || (registerInterface d =? h_registerInterface h)).

Definition supported (h : PcieHeader) : bool := existsb (matches h) pcieDrivers.

Section Scan.
Context {W : Type} {M : Mmio W} {C : PcieConfig W}.
Context (mappable : Z -> Z -> bool).

Definition function_ (base bus device function : Z) : Z * PcieHeader := (ecam base bus device function, header base bus device function).

(** The functions of a device: only the first, unless it has several. *)
Definition functionsOf (base bus device : Z) : list (Z * PcieHeader) :=
  map (function_ base bus device)
    (if Z.land (h_headerType (header base bus device 0)) 0x80 =? 0 then [0] else seqZ 0 8).

Definition functionsOfEntry (e : McfgEntry) : list (Z * PcieHeader) :=
  flat_map (fun bus => flat_map (functionsOf (mc_address e) bus) (seqZ 0 32))
    (seqZ (firstBusNumber e) (lastBusNumber e - firstBusNumber e + 1)).

(** A segment whose first bus is 0: [mcfg.cpp] maps as many buses as it has, so
    all its functions are in the mapping. *)
Record segment_wf (e : McfgEntry) : Prop := {
  sg_first : firstBusNumber e = 0;
  sg_mapped : lastBusNumber e - firstBusNumber e + 1 <= mappedBuses (mc_address e);
  sg_base : 0 <= mc_address e;
  sg_end : mc_address e + (lastBusNumber e + 1) * 1048576 <= 2 ^ 64
}.

Definition wanted (f : Z * PcieHeader) : bool := present (snd f) && supported (snd f).
Definition unknown (f : Z * PcieHeader) : bool := present (snd f) && negb (supported (snd f)).

(** [x'] is [x] after a scan of the functions [l]. *)
Definition scanned (l : list (Z * PcieHeader)) (x x' : Scan (W := W)) : Prop :=
  fst <$> children x' = (fst <$> children x) ++ (fst <$> List.filter wanted l) /\
  unknownDeviceCount x' = u32 (unknownDeviceCount x + Z.of_nat (List.length (List.filter unknown l))) /\
  0 <= unknownDeviceCount x' < 4294967296.

Lemma scanned_nil (x : Scan) : 0 <= unknownDeviceCount x < 4294967296 -> scanned [] x x.
Proof. intros Hx. split; [by rewrite app_nil_r|]. split; [|done]. cbn. rewrite Z.add_0_r. by rewrite u32_small. Qed.

Lemma scanned_app l1 l2 (x y z : Scan) : scanned l1 x y -> scanned l2 y z -> scanned (l1 ++ l2) x z.
Proof.
  intros (E1 & U1 & R1) (E2 & U2 & R2). split; [|split; [|done]].
  - by rewrite E2, E1, List.filter_app, fmap_app, app_assoc.
  - rewrite U2, U1, wrap_add_l, List.filter_app, length_app. f_equal. lia.
Qed.

(** Reading a field gives the header's and a world. *)
Lemma read_pair {A B} (p : A * B) a : fst p = a -> exists b, p = (a, b).
Proof. intros <-. exists (snd p). by destruct p. Qed.

Lemma matchDriver_spec d a h (w : W) : functionAt a h -> exists w', matchDriver d a w = (matches h d, w').
Proof.
  intros Ha. unfold matchDriver, matches, getVendorId, getDeviceId, getClass, getSubclass, getRegisterInterface.
  destruct (vendorId d =? 65535); cbn [negb].
  - destruct (read_pair _ _ (proj1 (proj2 (proj2 (proj2 (proj2 (Ha w))))))) as [w1 ->]. destruct (classId d =? _); cbn [andb]; [|by eauto].
    destruct (read_pair _ _ (proj1 (proj2 (proj2 (proj2 (Ha w1)))))) as [w2 ->]. destruct (subclass d =? _); cbn [andb]; [|by eauto].
    destruct (registerInterface d =? 255); cbn [orb]; [by eauto|].
    destruct (read_pair _ _ (proj1 (proj2 (proj2 (Ha w2))))) as [w3 ->]. by eauto.
  - destruct (read_pair _ _ (proj1 (Ha w))) as [w1 ->]. destruct (vendorId d =? _); cbn [andb]; [|by eauto].
    destruct (read_pair _ _ (proj1 (proj2 (Ha w1)))) as [w2 ->]. by eauto.
Qed.

Lemma drivers_loop_spec a h ds : functionAt a h -> forall x : Scan,
  exists x', drivers_loop mappable ds a x = (existsb (matches h) ds, x') /\
    (fst <$> children x') = (fst <$> children x) ++ (if existsb (matches h) ds then [a] else []) /\
    unknownDeviceCount x' = unknownDeviceCount x.
Proof.
  intros Ha. induction ds as [|d ds IH]; intros x; cbn [drivers_loop existsb].
  - exists x. by rewrite app_nil_r.
  - destruct (matchDriver_spec d a h (sc_world x) Ha) as [w' ->]. destruct (matches h d); cbn [orb].
    + destruct (loadXhciDriver mappable (sc_mappings x) w' a) as [child [s w2]]. eexists. split; [reflexivity|]. cbn [children unknownDeviceCount].
      by rewrite fmap_app.
    + destruct (IH (mkScan (sc_mappings x) w' (children x) (unknownDeviceCount x))) as (x' & -> & E1 & E2). by exists x'.
Qed.

Lemma scanFunction_spec a h (x : Scan) : functionAt a h -> 0 <= unknownDeviceCount x < 4294967296 ->
  exists x', scanFunction mappable a x = (h_headerType h, x') /\ scanned [(a, h)] x x'.
Proof.
  intros Ha Hx. unfold scanFunction, scanned. cbn [List.filter].
  unfold getHeaderType. destruct (read_pair _ _ (proj2 (proj2 (proj2 (proj2 (proj2 (Ha (sc_world x)))))))) as [w0 ->].
  unfold wanted, unknown, present. cbn [snd]. destruct (Z.land (h_headerType h) 127 =? 0) eqn:Et; cbn [andb].
  - unfold getVendorId at 1. destruct (read_pair _ _ (proj1 (Ha w0))) as [w1 ->].
    destruct (h_vendorId h =? 65535); cbn [negb andb].
    + eexists. split; [reflexivity|]. apply (scanned_nil (set_world x w1)). done.
    + destruct (getVendorId a w1) as [? w2], (getDeviceId a w2) as [? w3], (getClass a w3) as [? w4], (getSubclass a w4) as [? w5].
      destruct (drivers_loop_spec a h pcieDrivers Ha (set_world x w5)) as (x' & -> & E1 & E2). eexists. split; [reflexivity|].
      cbn [set_world children unknownDeviceCount] in E1, E2. fold (supported h) in *.
      destruct (supported h); cbn [negb List.length children unknownDeviceCount].
      * rewrite E2, Z.add_0_r, u32_small by lia. done.
      * rewrite E1, E2. split; [done|]. split; [done|apply u32_range].
  - eexists. split; [reflexivity|]. apply (scanned_nil (set_world x w0)). done.
Qed.

(** The macro computes the address of the function. *)
Lemma PCIE_DEVICE_ecam base bus device function :
  0 <= base -> 0 <= bus -> 0 <= device < 32 -> 0 <= function < 8 -> base + (bus + 1) * 1048576 <= 2 ^ 64 ->
  PCIE_DEVICE base bus device function = ecam base bus device function.
Proof.
  intros Hb Hbus Hd Hf He. unfold PCIE_DEVICE, ecam. rewrite !Z.shiftl_mul_pow2 by lia.
  change (2 ^ 20) with 1048576. change (2 ^ 15) with 32768. change (2 ^ 12) with 4096. apply u64_small. lia.
Qed.

Section Bus.
Context (base bus : Z) (Hbus : 0 <= bus < mappedBuses base) (Hbase : 0 <= base) (Hend : base + (bus + 1) * 1048576 <= 2 ^ 64).

Lemma functions_loop_spec device : 0 <= device < 32 -> forall n f (x : Scan),
  0 < f -> f + Z.of_nat n <= 8 -> 0 <= unknownDeviceCount x < 4294967296 ->
  scanned (map (function_ base bus device) (seqZ f (Z.of_nat n))) x (functions_loop mappable n base bus device f x).
Proof.
  intros Hd. induction n as [|n IH]; intros f x Hf Hn Hx; cbn [functions_loop]; [by apply scanned_nil|].
  rewrite PCIE_DEVICE_ecam by lia.
  destruct (scanFunction_spec _ (header base bus device f) x (config base bus device f Hbus Hd ltac:(lia)) Hx) as (x' & -> & Hs).
  rewrite (proj2 (Z.eqb_neq f 0)) by lia. cbn [andb]. rewrite seqZ_cons by lia. replace (Z.pred (Z.of_nat (S n))) with (Z.of_nat n) by lia.
  apply (scanned_app [_] _ x x'); [done|]. apply IH; [lia|lia|apply Hs].
Qed.

Lemma device_spec device (x : Scan) : 0 <= device < 32 -> 0 <= unknownDeviceCount x < 4294967296 ->
  scanned (functionsOf base bus device) x (functions_loop mappable 8 base bus device 0 x).
Proof.
  intros Hd Hx. change 8%nat with (S 7). cbn [functions_loop]. rewrite PCIE_DEVICE_ecam by lia.
  destruct (scanFunction_spec _ (header base bus device 0) x (config base bus device 0 Hbus Hd ltac:(lia)) Hx) as (x' & -> & Hs).
  unfold functionsOf. rewrite Z.eqb_refl. cbn [andb]. destruct (Z.land _ 128 =? 0); [done|].
  rewrite (seqZ_cons 0 8) by lia. apply (scanned_app [_] _ x x'); [done|].
  apply (functions_loop_spec device Hd 7 1 x'); [lia|lia|apply Hs].
Qed.
End Bus.

(** A loop over consecutive numbers scans what its body scans. *)
Lemma loop_spec (loop : nat -> Z -> Scan (W := W) -> Scan (W := W)) (body : Z -> Scan (W := W) -> Scan (W := W)) f (P : Z -> Prop) :
  (forall i x, loop O i x = x) -> (forall n i x, loop (S n) i x = loop n (i + 1) (body i x)) ->
  (forall i x, P i -> 0 <= unknownDeviceCount x < 4294967296 -> scanned (f i) x (body i x)) ->
  forall n i x, (forall j, i <= j < i + Z.of_nat n -> P j) -> 0 <= unknownDeviceCount x < 4294967296 ->
  scanned (flat_map f (seqZ i (Z.of_nat n))) x (loop n i x).
Proof.
  intros H0 HS Hb. induction n as [|n IH]; intros i x HP Hx; [rewrite H0; by apply scanned_nil|].
  rewrite HS, seqZ_cons by lia. replace (Z.pred (Z.of_nat (S n))) with (Z.of_nat n) by lia. cbn [flat_map].
  assert (Hs : scanned (f i) x (body i x)) by (apply Hb; [apply HP; lia|done]).
  apply (scanned_app _ _ x (body i x)); [done|]. apply IH; [intros j Hj; apply HP; lia|apply Hs].
Qed.

Lemma entries_loop_spec mcfg : Forall segment_wf mcfg -> forall x : Scan, 0 <= unknownDeviceCount x < 4294967296 ->
  scanned (flat_map functionsOfEntry mcfg) x (entries_loop mappable mcfg x).
Proof.
  induction 1 as [|e mcfg He Hm IH]; intros x Hx; cbn [entries_loop flat_map]; [by apply scanned_nil|].
  assert (Hs : scanned (functionsOfEntry e) x
    (buses_loop mappable (Z.to_nat (lastBusNumber e - firstBusNumber e + 1)) (mc_address e) (firstBusNumber e) x)).
  { unfold functionsOfEntry. destruct He as [H1 H2 H3 H4]. rewrite H1 in *. set (n := lastBusNumber e - 0 + 1) in *.
    replace (seqZ 0 n) with (seqZ 0 (Z.of_nat (Z.to_nat n))) by (unfold seqZ; by rewrite Nat2Z.id).
    apply (loop_spec (fun n bus => buses_loop mappable n (mc_address e) bus) (fun bus x => devices_loop mappable 32 (mc_address e) bus 0 x)
      _ (fun bus => 0 <= bus < n)); [done|done| |lia|done]. clear x Hx. intros bus x Hbus Hx.
    apply (loop_spec (fun n device => devices_loop mappable n (mc_address e) bus device)
             (fun device x => functions_loop mappable 8 (mc_address e) bus device 0 x) (functionsOf (mc_address e) bus) (fun device => 0 <= device < 32));
      [done|done| |lia|done].
    intros device x' Hd Hx'. apply device_spec; lia || done. }
  apply (scanned_app _ _ _ _ _ Hs). apply IH, Hs.
Qed.

(** [C32] Loading the PCI Express tree, for segments that begin at bus 0 (the
    code reads outside the mapping of others, [scan_outside_mapping]), attaches
    a driver to exactly the functions that are there and match a driver, in the
    order of bus, device and function, each at its address in the configuration
    space, looking at the other functions of a device only when the first says
    there are several; it counts the functions no driver matches. *)
Theorem pcie_load_correct mcfg s (w : W) :
  Forall segment_wf mcfg ->
  let x := pcie_load mappable mcfg s w in
  let functions := List.filter (fun f => present (snd f)) (flat_map functionsOfEntry mcfg) in
  fst <$> children x = fst <$> List.filter (fun f => supported (snd f)) functions /\
  unknownDeviceCount x = u32 (Z.of_nat (List.length (List.filter (fun f => negb (supported (snd f))) functions))).
Proof.
  intros Hm x functions. destruct (entries_loop_spec mcfg Hm (mkScan s w [] 0) ltac:(cbn; lia)) as (E & U & _).
  assert (Hf : forall p (l : list (Z * PcieHeader)),
    List.filter (fun f => present (snd f) && p f) l = List.filter p (List.filter (fun f => present (snd f)) l)).
  { intros p l. induction l as [|a l IH]; [done|]. cbn [List.filter]. destruct (present (snd a)); cbn [andb List.filter]; by rewrite IH. }
  split; [etransitivity; [exact E|]|etransitivity; [exact U|]]; cbn [children unknownDeviceCount fmap list_fmap app].
  - f_equal. apply (Hf (fun f => supported (snd f))).
  - unfold functions. rewrite <- (Hf (fun f => negb (supported (snd f)))). done.
Qed.
End Scan.

(** ** Base address registers *)

(** The memory BAR [number] of the function at [p], of [size] bytes: the
    address bits below the size are read-only zeros, [flags] are its low four
    bits, and [high] is what the next register reads. *)
Class BarLaws (W : Type) `{Mmio W} (p number size flags high : Z) := {
  bar : W -> Z;
  bar_range w : 0 <= bar w < 2 ^ 32;
  bar_aligned w : bar w mod size = 0;
  bar_read w : fst (readBar p w number) = bar w + flags;
  bar_read_bar w : bar (snd (readBar p w number)) = bar w;
  bar_high w : fst (readBar p w (number + 1)) = high;
  bar_high_bar w : bar (snd (readBar p w (number + 1))) = bar w;
  bar_write w v : 0 <= v < 2 ^ 32 -> bar (writeBar p w number v) = v / size * size
}.

Lemma land_low q f c : 0 <= f < 16 -> 0 <= c < 16 -> Z.land (16 * q + f) c = Z.land f c.
Proof.
  intros Hf Hc. assert (E : Z.land 15 c = c).
  { rewrite Z.land_comm. change 15 with (Z.ones 4). rewrite Z.land_ones by lia. apply Z.mod_small. exact Hc. }
  rewrite <- E, !Z.land_assoc. f_equal. change 15 with (Z.ones 4). rewrite !Z.land_ones by lia. change (2 ^ 4) with 16. dlia.
Qed.

(** Clearing the low four bits of a word. *)
Lemma land_high n x : 4 <= n -> 0 <= x < 2 ^ n -> Z.land x (2 ^ n - 16) = x - x mod 16.
Proof.
  intros Hn Hx. assert (E : 2 ^ n - 16 = Z.ldiff (Z.ones n) (Z.ones 4)).
  { replace (Z.ones n) with (2 ^ n - 1) by (rewrite Z.ones_equiv; lia).
    replace (Z.ldiff (2 ^ n - 1) (Z.ones 4)) with (2 ^ n - 16); [done|].
    rewrite Z.ldiff_ones_r, Z.shiftr_div_pow2, Z.shiftl_mul_pow2 by lia.
    replace n with (n - 4 + 4) by lia. rewrite Z.pow_add_r by lia. change (2 ^ 4) with 16.
    replace (2 ^ (n - 4) * 16 - 1) with ((2 ^ (n - 4) - 1) * 16 + 15) by lia. rewrite Z.div_add_l by lia. change (15 / 16) with 0. lia. }
  rewrite E. replace (Z.land x (Z.ldiff (Z.ones n) (Z.ones 4))) with (Z.ldiff x (Z.ones 4)).
  - rewrite Z.ldiff_ones_r, Z.shiftr_div_pow2, Z.shiftl_mul_pow2 by lia. change (2 ^ 4) with 16. dlia.
  - apply Z.bits_inj'. intros i Hi. rewrite Z.land_spec, !Z.ldiff_spec.
    destruct (Z.ltb_spec i n).
    + rewrite (Z.ones_spec_low n i) by lia. done.
    + replace (Z.testbit x i) with false; [done|]. symmetry. destruct (Z.eq_dec x 0) as [->|]; [apply Z.bits_0|].
      apply Z.bits_above_log2; [lia|]. enough (Z.log2 x < n) by lia. apply Z.log2_lt_pow2; lia.
Qed.

(** Or-ing the high half of a register to the low one. *)
Lemma lor_shifted a b : 0 <= a < 4294967296 -> a + b * 4294967296 = Z.lor a (b * 4294967296).
Proof.
  intros Ha. enough (H : Z.land a (b * 4294967296) = 0) by (pose proof (Z.add_lor_land a (b * 4294967296)); lia).
  apply Z.bits_inj'. intros i Hi. rewrite Z.land_spec, Z.bits_0. change 4294967296 with (2 ^ 32). destruct (Z.ltb_spec i 32).
  - rewrite Z.mul_pow2_bits_low by lia. apply andb_false_r.
  - replace (Z.testbit a i) with false; [done|]. symmetry. destruct (Z.eq_dec a 0) as [->|]; [apply Z.bits_0|].
    apply Z.bits_above_log2; [lia|]. enough (Z.log2 a < 32) by lia. apply Z.log2_lt_pow2; [lia|]. apply Ha.
Qed.

Section Bar.
Context {W : Type} {M : Mmio W} {p number size flags high : Z} {L : BarLaws W p number size flags high}.
Context (mappable : Z -> Z -> bool).

(** The size as [mapBar] finds it: writing ones and reading back. *)
Lemma probed_size k : size = 2 ^ k -> 4 <= k <= 31 -> 0 <= flags < 16 ->
  u32 (u32 (Z.lnot (Z.land (4294967295 / size * size + flags) 0xfffffff0)) + 1) = size.
Proof.
  intros Hsize Hk Hf. assert (Hs : 16 <= size <= 2147483648).
  { rewrite Hsize. change 16 with (2 ^ 4). change 2147483648 with (2 ^ 31). split; apply Z.pow_le_mono_r; lia. }
  assert (E : 4294967295 / size * size = 4294967296 - size).
  { assert (E : 4294967296 = size * 2 ^ (32 - k)) by (rewrite Hsize, <- Z.pow_add_r by lia; by replace (k + (32 - k)) with 32 by lia).
    rewrite <- (Z.div_unique 4294967295 size (2 ^ (32 - k) - 1) (size - 1)); lia. }
  assert (E16 : size mod 16 = 0) by (rewrite Hsize; replace k with (k - 4 + 4) by lia; rewrite Z.pow_add_r by lia; apply Z_mod_mult).
  rewrite E. change 0xfffffff0 with (2 ^ 32 - 16). rewrite land_high by (change (2 ^ 32) with 4294967296; lia).
  replace (4294967296 - size + flags - (4294967296 - size + flags) mod 16) with (4294967296 - size) by dlia.
  unfold wrap. change (2 ^ 32) with 4294967296. unfold Z.lnot. dlia.
Qed.

(** Of 4 GiB or more the low register shows nothing. *)
Lemma probed_large k : size = 2 ^ k -> 32 <= k -> 0 <= flags < 16 ->
  u32 (u32 (Z.lnot (Z.land (4294967295 / size * size + flags) 0xfffffff0)) + 1) = 0.
Proof.
  intros Hsize Hk Hf. assert (Hs : 4294967296 <= size) by (rewrite Hsize; change 4294967296 with (2 ^ 32); apply Z.pow_le_mono_r; lia).
  rewrite Z.div_small by lia. cbn [Z.mul Z.add]. change 0xfffffff0 with (2 ^ 32 - 16).
  rewrite land_high by (change (2 ^ 32) with 4294967296; lia). rewrite Z.mod_small, Z.sub_diag by lia. reflexivity.
Qed.

(** What a 64-bit BAR adds to the address. *)
Definition highPart : Z := if (number <? 5) && (Z.land flags 6 =? 4) then high * 4294967296 else 0.

(** The address [mapBar] reads. *)
Lemma read_address (w : W) : bar w mod 16 = 0 -> 0 <= flags < 16 -> Z.even flags = true -> 0 <= high < 4294967296 ->
  exists w1 w2, readBar p w number = (bar w + flags, w1) /\ Z.land (bar w + flags) 1 = 0 /\ bar w2 = bar w /\
    (if (number <? 5) && (PCIE_BAR_TYPE (bar w + flags) =? PCIE_BAR_64)
     then let '(high, w) := readBar p w1 (number + 1) in (Z.lor (bar w1 + flags) (Z.shiftl high 32), w)
     else (bar w + flags, w1)) = (bar w + flags + highPart, w2).
Proof.
  intros Ha Hf He Hh. pose proof (bar_range w) as Hb. change (2 ^ 32) with 4294967296 in Hb.
  destruct (readBar p w number) as [v w1] eqn:E1. pose proof (bar_read w) as Ev. pose proof (bar_read_bar w) as Ew1. rewrite E1 in Ev, Ew1.
  cbn [fst snd] in Ev, Ew1. subst v. exists w1.
  assert (Ht : eqb (Z.shiftr (Z.land flags 6) 1 =? 2) (Z.land flags 6 =? 4) && implb (Z.even flags) (Z.land flags 1 =? 0) = true).
  { apply (forall_below (fun f => eqb (Z.shiftr (Z.land f 6) 1 =? 2) (Z.land f 6 =? 4) && implb (Z.even f) (Z.land f 1 =? 0)) 16);
      [reflexivity|lia]. }
  apply andb_true_iff in Ht as [Ht Ho]. rewrite He in Ho. cbn [implb] in Ho. apply eqb_prop in Ht. apply Z.eqb_eq in Ho.
  assert (Hq : bar w = 16 * (bar w / 16)) by dlia. unfold PCIE_BAR_TYPE, PCIE_BAR_64, highPart.
  rewrite Hq, !land_low, Ht by lia. rewrite <- Hq. destruct ((number <? 5) && _).
  - destruct (readBar p w1 (number + 1)) as [v w2] eqn:E2. pose proof (bar_high w1) as Ev. pose proof (bar_high_bar w1) as Ew2.
    rewrite E2 in Ev, Ew2. cbn [fst snd] in Ev, Ew2. subst v. exists w2. split; [done|]. split; [done|]. split; [congruence|].
    rewrite Ew1, Z.shiftl_mul_pow2 by lia. change (2 ^ 32) with 4294967296. by rewrite lor_shifted by lia.
  - exists w1. rewrite Z.add_0_r. done.
Qed.

(** [C37] For a memory BAR of [2^k] bytes, of 32 or 64 bits, [mapBar] maps the
    region at the address the BAR decodes, with the high half of a 64-bit BAR,
    and leaves the BAR with the address it had. For up to 2 GiB it maps exactly
    the region; the size of a larger one is not in the register it looks at, so
    it maps 0 bytes. *)
Theorem mapBar_correct k s (w : W) :
  size = 2 ^ k -> 4 <= k <= 63 -> 0 <= number <= 5 -> 0 <= flags < 16 -> Z.even flags = true -> 0 <= high < 2 ^ 32 ->
  let address := bar w + (if (number <? 5) && (Z.land flags 6 =? 4) then high * 2 ^ 32 else 0) in
  let mapped := mapAddress mappable s address (if k <=? 31 then size else 0) in
  exists w', mapBar mappable p s w number = (fst mapped, (snd mapped, w')) /\ bar w' = bar w.
Proof.
  intros Hsize Hk Hn Hf He Hh address mapped. change (2 ^ 32) with 4294967296 in *. fold highPart in address.
  assert (Hs : 0 < size) by (rewrite Hsize; apply Z.pow_pos_nonneg; lia).
  assert (H16 : bar w mod 16 = 0).
  { pose proof (bar_aligned w) as Ha. apply Z.mod_divide in Ha; [|lia]. apply Z.mod_divide; [lia|]. etransitivity; [|exact Ha].
    exists (2 ^ (k - 4)). rewrite Hsize. change 16 with (2 ^ 4). rewrite <- Z.pow_add_r by lia. f_equal. lia. }
  pose proof (bar_range w) as Hb. change (2 ^ 32) with 4294967296 in Hb.
  assert (Hhp : highPart mod 4294967296 = 0 /\ 0 <= highPart <= 18446744069414584320) by (unfold highPart; destruct (_ && _); [split; [apply Z_mod_mult|lia]|done]).
  destruct (read_address w H16 Hf He Hh) as (w1 & w2 & E1 & Ho & Ew2 & E2).
  unfold mapBar. rewrite (proj2 (Z.ltb_ge 5 number)), E1 by lia. unfold PCIE_BAR_MEMORY. rewrite Z.shiftl_0_r, Ho. cbn [Z.eqb negb].
  pose proof (bar_read_bar w) as Ew1. rewrite E1 in Ew1. cbn [snd] in Ew1. rewrite Ew1 in E2. rewrite E2.
  assert (Ea : Z.land (bar w + flags + highPart) (u64 (Z.lnot 15)) = address).
  { change (u64 (Z.lnot 15)) with (2 ^ 64 - 16). rewrite land_high by (change (2 ^ 64) with 18446744073709551616; dlia). unfold address. dlia. }
  rewrite Ea. set (w3 := writeBar p w2 number 4294967295).
  pose proof (bar_read w3) as Ev. pose proof (bar_read_bar w3) as Ew4. destruct (readBar p w3 number) as [v w4]. cbn [fst snd] in Ev, Ew4. subst v.
  unfold w3 at 1. rewrite (bar_write w2 4294967295) by done.
  assert (Ep : u32 (u32 (Z.lnot (Z.land (4294967295 / size * size + flags) 0xfffffff0)) + 1) = if k <=? 31 then size else 0).
  { destruct (Z.leb_spec k 31); [apply (probed_size k); lia|apply (probed_large k); lia]. }
  rewrite Ep.
  assert (Elow : Z.land address 4294967295 = bar w).
  { change 4294967295 with (Z.ones 32). rewrite Z.land_ones by lia. change (2 ^ 32) with 4294967296. unfold address. dlia. }
  rewrite Elow. unfold mapped. destruct (mapAddress mappable s address _) as [ptr s']. eexists. split; [reflexivity|].
  rewrite bar_write by (change (2 ^ 32) with 4294967296; lia). pose proof (bar_aligned w). pose proof (Z.div_mod (bar w) size ltac:(lia)). lia.
Qed.
End Bar.

(** ** An XHCI controller as device 1 of bus 0, with a 64-bit BAR of 64 KiB *)

Definition xhciFunction : Z := 0xe0008000.

Record OneDevice := mkOneDevice { bar0 : Z; bar0_ok : bool_decide (0 <= bar0 < 2 ^ 32 /\ bar0 mod 65536 = 0) }.

Lemma write_bar0 v : 0 <= v < 2 ^ 32 -> bool_decide (0 <= v / 65536 * 65536 < 2 ^ 32 /\ v / 65536 * 65536 mod 65536 = 0).
Proof. intros Hv. apply bool_decide_pack. change (2 ^ 32) with 4294967296 in *. dlia. Qed.

Definition storeBar0 (w : OneDevice) (v : Z) : OneDevice :=
  match decide (0 <= v < 2 ^ 32) with
  | left Hv => mkOneDevice (v / 65536 * 65536) (write_bar0 v Hv)
  | right _ => w
  end.

#[export] Instance OneDevice_mmio : Mmio OneDevice := {
  read8 w a :=
    (if a =? xhciFunction + 9 then 0x30 else if a =? xhciFunction + 10 then 0x03 else if a =? xhciFunction + 11 then 0x0c
     else if a =? xhciFunction + 14 then 0 else 0xff, w);
  read16 w a := (if a =? xhciFunction then 0x1b36 else if a =? xhciFunction + 2 then 0x000d else 0xffff, w);
  read32 w a := (if a =? xhciFunction + 16 then bar0 w + 4 else if a =? xhciFunction + 20 then 1 else 0xffffffff, w);
  read64 w _ := (0, w);
  write32 w a v := if a =? xhciFunction + 16 then storeBar0 w v else w;
  write64 w _ _ := w
}.

#[export] Instance OneDevice_config : PcieConfig OneDevice.
Proof.
  refine {| mappedBuses base := if base =? 0xe0000000 then 1 else 0;
            header base bus device function :=
              if ecam base bus device function =? xhciFunction then mkPcieHeader 0x1b36 0x000d 0x30 0x03 0x0c 0
              else mkPcieHeader 0xffff 0xffff 0xff 0xff 0xff 0xff |}.
  intros base bus device function Hbus Hd Hf w. destruct (Z.eqb_spec base 0xe0000000) as [->|]; [|lia].
  unfold ecam, xhciFunction. cbn [read8 read16 OneDevice_mmio fst]. unfold xhciFunction.
  repeat split; zcase; cbn; try reflexivity; exfalso; lia.
Defined.

#[export] Instance OneDevice_bar : BarLaws OneDevice xhciFunction 0 65536 4 1.
Proof.
  refine {| bar := bar0 |}.
  - intros w. exact (proj1 (bool_decide_unpack _ (bar0_ok w))).
  - intros w. exact (proj2 (bool_decide_unpack _ (bar0_ok w))).
  - done.
  - done.
  - done.
  - done.
  - intros w v Hv. change (bar0 (storeBar0 w v) = v / 65536 * 65536). unfold storeBar0. by destruct (decide (0 <= v < 2 ^ 32)).
Defined.

Definition oneDevice : OneDevice := mkOneDevice 0xfebf0000 I.

Lemma mapBar_correct_witness :
  exists w', mapBar (fun _ _ => true) xhciFunction [] oneDevice 0 = (0x1febf0000, ([(0x1febf0000, 65536)], w')) /\ bar0 w' = 0xfebf0000.
Proof.
  destruct (mapBar_correct (size := 65536) (flags := 4) (high := 1) (fun _ _ => true) 16 [] oneDevice) as (w' & E & Eb);
    [reflexivity|lia|lia|lia|reflexivity|lia|].
  exists w'. split; [exact E|exact Eb].
Defined.

Definition oneSegment : list McfgEntry := [mkMcfgEntry 0xe0000000 0 0 0].

Lemma pcie_load_correct_witness :
  Forall segment_wf oneSegment /\
  fst <$> children (pcie_load (fun _ _ => true) oneSegment [] oneDevice) = [xhciFunction].
Proof.
  assert (H : Forall segment_wf oneSegment) by (repeat constructor; cbn; lia).
  split; [exact H|]. rewrite (proj1 (pcie_load_correct (fun _ _ => true) oneSegment [] oneDevice H)). vm_compute. reflexivity.
Defined.

(** A segment that begins at bus 1: the configuration space is mapped for one
    bus from the address of bus 0, the functions of bus 1 are after it. *)
Lemma scan_outside_mapping device function : 0 <= device < 32 -> 0 <= function < 8 ->
  let e := mkMcfgEntry 0xe0000000 0 1 1 in
  mc_address e + (lastBusNumber e - firstBusNumber e + 1) * 1048576 <= PCIE_DEVICE (mc_address e) 1 device function.
Proof.
  intros Hd Hf e. unfold PCIE_DEVICE. cbn [mc_address lastBusNumber firstBusNumber e]. rewrite !Z.shiftl_mul_pow2 by lia.
  change (2 ^ 20) with 1048576. change (2 ^ 15) with 32768. change (2 ^ 12) with 4096. rewrite u64_small by lia. lia.
Qed.
