(* ===== verification/Layout.v ===== *)
(** * The layout of structures in memory ([mbi.h], [acpi/*.h], [pcie.h],
    [xhciRegisters.h], [idt.h], [registers.h])

    The structures the kernel shares with the boot loader, the firmware,
    devices and its assembly code, as lists of members with their types. The
    offsets are computed with the rules of the System V ABI; the other files
    read members at numeric offsets, and [fields_agree] shows that these are
    the offsets of the members the code names. *)

From Stdlib Require Import ZArith Lia String.
From stdpp Require Import base tactics numbers list strings.
From S2P Require Import Prelude Spinlock Strings TaskQueue Mbi Acpi Apic Irq Pcie.

Open Scope string_scope.
Open Scope Z_scope.

(** ** Types and structures *)

(** Size and alignment, in bytes. *)
Record CType := mkCType { sizeof : Z; alignof : Z }.

Definition uint8_t := mkCType 1 1.
Definition uint16_t := mkCType 2 2.
Definition uint32_t := mkCType 4 4.
Definition uint64_t := mkCType 8 8.
Definition pointer := mkCType 8 8.
Definition array (t : CType) (n : Z) : CType := mkCType (n * sizeof t) (alignof t).

Inductive Member := Field (name : string) (t : CType) | Bits (name : string) (t : CType) (width : Z).

Definition memberName (m : Member) : string := match m with Field n _ => n | Bits n _ _ => n end.
Definition memberType (m : Member) : CType := match m with Field _ t => t | Bits _ t _ => t end.
Definition memberBits (m : Member) : Z := match m with Field _ t => 8 * sizeof t | Bits _ _ w => w end.

(** [packed] is the attribute. *)
Record Struct := mkStruct { packed : bool; members : list Member }.

Definition alignUp (a x : Z) : Z := (x + a - 1) / a * a.

(** The first bit of a member placed after bit [pos]. A bit-field shares a
    unit of its type with the one before if it fits. *)
Definition memberStart (packed : bool) (pos : Z) (m : Member) : Z :=
  match m with
  | Field _ t => alignUp (if packed then 8 else 8 * alignof t) pos
  | Bits _ t w =>
      if packed || (pos mod (8 * sizeof t) + w <=? 8 * sizeof t) then pos else alignUp (8 * alignof t) pos
  end.

(** The members with their first bits, and the end. *)
Fixpoint placeMembers (packed : bool) (pos : Z) (ms : list Member) : list (Member * Z) * Z :=
  match ms with
  | [] => ([], pos)
  | m :: ms =>
      let start := memberStart packed pos m in
      let '(l, e) := placeMembers packed (start + memberBits m) ms in ((m, start) :: l, e)
  end.

Definition placed (s : Struct) : list (Member * Z) := fst (placeMembers (packed s) 0 (members s)).
Definition structAlign (s : Struct) : Z :=
  if packed s then 1 else foldr (fun m a => Z.max (alignof (memberType m)) a) 1 (members s).
Definition structSize (s : Struct) : Z := alignUp (8 * structAlign s) (snd (placeMembers (packed s) 0 (members s))) / 8.

(** A structure as the type of a member. *)
Definition struct_type (s : Struct) : CType := mkCType (structSize s) (structAlign s).

Fixpoint findMember (name : string) (l : list (Member * Z)) : option (Member * Z) :=
  match l with
  | [] => None
  | x :: l => if String.eqb (memberName (fst x)) name then Some x else findMember name l
  end.

Definition offsetOf (s : Struct) (name : string) : Z :=
  match findMember name (placed s) with Some (_, start) => start / 8 | None => -1 end.

Definition loadn (m : Memory) (a n : Z) : Z :=
  if n =? 1 then m a else if n =? 2 then loadw m a else if n =? 4 then loadd m a else if n =? 8 then loadq m a else 0.

(** [p->name]; bit-fields here are in one byte. *)
Definition field (m : Memory) (s : Struct) (p : Z) (name : string) : Z :=
  match findMember name (placed s) with
  | Some (Field _ t, start) => loadn m (p + start / 8) (sizeof t)
  | Some (Bits _ _ w, start) => m (p + start / 8) / 2 ^ (start mod 8) mod 2 ^ w
  | None => 0
  end.

(** The address of [p->name[i]], where an element has type [t]. *)
Definition element (s : Struct) (p : Z) (name : string) (t : CType) (i : Z) : Z := p + offsetOf s name + i * sizeof t.

(** ** The structures *)

Definition MbiTag := mkStruct false [Field "type" uint32_t; Field "size" uint32_t].

Definition ModuleTag := mkStruct false
  [Field "type" uint32_t; Field "size" uint32_t; Field "moduleStart" uint32_t; Field "moduleEnd" uint32_t;
   Field "string" (array uint8_t 0)].

(** The type of [memory]. *)
Definition MemoryMapEntry := mkStruct false
  [Field "base" uint64_t; Field "length" uint64_t; Field "type" uint32_t; Field "reserved" uint32_t].

Definition MemoryMapTag := mkStruct false
  [Field "type" uint32_t; Field "size" uint32_t; Field "entrySize" uint32_t; Field "version" uint32_t;
   Field "memory" (array (struct_type MemoryMapEntry) 0)].

Definition FrameBufferTag := mkStruct true
  [Field "type" uint32_t; Field "size" uint32_t; Field "address" uint64_t; Field "pitch" uint32_t; Field "width" uint32_t;
   Field "height" uint32_t; Field "depth" uint8_t].

Definition RsdpV1 := mkStruct false
  [Field "signature" (array uint8_t 8); Field "checksum" uint8_t; Field "oemId" (array uint8_t 6); Field "revision" uint8_t;
   Field "rsdtAddress" uint32_t].

Definition RsdpV2 := mkStruct true
  [Field "signature" (array uint8_t 8); Field "checksum" uint8_t; Field "oemId" (array uint8_t 6); Field "revision" uint8_t;
   Field "rsdtAddress" uint32_t; Field "length" uint32_t; Field "xsdtAddress" uint64_t; Field "extendedChecksum" uint8_t;
   Field "reserved" (array uint8_t 3)].

Definition OldRsdpTag := mkStruct false [Field "type" uint32_t; Field "size" uint32_t; Field "rsdp" (struct_type RsdpV1)].
Definition NewRsdpTag := mkStruct false [Field "type" uint32_t; Field "size" uint32_t; Field "rsdp" (struct_type RsdpV2)].

(** [class Mbi]. *)
Definition MbiHeader := mkStruct false [Field "size" uint32_t; Field "reserved" uint32_t; Field "firstTag" (struct_type MbiTag)].

Definition TableHeader := mkStruct false
  [Field "signature" (array uint8_t 4); Field "length" uint32_t; Field "revision" uint8_t; Field "checksum" uint8_t;
   Field "oemId" (array uint8_t 6); Field "oemTableId" (array uint8_t 8); Field "oemRevision" uint32_t;
   Field "creatorId" (array uint8_t 4); Field "creatorRevision" uint32_t].

Definition Address := mkStruct true
  [Field "adressSpace" uint8_t; Field "bitWidth" uint8_t; Field "bitOffset" uint8_t; Field "reserved" uint8_t; Field "address" uint64_t].

Definition MadtTable := mkStruct true
  [Field "header" (struct_type TableHeader); Field "localInterruptController" uint32_t; Field "flags" uint32_t].

Definition MadtEntry := mkStruct false [Field "type" uint8_t; Field "length" uint8_t].

Definition MadtLocalApicEntry := mkStruct false
  [Field "type" uint8_t; Field "length" uint8_t; Field "acpiId" uint8_t; Field "apicId" uint8_t; Field "flags" uint32_t].

Definition MadtIoApicEntry := mkStruct false
  [Field "type" uint8_t; Field "length" uint8_t; Field "ioApicId" uint8_t; Field "reserved" uint8_t;
   Field "physicalAddress" uint32_t; Field "gsiBase" uint32_t].

Definition MadtGsiOverrideEntry := mkStruct true
  [Field "type" uint8_t; Field "length" uint8_t; Field "bus" uint8_t; Field "source" uint8_t; Field "destination" uint32_t;
   Field "flags" uint16_t].

Definition HpetTable := mkStruct true
  [Field "header" (struct_type TableHeader); Field "hardwareRevId" uint8_t; Bits "numComparators" uint8_t 5;
   Bits "counterSize" uint8_t 1; Bits "reserved" uint8_t 1; Bits "legacyReplacementCapable" uint8_t 1; Field "vendorId" uint16_t;
   Field "adress" (struct_type Address); Field "hpetNumber" uint8_t; Field "minimumTicks" uint16_t; Field "pageProtection" uint8_t].

Definition McfgTableEntry := mkStruct false
  [Field "address" uint64_t; Field "segmentGroup" uint16_t; Field "firstBusNumber" uint8_t; Field "lastBusNumber" uint8_t;
   Field "reserved" uint32_t].

Definition PcieDeviceHeader := mkStruct false
  [Field "vendorId" uint16_t; Field "deviceId" uint16_t; Field "command" uint16_t; Field "status" uint16_t; Field "revision" uint8_t;
   Field "registerInterface" uint8_t; Field "subclass" uint8_t; Field "classId" uint8_t; Field "cacheLineSize" uint8_t;
   Field "latencyTimer" uint8_t; Field "headerType" uint8_t; Field "selfTest" uint8_t; Field "bars" (array uint32_t 6)].

Definition XhciRegisters := mkStruct false
  [Field "capabilityLength" uint8_t; Field "reserved0" uint8_t; Field "version" uint16_t].

Definition IdtEntry := mkStruct true
  [Field "offsetLow" uint16_t; Field "gdtSelector" uint16_t; Field "istEntry" uint8_t; Bits "type" uint8_t 4; Bits "zero" uint8_t 1;
   Bits "privilege" uint8_t 2; Bits "present" uint8_t 1; Field "offsetMiddle" uint16_t; Field "offsetHigh" uint32_t;
   Field "reserved" uint32_t].

Definition IdtPointer := mkStruct true [Field "limit" uint16_t; Field "pointer" pointer].

Definition InterruptStackFrame := mkStruct false
  [Field "rip" pointer; Field "cs" uint64_t; Field "rflags" uint64_t; Field "rsp" pointer; Field "ss" uint64_t].

(** [task::Registers], the structure of [swapRegisters] and [restoreRegisters]. *)
Definition Registers := mkStruct false
  (map (fun n => Field n uint64_t)
     ["rax"; "rcx"; "rdx"; "rbx"; "rsp"; "rbp"; "rsi"; "rdi"; "r8"; "r9"; "r10"; "r11"; "r12"; "r13"; "r14"; "r15"]
   ++ [Field "cr3" pointer; Field "rip" pointer; Field "rflags" uint64_t])%list.

(** ** Placement *)

(** A type whose members can be placed. *)
Definition type_wf (t : CType) : Prop := 0 <= sizeof t /\ 0 < alignof t.

Definition member_wf (m : Member) : Prop :=
  type_wf (memberType m) /\ match m with Field _ _ => True | Bits _ t w => 0 <= w <= 8 * sizeof t end.

Lemma alignUp_spec a x : 0 < a -> x <= alignUp a x < x + a /\ (a | alignUp a x).
Proof.
  intros Ha. unfold alignUp. split; [|by apply Z.divide_factor_r].
  pose proof (Z.div_mod (x + a - 1) a ltac:(lia)) as E. pose proof (Z.mod_pos_bound (x + a - 1) a Ha). nia.
Qed.

Lemma memberStart_le p pos m : member_wf m -> pos <= memberStart p pos m.
Proof.
  intros [[H1 H2] H3]. destruct m as [n t|n t w]; cbn in *.
  - assert (0 < if p then 8 else 8 * alignof t) by (destruct p; lia). by apply alignUp_spec.
  - destruct (p || _); [done|]. apply alignUp_spec. lia.
Qed.

Lemma memberBits_nonneg m : member_wf m -> 0 <= memberBits m.
Proof. intros [[H1 H2] H3]. destruct m; cbn in *; lia. Qed.

(** The members are placed one after the other. *)
Lemma placeMembers_spec p ms : forall pos, Forall member_wf ms ->
  let '(l, e) := placeMembers p pos ms in
  pos <= e /\ fst <$> l = ms /\
  (forall i m start, l !! i = Some (m, start) -> pos <= start /\ start + memberBits m <= e) /\
  forall i j m m' start start', (i < j)%nat -> l !! i = Some (m, start) -> l !! j = Some (m', start') -> start + memberBits m <= start'.
Proof.
  induction ms as [|m ms IH]; intros pos Hwf; cbn [placeMembers]; [done|].
  apply Forall_cons in Hwf as [Hm Hms]. specialize (IH (memberStart p pos m + memberBits m) Hms).
  destruct (placeMembers p (memberStart p pos m + memberBits m) ms) as [l e]. destruct IH as (H1 & H2 & H3 & H4).
  pose proof (memberStart_le p pos m Hm). pose proof (memberBits_nonneg m Hm). split; [lia|]. split; [cbn; by rewrite H2|]. split.
  - intros [|i] m' start Hi; cbn in Hi; [injection Hi as <- <-; lia|]. apply H3 in Hi. lia.
  - intros [|i] [|j] m1 m2 s1 s2 Hij Hi Hj; cbn in Hi, Hj; try lia.
    + injection Hi as <- <-. apply H3 in Hj. lia.
    + apply (H4 i j m1 m2 s1 s2); [lia|done|done].
Qed.

(** Every structure above has members of distinct names that do not overlap
    and lie inside it. *)
Lemma placed_disjoint s i j m m' start start' :
  Forall member_wf (members s) -> i <> j -> placed s !! i = Some (m, start) -> placed s !! j = Some (m', start') ->
  start + memberBits m <= start' \/ start' + memberBits m' <= start.
Proof.
  intros Hwf Hij Hi Hj. pose proof (placeMembers_spec (packed s) (members s) 0 Hwf) as H. unfold placed in *.
  destruct (placeMembers (packed s) 0 (members s)) as [l e]. destruct H as (_ & _ & _ & H). cbn in *.
  destruct (decide (i < j)%nat); [left; by apply (H i j m m')|right; apply (H j i m' m start'); [lia|done|done]].
Qed.

Lemma structAlign_pos s : 0 < structAlign s.
Proof.
  unfold structAlign. destruct (packed s); [lia|]. induction (members s); cbn; lia.
Qed.

Lemma placed_inside s i m start :
  Forall member_wf (members s) -> placed s !! i = Some (m, start) -> 0 <= start /\ start + memberBits m <= 8 * structSize s.
Proof.
  intros Hwf Hi. pose proof (placeMembers_spec (packed s) (members s) 0 Hwf) as H. unfold placed, structSize in *.
  destruct (placeMembers (packed s) 0 (members s)) as [l e]. destruct H as (_ & _ & H & _). cbn in *.
  destruct (H i m start Hi) as [H1 H2]. split; [done|]. pose proof (structAlign_pos s).
  destruct (alignUp_spec (8 * structAlign s) e ltac:(lia)) as [H3 [k Hk]]. rewrite Hk in *.
  replace (k * (8 * structAlign s)) with (k * structAlign s * 8) in * by ring. rewrite Z.div_mul by lia. lia.
Qed.

(** ** The structures of the kernel *)

(** Those with an assertion on their size in the code, and the size. *)
Definition asserted : list (Struct * Z) :=
  [(ModuleTag, 16); (MemoryMapTag, 16); (FrameBufferTag, 29); (OldRsdpTag, structSize RsdpV1 + 8); (NewRsdpTag, structSize RsdpV2 + 8);
   (RsdpV1, 20); (RsdpV2, 36); (TableHeader, 36); (Address, 12); (MadtTable, structSize TableHeader + 8); (MadtEntry, 2);
   (MadtLocalApicEntry, 8); (MadtIoApicEntry, 12); (MadtGsiOverrideEntry, 10); (HpetTable, structSize TableHeader + 20);
   (McfgTableEntry, 16); (IdtEntry, 16); (IdtPointer, 10); (InterruptStackFrame, 40)].

Lemma static_asserts : Forall (fun x => structSize (fst x) = snd x) asserted.
Proof. unfold asserted. repeat constructor. Qed.

Definition structures : list Struct :=
  (asserted.*1 ++ [MbiTag; MbiHeader; MemoryMapEntry; PcieDeviceHeader; XhciRegisters; Registers])%list.

Lemma structures_wf : Forall (fun s => Forall member_wf (members s) /\ NoDup (memberName <$> members s)) structures.
Proof.
  unfold structures, asserted. cbn [fmap list_fmap fst app].
  repeat (apply Forall_cons; split; [split; [repeat (apply Forall_cons; split; [split; [split|]; vm_compute; by try split|]); apply Forall_nil; exact I|apply (bool_decide_unpack _); vm_compute; exact I]|]).
  by apply Forall_nil.
Qed.

(** The offsets of [registers.S], from [RAX_OFFSET] to [RFLAGS_OFFSET]. *)
Definition registerOffsets : list Z := map (Z.mul 8) (seqZ 0 19).

Lemma registers_offsets : map (fun m => offsetOf Registers (memberName m)) (members Registers) = registerOffsets.
Proof. reflexivity. Qed.

Lemma bits_testbit b : Z.testbit b 7 = (b / 2 ^ 7 mod 2 ^ 1 =? 1).
Proof. rewrite Z.testbit_eqb by lia. reflexivity. Qed.

(** Evaluates the members named in the goal to loads at numeric offsets. *)
Ltac fields :=
  repeat match goal with
  | |- context [field ?m ?s ?p ?n] =>
      let r := eval vm_compute in (findMember n (placed s)) in
      lazymatch r with
      | Some (Field _ ?t, ?st) =>
          let o := eval vm_compute in (st / 8) in let z := eval vm_compute in (sizeof t) in
          change (field m s p n) with (loadn m (p + o) z)
      | Some (Bits _ _ ?w, ?st) =>
          let o := eval vm_compute in (st / 8) in let b := eval vm_compute in (2 ^ (st mod 8)) in let k := eval vm_compute in (2 ^ w) in
          change (field m s p n) with (m (p + o) / b mod k)
      end
  | |- context [offsetOf ?s ?n] => let r := eval vm_compute in (offsetOf s n) in change (offsetOf s n) with r
  | |- context [structSize ?s] => let r := eval vm_compute in (structSize s) in change (structSize s) with r
  end;
  unfold loadn; cbn [Z.eqb Pos.eqb]; rewrite ?Z.add_0_r.

(** *** The tags of the boot loader *)
Lemma mbi_fields m p i b c :
  tag_type m p = field m MbiTag p "type" /\ tag_size m p = field m MbiTag p "size" /\
  parseModuleTag m p b = mkBootInfo (physicalMemory b) (frameBuffer b) (field m ModuleTag p "moduleStart")
    (u32 (field m ModuleTag p "moduleEnd" - field m ModuleTag p "moduleStart")) (rsdp b) /\
  (let e := element MemoryMapTag p "memory" (struct_type MemoryMapEntry) i in
   entry_base m p i = field m MemoryMapEntry e "base" /\ entry_length m p i = field m MemoryMapEntry e "length" /\
   entry_type m p i = field m MemoryMapEntry e "type") /\
  numEntries m p = Z.to_nat (u32 (u64 (field m MemoryMapTag p "size" - structSize MemoryMapTag) / field m MemoryMapTag p "entrySize")) /\
  parseFrameBufferTag m p b = mkBootInfo (physicalMemory b)
    (Display.mkFrameBuffer (field m FrameBufferTag p "address") (field m FrameBufferTag p "width") (field m FrameBufferTag p "height")
       (field m FrameBufferTag p "pitch") (field m FrameBufferTag p "depth")) (initramfsPointer b) (initramfsSize b) (rsdp b) /\
  parseOldRsdpTag m p b = mkBootInfo (physicalMemory b) (frameBuffer b) (initramfsPointer b) (initramfsSize b)
    (bytesAt m (p + offsetOf OldRsdpTag "rsdp") (structSize RsdpV1) ++ skipn (Z.to_nat (structSize RsdpV1)) (rsdp b)) /\
  parseNewRsdpTag m p b = mkBootInfo (physicalMemory b) (frameBuffer b) (initramfsPointer b) (initramfsSize b)
    (bytesAt m (p + offsetOf NewRsdpTag "rsdp") (structSize RsdpV2) ++ skipn (Z.to_nat (structSize RsdpV2)) (rsdp b)) /\
  forall kernelStart kernelEnd fuel, parseMbi kernelStart kernelEnd fuel c m p b =
    (let! '(c, b) := parseMbi_loop kernelStart kernelEnd fuel c m (p + offsetOf MbiHeader "firstTag") b in
     if 0 <? initramfsSize b then
       let! '(c, pm) := MemoryBlock.reserve c (physicalMemory b)
         (MemoryBlock.mkBlock (PAGE_ALIGN_DOWN (initramfsPointer b)) (PAGE_ALIGN_UP (u64 (initramfsPointer b + initramfsSize b)))) in
       Ok (c, set_physicalMemory b pm)
     else Ok (c, b)).
Proof.
  cbn zeta. unfold element. change (sizeof (struct_type MemoryMapEntry)) with 24. fields.
  unfold numEntries, tag_size. repeat split; reflexivity.
Qed.

(** *** The tables of the firmware *)

(** The entry at [e] of the MADT, by the members of its type. *)
Definition madtEntryFields (m : Memory) (e : Z) (t : Madt) : Madt :=
  let type := field m MadtEntry e "type" in
  if type =? MADT_TYPE_LOCAL_APIC then
    if negb (Z.land (field m MadtLocalApicEntry e "flags") MADT_FLAGS_ENABLED =? 0)
       && (Z.of_nat (List.length (localApics t)) <? MAX_LOCAL_APICS)
    then mkMadt (hasPic t) (localApicAddress t) (localApics t ++ [field m MadtLocalApicEntry e "apicId"]) (ioApics t) (gsiOverrides t)
    else t
  else if type =? MADT_TYPE_IO_APIC then
    if Z.of_nat (List.length (ioApics t)) <? MAX_IO_APICS
    then mkMadt (hasPic t) (localApicAddress t) (localApics t)
      (ioApics t ++ [mkIoApicDescriptor (field m MadtIoApicEntry e "physicalAddress") (field m MadtIoApicEntry e "gsiBase")]) (gsiOverrides t)
    else t
  else if type =? MADT_TYPE_GSI_OVERRIDE then
    if Z.of_nat (List.length (gsiOverrides t)) <? MAX_GSI_OVERRIDES
    then mkMadt (hasPic t) (localApicAddress t) (localApics t) (ioApics t)
      (gsiOverrides t ++ [mkGsiOverride (negb (Z.land (field m MadtGsiOverrideEntry e "flags") 8 =? 0))
         (Z.land (field m MadtGsiOverrideEntry e "flags") 2 =? 0) (field m MadtGsiOverrideEntry e "source")
         (field m MadtGsiOverrideEntry e "destination")])
    else t
  else t.

(** What the HPET table says: its address is in the structure [adress]. *)
Definition hpetFields (m : Memory) (header : Z) : HpetInfo :=
  let adress := header + offsetOf HpetTable "adress" in
  if negb (field m Address adress "adressSpace" =? 0) then mkHpetInfo None 0 None
  else mkHpetInfo (Some (field m Address adress "address")) (u8 (field m HpetTable header "numComparators" + 1))
         (Some (field m HpetTable header "legacyReplacementCapable" =? 1)).

Lemma acpi_fields m p t :
  header_length m p = field m TableHeader p "length" /\
  rsdp_doChecksum m p = (sum_loop (Z.to_nat (if 2 <=? field m RsdpV2 p "revision" then structSize RsdpV2 else structSize RsdpV1)) m p 0 =? 0) /\
  madtEntry m p t = madtEntryFields m p t /\
  (forall fuel madt, madt_loop (S fuel) m madt p t =
     if p - madt <? header_length m madt then madt_loop fuel m madt (p + field m MadtEntry p "length") (madtEntry m p t) else Ok t) /\
  (forall fuel s, MadtTableManager fuel s m p =
     let! t := madt_loop fuel m p (p + structSize MadtTable)
       (mkMadt (negb (Z.land (field m MadtTable p "flags") MADT_FLAGS_PIC =? 0)) (field m MadtTable p "localInterruptController") [] [] []) in
     let! s := unmapMemory s p (header_length m p) in Ok (Acpi.MadtTable t, s)) /\
  (forall s, HpetTableManager s m p = let! s := unmapMemory s p (header_length m p) in Ok (Acpi.HpetTable (hpetFields m p), s)) /\
  (forall mappable n s i acc, mcfg_loop mappable (S n) s m p i acc =
     let e := p + 44 + i * structSize McfgTableEntry in
     let '(a, s) := mapAddress mappable s (field m McfgTableEntry e "address")
       (u64 ((field m McfgTableEntry e "lastBusNumber" - field m McfgTableEntry e "firstBusNumber" + 1) * 1048576)) in
     if i <? MAX_MCFG_ENTRIES
     then mcfg_loop mappable n s m p (i + 1) (acc ++ [mkMcfgEntry a (field m McfgTableEntry e "segmentGroup")
            (field m McfgTableEntry e "firstBusNumber") (field m McfgTableEntry e "lastBusNumber")])
     else Fault).
Proof.
  cbn zeta. unfold madtEntryFields, hpetFields. fields.
  do 5 (split; [reflexivity|]). split; [|intros; fields; reflexivity].
  intros s. unfold HpetTableManager. rewrite bits_testbit. rewrite (Z.land_ones _ 5) by lia. rewrite Z.div_1_r.
  change (2 ^ 5) with 32. rewrite <- Z.add_assoc. reflexivity.
Qed.

(** *** Devices *)
Lemma device_fields {W} `{Mmio W} (w : W) p n v d :
  getVendorId p w = read16 w (p + offsetOf PcieDeviceHeader "vendorId") /\
  getDeviceId p w = read16 w (p + offsetOf PcieDeviceHeader "deviceId") /\
  getCommand p w = read16 w (p + offsetOf PcieDeviceHeader "command") /\
  getStatus p w = read16 w (p + offsetOf PcieDeviceHeader "status") /\
  getRevision p w = read8 w (p + offsetOf PcieDeviceHeader "revision") /\
  getRegisterInterface p w = read8 w (p + offsetOf PcieDeviceHeader "registerInterface") /\
  getSubclass p w = read8 w (p + offsetOf PcieDeviceHeader "subclass") /\
  getClass p w = read8 w (p + offsetOf PcieDeviceHeader "classId") /\
  getHeaderType p w = read8 w (p + offsetOf PcieDeviceHeader "headerType") /\
  readBar p w n = read32 w (element PcieDeviceHeader p "bars" uint32_t n) /\
  writeBar p w n v = write32 w (element PcieDeviceHeader p "bars" uint32_t n) v /\
  getCapabilityLength d w = read8 w (Pcie.registers d + offsetOf XhciRegisters "capabilityLength") /\
  getVersion d w = read16 w (Pcie.registers d + offsetOf XhciRegisters "version").
Proof.
  unfold element, getVendorId, getCapabilityLength, readBar, writeBar. fields. cbn [sizeof uint32_t]. rewrite (Z.mul_comm n 4).
  repeat split; reflexivity.
Qed.

(** The loads at numeric offsets of [parseModuleTag],
    [parseFrameBufferTag], the memory map, the entries of the MADT, the HPET
    table and the header of a PCIe function are those of the members the code
    names, at the offsets the System V ABI gives them. The sizes are those the
    code asserts, in every structure members have distinct names, do not
    overlap and lie inside it, and [registers.S] uses the offsets of
    [task::Registers]. *)
Theorem fields_agree :
  Forall (fun x => structSize (fst x) = snd x) asserted /\
  Forall (fun s => forall i j m m' start start', i <> j -> placed s !! i = Some (m, start) -> placed s !! j = Some (m', start') ->
    memberName m <> memberName m' /\ (start + memberBits m <= start' \/ start' + memberBits m' <= start) /\
    0 <= start /\ start + memberBits m <= 8 * structSize s) structures /\
  map (fun m => offsetOf Registers (memberName m)) (members Registers) = registerOffsets /\
  (forall m p b,
    parseModuleTag m p b = mkBootInfo (physicalMemory b) (frameBuffer b) (field m ModuleTag p "moduleStart")
      (u32 (field m ModuleTag p "moduleEnd" - field m ModuleTag p "moduleStart")) (rsdp b) /\
    parseFrameBufferTag m p b = mkBootInfo (physicalMemory b)
      (Display.mkFrameBuffer (field m FrameBufferTag p "address") (field m FrameBufferTag p "width") (field m FrameBufferTag p "height")
         (field m FrameBufferTag p "pitch") (field m FrameBufferTag p "depth")) (initramfsPointer b) (initramfsSize b) (rsdp b)) /\
  (forall m p i, let e := element MemoryMapTag p "memory" (struct_type MemoryMapEntry) i in
    entry_base m p i = field m MemoryMapEntry e "base" /\ entry_length m p i = field m MemoryMapEntry e "length" /\
    entry_type m p i = field m MemoryMapEntry e "type") /\
  (forall m e t, madtEntry m e t = madtEntryFields m e t) /\
  (forall s m p, HpetTableManager s m p = let! s := unmapMemory s p (field m TableHeader p "length") in Ok (Acpi.HpetTable (hpetFields m p), s)) /\
  (forall W (H : Mmio W) (w : W) p n, getHeaderType p w = read8 w (p + offsetOf PcieDeviceHeader "headerType") /\
    readBar p w n = read32 w (element PcieDeviceHeader p "bars" uint32_t n)).
Proof.
  split; [exact static_asserts|]. split.
  { eapply Forall_impl; [exact structures_wf|]. intros s [Hwf Hnd] i j m m' start start' Hij Hi Hj.
    split; [|split; [by apply (placed_disjoint s i j)|by apply (placed_inside s i)]].
    intros Hn. apply Hij. pose proof (placeMembers_spec (packed s) (members s) 0 Hwf) as Hp. unfold placed in *.
    destruct (placeMembers (packed s) 0 (members s)) as [l e]. cbn in *. destruct Hp as (_ & Hl & _).
    apply (NoDup_lookup (memberName <$> members s) i j (memberName m) Hnd);
      rewrite <- Hl, !list_lookup_fmap; [by rewrite Hi|by rewrite Hj, Hn]. }
  split; [exact registers_offsets|].
  split; [intros m p b; pose proof (mbi_fields m p 0 b (mkCpu 0 0)) as (_ & _ & H1 & _ & _ & H2 & _); split; [exact H1|exact H2]|].
  split; [intros m p i; apply (mbi_fields m p i emptyBoot (mkCpu 0 0))|].
  split; [intros m e t; apply acpi_fields|].
  split; [intros s m p; destruct (acpi_fields m p (mkMadt false 0 [] [] [])) as (H1 & _ & _ & _ & _ & H2 & _); rewrite H2, H1; reflexivity|].
  intros W H w p n. destruct (device_fields w p n 0 (mkXhciDriver 0)) as (_ & _ & _ & _ & _ & _ & _ & _ & H1 & H2 & _). by split.
Qed.
