(* ===== verification/DeviceTree.v ===== *)
(** * The device tree ([tree.h], [tree.cpp], [acpiTree.h], [acpiTree.cpp],
    [pcieTree.h])

    Devices are objects of a heap, linked to their parent and siblings by
    pointers; 0 is null. Each device is loaded by a thread of its own, which
    waits for the devices its [load] appended. The threads interleave; waiting
    for a completion and signalling it are one step each (the completion itself
    is modelled in [Sync]). *)

From Stdlib Require Import ZArith Lia.
From stdpp Require Import base tactics numbers gmap list.
From S2P Require Import Prelude Acpi.

Open Scope Z_scope.

Inductive DeviceType := ACPI | PCIE | XHCI.

(** Where the thread of a device is: in [load], before [await] on the child at
    an iterator, or past [signalComplete]. *)
Inductive Phase := Loading | Awaiting (ptr : Z) | Complete.

Record DeviceTree := mkDevice { firstChild : Z; lastChild : Z; next : Z; phase : Phase }.

Abbreviation Devices := (gmap Z DeviceTree).

(** ** Operations *)

(** A device after its constructor. *)
Definition newDevice : DeviceTree := mkDevice 0 0 0 Loading.

Definition set_next (d : DeviceTree) (p : Z) : DeviceTree := mkDevice (firstChild d) (lastChild d) p (phase d).
Definition set_children (d : DeviceTree) (first last : Z) : DeviceTree := mkDevice first last (next d) (phase d).
Definition set_phase (d : DeviceTree) (p : Phase) : DeviceTree := mkDevice (firstChild d) (lastChild d) (next d) p.

(** [appendAndLoad] up to the creation of the thread. *)
Definition append (h : Devices) (t child : Z) : outcome Devices :=
  let! d := of_option (h !! t) in
  if firstChild d =? 0 then Ok (<[t := set_children d child child]> h)
  else
    let! l := of_option (h !! lastChild d) in
    let h := <[lastChild d := set_next l child]> h in
    let! d := of_option (h !! t) in
    Ok (<[t := set_children d (firstChild d) child]> h).

Definition begin (h : Devices) (t : Z) : outcome Z := let! d := of_option (h !! t) in Ok (firstChild d).

(** [Iterator::operator++]. *)
Definition Iterator_incr (h : Devices) (ptr : Z) : outcome Z := let! d := of_option (h !! ptr) in Ok (next d).

(** The destructor: the children are deleted in a loop whose iterator moves on
    from a deleted child. *)
Fixpoint delete_tree (fuel : nat) (h : Devices) (t : Z) : outcome Devices :=
  match fuel with
  | O => Hang
  | S fuel =>
      let! ptr := begin h t in
      let! h :=
        (fix loop (n : nat) (h : Devices) (ptr : Z) : outcome Devices :=
           if ptr =? 0 then Ok h
           else match n with
                | O => Hang
                | S n => let! h := delete_tree fuel h ptr in let! ptr := Iterator_incr h ptr in loop n h ptr
                end) fuel h ptr in
      Ok (delete t h)
  end.

(** ** Loading, a step at a time *)

Inductive step (h : Devices) : Devices -> Prop :=
| step_append t child d h' : h !! t = Some d -> phase d = Loading -> child <> 0 -> h !! child = None ->
    append (<[child := newDevice]> h) t child = Ok h' -> step h h'
| step_loaded t d ptr : h !! t = Some d -> phase d = Loading -> begin h t = Ok ptr ->
    step h (<[t := set_phase d (Awaiting ptr)]> h)
| step_await t d ptr c ptr' : h !! t = Some d -> phase d = Awaiting ptr -> ptr <> 0 -> h !! ptr = Some c -> phase c = Complete ->
    Iterator_incr h ptr = Ok ptr' -> step h (<[t := set_phase d (Awaiting ptr')]> h)
| step_signal t d : h !! t = Some d -> phase d = Awaiting 0 ->
    step h (<[t := set_phase d Complete]> h).

(** [loadRootDevice] with the root at [root]. *)
Definition loadRootDevice (root : Z) : Devices := {[ root := newDevice ]}.

(** ** AcpiDeviceTree::load *)

(** The tables that have a driver, in order, and the number of the others. *)
Fixpoint acpi_load (tables : list (option TableManager)) (children : list (list McfgEntry)) (unusedTableCount : Z)
    : list (list McfgEntry) * Z :=
  match tables with
  | [] => (children, unusedTableCount)
  | None :: tables => acpi_load tables children unusedTableCount
  | Some (McfgTable entries) :: tables => acpi_load tables (children ++ [entries]) unusedTableCount
  | Some _ :: tables => acpi_load tables children (u32 (unusedTableCount + 1))
  end.

(** ** Lists of children *)

(** The list [l] is linked from [p] on. *)
Fixpoint linked (h : Devices) (p : Z) (l : list Z) : Prop :=
  match l with
  | [] => p = 0
  | c :: l => p = c /\ c <> 0 /\ exists d, h !! c = Some d /\ linked h (next d) l
  end.

Definition complete (h : Devices) (t : Z) : Prop := exists d, h !! t = Some d /\ phase d = Complete.

(** [ch] gives the children of each device and [born] the order of creation. *)
Record inv (root : Z) (ch : Z -> list Z) (born : Z -> nat) (h : Devices) : Prop := {
  inv_linked t d : h !! t = Some d -> linked h (firstChild d) (ch t) /\ (ch t = [] \/ last (ch t) = Some (lastChild d));
  inv_absent t : h !! t = None -> ch t = [];
  inv_nodup t : NoDup (ch t);
  inv_parent t1 t2 c : c ∈ ch t1 -> c ∈ ch t2 -> t1 = t2;
  inv_root : is_Some (h !! root) /\ forall t, root ∉ ch t;
  inv_child t : is_Some (h !! t) -> t = root \/ exists p, t ∈ ch p;
  inv_born t c : c ∈ ch t -> (born t < born c)%nat;
  inv_phase t d : h !! t = Some d ->
    match phase d with
    | Loading => True
    | Awaiting ptr => exists done rest, ch t = done ++ rest /\ linked h ptr rest /\ Forall (complete h) done
    | Complete => Forall (complete h) (ch t)
    end
}.

Lemma linked_lookup h l : forall p, linked h p l -> Forall (fun c => is_Some (h !! c)) l.
Proof. induction l as [|c l IH]; intros p Hl; [constructor|]. destruct Hl as (_ & _ & d & Hd & Hl). constructor; [by eexists|by eapply IH]. Qed.

Lemma linked_nonnull h l : forall p, linked h p l -> Forall (fun c => c <> 0) l.
Proof. induction l as [|c l IH]; intros p Hl; [constructor|]. destruct Hl as (_ & Hc & d & _ & Hl). constructor; [done|by eapply IH]. Qed.

(** Only the [next] pointers of the list matter. *)
Lemma linked_frame h h' l : forall p,
  (forall c d, c ∈ l -> h !! c = Some d -> exists d', h' !! c = Some d' /\ next d' = next d) -> linked h p l -> linked h' p l.
Proof.
  induction l as [|c l IH]; intros p Hf Hl; [done|]. destruct Hl as (-> & Hc & d & Hd & Hl). split; [done|]. split; [done|].
  destruct (Hf c d ltac:(left) Hd) as (d' & Hd' & En). exists d'. split; [done|]. rewrite En. apply IH; [|done].
  intros c' d'' Hin. apply Hf. by right.
Qed.

(** Appending after the last element. *)
Lemma linked_snoc h h' child dc l : forall p x,
  linked h p (l ++ [x]) -> NoDup (l ++ [x]) ->
  (forall c d, c ∈ l -> h !! c = Some d -> exists d', h' !! c = Some d' /\ next d' = next d) ->
  (exists d', h' !! x = Some d' /\ next d' = child) -> child <> 0 -> h' !! child = Some dc -> next dc = 0 ->
  linked h' p (l ++ [x; child]).
Proof.
  induction l as [|c l IH]; intros p x Hl Hnd Hf Hx Hc Hdc Hn; cbn [app linked] in *.
  - destruct Hl as (-> & H0 & _). destruct Hx as (d' & Hd' & En). split; [done|]. split; [done|]. exists d'. split; [done|].
    split; [done|]. split; [done|]. by exists dc.
  - destruct Hl as (-> & H0 & d & Hd & Hl). apply NoDup_cons in Hnd as [_ Hnd]. split; [done|]. split; [done|].
    destruct (Hf c d ltac:(left) Hd) as (d' & Hd' & En). exists d'. split; [done|]. rewrite En. apply IH; try done.
    intros c' d'' Hin. apply Hf. by right.
Qed.

(** ** The invariant holds at every step *)

Lemma child_in_heap root ch born h t c : inv root ch born h -> c ∈ ch t -> is_Some (h !! c).
Proof.
  intros Hinv Hc. destruct (h !! t) as [d|] eqn:Ht.
  - destruct (inv_linked _ _ _ _ Hinv t d Ht) as [Hl _]. apply linked_lookup in Hl. rewrite Forall_forall in Hl. by apply Hl.
  - rewrite (inv_absent _ _ _ _ Hinv t Ht) in Hc. by apply elem_of_nil in Hc.
Qed.

(** A step that changes the phase of one device. *)
Lemma inv_set_phase root ch born h t d p :
  inv root ch born h -> h !! t = Some d -> phase d <> Complete ->
  (let h' := <[t := set_phase d p]> h in
   match p with
   | Loading => True
   | Awaiting ptr => exists done rest, ch t = done ++ rest /\ linked h ptr rest /\ Forall (complete h) done
   | Complete => Forall (complete h) (ch t)
   end) ->
  inv root ch born (<[t := set_phase d p]> h).
Proof.
  intros Hinv Hd Hnc Hp. set (h' := <[t := set_phase d p]> h) in *.
  assert (Hlook : forall u e, h' !! u = Some e -> exists e0, h !! u = Some e0 /\ firstChild e = firstChild e0 /\ lastChild e = lastChild e0 /\
    (u <> t /\ e = e0 \/ u = t /\ e0 = d /\ phase e = p)).
  { intros u e Hu. unfold h' in Hu. destruct (decide (u = t)) as [->|Hut].
    - rewrite lookup_insert_eq in Hu. injection Hu as <-. exists d. repeat split; auto.
    - rewrite lookup_insert_ne in Hu by done. exists e. repeat split; auto. }
  assert (Hfr : forall l q, linked h q l -> linked h' q l).
  { intros l q. apply linked_frame. intros c e _ Hc. unfold h'. destruct (decide (c = t)) as [->|Hct].
    - rewrite Hd in Hc. injection Hc as <-. rewrite lookup_insert_eq. by eexists.
    - rewrite lookup_insert_ne by done. by exists e. }
  assert (Hco : forall u, complete h u -> complete h' u).
  { intros u (e & He & Ee). exists e. split; [|done]. unfold h'. rewrite lookup_insert_ne; [done|]. intros ->. rewrite Hd in He. by simplify_eq. }
  assert (Hdom : forall u, is_Some (h' !! u) <-> is_Some (h !! u)).
  { intros u. unfold h'. destruct (decide (u = t)) as [->|Hut]; [rewrite lookup_insert_eq, Hd|by rewrite lookup_insert_ne]. by split; intros _; eexists. }
  split.
  - intros u e Hu. destruct (Hlook u e Hu) as (e0 & He0 & -> & -> & _). destruct (inv_linked _ _ _ _ Hinv u e0 He0) as [Hl Hlast].
    split; [by apply Hfr|done].
  - intros u Hu. apply (inv_absent _ _ _ _ Hinv). apply eq_None_not_Some. rewrite <- Hdom. by apply eq_None_not_Some.
  - apply (inv_nodup _ _ _ _ Hinv).
  - apply (inv_parent _ _ _ _ Hinv).
  - rewrite Hdom. apply (inv_root _ _ _ _ Hinv).
  - intros u. rewrite Hdom. apply (inv_child _ _ _ _ Hinv).
  - apply (inv_born _ _ _ _ Hinv).
  - intros u e Hu. destruct (Hlook u e Hu) as (e0 & He0 & _ & _ & [[Hut ->]|(-> & -> & ->)]).
    + pose proof (inv_phase _ _ _ _ Hinv u e0 He0) as H0. destruct (phase e0).
      * done.
      * destruct H0 as (dn & rest & E & Hl & Hf). exists dn, rest. split; [done|]. split; [by apply Hfr|by eapply Forall_impl].
      * by eapply Forall_impl.
    + cbn in Hp. destruct p.
      * done.
      * destruct Hp as (dn & rest & E & Hl & Hf). exists dn, rest. split; [done|]. split; [by apply Hfr|by eapply Forall_impl].
      * by eapply Forall_impl.
Qed.

Lemma tree_inv_init root : root <> 0 -> inv root (fun _ => []) (fun _ => O) (loadRootDevice root).
Proof.
  intros Hr. unfold loadRootDevice. split; try done.
  - intros t d Hd. apply lookup_singleton_Some in Hd as [<- <-]. split; [done|by left].
  - intros t. constructor.
  - intros t1 t2 c Hc. by apply elem_of_nil in Hc.
  - split; [rewrite lookup_singleton_eq; by eexists|]. intros t Hc. by apply elem_of_nil in Hc.
  - intros t [d Hd]. apply lookup_singleton_Some in Hd as [<- _]. by left.
  - intros t c Hc. by apply elem_of_nil in Hc.
  - intros t d Hd. apply lookup_singleton_Some in Hd as [<- <-]. done.
Qed.

(** ** Appending a child *)

(** Every device but [t] and the new child keeps its children and its phase,
    and its sibling unless it was the last child of [t]. *)
Definition appended (h h' : Devices) (ch : Z -> list Z) (t child : Z) : Prop :=
  h' !! child = Some newDevice /\
  (forall u e, u <> child -> h' !! u = Some e -> exists e0, h !! u = Some e0 /\ phase e = phase e0 /\
     (u <> t -> firstChild e = firstChild e0 /\ lastChild e = lastChild e0)) /\
  (forall u e0, h !! u = Some e0 -> exists e, h' !! u = Some e /\ phase e = phase e0 /\ (last (ch t) <> Some u -> next e = next e0)) /\
  exists d', h' !! t = Some d' /\ lastChild d' = child /\ linked h' (firstChild d') (ch t ++ [child]).

Lemma append_spec root ch born h t d child h' :
  inv root ch born h -> h !! t = Some d -> child <> 0 -> h !! child = None ->
  append (<[child := newDevice]> h) t child = Ok h' -> appended h h' ch t child.
Proof.
  intros Hinv Hd Hc0 Hc E. assert (Htc : child <> t) by (intros ->; congruence).
  destruct (inv_linked _ _ _ _ Hinv t d Hd) as [Hl Hlast]. unfold append in E. rewrite lookup_insert_ne, Hd in E by done. cbn [of_option obind] in E.
  destruct (Z.eqb_spec (firstChild d) 0) as [H0|H0].
  - assert (Hch : ch t = []) by (destruct (ch t) as [|c l]; [done|]; destruct Hl as (E1 & E2 & _); congruence).
    injection E as <-. unfold appended. rewrite Hch, lookup_insert_eq, lookup_insert_ne, lookup_insert_eq by done. split; [done|]. split; [|split].
    + intros u e Hu He. destruct (decide (u = t)) as [->|Hut].
      * rewrite lookup_insert_eq in He. injection He as <-. by exists d.
      * rewrite !lookup_insert_ne in He by done. by exists e.
    + intros u e0 He. destruct (decide (u = t)) as [->|Hut].
      * rewrite lookup_insert_eq. rewrite Hd in He. injection He as <-. by eexists.
      * exists e0. rewrite !lookup_insert_ne; [done| |done]. intros ->. congruence.
    + eexists. split; [reflexivity|]. cbn. split; [done|]. split; [done|]. split; [done|]. exists newDevice.
      rewrite lookup_insert_ne, lookup_insert_eq by done. done.
  - destruct Hlast as [Hch|Hlast]; [rewrite Hch in Hl; cbn in Hl; done|]. apply last_Some in Hlast as [l El]. set (x := lastChild d) in *.
    assert (Hxt : x ∈ ch t) by (rewrite El; apply elem_of_app; right; left).
    destruct (child_in_heap _ _ _ _ _ _ Hinv Hxt) as [dx Hx].
    assert (Nx : x <> t) by (intros Ex; pose proof (inv_born _ _ _ _ Hinv t x Hxt) as Hb; rewrite Ex in Hb; lia).
    assert (Nxc : x <> child) by (intros Ex; rewrite Ex in Hx; congruence).
    rewrite lookup_insert_ne, Hx in E by done. cbn [of_option obind] in E. rewrite !lookup_insert_ne, Hd in E by done.
    cbn [of_option obind] in E. injection E as <-.
    unfold appended. rewrite El. rewrite last_snoc. split; [by rewrite !lookup_insert_ne, lookup_insert_eq by done|]. split; [|split].
    + intros u e Hu He. destruct (decide (u = t)) as [->|Hut]; [|destruct (decide (u = x)) as [->|Hux]].
      * rewrite lookup_insert_eq in He. injection He as <-. by exists d.
      * rewrite lookup_insert_ne, lookup_insert_eq in He by done. injection He as <-. by exists dx.
      * rewrite !lookup_insert_ne in He by done. by exists e.
    + intros u e0 He. assert (Huc : child <> u) by (intros ->; congruence).
      destruct (decide (u = t)) as [->|Hut]; [|destruct (decide (u = x)) as [->|Hux]].
      * rewrite lookup_insert_eq. rewrite Hd in He. injection He as <-. by eexists.
      * rewrite lookup_insert_ne, lookup_insert_eq by done. rewrite Hx in He. injection He as <-. eexists. split; [done|]. split; [done|]. done.
      * rewrite !lookup_insert_ne by done. by exists e0.
    + eexists. rewrite lookup_insert_eq. split; [reflexivity|]. cbn [set_children lastChild firstChild]. split; [done|].
      rewrite <- app_assoc. cbn [app]. rewrite El in Hl. pose proof (inv_nodup _ _ _ _ Hinv t) as Hnd. rewrite El in Hnd.
      apply (linked_snoc h _ child newDevice); try done.
      * intros c e Hin He. assert (Huc : child <> c) by (intros ->; congruence).
        assert (Hcx : c <> x) by (intros ->; apply NoDup_app in Hnd as (_ & Hnd & _); apply (Hnd x Hin); left).
        destruct (decide (c = t)) as [->|Hct]; [|rewrite !lookup_insert_ne by done; by exists e].
        rewrite lookup_insert_eq. rewrite Hd in He. injection He as <-. by eexists.
      * rewrite lookup_insert_ne, lookup_insert_eq by done. by eexists.
      * by rewrite !lookup_insert_ne, lookup_insert_eq by done.
Qed.

Lemma inv_append root ch born h t d child h' :
  inv root ch born h -> h !! t = Some d -> phase d = Loading -> child <> 0 -> h !! child = None ->
  append (<[child := newDevice]> h) t child = Ok h' ->
  inv root (fun u => if decide (u = t) then ch t ++ [child] else ch u) (fun u => if decide (u = child) then S (born t) else born u) h'.
Proof.
  intros Hinv Hd Hp Hc0 Hc E. destruct (append_spec _ _ _ _ _ _ _ _ Hinv Hd Hc0 Hc E) as (Hchild & Hback & Hfwd & d' & Hd' & Hlast' & Hl').
  assert (Htc : t <> child) by (intros ->; congruence).
  assert (Hnew : forall u, child ∉ ch u) by (intros u Hin; destruct (child_in_heap _ _ _ _ _ _ Hinv Hin); congruence).
  assert (Hnone : ch child = []) by by apply (inv_absent _ _ _ _ Hinv).
  assert (Hframe : forall u p l, u <> t -> (forall c, c ∈ l -> c ∈ ch u) -> linked h p l -> linked h' p l).
  { intros u p l Hu Hin. apply linked_frame. intros c e Hcl He. destruct (Hfwd c e He) as (e' & He' & _ & En). exists e'. split; [done|].
    apply En. intros Hlast. apply Hu, (inv_parent _ _ _ _ Hinv u t c); [by apply Hin|]. apply last_Some in Hlast as [l' ->]. apply elem_of_app. right. left. }
  assert (Hco : forall u, complete h u -> complete h' u).
  { intros u (e & He & Ee). destruct (Hfwd u e He) as (e' & He' & Ep & _). exists e'. split; [done|congruence]. }
  split.
  - intros u e Hu. destruct (decide (u = t)) as [->|Hut].
    { rewrite Hd' in Hu. injection Hu as <-. split; [done|]. right. by rewrite last_snoc, Hlast'. }
    destruct (decide (u = child)) as [->|Huc]; [rewrite Hnone; rewrite Hchild in Hu; injection Hu as <-; split; [done|by left]|].
    destruct (Hback u e Huc Hu) as (e0 & He0 & _ & Hkeep). destruct (Hkeep Hut) as [-> ->].
    destruct (inv_linked _ _ _ _ Hinv u e0 He0) as [Hl Hlast]. split; [|done]. by apply (Hframe u).
  - intros u Hu. rewrite decide_False by (intros ->; congruence). apply (inv_absent _ _ _ _ Hinv). apply eq_None_not_Some. intros [e He].
    destruct (Hfwd u e He) as (e' & He' & _). congruence.
  - intros u. case_decide; [|apply (inv_nodup _ _ _ _ Hinv)]. apply NoDup_app. split; [apply (inv_nodup _ _ _ _ Hinv)|]. split; [|apply NoDup_singleton].
    intros x Hx Hx'. apply list_elem_of_singleton in Hx' as ->. by apply (Hnew t).
  - assert (Hsplit : forall u c, c ∈ (if decide (u = t) then ch t ++ [child] else ch u) -> c ∈ ch u \/ c = child /\ u = t).
    { intros u c Hin. case_decide; [subst u|by left]. apply elem_of_app in Hin as [Hin|Hin]; [by left|].
      apply list_elem_of_singleton in Hin. by right. }
    intros t1 t2 c H1 H2. apply Hsplit in H1 as [H1|[-> ->]], H2 as [H2|[E2 E3]]; subst; try done.
    + by apply (inv_parent _ _ _ _ Hinv t1 t2 c).
    + by apply Hnew in H1.
    + by apply Hnew in H2.
  - destruct (inv_root _ _ _ _ Hinv) as [[e He] Hr]. split; [destruct (Hfwd root e He) as (e' & He' & _); by eexists|]. intros u. case_decide; [|done].
    intros Hin. apply elem_of_app in Hin as [Hin|Hin]; [by apply (Hr t)|]. apply list_elem_of_singleton in Hin. congruence.
  - intros u [e Hu]. destruct (decide (u = child)) as [->|Huc].
    + right. exists t. rewrite decide_True by done. apply elem_of_app. right. left.
    + destruct (Hback u e Huc Hu) as (e0 & He0 & _). destruct (inv_child _ _ _ _ Hinv u ltac:(by eexists)) as [->|[p Hp']]; [by left|].
      right. exists p. case_decide; [subst; apply elem_of_app; by left|done].
  - intros u c Hin. assert (Hin' : c ∈ ch u \/ c = child /\ u = t).
    { case_decide; [subst u|by left]. apply elem_of_app in Hin as [Hin|Hin]; [by left|]. apply list_elem_of_singleton in Hin. by right. }
    clear Hin. destruct Hin' as [Hu|[-> ->]].
    + rewrite (decide_False (P := c = child)) by (intros ->; by apply Hnew in Hu). apply (inv_born _ _ _ _ Hinv) in Hu as Hb.
      case_decide; [subst u; rewrite Hnone in Hu; by apply elem_of_nil in Hu|done].
    + rewrite decide_False, decide_True by done. lia.
  - intros u e Hu. destruct (decide (u = child)) as [->|Huc]; [rewrite Hchild in Hu; by injection Hu as <-|].
    destruct (Hback u e Huc Hu) as (e0 & He0 & Ep & _). rewrite Ep. pose proof (inv_phase _ _ _ _ Hinv u e0 He0) as H0.
    destruct (decide (u = t)) as [->|Hut]; [rewrite Hd in He0; injection He0 as <-; by rewrite Hp|].
    destruct (phase e0); [done| |by eapply Forall_impl].
    destruct H0 as (dn & rest & Ech & Hl & Hf). exists dn, rest. split; [done|]. split; [|by eapply Forall_impl].
    apply (Hframe u); [done| |done]. intros c Hin. rewrite Ech. apply elem_of_app. by right.
Qed.

Lemma step_inv root ch born h h' : inv root ch born h -> step h h' -> exists ch' born', inv root ch' born' h'.
Proof.
  intros Hinv Hs. destruct Hs as [t child d h' Hd Hp Hc0 Hc E|t d ptr Hd Hp Hb|t d ptr c ptr' Hd Hp Hp0 Hc Hcp Hi|t d Hd Hp].
  - do 2 eexists. by eapply inv_append.
  - exists ch, born. unfold begin in Hb. rewrite Hd in Hb. injection Hb as <-. apply inv_set_phase; [done|done|congruence|].
    cbv zeta. exists [], (ch t). split; [done|]. split; [|constructor]. apply (inv_linked _ _ _ _ Hinv t d Hd).
  - exists ch, born. pose proof (inv_phase _ _ _ _ Hinv t d Hd) as H0. rewrite Hp in H0. destruct H0 as (dn & rest & Ech & Hl & Hf).
    apply inv_set_phase; [done|done|congruence|]. cbv zeta. destruct rest as [|x rest]; [done|]. destruct Hl as (<- & _ & e & He & Hl).
    rewrite Hc in He. injection He as <-. unfold Iterator_incr in Hi. rewrite Hc in Hi. injection Hi as <-.
    exists (dn ++ [ptr]), rest. rewrite <- app_assoc. split; [done|]. split; [done|]. apply Forall_app_2; [done|]. constructor; [by exists c|constructor].
  - exists ch, born. pose proof (inv_phase _ _ _ _ Hinv t d Hd) as H0. rewrite Hp in H0. destruct H0 as (dn & rest & Ech & Hl & Hf).
    apply inv_set_phase; [done|done|congruence|]. cbv zeta. destruct rest as [|x rest]; [by rewrite Ech, app_nil_r|]. by destruct Hl as (<- & ? & _).
Qed.

Lemma tree_reachable root h : root <> 0 -> star step (loadRootDevice root) h -> exists ch born, inv root ch born h.
Proof.
  intros Hr Hs. apply (star_invariant step (fun h => exists ch born, inv root ch born h)) with (2 := Hs).
  - intros a b (ch & born & Ha) Hab. by eapply step_inv.
  - do 2 eexists. by apply tree_inv_init.
Qed.

(** ** Completion *)

Lemma complete_all root ch born h : inv root ch born h -> complete h root -> forall t, is_Some (h !! t) -> complete h t.
Proof.
  intros Hinv Hroot t. remember (born t) as n eqn:En. revert t En. induction n as [n IH] using lt_wf_ind. intros t -> Ht.
  destruct (inv_child _ _ _ _ Hinv t Ht) as [->|[p Hp]]; [done|].
  assert (Hps : is_Some (h !! p)).
  { destruct (h !! p) eqn:E; [by eexists|]. rewrite (inv_absent _ _ _ _ Hinv p E) in Hp. by apply elem_of_nil in Hp. }
  destruct (IH (born p) (inv_born _ _ _ _ Hinv p t Hp) p eq_refl Hps) as (d & Hd & Ec).
  pose proof (inv_phase _ _ _ _ Hinv p d Hd) as H. rewrite Ec in H. rewrite Forall_forall in H. by apply H.
Qed.

Definition no_loading (h : Devices) : Prop := forall t d, h !! t = Some d -> phase d <> Loading.

(** What waiting threads do from [h] to [h']. *)
Definition advances root ch born (h h' : Devices) : Prop :=
  star step h h' /\ inv root ch born h' /\ no_loading h' /\ (forall u, complete h u -> complete h' u) /\
  (forall u, is_Some (h !! u) -> is_Some (h' !! u)).

Lemma advances_trans root ch born h1 h2 h3 : advances root ch born h1 h2 -> advances root ch born h2 h3 -> advances root ch born h1 h3.
Proof. intros (S1 & _ & _ & C1 & D1) (S2 & I2 & N2 & C2 & D2). split; [by eapply star_trans|]. split; [done|]. split; [done|]. split; auto. Qed.

Lemma advances_refl root ch born h : inv root ch born h -> no_loading h -> advances root ch born h h.
Proof. intros Hi Hn. split; [apply star_refl|]. split; [done|]. split; [done|]. by split. Qed.

Lemma advances_set_phase root ch born h t d p :
  inv root ch born h -> no_loading h -> h !! t = Some d -> phase d <> Complete -> p <> Loading ->
  step h (<[t := set_phase d p]> h) ->
  match p with
  | Loading => True
  | Awaiting ptr => exists done rest, ch t = done ++ rest /\ linked h ptr rest /\ Forall (complete h) done
  | Complete => Forall (complete h) (ch t)
  end -> advances root ch born h (<[t := set_phase d p]> h).
Proof.
  intros Hinv Hn Hd Hnc Hp Hs Hph. split; [by apply star_one|]. split; [by apply inv_set_phase|]. split; [|split].
  - intros u e Hu. destruct (decide (u = t)) as [->|Hut]; [rewrite lookup_insert_eq in Hu; by injection Hu as <-|].
    rewrite lookup_insert_ne in Hu by done. by eapply Hn.
  - intros u (e & He & Ee). exists e. split; [|done]. rewrite lookup_insert_ne; [done|]. intros ->. rewrite Hd in He. by simplify_eq.
  - intros u Hu. destruct (decide (u = t)) as [->|Hut]; [rewrite lookup_insert_eq; by eexists|by rewrite lookup_insert_ne].
Qed.

(** A thread whose remaining children are complete ends. *)
Lemma awaits_end root ch born t rest : forall h d ptr dn,
  inv root ch born h -> no_loading h -> h !! t = Some d -> phase d = Awaiting ptr -> ch t = dn ++ rest -> linked h ptr rest ->
  Forall (complete h) (ch t) -> exists h', advances root ch born h h' /\ complete h' t.
Proof.
  induction rest as [|c rest IH]; intros h d ptr dn Hinv Hn Hd Hp Ech Hl Hc.
  - cbn in Hl. subst ptr. exists (<[t := set_phase d Complete]> h). split.
    + apply advances_set_phase; try done; [congruence|]. by apply step_signal.
    + eexists. rewrite lookup_insert_eq. split; reflexivity.
  - destruct Hl as (<- & H0 & e & He & Hl).
    assert (Hce : complete h ptr) by (rewrite Forall_forall in Hc; apply Hc; rewrite Ech; apply elem_of_app; right; left).
    destruct Hce as (e' & He' & Ee). rewrite He in He'. injection He' as <-.
    assert (Hadv : advances root ch born h (<[t := set_phase d (Awaiting (next e))]> h)).
    { apply advances_set_phase; try done; [congruence| |].
      - apply (step_await h t d ptr e); try done. unfold Iterator_incr. by rewrite He.
      - exists (dn ++ [ptr]), rest. rewrite <- app_assoc. split; [done|]. split; [done|]. rewrite Ech in Hc. apply Forall_app in Hc as [Hc1 Hc2].
        apply Forall_cons in Hc2 as [Hc2 _]. apply Forall_app_2; [done|]. by constructor. }
    pose proof Hadv as (Hs & Hi & Hnl & Hco & Hdom).
    pose proof (inv_phase _ _ _ _ Hi t (set_phase d (Awaiting (next e)))) as H1. rewrite lookup_insert_eq in H1. specialize (H1 eq_refl). cbn in H1.
    assert (Hl' : linked (<[t := set_phase d (Awaiting (next e))]> h) (next e) rest).
    { revert Hl. apply linked_frame. intros u x _ Hx. destruct (decide (u = t)) as [->|Hut].
      - rewrite Hd in Hx. injection Hx as <-. rewrite lookup_insert_eq. by eexists.
      - rewrite lookup_insert_ne by done. by exists x. }
    destruct (IH _ (set_phase d (Awaiting (next e))) (next e) (dn ++ [ptr]) Hi Hnl (lookup_insert_eq _ _ _) eq_refl) as (h' & Ha & Ht).
    + by rewrite <- app_assoc.
    + done.
    + by eapply Forall_impl.
    + exists h'. split; [exact (advances_trans _ _ _ _ _ _ Hadv Ha)|done].
Qed.

(** Every device completes once nothing loads any more. *)
Lemma device_completes root ch born N : forall k t h,
  inv root ch born h -> no_loading h -> is_Some (h !! t) -> (forall u, is_Some (h !! u) -> (born u <= N)%nat) -> (N - born t < k)%nat ->
  exists h', advances root ch born h h' /\ complete h' t.
Proof.
  induction k as [|k IHk]; intros t h Hinv Hn Ht HN Hk; [lia|].
  assert (Hchildren : forall l h0, advances root ch born h h0 -> (forall c, c ∈ l -> c ∈ ch t) -> (forall u, is_Some (h0 !! u) -> (born u <= N)%nat) ->
    exists h1, advances root ch born h h1 /\ (forall u, complete h0 u -> complete h1 u) /\ Forall (complete h1) l).
  { induction l as [|c l IHl]; intros h0 Ha Hin HN0; [by exists h0|]. assert (Hct : c ∈ ch t) by (apply Hin; left).
    pose proof Ha as (S0 & I0 & N0 & C0 & D0). assert (Hb : (born t < born c)%nat) by by apply (inv_born _ _ _ _ I0).
    destruct (IHk c h0 I0 N0) as (h1 & A1 & Hc1); [by eapply child_in_heap|done| |].
    { assert (born c <= N)%nat by (apply HN0; by eapply child_in_heap). lia. }
    assert (HN1 : forall u, is_Some (h1 !! u) -> (born u <= N)%nat).
    { intros u Hu. destruct A1 as (_ & I1 & _). destruct (inv_child _ _ _ _ I1 u Hu) as [->|[p Hp]].
      - apply HN, (inv_root _ _ _ _ Hinv).
      - apply HN. by eapply child_in_heap. }
    destruct (IHl h1) as (h2 & A2 & C2 & F2); [exact (advances_trans _ _ _ _ _ _ Ha A1)|intros u Hu; apply Hin; by right|done|].
    exists h2. split; [done|]. destruct A1 as (_ & _ & _ & C1 & _). split; [auto|]. constructor; [auto|done]. }
  destruct (Hchildren (ch t) h) as (h1 & A1 & _ & Hc); [by apply advances_refl|done|done|].
  pose proof A1 as (S1 & I1 & N1 & C1 & D1). destruct (D1 t Ht) as [d Hd].
  pose proof (inv_phase _ _ _ _ I1 t d Hd) as Hp. destruct (phase d) as [|ptr|] eqn:Ep.
  - by destruct (N1 t d Hd).
  - destruct Hp as (dn & rest & Ech & Hl & _). destruct (awaits_end root ch born t rest h1 d ptr dn I1 N1 Hd Ep Ech Hl Hc) as (h2 & A2 & Ht2).
    exists h2. split; [exact (advances_trans _ _ _ _ _ _ A1 A2)|done].
  - exists h1. split; [exact A1|by exists d].
Qed.

(** [C27] The device tree is loaded bottom up without a deadlock: in every state
    reached by any interleaving of the threads, when the root device is
    complete (so [loadRootDevice] returns) every device is, and once no
    [load] runs any more the waiting threads can always go on until the root
    is complete. *)
Theorem devices_loaded root h :
  root <> 0 -> star step (loadRootDevice root) h ->
  (complete h root -> forall t, is_Some (h !! t) -> complete h t) /\
  (no_loading h -> exists h', star step h h' /\ complete h' root).
Proof.
  intros Hr Hs. destruct (tree_reachable root h Hr Hs) as (ch & born & Hinv). split; [by eapply complete_all|]. intros Hn.
  assert (HN : exists N, forall u, is_Some (h !! u) -> (born u <= N)%nat).
  { exists (list_max (born <$> (map_to_list h).*1)). intros u [e Hu].
    assert (Hin : born u ∈ born <$> (map_to_list h).*1).
    { apply list_elem_of_fmap. exists u. split; [done|]. apply list_elem_of_fmap. exists (u, e). split; [done|]. by apply elem_of_map_to_list. }
    apply list_elem_of_In in Hin. pose proof (proj1 (list_max_le (born <$> (map_to_list h).*1) _) (le_n _)) as Hm. rewrite List.Forall_forall in Hm. by apply Hm. }
  destruct HN as [N HN]. destruct (device_completes root ch born N (S (N - born root)) root h Hinv Hn) as (h' & (Hs' & _) & Hc);
    [apply (inv_root _ _ _ _ Hinv)|done|lia|]. by exists h'.
Qed.

(** ** Examples *)

(** The root 1 with the child 2, both past [load]. *)
Definition twoDevices : Devices :=
  <[2 := mkDevice 0 0 0 (Awaiting 0)]> (<[1 := mkDevice 2 2 0 (Awaiting 2)]> (<[2 := newDevice]> (loadRootDevice 1))).

Lemma twoDevices_reached : star step (loadRootDevice 1) twoDevices.
Proof.
  eapply star_step; [apply (step_append _ 1 2 newDevice (<[1 := mkDevice 2 2 0 Loading]> (<[2 := newDevice]> (loadRootDevice 1)))); [reflexivity|reflexivity|lia|reflexivity|reflexivity]|].
  eapply star_step; [apply (step_loaded _ 1 (mkDevice 2 2 0 Loading) 2); [reflexivity|reflexivity|reflexivity]|].
  eapply star_step; [apply (step_loaded _ 2 newDevice 0); [reflexivity|reflexivity|reflexivity]|].
  rewrite insert_insert_eq. apply star_refl.
Qed.

Lemma devices_loaded_witness :
  star step (loadRootDevice 1) twoDevices /\ no_loading twoDevices /\ exists h', star step twoDevices h' /\ complete h' 1.
Proof.
  assert (Hn : no_loading twoDevices).
  { intros t d Hd. unfold twoDevices, loadRootDevice in Hd. destruct (decide (t = 2)) as [->|H2]; [by injection Hd as <-|].
    rewrite lookup_insert_ne in Hd by done. destruct (decide (t = 1)) as [->|H1]; [by injection Hd as <-|].
    rewrite !lookup_insert_ne, lookup_singleton_ne in Hd by done. done. }
  split; [exact twoDevices_reached|]. split; [exact Hn|].
  exact (proj2 (devices_loaded 1 twoDevices ltac:(lia) twoDevices_reached) Hn).
Defined.

(** The destructor of a device with a child reads the deleted child. *)
Lemma delete_reads_deleted_child : delete_tree 3 twoDevices 1 = Fault.
Proof. vm_compute. reflexivity. Qed.

(** The ACPI tree gets one PCI Express tree for each MCFG table, in order. *)
Definition mcfgOf (t : option TableManager) : option (list McfgEntry) :=
  match t with Some (McfgTable entries) => Some entries | _ => None end.

Lemma acpi_load_children tables : forall children n, fst (acpi_load tables children n) = children ++ omap mcfgOf tables.
Proof.
  induction tables as [|[t|] tables IH]; intros children n; cbn [acpi_load omap list_omap mcfgOf].
  - by rewrite app_nil_r.
  - destruct t; rewrite IH; cbn [mcfgOf]; [done..|]. by rewrite <- app_assoc.
  - apply IH.
Qed.
