(* ===== verification/Boot.v ===== *)
(** * Startup ([startup.cpp])

    [kstart] from the check of the CPU on, the start of the other CPUs through
    the trampoline in low memory, [kstartApCpu], the barriers of [kRun] that all
    CPUs pass, and what the CPU that wins its race does with the RAM disk. The
    memory [kstart] sets up before is in [Kstart], its first tasks in
    [Messages]; the result of the tests is a parameter. *)

From Stdlib Require Import ZArith Lia String.
From stdpp Require Import base tactics numbers list.
From S2P Require Import Prelude Strings Acpi Apic Hpet Irq Processors.
From S2P Require Vector Vfs Initramfs.

Open Scope Z_scope.

Section Boot.
Context {W : Type} `{Mmio W}.
(** Whether [mapAddress] finds room. *)
Context (mappable : Z -> Z -> bool).

(** ** Finding the tables *)

(** Lines 91 to 103; the table of the RSDP is taken for a root table whatever
    its signature. *)
Definition findRsdt (fuel : nat) (m : Memory) (s : Mappings) (rsdp : Z) : outcome (list (option TableManager) * Mappings) :=
  if negb (bool_decide (bytesAt m rsdp 8 = [82; 83; 68; 32; 80; 84; 82; 32])) then Panic "No ACPI found"
  else if negb (rsdp_doChecksum m rsdp) then Panic "Checksum of RSDP failed"
  else
    let rsdtAddress := if 2 <=? m (rsdp + 15) then loadq m (rsdp + 24) else loadd m (rsdp + 16) in
    let! '(t, s) := loadTable mappable fuel m s rsdtAddress in
    match t with
    | None => Panic "Error loading RSDT"
    | Some (RsdtTable children) => Ok (children, s)
    | Some _ => Fault
    end.

(** Lines 105 to 116. The frequency is computed to be printed; an HPET that is
    not memory-mapped has no comparators. *)
Definition findHpet (rsdt : list (option TableManager)) (s : Mappings) (w : W) : outcome (Hpet * Mappings * W) :=
  match get (RsdtTable rsdt) HPET 0 with
  | Some (HpetTable t) =>
      if numComparators t =? 0 then Panic "No usable HPET found"
      else
        let! physicalAddress := of_option (physicalAddress t) in
        let! '(hpet, s, w) := newHpet mappable s w physicalAddress in
        let '(_, w) := nanoTime hpet w in
        let! _ := getFrequencyKhz hpet in
        Ok (hpet, s, w)
  | _ => Panic "No HPET found"
  end.

(** Lines 117 to 127: the registers of the local APIC and the writes to the
    legacy PICs. *)
Definition findMadt (rsdt : list (option TableManager)) (s : Mappings) (w : W) : outcome (Madt * Z * Mappings * W * list PortAccess) :=
  match get (RsdtTable rsdt) MADT 0 with
  | Some (MadtTable madt) =>
      let '(localApic, s) := init mappable 0 s (localApicAddress madt) in
      let! localApic := readable localApic in
      let w := enable localApic w in
      let '(_, w) := getVersion localApic w in
      Ok (madt, localApic, s, w, if hasPic madt then disablePic else [])
  | _ => Panic "No MADT found"
  end.

(** ** Starting the other CPUs *)

(** [runningCpus] reads the volatile counter. *)
Context (runningCpus : W -> Z * W).

(** What the loop changes: the world, [localApicIds], and the tasks made with
    the CPU number each is for and its [originalStackPointer]. *)
Record Smp := mkSmp { sm_world : W; sm_localApicIds : list Z; sm_tasks : list (Z * Z) }.

(** The loop over the local APICs, from number [i] on. *)
Fixpoint startCpus_loop (fuel : nat) (localApic : Z) (hpet : Hpet) (initialStackPointers : list Z) (myApicId : Z)
    (apicIds : list Z) (i : Z) (x : Smp) : outcome Smp :=
  match apicIds with
  | [] => Ok x
  | apicId :: apicIds =>
      let! x :=
        (if negb (apicId =? myApicId) then
           let! stack := getInitialStackPointer initialStackPointers i in
           let '(cpuNumber, w) := runningCpus (sm_world x) in
           let! '(started, w) := startCpu runningCpus fuel localApic w apicId hpet in
           if started then Ok (mkSmp w (sm_localApicIds x) (sm_tasks x ++ [(cpuNumber, stack)]))
           else Panic "Error starting CPUs"
         else Ok (mkSmp (sm_world x) (<[0%nat := apicId]> (sm_localApicIds x)) (sm_tasks x))) in
      startCpus_loop fuel localApic hpet initialStackPointers myApicId apicIds (i + 1) x
  end.

(** The code between the two labels is copied to [destination], after what is
    there is saved on the stack of [kstart], at [previous]. *)
Context (smpTrampolineStart smpTrampolineEnd : Z).
Definition smpTrampolineSize : Z := smpTrampolineEnd - smpTrampolineStart.

Definition copyTrampoline (m : Memory) (previous destination : Z) : Memory :=
  let m := memcpy m previous destination smpTrampolineSize in
  memcpy m destination smpTrampolineStart smpTrampolineSize.

Definition restoreTrampoline (m : Memory) (previous destination : Z) : Memory :=
  memcpy m destination previous smpTrampolineSize.

(** Lines 128 to 159. [others] is what the CPUs that start do to the memory;
    the result has the objects handed to the cleaner, which unmaps them. *)
Definition startCpus {S : Type} (allocateStack : S -> outcome (Z * S)) (others : Memory -> Memory) (fuel : nat) (localApic : Z) (hpet : Hpet)
    (madt : Madt) (previous : Z) (m : Memory) (s : Mappings) (initialStackPointers : list Z) (st : S) (x : Smp)
    : outcome (Smp * list Z * S * (Memory * Mappings * list Z)) :=
  let numCpus := Z.of_nat (List.length (localApics madt)) in
  if 1 <? numCpus then
    let '(smpTrampolineDestination, s) := mapAddress mappable s 0x8000 0x1000 in
    let! smpTrampolineDestination := readable smpTrampolineDestination in
    let m := copyTrampoline m previous smpTrampolineDestination in
    let! '(initialStackPointers, st) := allocateStacks allocateStack numCpus initialStackPointers st in
    let '(myApicId, w) := getApicId localApic (sm_world x) in
    let! x := startCpus_loop fuel localApic hpet initialStackPointers myApicId (localApics madt) 0 (mkSmp w (sm_localApicIds x) (sm_tasks x)) in
    let m := restoreTrampoline (others m) previous smpTrampolineDestination in
    Ok (x, initialStackPointers, st, (m, s, [smpTrampolineDestination]))
  else Ok (x, initialStackPointers, st, (m, s, [])).

(** Lines 162 to 170: the I/O APICs and the tick of the timer. *)
Definition startTimer (fuel : nat) (localApic : Z) (hpet : Hpet) (madt : Madt) (s : Mappings) (w : W)
    : outcome (list IoApic * Mappings * W * Z) :=
  let! '(ioApics, s, w) := initIoApics mappable (ioApics madt) s w in
  let! '(ticksPer10ms, w) := timerTicksPer fuel localApic w 10000000 hpet in
  let w := maskAllInternal localApic w in
  let w := setUpTimer localApic w ticksPer10ms in
  Ok (ioApics, s, w, ticksPer10ms).

(** ** kstartApCpu *)

(** Waiting for the setting of the timer. *)
Fixpoint setting_loop (fuel : nat) (localApicTickSetting : W -> Z * W) (w : W) : outcome (Z * W) :=
  match fuel with
  | O => Hang
  | S fuel => let '(v, w) := localApicTickSetting w in if v =? 0 then setting_loop fuel localApicTickSetting w else Ok (v, w)
  end.

(** [kstartApCpu] up to [kRun]; [runOn] is the call of another CPU and
    [localApicTickSetting] reads the volatile setting. *)
Definition kstartApCpu (fuel : nat) (localApic : Z) (runOn : Z -> W -> outcome W) (localApicTickSetting : W -> Z * W) (cpuNumber : Z)
    (localApicIds : list Z) (w : W) : outcome (list Z * W) :=
  let w := enable localApic w in
  let '(apicId, w) := getApicId localApic w in
  let localApicIds := <[Z.to_nat cpuNumber := apicId]> localApicIds in
  let w := maskAllInternal localApic w in
  let! w := runOn (cpuNumber - 1) w in
  let! '(_, w) := setting_loop fuel localApicTickSetting w in
  let '(setting, w) := localApicTickSetting w in
  Ok (localApicIds, setUpTimer localApic w setting).
End Boot.

(** ** checkCpuidFlags

    [cpuid] gives the EDX register of a leaf, or nothing when the CPU does not
    have the leaf, and [__get_cpuid] leaves its outputs alone. *)
Definition CPUID_8000_0001_EDX_RDTSCP : Z := Z.shiftl 1 27.

Definition checkCpuidFlags (cpuid : Z -> option Z) : bool :=
  let edx := 0 in
  let edx := default edx (cpuid 0x00000001) in
  let edx := default edx (cpuid 0x80000001) in
  negb (Z.land edx CPUID_8000_0001_EDX_RDTSCP =? 0).

(** A CPU without the extended leaf is judged by bit 27 of leaf 1, which says
    something else. *)
Lemma missing_leaf_accepted : checkCpuidFlags (fun leaf => if leaf =? 1 then Some 0x08000000 else None) = true.
Proof. reflexivity. Qed.

(** ** kstart from the check of the CPU on

    [runTests] is the result of the kernel's tests. The tasks made in between
    are [Messages.kstartThreads]. *)
Record Started {W : Type} := mkStarted {
  st_rsdt : list (option TableManager);
  st_smp : Smp (W := W);
  st_stacks : list Z;
  st_ioApics : list IoApic;
  st_memory : Memory;
  st_mappings : Mappings;
  st_cleaner : list Z;
  st_ports : list PortAccess;
  st_world : W;
  localApicTickSetting : Z
}.
Arguments Started : clear implicits.

Definition kstart {W : Type} `{Mmio W} {S : Type} (mappable : Z -> Z -> bool) (runningCpus : W -> Z * W) (allocateStack : S -> outcome (Z * S))
    (others : Memory -> Memory) (cpuid : Z -> option Z) (runTests : bool) (smpTrampolineStart smpTrampolineEnd : Z) (fuel : nat)
    (rsdp previous : Z) (m : Memory) (s : Mappings) (localApicIds initialStackPointers : list Z) (st : S) (w : W) : outcome (Started W) :=
  if negb (checkCpuidFlags cpuid) then Panic "Your CPU is not good enough"
  else if negb runTests then Panic "The tests failed!"
  else
    let! '(rsdt, s) := findRsdt mappable fuel m s rsdp in
    let! '(hpet, s, w) := findHpet mappable rsdt s w in
    let! '(madt, localApic, s, w, ports) := findMadt mappable rsdt s w in
    let! '(x, stacks, st, (m, s, objects)) :=
      startCpus mappable runningCpus smpTrampolineStart smpTrampolineEnd allocateStack others fuel localApic hpet madt previous m s
        initialStackPointers st (mkSmp w localApicIds []) in
    let! '(ioApics, s, w, ticks) := startTimer mappable fuel localApic hpet madt s (sm_world x) in
    Ok (mkStarted W rsdt x stacks ioApics m s objects ports w ticks).

(** What a machine that gets to [kRun] has: a CPU with [rdtscp], a root pointer
    with signature and checksum, a usable HPET and a MADT. *)
Lemma kstart_requires {W : Type} `{Mmio W} {S : Type} mappable runningCpus (allocateStack : S -> outcome (Z * S)) others cpuid runTests
    tstart tend fuel rsdp previous m s ids stacks st (w : W) r :
  kstart mappable runningCpus allocateStack others cpuid runTests tstart tend fuel rsdp previous m s ids stacks st w = Ok r ->
  checkCpuidFlags cpuid = true /\ runTests = true /\
  bytesAt m rsdp 8 = [82; 83; 68; 32; 80; 84; 82; 32] /\ rsdp_doChecksum m rsdp = true /\
  (exists t, get (RsdtTable (st_rsdt r)) HPET 0 = Some (HpetTable t) /\ numComparators t <> 0) /\
  exists madt, get (RsdtTable (st_rsdt r)) MADT 0 = Some (MadtTable madt).
Proof.
  unfold kstart. destruct (checkCpuidFlags cpuid); [|done]. destruct runTests; [|done]. cbn [negb].
  destruct (findRsdt mappable fuel m s rsdp) as [[rsdt s1]| | |] eqn:E1; try done. cbn [obind].
  destruct (findHpet mappable rsdt s1 w) as [[[hpet s2] w2]| | |] eqn:E2; try done. cbn [obind].
  destruct (findMadt mappable rsdt s2 w2) as [[[[[madt la] s3] w3] ports]| | |] eqn:E3; try done. cbn [obind].
  destruct (startCpus _ _ _ _ _ _ _ _ _ _ _ _ _ _ _ _) as [[[[x stacks'] st'] [[m' s4] objects]]| | |]; try done. cbn [obind].
  destruct (startTimer _ _ _ _ _ _ _) as [[[[io s5] w5] ticks]| | |]; try done. cbn [obind]. intros [= <-]. cbn [st_rsdt].
  split; [done|]. split; [done|]. unfold findRsdt in E1. case_bool_decide as Hsig; [|done]. cbn [negb] in E1.
  split; [exact Hsig|]. destruct (rsdp_doChecksum m rsdp); [|done]. split; [done|]. split.
  - unfold findHpet in E2. destruct (get _ HPET 0) as [[]|]; try done. eexists. split; [done|]. intros Hz. rewrite Hz in E2. discriminate E2.
  - unfold findMadt in E3. destruct (get _ MADT 0) as [[]|]; try done. by eexists.
Qed.

(** ** The end of kRun

    Mounting the RAM disk at [pointer] as the file system [fs], with [kmalloc]
    as in [Initramfs]; the strings of the paths are at [slash] and [testTxt],
    and [buffer] is what [kmalloc] returns. The result is what is printed. *)
Definition readTestFile (kmallocFits : Z -> bool) (chars fuel : nat) (v : Vfs.Vfs) (pointer slash testTxt fs buffer : Z)
    : outcome (list Z * Vfs.Vfs) :=
  let! '(rootDirectory, v) := Vfs.FileHandle_open (fun _ => None) v (mkStr slash 1) true in
  let! provider := Initramfs.InitramfsFsProvider_new kmallocFits chars fuel (Vfs.memory v) pointer in
  let providers := fun p => if p =? fs then Some (Initramfs.Initramfs kmallocFits fs provider) else None in
  let! '(rootDirectory, v) := Vfs.mount providers rootDirectory v fs in
  let! '(i, (rootDirectory, v)) := Vfs.findChild providers rootDirectory v (mkStr testTxt 8) in
  let! '(firstChild, (rootDirectory, v)) := Vfs.openChild providers rootDirectory v i false in
  let! '(_, v) := Vfs.close rootDirectory v in
  let! '(size, (firstChild, v)) := Vfs.read providers firstChild v 0 512 buffer in
  let printed := bytesAt (Vfs.memory v) buffer size in
  let! '(_, v) := Vfs.close firstChild v in
  Ok (printed, v).

(** With [test.txt] in the archive its contents are printed. *)
Definition testMemory : Memory :=
  putBytes (putBytes (putBytes (Initramfs.putHeader (Initramfs.putHeader (fun _ => 0) 4096 (Initramfs.mkMember [46; 47] 53 0))
    4608 (Initramfs.mkMember [46; 47; 116; 101; 115; 116; 46; 116; 120; 116] 48 3)) 5120 [104; 105; 10])
    8192 [47]) 8448 [116; 101; 115; 116; 46; 116; 120; 116].

Example test_file_printed :
  (let! '(printed, _) := readTestFile (fun _ => true) 200 2 (Vfs.Vfs_init (Vector.mkHeap ∅ 1) testMemory) 4096 8192 8448 7 9000 in Ok printed)
  = Ok [104; 105; 10].
Proof. vm_compute. reflexivity. Qed.

(** ** The barriers of kRun *)

(** Where a CPU is in [kRun]; after [Register] it waits for all CPUs to be
    registered, then creates a thread on its CPU, waits for that thread,
    counts itself done, waits for all CPUs, and races for the
    initialisation of the hardware. *)
Inductive Point :=
| Register
| WaitTasks
| CreateThread
| WaitThread
| CountDone
| WaitDone
| Race
| HardwareInit
| Destroyed.

#[export] Instance Point_eq_dec : EqDecision Point.
Proof. solve_decision. Defined.

Record Run := mkRun {
  points : list Point;
  otherThreadDone : list bool;
  numCpusWithInitialTasks : Z;
  numCpusDone : Z;
  hardwareInitLock : bool
}.

(** [numCpus] CPUs that are about to enter [kRun]. *)
Definition Run_init (numCpus : nat) : Run := mkRun (replicate numCpus Register) (replicate numCpus false) 0 0 false.

Definition set_point (s : Run) (i : nat) (p : Point) : Run :=
  mkRun (<[i := p]> (points s)) (otherThreadDone s) (numCpusWithInitialTasks s) (numCpusDone s) (hardwareInitLock s).

(** The other thread of a CPU runs once it is created. *)
Inductive kRun (numCpus : Z) : Run -> Run -> Prop :=
| kRun_register s i : points s !! i = Some Register ->
    kRun numCpus s (mkRun (<[i := WaitTasks]> (points s)) (otherThreadDone s) (u32 (numCpusWithInitialTasks s + 1)) (numCpusDone s) (hardwareInitLock s))
| kRun_registered s i : points s !! i = Some WaitTasks -> numCpus <= numCpusWithInitialTasks s -> kRun numCpus s (set_point s i CreateThread)
| kRun_create s i : points s !! i = Some CreateThread -> kRun numCpus s (set_point s i WaitThread)
| kRun_thread s i : points s !! i = Some WaitThread ->
    kRun numCpus s (mkRun (points s) (<[i := true]> (otherThreadDone s)) (numCpusWithInitialTasks s) (numCpusDone s) (hardwareInitLock s))
| kRun_threadDone s i : points s !! i = Some WaitThread -> otherThreadDone s !! i = Some true -> kRun numCpus s (set_point s i CountDone)
| kRun_done s i : points s !! i = Some CountDone ->
    kRun numCpus s (mkRun (<[i := WaitDone]> (points s)) (otherThreadDone s) (numCpusWithInitialTasks s) (u32 (numCpusDone s + 1)) (hardwareInitLock s))
| kRun_allDone s i : points s !! i = Some WaitDone -> numCpus <= numCpusDone s -> kRun numCpus s (set_point s i Race)
| kRun_wins s i : points s !! i = Some Race -> hardwareInitLock s = false ->
    kRun numCpus s (mkRun (<[i := HardwareInit]> (points s)) (otherThreadDone s) (numCpusWithInitialTasks s) (numCpusDone s) true)
| kRun_loses s i : points s !! i = Some Race -> hardwareInitLock s = true -> kRun numCpus s (set_point s i Destroyed)
| kRun_destroy s i : points s !! i = Some HardwareInit -> kRun numCpus s (set_point s i Destroyed).

(** ** Counting CPUs *)

(** The number of CPUs at a point of [P]. *)
Definition count (P : Point -> bool) (l : list Point) : Z := Z.of_nat (List.length (List.filter P l)).

Definition registered (p : Point) : bool := match p with Register => false | _ => true end.
Definition done_ (p : Point) : bool := match p with WaitDone | Race | HardwareInit | Destroyed => true | _ => false end.
Definition racing (p : Point) : bool := match p with Race | HardwareInit | Destroyed => true | _ => false end.
Definition threadDone (p : Point) : bool := match p with CountDone | WaitDone | Race | HardwareInit | Destroyed => true | _ => false end.

Lemma count_insert P l i p q : l !! i = Some q ->
  count P (<[i := p]> l) = count P l + (if P p then 1 else 0) - (if P q then 1 else 0).
Proof.
  revert i. unfold count. induction l as [|x l IH]; intros [|i] Hi; try done.
  - injection Hi as ->. change (<[0%nat:=p]> (q :: l)) with (p :: l). cbn [List.filter]. destruct (P p), (P q); cbn [List.length]; lia.
  - change (<[S i:=p]> (x :: l)) with (x :: <[i:=p]> l). cbn [List.filter]. specialize (IH i Hi). destruct (P x); cbn [List.length]; lia.
Qed.

Lemma count_all P l : count P l = Z.of_nat (List.length l) -> forall i p, l !! i = Some p -> P p = true.
Proof.
  unfold count. induction l as [|x l IH]; intros Hc i p Hi; [done|]. cbn [List.filter List.length] in Hc.
  assert (Hle : (List.length (List.filter P l) <= List.length l)%nat) by apply List.filter_length_le.
  destruct (P x) eqn:Ex; cbn [List.length] in Hc; [|lia]. destruct i as [|i]; [by injection Hi as <-|]. apply (IH ltac:(lia) i p Hi).
Qed.

Lemma count_le P l : 0 <= count P l <= Z.of_nat (List.length l).
Proof. unfold count. pose proof (List.filter_length_le P l). lia. Qed.

Lemma count_full P l : (forall i p, l !! i = Some p -> P p = true) -> count P l = Z.of_nat (List.length l).
Proof.
  intros HP. apply Forall_lookup in HP. unfold count. f_equal. induction HP as [|x l Hx Hl IH]; [done|]. cbn [List.filter]. by rewrite Hx; cbn; f_equal.
Qed.

Record run_inv (n : nat) (s : Run) : Prop := {
  run_length : List.length (points s) = n;
  run_threads : List.length (otherThreadDone s) = n;
  run_tasks : numCpusWithInitialTasks s = count registered (points s);
  run_done : numCpusDone s = count done_ (points s);
  run_thread i p : points s !! i = Some p -> threadDone p = true -> otherThreadDone s !! i = Some true;
  run_race i p : points s !! i = Some p -> racing p = true -> count done_ (points s) = Z.of_nat n;
  run_lock : hardwareInitLock s = false -> forall i p, points s !! i = Some p -> p <> HardwareInit /\ p <> Destroyed;
  run_one i j : points s !! i = Some HardwareInit -> points s !! j = Some HardwareInit -> i = j
}.

Definition ind (b : bool) : Z := if b then 1 else 0.

(** A CPU goes from one point to a later one. *)
Lemma run_inv_set n s s' i p q :
  run_inv n s -> points s !! i = Some q -> points s' = <[i := p]> (points s) -> otherThreadDone s' = otherThreadDone s ->
  numCpusWithInitialTasks s' = numCpusWithInitialTasks s + ind (registered p) - ind (registered q) ->
  numCpusDone s' = numCpusDone s + ind (done_ p) - ind (done_ q) ->
  implb (done_ q) (done_ p) = true ->
  (threadDone p = true -> threadDone q = true \/ otherThreadDone s !! i = Some true) ->
  (racing p = true -> racing q = true \/ numCpusDone s = Z.of_nat n) ->
  (hardwareInitLock s' = false -> hardwareInitLock s = false /\ p <> HardwareInit /\ p <> Destroyed) ->
  (p = HardwareInit -> hardwareInitLock s = false) ->
  run_inv n s'.
Proof.
  intros [Hn Hn2 Ht Hd Hth Hra Hlo Hone] Hq Hp Ho Et Ed Himp Hthp Hrp Hlp Hip.
  assert (Hmono : count done_ (points s) = Z.of_nat n -> count done_ (points s') = Z.of_nat n).
  { intros E. pose proof (count_le done_ (points s')) as Hle. rewrite Hp in *. rewrite length_insert in Hle.
    rewrite (count_insert _ _ _ p q Hq) in *. destruct (done_ q), (done_ p); cbn in Himp; try done; lia. }
  split.
  - by rewrite Hp, length_insert.
  - by rewrite Ho.
  - by rewrite Et, Ht, Hp, (count_insert _ _ _ p q Hq).
  - by rewrite Ed, Hd, Hp, (count_insert _ _ _ p q Hq).
  - intros j r Hj Hr. rewrite Ho. rewrite Hp in Hj. apply list_lookup_insert_Some in Hj as [(<- & <- & _)|[_ Hj]]; [|by eapply Hth].
    destruct (Hthp Hr) as [H|H]; [by eapply Hth|done].
  - intros j r Hj Hr. rewrite Hp in Hj. apply Hmono. apply list_lookup_insert_Some in Hj as [(<- & <- & _)|[_ Hj]]; [|by eapply Hra].
    destruct (Hrp Hr) as [H|H]; [by eapply Hra|congruence].
  - intros Hl. destruct (Hlp Hl) as (Hl' & Hp1 & Hp2). intros j r Hj. rewrite Hp in Hj.
    apply list_lookup_insert_Some in Hj as [(<- & <- & _)|[_ Hj]]; [done|by eapply Hlo].
  - intros j k Hj Hk. rewrite Hp in Hj, Hk.
    apply list_lookup_insert_Some in Hk as HE. clear Hk. apply list_lookup_insert_Some in Hj as [(<- & Ej & _)|[_ Hj]]; destruct HE as [HE|HE].
    + by destruct HE as (<- & _).
    + destruct HE as [_ Hk]. destruct (Hlo (Hip Ej) k _ Hk) as [H _]. done.
    + destruct HE as (<- & Ek & _). destruct (Hlo (Hip Ek) j _ Hj) as [H _]. done.
    + destruct HE as [_ Hk]. by apply Hone.
Qed.

Lemma run_init_inv n : run_inv n (Run_init n).
Proof.
  assert (Hr : forall i p, replicate n Register !! i = Some p -> p = Register) by (intros i p Hi; by apply lookup_replicate in Hi as [-> _]).
  assert (Hc : forall P, P Register = false -> count P (replicate n Register) = 0).
  { intros P HP. unfold count. clear Hr. induction n as [|n IH]; [done|]. cbn [replicate List.filter]. by rewrite HP. }
  split; cbn.
  - apply length_replicate.
  - apply length_replicate.
  - by rewrite Hc.
  - by rewrite Hc.
  - intros i p Hi. by rewrite (Hr i p Hi).
  - intros i p Hi. by rewrite (Hr i p Hi).
  - intros _ i p Hi. by rewrite (Hr i p Hi).
  - intros i j Hi. by apply Hr in Hi.
Qed.

Ltac kRun_moves Hi Hp :=
  eapply (run_inv_set _ _ _ _); [exact Hi|exact Hp|reflexivity|reflexivity|..]; cbn; unfold ind; cbn; try lia; try done; auto.

Lemma kRun_inv n s s' : (n <= 64)%nat -> run_inv n s -> kRun (Z.of_nat n) s s' -> run_inv n s'.
Proof.
  intros Hn Hi Hs. assert (Hc : forall P, 0 <= count P (points s) <= 64).
  { intros P. pose proof (count_le P (points s)). rewrite (run_length _ _ Hi) in *. lia. }
  pose proof (Hc registered). pose proof (Hc done_). pose proof (run_tasks _ _ Hi) as Ht. pose proof (run_done _ _ Hi) as Hd.
  pose proof (count_le done_ (points s)) as Hle. rewrite (run_length _ _ Hi) in Hle.
  destruct Hs as [s i Hp|s i Hp Hw|s i Hp|s i Hp|s i Hp Ho|s i Hp|s i Hp Hw|s i Hp Hl|s i Hp Hl|s i Hp].
  - kRun_moves Hi Hp; rewrite u32_small; lia.
  - kRun_moves Hi Hp.
  - kRun_moves Hi Hp.
  - (* the other thread *)
    destruct Hi as [H1 L2 H2 H3 H4 H5 H6 H7]. split; try done; cbn; [by rewrite length_insert|]. intros j p Hj Hth. destruct (decide (i = j)) as [<-|Hij].
    + rewrite Hp in Hj. by injection Hj as <-.
    + rewrite list_lookup_insert_ne by done. by eapply H4.
  - kRun_moves Hi Hp.
  - kRun_moves Hi Hp; rewrite u32_small; lia.
  - kRun_moves Hi Hp; right; lia.
  - kRun_moves Hi Hp.
  - kRun_moves Hi Hp; congruence.
  - kRun_moves Hi Hp. intros Hf. by destruct (run_lock _ _ Hi Hf i _ Hp).
Qed.

(** ** Every CPU gets through *)

(** How many moves a CPU has left. *)
Definition rank (p : Point) : nat :=
  match p with
  | Register => 8 | WaitTasks => 7 | CreateThread => 6 | WaitThread => 5 | CountDone => 4 | WaitDone => 3 | Race => 2
  | HardwareInit => 1 | Destroyed => 0
  end.

Definition weight (l : list Point) : nat := sum_list_with rank l.

Lemma weight_insert l i p q : l !! i = Some q -> (rank p < rank q)%nat -> (weight (<[i := p]> l) < weight l)%nat.
Proof.
  unfold weight. revert i. induction l as [|x l IH]; intros [|i] Hi Hr; try done.
  - injection Hi as ->. change (<[0%nat:=p]> (q :: l)) with (p :: l). cbn. lia.
  - change (<[S i:=p]> (x :: l)) with (x :: <[i:=p]> l). cbn. specialize (IH i Hi Hr). lia.
Qed.

Definition finished (s : Run) : Prop := Forall (fun p => p = Destroyed) (points s).

(** A CPU that is not waiting for others can move. *)
Definition canMove (p : Point) : bool := match p with WaitTasks | WaitDone | Destroyed => false | _ => true end.

Lemma moves n s i p : run_inv n s -> points s !! i = Some p -> canMove p = true ->
  exists s', star (kRun (Z.of_nat n)) s s' /\ (weight (points s') < weight (points s))%nat.
Proof.
  intros Hi Hp Hc. destruct p; try done.
  - eexists. split; [apply star_one; by eapply kRun_register|]. cbn. eapply weight_insert; [done|cbn; lia].
  - eexists. split; [apply star_one; by eapply kRun_create|]. cbn. eapply weight_insert; [done|cbn; lia].
  - destruct (otherThreadDone s !! i) as [[]|] eqn:Eo.
    + eexists. split; [apply star_one; by eapply kRun_threadDone|]. cbn. eapply weight_insert; [done|cbn; lia].
    + eexists. split.
      * eapply star_step; [by eapply (kRun_thread _ s i)|]. apply star_one. eapply (kRun_threadDone _ _ i); [exact Hp|].
        cbn. apply list_lookup_insert_eq. by eapply lookup_lt_Some.
      * cbn. eapply weight_insert; [done|cbn; lia].
    + apply lookup_ge_None in Eo. apply lookup_lt_Some in Hp. rewrite (run_threads _ _ Hi) in Eo. rewrite (run_length _ _ Hi) in Hp. lia.
  - eexists. split; [apply star_one; by eapply kRun_done|]. cbn. eapply weight_insert; [done|cbn; lia].
  - destruct (hardwareInitLock s) eqn:El.
    + eexists. split; [apply star_one; by eapply kRun_loses|]. cbn. eapply weight_insert; [done|cbn; lia].
    + eexists. split; [apply star_one; by eapply kRun_wins|]. cbn. eapply weight_insert; [done|cbn; lia].
  - eexists. split; [apply star_one; by eapply kRun_destroy|]. cbn. eapply weight_insert; [done|cbn; lia].
Qed.

(** When every CPU that is not destroyed waits at a barrier, one may pass. *)
Lemma barrier_opens n s : run_inv n s -> (forall i p, points s !! i = Some p -> canMove p = false) -> ~ finished s ->
  exists s', star (kRun (Z.of_nat n)) s s' /\ (weight (points s') < weight (points s))%nat.
Proof.
  intros Hi Hno Hf. destruct (decide (WaitTasks ∈ points s)) as [Hw|Hw].
  - apply list_elem_of_lookup_1 in Hw as [i Hp].
    assert (Hc : count registered (points s) = Z.of_nat n).
    { rewrite <- (run_length _ _ Hi). apply count_full. intros j p Hj. apply Hno in Hj. by destruct p. }
    eexists. split; [apply star_one; eapply (kRun_registered _ s i); [done|]; rewrite (run_tasks _ _ Hi); lia|].
    cbn. eapply weight_insert; [done|cbn; lia].
  - assert (Hrest : forall j p, points s !! j = Some p -> p = WaitDone \/ p = Destroyed).
    { intros j p Hj. pose proof (Hno j p Hj) as Hc. destruct p; try done; [|by left|by right]. by destruct Hw; eapply list_elem_of_lookup_2. }
    destruct (decide (WaitDone ∈ points s)) as [Hd|Hd].
    + apply list_elem_of_lookup_1 in Hd as [i Hp].
      assert (Hc : count done_ (points s) = Z.of_nat n).
      { rewrite <- (run_length _ _ Hi). apply count_full. intros j p Hj. by destruct (Hrest j p Hj) as [-> | ->]. }
      eexists. split; [apply star_one; eapply (kRun_allDone _ s i); [done|]; rewrite (run_done _ _ Hi); lia|].
      cbn. eapply weight_insert; [done|cbn; lia].
    + exfalso. apply Hf. apply Forall_lookup. intros i p Hp. destruct (Hrest i p Hp) as [->|]; [|done]. destruct Hd. by eapply list_elem_of_lookup_2.
Qed.

Lemma kRun_finishes n : (n <= 64)%nat -> forall k s, run_inv n s -> (weight (points s) < k)%nat ->
  exists s', star (kRun (Z.of_nat n)) s s' /\ finished s'.
Proof.
  intros Hn. induction k as [|k IH]; intros s Hi Hk; [lia|]. destruct (decide (Forall (fun p => p = Destroyed) (points s))) as [Hf|Hf].
  { exists s. split; [apply star_refl|done]. }
  assert (Hstep : exists s', star (kRun (Z.of_nat n)) s s' /\ (weight (points s') < weight (points s))%nat).
  { destruct (decide (Exists (fun p => canMove p = true) (points s))) as [He|He].
    - apply Exists_exists in He as (p & Hp & Hc). apply list_elem_of_lookup_1 in Hp as [i Hp]. by eapply moves.
    - apply barrier_opens; [done| |done]. intros i p Hp. apply not_true_iff_false. intros Hc. apply He, Exists_exists. exists p.
      split; [by eapply list_elem_of_lookup_2|done]. }
  destruct Hstep as (s1 & Hs & Hw). assert (Hi1 : run_inv n s1).
  { apply (star_invariant (kRun (Z.of_nat n)) (run_inv n)) with (2 := Hs); [|done]. intros a b Ha. by apply kRun_inv. }
  destruct (IH s1 Hi1) as (s' & Hs' & Hf'); [lia|]. exists s'. split; [by eapply star_trans|done].
Qed.

(** Once a CPU has won the race, no other CPU initialises the hardware. *)
Definition raceWonBy (i : nat) (s : Run) : Prop :=
  hardwareInitLock s = true /\ forall j, points s !! j = Some HardwareInit -> j = i.

Lemma raceWon_step n i s s' : raceWonBy i s -> kRun (Z.of_nat n) s s' -> raceWonBy i s'.
Proof.
  intros [Hl Hw] Hs. split; [by destruct Hs|]. intros j Hj.
  destruct Hs as [s k Hp|s k Hp Hn|s k Hp|s k Hp|s k Hp Ho|s k Hp|s k Hp Hn|s k Hp Hl2|s k Hp Hl2|s k Hp]; cbn in Hj;
    try (apply list_lookup_insert_Some in Hj as [(_ & E & _)|[_ Hj]]; [try done|]); try (by apply Hw). congruence.
Qed.

(** The lock is only taken by a CPU that goes on to the initialisation. *)
Lemma race_is_won n s0 s : star (kRun (Z.of_nat n)) s0 s -> hardwareInitLock s0 = false -> hardwareInitLock s = true ->
  exists s1 s2 i, star (kRun (Z.of_nat n)) s0 s1 /\ points s1 !! i = Some Race /\ kRun (Z.of_nat n) s1 s2 /\
    points s2 !! i = Some HardwareInit /\ star (kRun (Z.of_nat n)) s2 s.
Proof.
  induction 1 as [s|s0 s1 s Hst Hs IH]; intros H0 Hl; [congruence|]. destruct (hardwareInitLock s1) eqn:E1.
  - assert (Hw : exists i, points s0 !! i = Some Race /\ points s1 !! i = Some HardwareInit).
    { destruct Hst as [s0 i Hp|s0 i Hp Hn|s0 i Hp|s0 i Hp|s0 i Hp Ho|s0 i Hp|s0 i Hp Hn|s0 i Hp Hl2|s0 i Hp Hl2|s0 i Hp]; cbn in E1; try congruence.
      exists i. split; [done|]. cbn. apply list_lookup_insert_eq. by eapply lookup_lt_Some. }
    destruct Hw as (i & H1 & H2). exists s0, s1, i. split; [apply star_refl|done].
  - destruct (IH eq_refl Hl) as (a & b & i & Ha & H1 & H2 & H3 & H4). exists a, b, i. split; [by eapply star_step|done].
Qed.

(** [C36] In every execution of up to 64 CPUs in [kRun] exactly one CPU
    initialises the hardware: when CPU [i] does, the lock is taken for good and
    no other CPU is initialising then or at any later time; and when all CPUs
    are through, one has. The initialisation does not begin before the threads
    created on all CPUs have run; and from every state that is reached all CPUs
    can go on to the end, so no CPU is left behind at a barrier. *)
Theorem kRun_barriers n s :
  (n <= 64)%nat -> star (kRun (Z.of_nat n)) (Run_init n) s ->
  (forall i j s', points s !! i = Some HardwareInit -> star (kRun (Z.of_nat n)) s s' ->
     hardwareInitLock s' = true /\ (points s' !! j = Some HardwareInit -> j = i)) /\
  (forall i j, points s !! i = Some HardwareInit -> (j < n)%nat -> otherThreadDone s !! j = Some true) /\
  (finished s -> (0 < n)%nat -> hardwareInitLock s = true) /\
  (hardwareInitLock s = true -> exists s1 s2 i, star (kRun (Z.of_nat n)) (Run_init n) s1 /\ points s1 !! i = Some Race /\
     kRun (Z.of_nat n) s1 s2 /\ points s2 !! i = Some HardwareInit /\ star (kRun (Z.of_nat n)) s2 s) /\
  exists s', star (kRun (Z.of_nat n)) s s' /\ finished s'.
Proof.
  intros Hn Hs. assert (Hi : run_inv n s).
  { apply (star_invariant (kRun (Z.of_nat n)) (run_inv n)) with (2 := Hs); [|apply run_init_inv]. intros a b Ha. by apply kRun_inv. }
  split; [|split; [|split; [|split; [|apply (kRun_finishes n Hn (S (weight (points s))) s Hi); lia]]]].
  - intros i j s' Hp Hs'. enough (Hw : raceWonBy i s') by (split; [apply Hw|apply (proj2 Hw)]).
    apply (star_invariant (kRun (Z.of_nat n)) (raceWonBy i)) with (2 := Hs'); [intros a b Ha; by apply raceWon_step|]. split.
    + destruct (hardwareInitLock s) eqn:El; [done|]. by destruct (run_lock _ _ Hi El i _ Hp).
    + intros k Hk. by apply (run_one _ _ Hi k i).
  - intros i j Hp Hj. pose proof (run_race _ _ Hi i _ Hp eq_refl) as Hc. rewrite <- (run_length _ _ Hi) in Hc.
    destruct (lookup_lt_is_Some_2 (points s) j) as [p Hpj]; [by rewrite (run_length _ _ Hi)|].
    apply (run_thread _ _ Hi j p Hpj). apply (count_all done_ _ Hc) in Hpj. by destruct p.
  - intros Hf H0. destruct (hardwareInitLock s) eqn:El; [done|].
    destruct (lookup_lt_is_Some_2 (points s) 0) as [p Hp]; [by rewrite (run_length _ _ Hi)|].
    destruct (run_lock _ _ Hi El 0%nat p Hp) as [_ Hd]. by rewrite (Forall_lookup_1 _ _ _ _ Hf Hp) in Hd.
  - intros Hl. by apply (race_is_won n (Run_init n) s Hs).
Qed.

Ltac kRun_by c := eapply star_step; [eapply (c _ _ 0%nat); first [reflexivity|vm_compute; discriminate]|].

(** One CPU initialises the hardware. *)
Lemma one_cpu_inits : exists s, star (kRun (Z.of_nat 1)) (Run_init 1) s /\ points s = [HardwareInit].
Proof.
  eexists. split.
  - kRun_by kRun_register. kRun_by kRun_registered. kRun_by kRun_create. kRun_by kRun_thread. kRun_by kRun_threadDone.
    kRun_by kRun_done. kRun_by kRun_allDone. kRun_by kRun_wins. apply star_refl.
  - reflexivity.
Qed.

Lemma kRun_barriers_witness :
  exists s, star (kRun (Z.of_nat 1)) (Run_init 1) s /\ points s = [HardwareInit] /\ otherThreadDone s !! 0%nat = Some true.
Proof.
  destruct one_cpu_inits as (s & Hs & Hp). exists s. split; [exact Hs|]. split; [exact Hp|].
  apply (proj1 (proj2 (kRun_barriers 1 s ltac:(lia) Hs)) 0%nat 0%nat); [rewrite Hp; reflexivity|lia].
Defined.

(** ** The stacks of the other CPUs *)

Section Stacks.
Context {W : Type} {M : Mmio W} (runningCpus : W -> Z * W) (running : W -> Z).
(** The counter is [running], and a CPU that starts adds itself. *)
Context (Hread : forall w, fst (runningCpus w) = running w /\ running (snd (runningCpus w)) = running w).
Context (Hstart : forall fuel localApic w apicId hpet w',
  startCpu runningCpus fuel localApic w apicId hpet = Ok (true, w') -> running w' = running w + 1).

Abbreviation start_loop := (startCpus_loop runningCpus).

(** The task of the [k]-th CPU that is started is for the next CPU number and
    gets the stack with its number in the MADT. *)
Lemma start_others fuel localApic hpet stacks my l : forall i x x',
  my ∉ l -> 0 <= i -> start_loop fuel localApic hpet stacks my l i x = Ok x' ->
  sm_localApicIds x' = sm_localApicIds x /\
  exists new, sm_tasks x' = sm_tasks x ++ new /\ List.length new = List.length l /\
    forall k, (k < List.length l)%nat -> exists stack, stacks !! Z.to_nat (i + Z.of_nat k) = Some stack /\
      new !! k = Some (running (sm_world x) + Z.of_nat k, stack).
Proof.
  induction l as [|apicId l IH]; intros i x x' Hmy Hi E; cbn [startCpus_loop] in E.
  - inv_ok. split; [done|]. exists []. rewrite app_nil_r. split; [done|]. split; [done|]. cbn. lia.
  - apply not_elem_of_cons in Hmy as [Hne Hmy]. rewrite (proj2 (Z.eqb_neq apicId my)) in E by done. cbn [negb] in E.
    unfold getInitialStackPointer in E. destruct (stacks !! Z.to_nat i) as [stack|] eqn:Es; cbn [of_option obind] in E; [|done].
    destruct (runningCpus (sm_world x)) as [cpu w1] eqn:Er. destruct (Hread (sm_world x)) as [E1 E2]. rewrite Er in E1, E2. cbn [fst snd] in E1, E2. subst cpu.
    destruct (startCpu runningCpus fuel localApic w1 apicId hpet) as [[[] w2]| | |] eqn:Est; cbn [obind] in E; try done.
    apply Hstart in Est. apply IH in E as (Eids & new & Et & En & Hk); [|done|lia]. cbn [sm_localApicIds sm_tasks sm_world] in *.
    split; [done|]. exists ((running (sm_world x), stack) :: new). split; [by rewrite Et, <- app_assoc|]. split; [cbn; lia|].
    intros [|k] Hlt; [exists stack; rewrite Z.add_0_r; by split; [|rewrite Z.add_0_r]|].
    cbn [List.length] in Hlt. destruct (Hk k) as (st & Hst & Hnew); [lia|]. exists st. split; [by replace (i + Z.of_nat (S k)) with (i + 1 + Z.of_nat k) by lia|].
    cbn [lookup list_lookup]. etransitivity; [exact Hnew|]. do 2 f_equal. lia.
Qed.

(** When the CPU that boots comes first in the MADT, the task of each other
    CPU owns the stack that CPU starts on. *)
Lemma stacks_match fuel localApic hpet stacks my rest x x' :
  my ∉ rest -> running (sm_world x) = 1 -> sm_tasks x = [] -> (0 < List.length (sm_localApicIds x))%nat ->
  start_loop fuel localApic hpet stacks my (my :: rest) 0 x = Ok x' ->
  sm_localApicIds x' !! 0%nat = Some my /\
  forall k, (k < List.length rest)%nat -> exists stack, stacks !! S k = Some stack /\ sm_tasks x' !! k = Some (Z.of_nat (S k), stack).
Proof.
  intros Hmy Hr Ht Hl E. cbn [startCpus_loop] in E. rewrite Z.eqb_refl in E. cbn [negb obind] in E.
  apply start_others in E as (Eids & new & Et & _ & Hk); [|done|lia]. cbn [sm_localApicIds sm_tasks sm_world] in *. split.
  - rewrite Eids. by apply list_lookup_insert_eq.
  - intros k Hlt. destruct (Hk k Hlt) as (stack & Hs & Hnew). exists stack. rewrite Et, Ht. cbn [app]. split.
    + rewrite <- Hs. f_equal. lia.
    + rewrite Hnew, Hr. do 2 f_equal. lia.
Qed.

(** When it comes second, the task of CPU 1 gets the pointer with number 0,
    for which no stack was allocated. *)
Lemma stacks_mismatch fuel localApic hpet stacks my other x x' :
  my <> other -> running (sm_world x) = 1 -> sm_tasks x = [] -> stacks !! 0%nat = Some 0 ->
  start_loop fuel localApic hpet stacks my [other; my] 0 x = Ok x' -> sm_tasks x' = [(1, 0)].
Proof.
  intros Hne Hr Ht Hs E. cbn [startCpus_loop] in E. rewrite (proj2 (Z.eqb_neq other my)), Z.eqb_refl in E by congruence.
  unfold getInitialStackPointer in E. change (Z.to_nat 0) with 0%nat in E. cbn [negb] in E. rewrite Hs in E. cbn [of_option obind] in E.
  destruct (runningCpus (sm_world x)) as [cpu w1] eqn:Er. destruct (Hread (sm_world x)) as [E1 _]. rewrite Er in E1. cbn [fst] in E1.
  destruct (startCpu _ _ _ _ _ _) as [[[] w2]| | |]; cbn [obind] in E; try done. injection E as <-. cbn. rewrite Ht, E1, Hr. done.
Qed.
End Stacks.

(** ** The trampoline *)

Section Trampoline.
Context (smpTrampolineStart smpTrampolineEnd : Z) (previous destination : Z) (m : Memory).
Abbreviation n := (smpTrampolineSize smpTrampolineStart smpTrampolineEnd).
(** The three ranges lie apart. *)
Context (Hm : isBytes m) (Hn : 0 <= n).
Context (Hpd : previous + n <= destination \/ destination + n <= previous).
Context (Hps : previous + n <= smpTrampolineStart \/ smpTrampolineStart + n <= previous).
Context (Hds : destination + n <= smpTrampolineStart \/ smpTrampolineStart + n <= destination).

(** The trampoline is in place when the CPUs start, ... *)
Lemma copyTrampoline_spec :
  let m' := copyTrampoline smpTrampolineStart smpTrampolineEnd m previous destination in
  isBytes m' /\
  (forall i, 0 <= i < n -> m' (destination + i) = m (smpTrampolineStart + i) /\ m' (previous + i) = m (destination + i)) /\
  forall a, ~ (destination <= a < destination + n) -> ~ (previous <= a < previous + n) -> m' a = m a.
Proof.
  intros m'. unfold m', copyTrampoline.
  assert (H1 : isBytes (memcpy m previous destination n)) by (intros a; rewrite memcpy_spec by (done || lia); destruct (_ && _); apply Hm).
  split; [intros a; rewrite memcpy_spec by (done || lia); destruct (_ && _); apply H1|]. split.
  - intros i Hi. rewrite !memcpy_spec by (done || lia). split; zcase; cbn [andb]; try lia; f_equal; lia.
  - intros a Ha1 Ha2. rewrite !memcpy_spec by (done || lia). zcase; cbn [andb]; done || lia.
Qed.

(** ... and when they have started, the low memory has its contents again. *)
Lemma restoreTrampoline_spec others :
  isBytes (others (copyTrampoline smpTrampolineStart smpTrampolineEnd m previous destination)) ->
  (forall m' a, previous <= a < previous + n -> others m' a = m' a) ->
  forall a, restoreTrampoline smpTrampolineStart smpTrampolineEnd
      (others (copyTrampoline smpTrampolineStart smpTrampolineEnd m previous destination)) previous destination a
    = if (destination <=? a) && (a <? destination + n) then m a
      else others (copyTrampoline smpTrampolineStart smpTrampolineEnd m previous destination) a.
Proof.
  intros Ho Hkeep a. destruct copyTrampoline_spec as (_ & Hc & _). unfold restoreTrampoline.
  rewrite memcpy_spec by (done || lia). zcase; cbn [andb]; try done.
  rewrite Hkeep by lia. rewrite (proj2 (Hc (a - destination) ltac:(lia))). f_equal. lia.
Qed.
End Trampoline.
