(* ===== verification/Kstart.v ===== *)
(** * The memory of the kernel after boot ([startup.cpp], lines 61 to 75)

    The first steps of [kstart] together: the constructor of the virtual
    memory map ([Kmalloc.initVirtualMemory]), [multiboot::parseMbi] ([Mbi]),
    [paging::initPageTables] ([Paging]), the mapping of the initial RAM file
    system and of the frame buffer and the memory of the back buffer
    ([Kmalloc]). The theorem composes theirs: what one establishes is what the
    next one relies on. *)

From Stdlib Require Import ZArith Lia.
From stdpp Require Import base tactics numbers list.
From S2P Require Import Prelude Spinlock MemoryBlock Paging Kmalloc Strings Display Mbi.

Open Scope Z_scope.

(** The layout of the linker script: the heap begins 8 MiB after the 2 MiB
    boundary that follows the kernel and has 512 MiB. *)
Definition kernelVirtualOffset : Z := 0xFFFF800000000000.
Definition kernelHeapSize : Z := 512 * 1048576.
Definition kernelHeapStart (kernelPhysicalEnd : Z) : Z :=
  (kernelVirtualOffset + kernelPhysicalEnd + 2097151) / 2097152 * 2097152 + 8 * 1048576.
Definition kernelHeapEnd (kernelPhysicalEnd : Z) : Z := kernelHeapStart kernelPhysicalEnd + kernelHeapSize.

(** What [kstart] has made: the kernel's memory, what the boot loader said
    (the frame buffer and the file system with their virtual addresses), and
    the back buffer. *)
Record Booted := mkBooted { kernel : KState; info : BootInfo; backBuffer : Z }.

Definition set_initramfsPointer (b : BootInfo) (p : Z) : BootInfo :=
  mkBootInfo (Mbi.physicalMemory b) (frameBuffer b) p (initramfsSize b) (rsdp b).
Definition set_frameBuffer (b : BootInfo) (f : FrameBuffer) : BootInfo :=
  mkBootInfo (Mbi.physicalMemory b) f (initramfsPointer b) (initramfsSize b) (rsdp b).

Section Kstart.
(** The linker symbols, and the physical addresses of the page tables. *)
Context (kernelPhysicalAddress kernelPhysicalEnd : Z) (pml1 pml2 pml3 pml4 : Z).

Definition mapInitramfs (k : KState) (b : BootInfo) : outcome (KState * BootInfo) :=
  if 0 <? initramfsSize b then
    let! '(p, k) := mapAddress k (initramfsPointer b) (initramfsSize b) true in Ok (k, set_initramfsPointer b p)
  else Ok (k, b).

(** The addresses of [display::initFrameBuffer]; the clearing of the buffers
    is in [Display]. *)
Definition mapFrameBuffer (k : KState) (b : BootInfo) : outcome Booted :=
  let n := u32 (pitch (frameBuffer b) * height (frameBuffer b)) in
  let! '(p, k) := mapAddress k (pointer (frameBuffer b)) n false in
  let! '(back, k) := allocateMemory k n in
  Ok (mkBooted k (set_frameBuffer b (set_pointer (frameBuffer b) p)) back).

(** [c] is the CPU, [m] the physical memory the boot loader leaves, [tables]
    the contents of the page tables; [parseMbi] has the page tables of the
    boot code, under which physical addresses are their own. *)
Definition kstartMemory (fuel : nat) (c : Cpu) (m : Memory) (tables : Mem) (mbiPointer : Z) (b : BootInfo) : outcome Booted :=
  let! '(c, virtualMemory) := initVirtualMemory c (kernelHeapStart kernelPhysicalEnd) (kernelHeapEnd kernelPhysicalEnd) in
  let! '(c, b) := parseMbi kernelPhysicalAddress kernelPhysicalEnd fuel c m mbiPointer b in
  let '(tables, cr3) := initPageTables tables pml1 pml2 pml3 pml4 in
  let k := mkKState (mkPState tables cr3 c (Mbi.physicalMemory b) []) virtualMemory 1 [] in
  let! '(k, b) := mapInitramfs k b in
  mapFrameBuffer k b.
End Kstart.

(** ** The heap of one block *)

Lemma allocate_one c vm b n p c' vm' :
  blocks vm = [b] -> locked (bm_lock vm) = false -> wfBlock b -> 0 <= n <= MemoryBlock.end_ b - start b ->
  allocate c vm n = Ok (p, (c', vm')) -> p = start b /\ blocks vm' = [mkBlock (start b + n) (MemoryBlock.end_ b)].
Proof.
  intros Hb Hl Hw Hn E. destruct (allocate_run c vm n Hl) as (p1 & bs & E1 & Eloop); [rewrite Hb; by constructor|lia|].
  rewrite E1 in E. simplify_eq. rewrite Hb in Eloop. cbn [allocate_loop] in Eloop.
  assert (Hc : (n <=? capacity b) = true) by (apply Z.leb_le; rewrite capacity_wf by done; lia).
  rewrite Hc, Block_reserve_wf in Eloop by done. by simplify_eq.
Qed.

Lemma valloc_one k b n p k' :
  blocks (virtualMemory k) = [b] -> locked (bm_lock (virtualMemory k)) = false -> wfBlock b ->
  0 <= n <= MemoryBlock.end_ b - start b -> valloc k n = Ok (p, k') ->
  p = start b /\ blocks (virtualMemory k') = [mkBlock (start b + n) (MemoryBlock.end_ b)].
Proof.
  intros Hb Hl Hw Hn E. unfold valloc in E. destruct (allocate _ _ _) as [[p1 [c1 v1]]| | |] eqn:Ea; try done.
  cbn [obind] in E. simplify_eq. cbn [virtualMemory]. by eapply allocate_one.
Qed.

(** During boot the free part of the heap is one block, from [v] on. [low] is
    the first virtual address the kernel uses. *)
Record booting (low lo hi v : Z) (k : KState) : Prop := {
  bo_ok : kernel_ok lo hi k;
  bo_low : low <= lo /\ heap_ok low hi;
  bo_free : blocks (virtualMemory k) = [mkBlock v hi]
}.

Lemma booting_block low lo hi v k : booting low lo hi v k -> lo <= v /\ v mod 4096 = 0 /\ v <= hi /\ wfBlock (mkBlock v hi).
Proof.
  intros [Hok _ Hf]. pose proof (ko_blocks _ _ _ Hok) as Hb. rewrite Hf in Hb. apply Forall_singleton in Hb as (Hw & [H1 H2] & _).
  cbn in H1, H2. pose proof Hw as Hw'. unfold wfBlock in Hw'. cbn in Hw'. split; [done|]. split; [done|]. split; [lia|done].
Qed.

Lemma booting_room low lo hi v k n : booting low lo hi v k -> 0 <= n -> v + n <= hi -> virtualRoom k n.
Proof.
  intros Hb Hn Hv. destruct (booting_block _ _ _ _ _ Hb) as (_ & _ & _ & Hw). exists (mkBlock v hi).
  split; [rewrite (bo_free _ _ _ _ _ Hb); by left|]. rewrite capacity_wf by done. cbn. lia.
Qed.

Lemma booting_alloc low lo hi v k n p k' s :
  booting low lo hi v k -> 0 <= n -> v + n <= hi -> valloc k n = Ok (p, k') ->
  kernel_ok lo hi (mkKState s (virtualMemory k') (processorCount k) (remote k)) ->
  p = v /\ booting low lo hi (v + n) (mkKState s (virtualMemory k') (processorCount k) (remote k)).
Proof.
  intros Hb Hn Hv E Hok. destruct (booting_block _ _ _ _ _ Hb) as (_ & _ & _ & Hw).
  destruct (valloc_one k (mkBlock v hi) n p k' (bo_free _ _ _ _ _ Hb) (ko_lock _ _ _ (bo_ok _ _ _ _ _ Hb)) Hw ltac:(cbn; lia) E) as [Hp Hbl].
  split; [exact Hp|]. constructor; [done|apply Hb|exact Hbl].
Qed.

(** What is mapped below [v] stays when pages from [v] on are mapped. *)
Lemma mappedTo_below low lo hi v k pa al ca n s va :
  booting low lo hi v k -> v + n <= hi -> mappedTo (ps k) v pa al ca n s -> low <= va < v ->
  translate (mem s) (cr3 s) va = translate (mem (ps k)) (cr3 (ps k)) va.
Proof.
  intros Hb Hv HM Hva. destruct (booting_block _ _ _ _ _ Hb) as (H1 & H2 & H3 & _). destruct (bo_low _ _ _ _ _ Hb) as [Hl Hh].
  apply (mt_others _ _ _ _ _ _ _ HM); [apply (hp_user _ _ Hh); lia|]. intros o Ho Hs.
  pose proof (samePage_heap low hi va (v + o) Hh ltac:(lia) ltac:(lia) Hs). dlia.
Qed.

(** What a step of boot leaves: the free heap, the frames, what was mapped. *)
Record bootStep (low lo hi v v' cost : Z) (k k' : KState) : Prop := {
  bs_booting : booting low lo hi v' k';
  bs_frames : framesFree (blocks (Paging.physicalMemory (ps k))) - cost <= framesFree (blocks (Paging.physicalMemory (ps k')));
  bs_taken : forall a, freeCount (blocks (Paging.physicalMemory (ps k'))) a <= freeCount (blocks (Paging.physicalMemory (ps k))) a;
  bs_below : forall va, low <= va < v -> translate (mem (ps k')) (cr3 (ps k')) va = translate (mem (ps k)) (cr3 (ps k)) va
}.

(** The pages of a physical range. *)
Definition span (pa size : Z) : Z := Paging.PAGE_ALIGN_UP (pa + size) - (pa - pa mod 4096).

Lemma mapAddress_boot low lo hi v k pa size ca :
  booting low lo hi v k -> 0 <= pa -> 0 <= size -> pa + size <= 2 ^ 52 -> v + span pa size <= hi ->
  3 * (span pa size / 4096) <= framesFree (blocks (Paging.physicalMemory (ps k))) ->
  exists p k', mapAddress k pa size ca = Ok (p, k') /\ bootStep low lo hi v (v + span pa size) (3 * (span pa size / 4096)) k k' /\
    v <= p /\ p + size <= v + span pa size /\
    forall o, 0 <= o < size -> translate (mem (ps k')) (cr3 (ps k')) (p + o) = Some (pa + o).
Proof.
  intros Hb Hpa Hs Hend Hv Hf. unfold span in *. set (n := Paging.PAGE_ALIGN_UP (pa + size) - (pa - pa mod 4096)) in *.
  assert (Hn0 : 0 <= n).
  { destruct (PAGE_ALIGN_UP_spec (pa + size)); [change (2 ^ 52) with 4503599627370496 in Hend; change (2 ^ 64) with 18446744073709551616; lia|].
    unfold n. dlia. }
  destruct (mapAddress_run lo hi k pa size ca (bo_ok _ _ _ _ _ Hb) Hpa Hs Hend (booting_room _ _ _ _ _ _ Hb Hn0 Hv) Hf)
    as (p & s & vm & E & H1 & H2 & H3 & H4 & H5 & Hn & HM & (Ev & Hfr) & _). fold n in H3, H5, Hn, HM, Ev, Hfr.
  destruct (booting_alloc _ _ _ _ _ n p _ s Hb Hn0 Hv Ev H1) as [-> Hb']. cbn [virtualMemory] in Hb'.
  eexists _, _. split; [exact E|]. split; [|split; [dlia|split; [lia|]]].
  - constructor; [exact Hb'|exact Hfr|apply HM|]. intros va Hva. by eapply mappedTo_below.
  - intros o Ho. cbn [ps]. rewrite <- Z.add_assoc, (mt_translate _ _ _ _ _ _ _ HM) by dlia. f_equal. dlia.
Qed.

Lemma allocateMemory_boot low lo hi v k size :
  booting low lo hi v k -> 0 <= size <= 2 ^ 64 - 4104 ->
  let n := Paging.PAGE_ALIGN_UP (size + 8) in
  v + n <= hi -> 4 * (n / 4096) <= framesFree (blocks (Paging.physicalMemory (ps k))) ->
  exists k', allocateMemory k size = Ok (v, k') /\ bootStep low lo hi v (v + n) (4 * (n / 4096)) k k' /\
    forall o, 0 <= o < n -> exists a, translate (mem (ps k')) (cr3 (ps k')) (v + o) = Some a /\
      freeCount (blocks (Paging.physicalMemory (ps k))) a = 1 /\ freeCount (blocks (Paging.physicalMemory (ps k'))) a = 0.
Proof.
  intros Hb Hs n Hv Hf.
  destruct (PAGE_ALIGN_UP_spec (size + 8)) as [Hna Hn]; [change (2 ^ 64) with 18446744073709551616 in *; lia|]. fold n in Hna, Hn.
  assert (Hn0 : 0 <= n) by lia.
  destruct (allocateMemory_run lo hi k size (bo_ok _ _ _ _ _ Hb) Hs (booting_room _ _ _ _ _ _ Hb Hn0 Hv) Hf)
    as (p & pa & s & vm & E & H1 & H2 & H3 & H4 & HM & HO & _ & (Ev & Hfr) & _). fold n in H3, HM, HO, Ev, Hfr.
  destruct (booting_alloc _ _ _ _ _ n p _ s Hb Hn0 Hv Ev H1) as [-> Hb']. cbn [virtualMemory] in Hb'.
  eexists. split; [exact E|]. split.
  - constructor; [exact Hb'|exact Hfr|apply HM|]. intros va Hva. by eapply mappedTo_below.
  - intros o Ho. cbn [ps]. eexists. split; [by apply (mt_translate _ _ _ _ _ _ _ HM)|].
    apply (of_taken _ _ _ _ HO (o - o mod 4096)); dlia.
Qed.

(** ** The parts of kstart *)

(** The pages of the file system, none when it is empty. *)
Definition initramfsSpan (b : BootInfo) : Z := if 0 <? initramfsSize b then span (initramfsPointer b) (initramfsSize b) else 0.

Lemma span_nonneg pa size : 0 <= pa -> 0 <= size -> pa + size <= 2 ^ 52 -> 0 <= span pa size /\ 0 <= span pa size / 4096.
Proof.
  change (2 ^ 52) with 4503599627370496. intros H1 H2 H3. unfold span.
  destruct (PAGE_ALIGN_UP_spec (pa + size)) as [_ P]; [change (2 ^ 64) with 18446744073709551616; lia|].
  assert (H : 0 <= Paging.PAGE_ALIGN_UP (pa + size) - (pa - pa mod 4096)) by dlia. split; [exact H|by apply Z.div_pos].
Qed.

Lemma initramfsSpan_nonneg b : 0 <= initramfsPointer b < 2 ^ 32 -> 0 <= initramfsSize b < 2 ^ 32 ->
  0 <= initramfsSpan b /\ 0 <= initramfsSpan b / 4096.
Proof.
  change (2 ^ 32) with 4294967296. intros H1 H2. unfold initramfsSpan. destruct (0 <? initramfsSize b); [|done].
  apply span_nonneg; change (2 ^ 52) with 4503599627370496; lia.
Qed.

Lemma mapInitramfs_boot low lo hi v k b :
  booting low lo hi v k -> 0 <= initramfsPointer b < 2 ^ 32 -> 0 <= initramfsSize b < 2 ^ 32 -> v + initramfsSpan b <= hi ->
  3 * (initramfsSpan b / 4096) <= framesFree (blocks (Paging.physicalMemory (ps k))) ->
  exists b' k', mapInitramfs k b = Ok (k', b') /\ bootStep low lo hi v (v + initramfsSpan b) (3 * (initramfsSpan b / 4096)) k k' /\
    frameBuffer b' = frameBuffer b /\
    forall o, 0 <= o < initramfsSize b -> v <= initramfsPointer b' + o < v + initramfsSpan b /\
      translate (mem (ps k')) (cr3 (ps k')) (initramfsPointer b' + o) = Some (initramfsPointer b + o).
Proof.
  change (2 ^ 32) with 4294967296. intros Hb H1 H2 Hv Hf. unfold mapInitramfs, initramfsSpan in *.
  destruct (Z.ltb_spec 0 (initramfsSize b)) as [Hs|Hs].
  - destruct (mapAddress_boot low lo hi v k (initramfsPointer b) (initramfsSize b) true Hb) as (p & k1 & E & Hst & P1 & P2 & P3);
      [lia|lia|change (2 ^ 52) with 4503599627370496; lia|done|done|].
    rewrite E. cbn [obind]. eexists _, k1. split; [done|]. split; [done|]. split; [done|]. intros o Ho. split; [cbn; lia|by apply P3].
  - exists b, k. split; [done|]. rewrite Z.add_0_r. change (0 / 4096) with 0.
    split; [constructor; [done|lia|lia|done]|]. split; [done|lia].
Qed.

Lemma mapFrameBuffer_boot low lo hi v k b :
  let f := frameBuffer b in let n := u32 (pitch f * height f) in
  let nf := span (pointer f) n in let nb := Paging.PAGE_ALIGN_UP (n + 8) in
  booting low lo hi v k -> low <= v -> 0 <= pointer f -> pointer f + n <= 2 ^ 52 -> v + nf + nb <= hi ->
  3 * (nf / 4096) + 4 * (nb / 4096) <= framesFree (blocks (Paging.physicalMemory (ps k))) ->
  exists r, mapFrameBuffer k b = Ok r /\ kernel_ok lo hi (kernel r) /\ initramfsPointer (info r) = initramfsPointer b /\
    (forall va, low <= va < v -> translate (mem (ps (kernel r))) (cr3 (ps (kernel r))) va = translate (mem (ps k)) (cr3 (ps k)) va) /\
    (forall o, 0 <= o < n -> translate (mem (ps (kernel r))) (cr3 (ps (kernel r))) (pointer (frameBuffer (info r)) + o) = Some (pointer f + o)) /\
    forall o, 0 <= o < n -> exists a, translate (mem (ps (kernel r))) (cr3 (ps (kernel r))) (backBuffer r + o) = Some a /\
      1 <= freeCount (blocks (Paging.physicalMemory (ps k))) a.
Proof.
  intros f n nf nb Hb Hlow Hp0 Hp1 Hroom Hff. pose proof (u32_range (pitch f * height f)) as Hn. fold n in Hn. change (2 ^ 32) with 4294967296 in Hn.
  destruct (PAGE_ALIGN_UP_spec (n + 8)) as [_ Hnb]; [change (2 ^ 64) with 18446744073709551616; lia|]. fold nb in Hnb.
  assert (Hnb0 : 0 <= nb / 4096) by (apply Z.div_pos; lia).
  destruct (span_nonneg (pointer f) n Hp0 ltac:(lia) Hp1) as [Hnf Hnf0]. fold nf in Hnf, Hnf0.
  unfold mapFrameBuffer. fold f. fold n.
  destruct (mapAddress_boot low lo hi v k (pointer f) n false Hb) as (fp & k2 & E3 & [C1 C2 C3 C4] & P1 & P2 & P3);
    [done|lia|done|fold nf; lia|fold nf; lia|]. fold nf in C1, C2, C3, C4, P2. rewrite E3. cbn [obind].
  destruct (allocateMemory_boot low lo hi (v + nf) k2 n C1) as (k3 & E4 & [D1 D2 D3 D4] & Hback);
    [change (2 ^ 64) with 18446744073709551616; lia|fold nb; lia|fold nb; lia|]. fold nb in D1, D2, Hback.
  rewrite E4. cbn [obind]. eexists. split; [done|]. cbn [kernel info Kstart.backBuffer set_frameBuffer frameBuffer set_pointer pointer initramfsPointer].
  split; [apply D1|]. split; [done|]. split; [|split].
  - intros va Hva. by rewrite D4, C4 by lia.
  - intros o Ho. rewrite D4 by lia. by apply P3.
  - intros o Ho. destruct (Hback o ltac:(lia)) as (a & Ha & H1 & _). exists a. split; [exact Ha|]. specialize (C3 a). lia.
Qed.

(** ** The state kstart begins with *)

(** The kernel image is in the 2 MiB from 0x200000 on that [initPageTables]
    maps, and the four tables are pages of it. *)
Record layout (kernelPhysicalAddress kernelPhysicalEnd pml1 pml2 pml3 pml4 : Z) : Prop := {
  ly_start : 0x200000 <= kernelPhysicalAddress < kernelPhysicalEnd;
  ly_end : kernelPhysicalEnd <= 0x400000;
  ly_tables : forall t, t = pml1 \/ t = pml2 \/ t = pml3 \/ t = pml4 ->
    t mod 4096 = 0 /\ Mbi.PAGE_ALIGN_DOWN kernelPhysicalAddress <= t < kernelPhysicalEnd;
  ly_distinct : allDistinct pml1 pml2 pml3 pml4
}.

Definition low : Z := 0xFFFF800000200000.

Section Layout.
Context (kpa kpe pml1 pml2 pml3 pml4 : Z) (Hly : layout kpa kpe pml1 pml2 pml3 pml4).

Lemma heap_layout : kernelHeapStart kpe = 0xFFFF800000C00000 /\ kernelHeapEnd kpe = 0xFFFF800020C00000.
Proof.
  destruct Hly as [H1 H2 _ _].
  assert (H : kernelHeapStart kpe = 0xFFFF800000C00000) by (unfold kernelHeapStart, kernelVirtualOffset; dlia).
  split; [done|]. unfold kernelHeapEnd. by rewrite H.
Qed.

Lemma heap_layout_ok lo : lo = low \/ lo = kernelHeapStart kpe -> heap_ok lo (kernelHeapEnd kpe).
Proof.
  destruct heap_layout as [E1 E2]. rewrite E1, E2. intros Hlo.
  assert (H : lo = 0xFFFF800000200000 \/ lo = 0xFFFF800000C00000) by (unfold low in Hlo; lia). clear Hlo.
  constructor.
  - destruct H as [-> | ->]; (split; [lia|reflexivity]).
  - change (2 ^ 64) with 18446744073709551616. change (2 ^ 47) with 140737488355328. lia.
  - intros va Hva. unfold userAddress, index. change (2 ^ (12 + 9 * 3)) with 549755813888. destruct H; subst; dlia.
Qed.

Lemma kernel_layout : Mbi.kernel_wf kpa kpe.
Proof. destruct Hly as [H1 H2 _ _]. split; [lia|]. change (2 ^ 64) with 18446744073709551616. lia. Qed.

Lemma tables_layout t : t = pml1 \/ t = pml2 \/ t = pml3 \/ t = pml4 -> physicalTable t /\ inKernel kpa kpe t.
Proof.
  intros Ht. destruct (ly_tables _ _ _ _ _ _ Hly t Ht) as [H1 H2]. destruct Hly as [H3 H4 _ _].
  pose proof (PAGE_ALIGN_DOWN_nonneg kpa ltac:(lia)).
  pose proof (PAGE_ALIGN_UP_range kpe ltac:(lia) ltac:(change (2 ^ 64) with 18446744073709551616; lia)).
  split; [split; [change (2 ^ 52) with 4503599627370496; lia|done]|]. unfold inKernel. lia.
Qed.

Lemma initVirtualMemory_run c : exists vm, initVirtualMemory c (kernelHeapStart kpe) (kernelHeapEnd kpe) = Ok (c, vm) /\
  locked (bm_lock vm) = false /\ blocks vm = [mkBlock (kernelHeapStart kpe) (kernelHeapEnd kpe)].
Proof.
  destruct heap_layout as [E1 E2].
  destruct (addBlock_run c BlockMap_init (mkBlock (kernelHeapStart kpe) (kernelHeapEnd kpe)) eq_refl) as (bs & lk & Ea & L1 & _ & Lbs & _).
  - split; [constructor|cbn; unfold BLOCKMAP_SIZE; lia].
  - rewrite E1, E2. unfold wfBlock. cbn. change (2 ^ 64) with 18446744073709551616. lia.
  - unfold initVirtualMemory. rewrite Ea. eexists. split; [done|]. split; [done|]. cbn [blocks]. rewrite E1, E2 in *. vm_compute in Lbs |- *. exact Lbs.
Qed.

(** The memory map [parseMbi] leaves is what paging needs. *)
Lemma frames_boot Q pm :
  freeOnly Q pm -> framed pm -> forall tables cr3 c log, frames_ok (mkPState tables cr3 c pm log).
Proof.
  intros (F1 & [F2 F2'] & F3 & F4) Hf tables cr3 c log. constructor; cbn [Paging.physicalMemory]; [done| |done|done].
  unfold framed in Hf. rewrite Forall_forall in *. intros b Hb. destruct (Hf b Hb) as [H1 H2]. split; [by apply F2|done].
Qed.

Lemma boot_heap m tag b c vm tables :
  (forall t i, t = pml2 \/ t = pml3 \/ t = pml4 -> inRange i -> tables (t + 8 * i) = 0) ->
  freeOnly (bootFree kpa kpe m tag b) (Mbi.physicalMemory b) -> framed (Mbi.physicalMemory b) ->
  initVirtualMemory c (kernelHeapStart kpe) (kernelHeapEnd kpe) = Ok (c, vm) ->
  let t := initPageTables tables pml1 pml2 pml3 pml4 in
  let k := mkKState (mkPState (fst t) (snd t) c (Mbi.physicalMemory b) []) vm 1 [] in
  booting low (kernelHeapStart kpe) (kernelHeapEnd kpe) (kernelHeapStart kpe) k /\
  forall off, 0 <= off < 2 ^ 21 -> translate (mem (ps k)) (cr3 (ps k)) (low + off) = Some (0x200000 + off).
Proof.
  intros Hz Hfree Hfr Ev t k. pose proof Hfree as (F1 & F2 & F3 & F4). destruct heap_layout as [E1 E2].
  assert (Hused : forall a, inKernel kpa kpe a \/ 0 <= a < 0x100000 -> freeCount (blocks (Mbi.physicalMemory b)) a = 0).
  { intros a Ha. pose proof (freeCount_nonneg (blocks (Mbi.physicalMemory b)) a). specialize (F3 a).
    destruct (decide (freeCount (blocks (Mbi.physicalMemory b)) a = 1)) as [H1|]; [|lia].
    destruct (F4 a H1) as [(_ & N1 & N2) _]. tauto. }
  destruct (initPageTables_correct tables pml1 pml2 pml3 pml4 c (Mbi.physicalMemory b)) as (T1 & _ & T3);
    try (apply tables_layout; tauto); [by destruct Hly|exact Hz| |by eapply frames_boot|].
  { intros x Hx. apply Hused. left. by apply tables_layout. }
  destruct (initVirtualMemory_run c) as (vm' & Ev' & V1 & V2). rewrite Ev in Ev'. injection Ev' as <-.
  split; [|exact T3]. constructor; [|split; [rewrite E1; unfold low; lia|apply heap_layout_ok; by left]|exact V2].
  constructor; [exact T1|apply Hused; right; lia|exact V1|apply heap_layout_ok; by right| | |]; cbn [virtualMemory k]; rewrite V2, E1, E2.
  - apply Forall_singleton. split; [unfold wfBlock; cbn; change (2 ^ 64) with 18446744073709551616; lia|].
    split; cbn; [split; [lia|reflexivity]|lia].
  - cbn. unfold BLOCKMAP_SIZE. lia.
  - intros a. cbn. pose proof (cov_range (mkBlock 0xFFFF800000C00000 0xFFFF800020C00000) a). lia.
Qed.
End Layout.

(** ** Properties *)

(** [C11] Boot establishes the kernel's memory: from a boot loader's information
    with one well-formed memory map, a kernel image inside the window
    [initPageTables] maps, and enough frames and heap for the mappings,
    [kstart] reaches the end of [initFrameBuffer] in a state with all the
    invariants of paging and of the heap. The kernel is still mapped, the
    initial RAM file system and the frame buffer can be read byte for byte at
    their new addresses, and the back buffer lies in frames that were free:
    available memory that is neither the kernel, nor the file system, nor below
    1 MiB. *)
Theorem kstart_memory kpa kpe pml1 pml2 pml3 pml4 m tag l fuel c tables mbiPointer b :
  layout kpa kpe pml1 pml2 pml3 pml4 ->
  (forall t i, t = pml2 \/ t = pml3 \/ t = pml4 -> inRange i -> tables (t + 8 * i) = 0) ->
  isBytes m -> memoryMap_wf m tag -> entriesBelow m tag -> tagsAt m (mbiPointer + 8) l -> memoryTags m l = [tag] -> (List.length l <= fuel)%nat ->
  Mbi.physicalMemory b = BlockMap_init -> 0 <= initramfsPointer b < 2 ^ 32 -> 0 <= initramfsSize b < 2 ^ 32 ->
  exists b1, parseMbi kpa kpe fuel c m mbiPointer b = Ok (c, b1) /\
    let f := frameBuffer b1 in let n := u32 (pitch f * height f) in
    let ni := initramfsSpan b1 in let nf := span (pointer f) n in let nb := Paging.PAGE_ALIGN_UP (n + 8) in
    (0 <= pointer f -> pointer f + n <= 2 ^ 52 -> ni + nf + nb <= kernelHeapSize ->
     3 * (ni / 4096) + 3 * (nf / 4096) + 4 * (nb / 4096) <= framesFree (blocks (Mbi.physicalMemory b1)) ->
     exists r, kstartMemory kpa kpe pml1 pml2 pml3 pml4 fuel c m tables mbiPointer b = Ok r /\
       let tr va := translate (mem (ps (kernel r))) (cr3 (ps (kernel r))) va in
       kernel_ok (kernelHeapStart kpe) (kernelHeapEnd kpe) (kernel r) /\
       (forall off, 0 <= off < 2 ^ 21 -> tr (low + off) = Some (0x200000 + off)) /\
       (forall o, 0 <= o < initramfsSize b1 -> tr (initramfsPointer (info r) + o) = Some (initramfsPointer b1 + o)) /\
       (forall o, 0 <= o < n -> tr (pointer (frameBuffer (info r)) + o) = Some (pointer f + o)) /\
       (forall o, 0 <= o < n -> exists a, tr (backBuffer r + o) = Some a /\ bootFree kpa kpe m tag b1 a)).
Proof.
  intros Hly Hz Hm Hw Hbel Htags Hmem Hf Hb Hi1 Hi2.
  destruct (parseMbi_run kpa kpe m tag l fuel c mbiPointer b (kernel_layout _ _ _ _ _ _ Hly) Hm Hw Htags Hmem Hf Hb Hi1 Hi2)
    as (b1 & E1 & Hfree & Hi1' & Hi2').
  exists b1. split; [exact E1|]. intros f n ni nf nb Hp0 Hp1 Hroom Hff.
  assert (Hfr : framed (Mbi.physicalMemory b1)).
  { eapply (parseMbi_framed kpa kpe m tag l); [|done|done|done|exact Htags|done|exact Hi1|exact Hi2|exact E1|rewrite Hb; constructor].
    destruct Hly. change (2 ^ 52) with 4503599627370496. lia. }
  destruct (heap_layout _ _ _ _ _ _ Hly) as [L1 L2].
  destruct (initVirtualMemory_run kpa kpe pml1 pml2 pml3 pml4 Hly c) as (vm & Ev & _).
  destruct (boot_heap kpa kpe pml1 pml2 pml3 pml4 Hly m tag b1 c vm tables Hz Hfree Hfr Ev) as [Hk0 Hwin].
  unfold kstartMemory. rewrite Ev. cbn [obind]. rewrite E1. cbn [obind].
  destruct (initPageTables tables pml1 pml2 pml3 pml4) as [tables' cr3'] eqn:Et. cbn [fst snd] in Hk0, Hwin.
  set (k0 := mkKState _ vm 1 []) in *. set (lo := kernelHeapStart kpe) in *. set (hi := kernelHeapEnd kpe) in *.
  assert (Hheap : lo + (ni + nf + nb) <= hi) by (unfold lo, hi, kernelHeapEnd; lia).
  assert (Hlo : low + 2097152 <= lo) by (rewrite L1; unfold low; lia).
  pose proof (u32_range (pitch f * height f)) as Hn. fold n in Hn. change (2 ^ 32) with 4294967296 in Hn.
  destruct (initramfsSpan_nonneg b1 Hi1' Hi2') as [Hni Hni0]. fold ni in Hni, Hni0.
  destruct (span_nonneg (pointer f) n Hp0 ltac:(lia) Hp1) as [Hnf Hnf0]. fold nf in Hnf, Hnf0.
  destruct (PAGE_ALIGN_UP_spec (n + 8)) as [_ Hnb]; [change (2 ^ 64) with 18446744073709551616; lia|]. fold nb in Hnb.
  assert (Hnb0 : 0 <= nb / 4096) by (apply Z.div_pos; lia).
  destruct (mapInitramfs_boot low lo hi lo k0 b1 Hk0 Hi1' Hi2') as (ip & k1 & E2 & [B1 B2 B3 B4] & Eip & Hip);
    [fold ni; lia|fold ni; cbn [k0 ps Paging.physicalMemory]; lia|]. fold ni in B1, B2, Hip. cbn [k0 ps Paging.physicalMemory] in B2, B3.
  destruct (mapFrameBuffer_boot low lo hi (lo + ni) k1 ip) as (r & E3 & Hok & Er & C4 & C5 & C6);
    rewrite ?Eip in *; [exact B1|lia|done|done|fold f n nf nb; lia|fold f n nf nb; lia|]. fold f n in C5, C6.
  rewrite E2. cbn [obind]. exists r. split; [exact E3|]. cbv zeta. split; [exact Hok|]. split; [|split; [|split; [exact C5|]]].
  - intros off Hoff. change (2 ^ 21) with 2097152 in *. rewrite C4, B4 by lia. by apply Hwin.
  - intros o Ho. destruct (Hip o Ho) as [Hin Htr]. rewrite Er, C4 by lia. exact Htr.
  - intros o Ho. destruct (C6 o Ho) as (a & Ha & Hone). exists a. split; [exact Ha|].
    destruct Hfree as (_ & _ & F3 & F4). apply F4. specialize (B3 a). specialize (F3 a). lia.
Qed.

(** The memory map, kernel and module of [Mbi]'s example, and a frame buffer. *)
Definition someBoot : BootInfo := mkBootInfo BlockMap_init (mkFrameBuffer 0xFD000000 64 16 256 32) 0 0 (replicate 36 0).

Lemma kstart_memory_witness :
  exists r, kstartMemory 0x200000 0x250123 0x201000 0x202000 0x203000 0x204000 2 (mkCpu 512 0) mbiMemory (fun _ => 0) 1000 someBoot = Ok r /\
    translate (mem (ps (kernel r))) (cr3 (ps (kernel r))) (initramfsPointer (info r) + 0x1234) = Some 0x301234.
Proof.
  destruct (kstart_memory 0x200000 0x250123 0x201000 0x202000 0x203000 0x204000 mbiMemory 1008 [1008; 1048] 2 (mkCpu 512 0) (fun _ => 0) 1000 someBoot)
    as (b1 & E & H).
  - constructor; [lia|lia| |unfold allDistinct; lia]. intros t Ht. split.
    + destruct Ht as [->|[->|[->| ->]]]; reflexivity.
    + change (Mbi.PAGE_ALIGN_DOWN 0x200000) with 0x200000. lia.
  - done.
  - exact mbiMemory_bytes.
  - exact mbiMemory_map.
  - assert (Hn : Z.of_nat (numEntries mbiMemory 1008) = 1) by (vm_compute; reflexivity).
    intros i Hi _. rewrite Hn in Hi. assert (i = 0) as -> by lia. vm_compute. discriminate.
  - repeat split; try (vm_compute; discriminate); vm_compute; reflexivity.
  - vm_compute. reflexivity.
  - cbn. lia.
  - reflexivity.
  - cbn. lia.
  - cbn. lia.
  - assert (Ho : observe (parseMbi 0x200000 0x250123 2 (mkCpu 512 0) mbiMemory 1000 someBoot)
      (fun x => (initramfsPointer (snd x), initramfsSize (snd x), frameBuffer (snd x), framesFree (blocks (Mbi.physicalMemory (snd x)))))
      = Some (0x300000, 0x1800, mkFrameBuffer 0xFD000000 64 16 256 32, 16301)) by (vm_compute; reflexivity).
    rewrite E in Ho. cbn [observe snd] in Ho. injection Ho as Hp Hs Hf Hfr. unfold initramfsSpan in H. rewrite Hp, Hs, Hf, Hfr in H.
    destruct H as (r & Er & _ & _ & Hi & _); [vm_compute; discriminate|vm_compute; discriminate|vm_compute; discriminate|vm_compute; discriminate|].
    exists r. split; [exact Er|]. cbv beta zeta in Hi. rewrite (Hi 0x1234) by lia. reflexivity.
Defined.
